(** * A shallow embedding of the church-management REST backend

    The development follows the server code: the JavaScript values that
    travel in request bodies, the [Date] arithmetic of the reporting
    queries, the storage helpers over an in-memory image of the
    PostgreSQL tables declared in [schema.ts], the Express middleware and
    the controllers.  Handlers are written in a small state-and-exception
    monad whose state is the database together with a trace of the calls
    made to the storage helpers and to the remote asset store. *)

From Stdlib Require Import ZArith QArith Qround Qabs Qpower Qfield Lia Lqa Ascii String.
From Stdlib Require Import SpecFloat.
From stdpp Require Import base option list strings gmap.

Local Open Scope string_scope.
Local Open Scope Z_scope.

(** ** JavaScript values *)

(** The values found in a parsed JSON body and in a row returned by the
    driver.  A number in a body or a row is the exact rational its
    numeral denotes; where the code computes with numbers (the growth
    percentages, the offset of a page) the arithmetic is that of
    binary64, in the module [Number] below.  [JDate] carries the time
    value of a [Date] in
    milliseconds of server-local time; [JObject] stands for any array or
    object, of which the code only ever tests the truthiness.  A missing
    property ([undefined]) is [None] in an [option jval]. *)
Inductive jval : Type :=
  | JNull
  | JBool (b : bool)
  | JNum (q : Q)
  | JStr (s : string)
  | JDate (t : Z)
  | JObject.

(** [!!v] of the language: the falsy values are [undefined], [null],
    [false], [0] and the empty string. *)
Definition truthy (v : option jval) : bool :=
  match v with
  | None | Some JNull => false
  | Some (JBool b) => b
  | Some (JNum q) => negb (Qeq_bool q 0)
  | Some (JStr s) => negb (String.eqb s EmptyString)
  | Some (JDate _) | Some JObject => true
  end.

(** [v === "lit"] for a string literal. *)
Definition is_str (v : option jval) (lit : string) : bool :=
  match v with
  | Some (JStr s) => String.eqb s lit
  | _ => false
  end.

(** [v !== undefined]: the test of the allow-list loops. *)
Definition defined (v : option jval) : bool :=
  match v with Some _ => true | None => false end.

(** ** Numbers: [parseInt], [parseFloat], [Math.round] *)

Inductive jsnum : Type :=
  | NaN
  | Inf (negative : bool)
  | Fin (q : Q).

(** [x > 0] on numbers; every comparison with [NaN] is false. *)
Definition num_gt0 (x : jsnum) : bool :=
  match x with
  | NaN => false
  | Inf negative => negb negative
  | Fin q => negb (Qle_bool q 0)
  end.

(** [x <= 0], false on [NaN] as well. *)
Definition num_le0 (x : jsnum) : bool :=
  match x with
  | NaN => false
  | Inf negative => negative
  | Fin q => Qle_bool q 0
  end.

(** [Math.round]: the nearest integer, a tie going towards plus
    infinity. *)
Definition Math_round (q : Q) : Z := Qfloor (q + (1 # 2))%Q.
Arguments Math_round : simpl never.

Definition is_space (c : ascii) : bool :=
  let n := nat_of_ascii c in
  (n =? 32)%nat || ((9 <=? n)%nat && (n <=? 13)%nat).

Fixpoint trim_start (s : string) : string :=
  match s with
  | String c s' => if is_space c then trim_start s' else s
  | EmptyString => s
  end.

Definition digit_of (c : ascii) : option Z :=
  let n := Z.of_nat (nat_of_ascii c) in
  if (48 <=? n) && (n <=? 57) then Some (n - 48) else None.

Definition hex_digit_of (c : ascii) : option Z :=
  let n := Z.of_nat (nat_of_ascii c) in
  if (48 <=? n) && (n <=? 57) then Some (n - 48)
  else if (97 <=? n) && (n <=? 102) then Some (n - 87)
  else if (65 <=? n) && (n <=? 70) then Some (n - 55)
  else None.

(** Reads the longest run of digits at the head of [s]: the value read
    so far, the number of digits read, and the rest of the string. *)
Fixpoint scan_digits (digit : ascii -> option Z) (radix : Z)
    (acc : Z) (count : nat) (s : string) : Z * nat * string :=
  match s with
  | String c s' =>
      match digit c with
      | Some d => scan_digits digit radix (radix * acc + d) (S count) s'
      | None => (acc, count, s)
      end
  | EmptyString => (acc, count, s)
  end.

(** Splits an optional sign off the head of the string. *)
Definition scan_sign (s : string) : bool * string :=
  match s with
  | String "-" s' => (true, s')
  | String "+" s' => (false, s')
  | _ => (false, s)
  end.

(** [parseInt(s)] with no radix: leading white space and a sign are
    skipped, a [0x] prefix selects base sixteen, and the longest run of
    digits is read; [None] is [NaN].  The result is the integer read;
    the number the code holds is the binary64 nearest to it,
    [Number.of_Z] of it, which the storage helpers take where they
    compute with it. *)
Definition parseInt (s : string) : option Z :=
  let '(negative, s1) := scan_sign (trim_start s) in
  let '(v, count, _) :=
    match s1 with
    | String "0" (String "x" s2) | String "0" (String "X" s2) =>
        scan_digits hex_digit_of 16 0 0%nat s2
    | _ => scan_digits digit_of 10 0 0%nat s1
    end in
  match count with
  | O => None
  | S _ => Some (if negative then - v else v)
  end.

(** [parseInt(x) || dflt], the idiom of every listing handler: [NaN] and
    [0] are falsy; an absent query parameter parses to [NaN]. *)
Definition parseInt_or (x : option string) (dflt : Z) : Z :=
  match x ≫= parseInt with
  | Some n => if n =? 0 then dflt else n
  | None => dflt
  end.

(** [(x as string) || dflt]. *)
Definition string_or (x : option string) (dflt : string) : string :=
  match x with
  | Some s => if String.eqb s EmptyString then dflt else s
  | None => dflt
  end.

Definition pow10 (e : Z) : Q :=
  if 0 <=? e then inject_Z (10 ^ e) else / inject_Z (10 ^ (- e)).

(** The exponent part of a decimal literal; it only counts when at least
    one digit follows the [e]. *)
Definition scan_exponent (s : string) : Z * string :=
  match s with
  | String "e" s1 | String "E" s1 =>
      let '(negative, s2) := scan_sign s1 in
      let '(v, count, rest) := scan_digits digit_of 10 0 0%nat s2 in
      match count with
      | O => (0, s)
      | S _ => (if negative then - v else v, rest)
      end
  | _ => (0, s)
  end.

(** The decimal literal at the head of [s] (after the sign): integer
    digits, an optional fraction, an optional exponent.  [None] when no
    digit is found. *)
Definition scan_decimal (s : string) : option (Q * string) :=
  let '(ip, ni, s1) := scan_digits digit_of 10 0 0%nat s in
  let '(fp, nf, s2) :=
    match s1 with
    | String "." s' => scan_digits digit_of 10 0 0%nat s'
    | _ => (0, O, s1)
    end in
  match ni, nf with
  | O, O => None
  | _, _ =>
      let '(e, rest) := scan_exponent s2 in
      Some ((inject_Z ip + inject_Z fp * pow10 (- Z.of_nat nf)) * pow10 e, rest)%Q
  end.

Definition starts_with (p s : string) : bool :=
  String.eqb (String.substring 0 (String.length p) s) p.

(** [parseFloat(s)]: the longest prefix of the trimmed string that is a
    decimal literal, [NaN] when there is none. *)
Definition parseFloat (s : string) : jsnum :=
  let '(negative, s1) := scan_sign (trim_start s) in
  if starts_with "Infinity" s1 then Inf negative
  else match scan_decimal s1 with
       | Some (q, _) => Fin (if negative then - q else q)%Q
       | None => NaN
       end.

(** ** Dates in server-local time *)

(** A [Date] is its time value: milliseconds counted in server-local
    civil time (a fixed offset from UTC, so that the local-time setters
    are the abstract operations of the language standard applied to the
    value itself).  The calendar conversions are the usual era-based
    ones of the proleptic Gregorian calendar. *)
Module JSDate.

Definition msPerDay : Z := 86400000.

Definition Day (t : Z) : Z := t / msPerDay.
Definition TimeWithinDay (t : Z) : Z := t mod msPerDay.

(** Day number of the civil date [y]-[m]-[d], [m] in 1..12; day 0 is
    1970-01-01. *)
Definition days_from_civil (y m d : Z) : Z :=
  let y' := if m <=? 2 then y - 1 else y in
  let era := y' / 400 in
  let yoe := y' - era * 400 in
  let mp := if 2 <? m then m - 3 else m + 9 in
  let doy := (153 * mp + 2) / 5 + d - 1 in
  let doe := yoe * 365 + yoe / 4 - yoe / 100 + doy in
  era * 146097 + doe - 719468.

(** The civil date (year, month 1..12, day) of a day number. *)
Definition civil_from_days (z : Z) : Z * Z * Z :=
  let z' := z + 719468 in
  let era := z' / 146097 in
  let doe := z' - era * 146097 in
  let yoe := (doe - doe / 1460 + doe / 36524 - doe / 146096) / 365 in
  let doy := doe - (365 * yoe + yoe / 4 - yoe / 100) in
  let mp := (5 * doy + 2) / 153 in
  let d := doy - (153 * mp + 2) / 5 + 1 in
  let m := if mp <? 10 then mp + 3 else mp - 9 in
  (if m <=? 2 then yoe + era * 400 + 1 else yoe + era * 400, m, d).

Definition getFullYear (t : Z) : Z := (civil_from_days (Day t)).1.1.
(** Months count from 0, as in the language. *)
Definition getMonth (t : Z) : Z := (civil_from_days (Day t)).1.2 - 1.
Definition getDate (t : Z) : Z := (civil_from_days (Day t)).2.

(** [MakeDay(year, month, date)]: the month may lie outside 0..11 and
    the date outside the month; both carry over. *)
Definition MakeDay (year month date : Z) : Z :=
  days_from_civil (year + month / 12) (month mod 12 + 1) 1 + date - 1.

Definition MakeDate (day time : Z) : Z := day * msPerDay + time.

(** [new Date(year, month, date)]: local midnight. *)
Definition make (year month date : Z) : Z :=
  MakeDate (MakeDay year month date) 0.

Definition setMonth (t month : Z) : Z :=
  MakeDate (MakeDay (getFullYear t) month (getDate t)) (TimeWithinDay t).

Definition setDate (t date : Z) : Z :=
  MakeDate (MakeDay (getFullYear t) (getMonth t) date) (TimeWithinDay t).

(** The day of the week, Sunday being 0. *)
Definition getDay (t : Z) : Z := (Day t + 4) mod 7.

(** [setHours(0, 0, 0, 0)]. *)
Definition setHours0 (t : Z) : Z := MakeDate (Day t) 0.

(** A literal local date and time of day, for examples. *)
Definition at_ (y m d hh mm : Z) : Z :=
  MakeDate (days_from_civil y m d) ((hh * 60 + mm) * 60000).

End JSDate.

Arguments JSDate.getFullYear : simpl never.
Arguments JSDate.getMonth : simpl never.
Arguments JSDate.getDate : simpl never.
Arguments JSDate.getDay : simpl never.
Arguments JSDate.make : simpl never.
Arguments JSDate.setMonth : simpl never.
Arguments JSDate.setDate : simpl never.
Arguments JSDate.setHours0 : simpl never.

(** ** Printing values into template strings *)

Fixpoint upper (s : string) : string :=
  match s with
  | String c s' =>
      let n := nat_of_ascii c in
      String (if (97 <=? n)%nat && (n <=? 122)%nat then ascii_of_nat (n - 32) else c)
             (upper s')
  | EmptyString => EmptyString
  end.

Definition show_digit (d : Z) : string :=
  String (ascii_of_nat (48 + Z.to_nat d)) EmptyString.

Fixpoint show_nat_digits (fuel : nat) (n : Z) (acc : string) : string :=
  match fuel with
  | O => acc
  | S fuel' =>
      let acc' := show_digit (n mod 10) +:+ acc in
      if n / 10 =? 0 then acc' else show_nat_digits fuel' (n / 10) acc'
  end.

(** An integer in decimal, as [String(n)] prints it. *)
Definition show_int (n : Z) : string :=
  let digits := show_nat_digits (S (Z.to_nat (Z.log2 (Z.abs n)))) (Z.abs n) EmptyString in
  if n <? 0 then "-" +:+ digits else digits.

(** The digits after the decimal point of [num / den], [0 <= num < den],
    for a fraction whose expansion ends (every number read from JSON). *)
Fixpoint show_fraction (fuel : nat) (num den : Z) : string :=
  match fuel with
  | O => EmptyString
  | S fuel' =>
      if num =? 0 then EmptyString
      else show_digit (10 * num / den) +:+ show_fraction fuel' ((10 * num) mod den) den
  end.

Definition show_num (q : Q) : string :=
  let n := Qnum q in
  let d := Z.pos (Qden q) in
  let ip := Z.abs n / d in
  let fp := Z.abs n mod d in
  (if n <? 0 then "-" else EmptyString) +:+ show_int ip +:+
  (if fp =? 0 then EmptyString else "." +:+ show_fraction 40 fp d).

(** [`${v}`]: the string a value contributes to a template literal.  A
    date is shown by its time value. *)
Definition text_of (v : option jval) : string :=
  match v with
  | None => "undefined"
  | Some JNull => "null"
  | Some (JBool true) => "true"
  | Some (JBool false) => "false"
  | Some (JNum q) => show_num q
  | Some (JStr s) => s
  | Some (JDate t) => show_int t
  | Some JObject => "[object Object]"
  end.

(** ** The database *)

(** A row maps the column names of [schema.ts] (the property names of
    the driver's row objects) to values, the [id] column included; a
    missing column is SQL NULL. *)
Abbreviation row := (gmap string jval).
(** ** Binary64 numbers *)

(** The numbers of the language, on the standard library's
    specification of IEEE 754 arithmetic ([SpecFloat]): 53 bits of
    precision, rounding to nearest, ties to even. *)
Module Number.

Definition prec : Z := 53.
Definition emax : Z := 1024.

Definition zero : spec_float := S754_zero false.

(** An integer as it stands, before any rounding. *)
Definition exact (n : Z) : spec_float :=
  match n with
  | Z0 => S754_zero false
  | Zpos p => S754_finite false p 0
  | Zneg p => S754_finite true p 0
  end.

(** The number nearest to an integer: the integer itself up to
    [2 ^ 53], an infinity from [2 ^ 1024] on. *)
Definition of_Z (n : Z) : spec_float := binary_normalize prec emax n 0 false.

(** The number nearest to a fraction, which is what reading a decimal
    numeral with [parseFloat] gives. *)
Definition of_Q (q : Q) : spec_float :=
  let r := Qred q in
  SFdiv prec emax (exact (Qnum r)) (exact (Zpos (Qden r))).

(** [x - y], [x * y] and [x / y]. *)
Definition sub : spec_float -> spec_float -> spec_float := SFsub prec emax.
Definition mul : spec_float -> spec_float -> spec_float := SFmul prec emax.
Definition div : spec_float -> spec_float -> spec_float := SFdiv prec emax.

(** [x === y], [x < y] and [x <= y]. *)
Definition eqb : spec_float -> spec_float -> bool := SFeqb.
Definition ltb : spec_float -> spec_float -> bool := SFltb.
Definition leb : spec_float -> spec_float -> bool := SFleb.

(** The real a finite number stands for. *)
Definition value (x : spec_float) : Q :=
  match x with
  | S754_finite s m e => ((if s then -1 else 1) * inject_Z (Zpos m) * 2 ^ e)%Q
  | _ => 0%Q
  end.

(** [Math.round(x)]. *)
Definition round (x : spec_float) : jsnum :=
  match x with
  | S754_nan => NaN
  | S754_infinity s => Inf s
  | _ => Fin (inject_Z (Math_round (value x)))
  end.

(** [!!x]: zero and [NaN] are falsy. *)
Definition truthy (x : spec_float) : bool :=
  match x with
  | S754_zero _ | S754_nan => false
  | _ => true
  end.

(** The integer a number is, when it is one. *)
Definition to_Z (x : spec_float) : option Z :=
  match x with
  | S754_zero _ => Some 0
  | S754_finite s m e =>
      if 0 <=? e then Some (cond_Zopp s (Zpos m * 2 ^ e))
      else if Zpos m mod 2 ^ (- e) =? 0 then Some (cond_Zopp s (Zpos m / 2 ^ (- e)))
      else None
  | _ => None
  end.

End Number.

(** *** The vocabulary of the rounding lemmas *)

(** The real [x] lies where the mantissa [m] and the location [l] of a
    truncated result say: at [m], or in the lower half, the middle or
    the upper half of the interval from [m] to [m + 1]. *)
Definition located (m : Z) (l : location) (x : Q) : Prop :=
  match l with
  | loc_Exact => (x == inject_Z m)%Q
  | loc_Inexact Lt => (inject_Z m < x /\ x < inject_Z m + (1 # 2))%Q
  | loc_Inexact Eq => (x == inject_Z m + (1 # 2))%Q
  | loc_Inexact Gt => (inject_Z m + (1 # 2) < x /\ x < inject_Z m + 1)%Q
  end.

(** The floats the arithmetic below stays in: zero, or 53 digits with an
    exponent in range. *)
Definition normal (x : spec_float) : Prop :=
  match x with
  | S754_zero _ => True
  | S754_finite _ m e => Zdigits2 (Zpos m) = 53%Z /\ (-1074 <= e <= 971)%Z
  | _ => False
  end.

(** A real neither so small nor so large that its rounding leaves the
    normal range. *)
Definition in_range (q : Q) : Prop :=
  (q == 0 \/ (2 ^ (-1000) <= Qabs q /\ Qabs q < 2 ^ 1000))%Q.

(** [x] is [q] rounded: a normal float within a relative error of
    [2 ^ -53]. *)
Definition rounds_to (q : Q) (x : spec_float) : Prop :=
  normal x /\ (Qabs (Number.value x - q) <= 2 ^ (-53) * Qabs q)%Q.

(** The sign bit as a factor. *)
Definition sgn (s : bool) : Q := if s then (-1)%Q else 1%Q.


(** A table: its rows in insertion order, and the next value of the
    [serial] sequence behind the [id] column.  Constraints (NOT NULL,
    UNIQUE, keys) and the conversion PostgreSQL applies to a value of
    another type than the column's are outside this image; what the
    claims depend on is stated as a hypothesis where it is used. *)
Record table : Type := Table {
  rows : list row;
  serial : Z
}.

Record database : Type := Database {
  users : table;
  contacts : table;
  donations : table;
  media : table;
  events : table;
  sermons : table;
  activities : table
}.

(** The tables, as first-class names for the generic helpers. *)
Inductive relation_name : Type :=
  | Users | Contacts | Donations | Media | Events | Sermons | Activities.

#[global] Instance relation_name_eq_dec : EqDecision relation_name.
Proof. solve_decision. Defined.

Definition get_table (n : relation_name) (d : database) : table :=
  match n with
  | Users => users d
  | Contacts => contacts d
  | Donations => donations d
  | Media => media d
  | Events => events d
  | Sermons => sermons d
  | Activities => activities d
  end.

Definition set_table (n : relation_name) (t : table) (d : database) : database :=
  match n with
  | Users => Database t (contacts d) (donations d) (media d) (events d) (sermons d) (activities d)
  | Contacts => Database (users d) t (donations d) (media d) (events d) (sermons d) (activities d)
  | Donations => Database (users d) (contacts d) t (media d) (events d) (sermons d) (activities d)
  | Media => Database (users d) (contacts d) (donations d) t (events d) (sermons d) (activities d)
  | Events => Database (users d) (contacts d) (donations d) (media d) t (sermons d) (activities d)
  | Sermons => Database (users d) (contacts d) (donations d) (media d) (events d) t (activities d)
  | Activities => Database (users d) (contacts d) (donations d) (media d) (events d) (sermons d) t
  end.

(** The columns of each table, by the property names of [schema.ts]. *)
Definition columns (n : relation_name) : list string :=
  match n with
  | Users => ["id"; "name"; "email"; "password"; "role"; "status";
              "notificationOptIn"; "profilePictureUrl"; "createdAt"]
  | Contacts => ["id"; "name"; "email"; "message"; "status";
                 "responseMessage"; "responseDate"; "createdAt"]
  | Donations => ["id"; "userId"; "amount"; "paymentMethod"; "transactionId";
                  "qrImageUrl"; "esewaReference"; "status"; "createdAt"]
  | Media => ["id"; "cloudinaryUrl"; "cloudinaryPublicId"; "type"; "title";
              "description"; "uploadedBy"; "createdAt"]
  | Events => ["id"; "title"; "description"; "date"; "mediaId"; "createdAt"]
  | Sermons => ["id"; "title"; "description"; "date"; "mediaId"; "duration";
                "createdAt"]
  | Activities => ["id"; "userId"; "action"; "details"; "createdAt"]
  end.

(** The part of an insert or update object that the driver writes: the
    properties naming a column of the table. *)
Definition set_columns (n : relation_name) (data : row) : row :=
  filter (λ kv, kv.1 ∈ columns n) data.

Definition int (n : Z) : jval := JNum (inject_Z n).

(** A number in a JSON document: [NaN] and the infinities are written
    [null]. *)
Definition number (x : jsnum) : jval :=
  match x with
  | Fin q => JNum q
  | _ => JNull
  end.

(** [eq(table.col, n)] for an integer. *)
Definition is_int (v : option jval) (n : Z) : bool :=
  match v with
  | Some (JNum q) => Qeq_bool q (inject_Z n)
  | _ => false
  end.

Definition has_id (id : Z) (r : row) : bool := is_int (r !! "id") id.

(** [findFirst({ where: eq(table.id, id) })]. *)
Definition find_by_id (id : Z) (l : list row) : option row :=
  List.find (has_id id) l.

(** Writes a property that may be NULL, which leaves the column out. *)
Definition set_opt (k : string) (v : option jval) (r : row) : row :=
  match v with
  | Some x => <[k := x]> r
  | None => delete k r
  end.

(** [insert(table).values(values).returning()]: the column defaults of
    the schema fill what [values] leaves out, the [id] first. *)
Definition insert_row (n : relation_name) (defaults values : row)
    (d : database) : row * database :=
  let t := get_table n d in
  let r := set_columns n values ∪ <["id" := int (serial t)]> defaults in
  let serial' := if defined (values !! "id") then serial t else serial t + 1 in
  (r, set_table n (Table (rows t ++ [r]) serial') d).

(** [update(table).set(data).where(eq(table.id, id)).returning()]: the
    rows after the update.  With no column to set there is no statement
    to run and the driver throws. *)
Definition update_rows (n : relation_name) (id : Z) (data : row)
    (d : database) : option (list row * database) :=
  let t := get_table n d in
  let changes := set_columns n data in
  if decide (dom changes = ∅) then None
  else
    let rows' := (λ r, if has_id id r then changes ∪ r else r) <$> rows t in
    Some ((λ r, changes ∪ r) <$> List.filter (has_id id) (rows t),
          set_table n (Table rows' (serial t)) d).

(** [delete(table).where(eq(table.id, id))]. *)
Definition delete_rows (n : relation_name) (id : Z) (d : database) : database :=
  let t := get_table n d in
  set_table n (Table (List.filter (λ r, negb (has_id id r)) (rows t)) (serial t)) d.

(** *** Conditions, ordering and paging of the queries *)

(** The bytes [10xxxxxx] that continue a character in UTF-8. *)
Definition is_continuation (c : ascii) : bool :=
  let n := nat_of_ascii c in (128 <=? n)%nat && (n <? 192)%nat.

Fixpoint skip_continuation (t : string) : string :=
  match t with
  | String c t' => if is_continuation c then skip_continuation t' else t
  | EmptyString => t
  end.

(** SQL [LIKE]: [%] matches any run of characters, [_] any single one,
    and a backslash makes the character after it stand for itself. *)
Fixpoint like_match (pattern text : string) {struct pattern} : bool :=
  match pattern with
  | EmptyString => String.eqb text EmptyString
  | String "%" p' =>
      (fix any (t : string) : bool :=
         like_match p' t ||
         match t with
         | String _ t' => any t'
         | EmptyString => false
         end) text
  | String "_" p' =>
      match text with
      | String _ t' => like_match p' (skip_continuation t')
      | EmptyString => false
      end
  | String "\" (String c p') =>
      match text with
      | String c' t' => Ascii.eqb c c' && like_match p' t'
      | EmptyString => false
      end
  | String c p' =>
      match text with
      | String c' t' => Ascii.eqb c c' && like_match p' t'
      | EmptyString => false
      end
  end.

(** [like(col, `%${search}%`)]; a NULL column matches nothing. *)
Definition like (v : option jval) (search : string) : bool :=
  match v with
  | Some (JStr s) => like_match ("%" +:+ search +:+ "%") s
  | _ => false
  end.

(** [gte(col, date)] and [lt(col, date)] on a timestamp column. *)
Definition gte (v : option jval) (date : Z) : bool :=
  match v with Some (JDate t) => date <=? t | _ => false end.

Definition lt (v : option jval) (date : Z) : bool :=
  match v with Some (JDate t) => t <? date | _ => false end.

(** The order of two values of a column under [ORDER BY col]: numbers
    and dates by value, text by code points, NULL last. *)
Definition col_le (a b : option jval) : bool :=
  match a, b with
  | Some (JNum x), Some (JNum y) => Qle_bool x y
  | Some (JDate x), Some (JDate y) => x <=? y
  | Some (JStr x), Some (JStr y) => (x <=? y)%string
  | Some JNull, _ | None, _ => match b with Some JNull | None => true | _ => false end
  | _, _ => true
  end.

Inductive ordering : Type :=
  | asc (column : string)
  | desc (column : string).

Definition comes_first (o : ordering) (a b : row) : bool :=
  match o with
  | asc c => col_le (a !! c) (b !! c)
  | desc c => col_le (b !! c) (a !! c)
  end.

Fixpoint insert_sorted (o : ordering) (x : row) (l : list row) : list row :=
  match l with
  | [] => [x]
  | y :: l' => if comes_first o x y then x :: l else y :: insert_sorted o x l'
  end.

(** [ORDER BY]: a stable sort. *)
Definition order_by (o : ordering) (l : list row) : list row :=
  foldr (insert_sorted o) [] l.

(** A number as the parameter of [LIMIT] or [OFFSET], which PostgreSQL
    reads as a [bigint]: the statement fails on anything else.  (Beyond
    [2 ^ 53] the driver sends the shortest numeral that reads back as
    the number, not its exact value; the two select the same rows of any
    table of fewer than [2 ^ 53] rows.) *)
Definition bigint (x : spec_float) : option Z :=
  match Number.to_Z x with
  | Some n => if (- 2 ^ 63 <=? n) && (n <? 2 ^ 63) then Some n else None
  | None => None
  end.

(** The [limit] and [offset] of a query.  The query builder writes
    [OFFSET] only for a truthy offset and [LIMIT] only for a limit that
    is [>= 0], so that a negative limit returns every row; PostgreSQL
    rejects a negative [OFFSET]. *)
Definition limit_offset (limit offset : spec_float) (l : list row) : option (list row) :=
  match (if Number.truthy offset
         then match bigint offset with
              | Some n => if n <? 0 then None else Some (drop (Z.to_nat n) l)
              | None => None
              end
         else Some l) with
  | Some rest =>
      if Number.leb Number.zero limit
      then match bigint limit with
           | Some n => Some (take (Z.to_nat n) rest)
           | None => None
           end
      else Some rest
  | None => None
  end.

(** ** The handler monad *)

(** What a handler does besides computing its response: it calls storage
    helpers and the remote asset store.  The trace records these calls,
    oldest first. *)
Inductive call : Type :=
  | StorageCall (helper : string)
  | UploadToCloudinary (mimetype : string) (resourceType : string)
  | DeleteFromCloudinary (publicId : string) (resourceType : string).

(** The exceptions the handlers tell apart: the [ZodError] of a failed
    validation, and everything else. *)
Inductive exn : Type :=
  | ZodError (message : string)
  | Error (message : string).

Record world : Type := World {
  db : database;
  trace : list call
}.

Inductive outcome (A : Type) : Type :=
  | Ok (a : A)
  | Throw (e : exn).
Arguments Ok {A} a.
Arguments Throw {A} e.

Definition M (A : Type) : Type := world -> outcome A * world.

Definition ret {A} (a : A) : M A := fun w => (Ok a, w).

Definition bind {A B} (m : M A) (k : A -> M B) : M B :=
  fun w =>
    match m w with
    | (Ok a, w') => k a w'
    | (Throw e, w') => (Throw e, w')
    end.

Definition throw {A} (e : exn) : M A := fun w => (Throw e, w).

(** [try { m } catch (e) { h e }]. *)
Definition try_catch {A} (m : M A) (h : exn -> M A) : M A :=
  fun w =>
    match m w with
    | (Ok a, w') => (Ok a, w')
    | (Throw e, w') => h e w'
    end.

Definition emit (c : call) : M unit :=
  fun w => (Ok tt, World (db w) (trace w ++ [c])).

Definition read_db {A} (f : database -> A) : M A :=
  fun w => (Ok (f (db w)), w).

(** Runs a statement on the database; [None] is a statement the database
    (or the driver, building it) rejects. *)
Definition run_db {A} (f : database -> option (A * database)) : M A :=
  fun w =>
    match f (db w) with
    | Some (a, d') => (Ok a, World d' (trace w))
    | None => (Throw (Error "database error"), w)
    end.

Declare Scope handler_scope.
Delimit Scope handler_scope with handler.
Notation "'let*' x := m 'in' k" := (bind m (fun x => k))
  (at level 10, x pattern, m at level 100, k at level 200) : handler_scope.
Notation "m ;; k" := (bind m (fun _ => k))
  (at level 100, k at level 200, right associativity) : handler_scope.
Local Open Scope handler_scope.

(** ** What the server takes from its surroundings *)

(** The answer of the asset store to an upload. *)
Record upload_result : Type := UploadResult {
  secure_url : option string;
  public_id : string
}.

(** How the module holding the [storage] object is loaded, which decides
    what [this] denotes at its top level. *)
Inductive module_kind : Type :=
  | ESModule
  | CommonJS.

Record env : Type := Env {
  (** [new Date()], in local time, and [Date.now()] *)
  now : Z;
  utc_offset : Z;
  (** [Math.floor(Math.random() * 1000)] *)
  random : Z;
  (** [bcrypt.hash(s, 10)] *)
  bcrypt_hash : string -> string;
  (** [jwt.verify(token, JWT_SECRET)]: the payload, [None] when it
      throws *)
  jwt_verify : string -> option row;
  (** [cloudinary.uploader.upload] behind the credentials check, [None]
      when either throws *)
  cloudinary_upload : string -> string -> option upload_result;
  cloudinary_destroy : string -> string -> bool;
  storage_module : module_kind
}.

Definition Date_now (E : env) : Z := now E - utc_offset E.

(** ** Requests and responses *)

Module Identity.
(** [req.user]. *)
Record t : Type := Make {
  id : Z;
  name : string;
  email : string;
  role : string;
  notificationOptIn : bool;
  profilePictureUrl : option string;
  createdAt : Z
}.
End Identity.

(** The file part of a multipart request, and [req.file] once multer has
    accepted it. *)
Record file_part : Type := FilePart {
  fieldname : string;
  mimetype : string;
  size : Z
}.

Record request : Type := Request {
  cookies : option (gmap string string);
  user : option Identity.t;
  params : gmap string string;
  query : gmap string string;
  body : gmap string jval;
  upload : option file_part
}.

(** The aggregate of the donation report. *)
Record summary : Type := Summary {
  totalDonations : Q;
  monthlyTotal : Q;
  averageDonation : Q;
  donationGrowth : jsnum;
  totalDonors : Z;
  statusBreakdown : list (option jval * Z);
  monthlyTrend : list (string * Q);
  paymentMethodBreakdown : list (string * Z)
}.

(** The JSON documents the handlers answer with: a message, a row, a
    bare array of rows, an object holding a page of rows under [key]
    next to a [total], the donation report, or nothing at all
    ([json(undefined)]). *)
Inductive reply : Type :=
  | Message (message : string)
  | MessageError (message : string) (error : string)
  | OneRow (r : row)
  | Rows (items : list row)
  | Listing (key : string) (items : list row) (total : Z)
  | Report (s : summary)
  | NoBody.

Record response : Type := Response {
  status : Z;
  json : reply
}.

(** A middleware either answers or passes the (possibly extended)
    request on. *)
Inductive passage : Type :=
  | Answer (r : response)
  | Next (req : request).

(** ** The storage helpers *)

(** [eq(a.col, b.col)] of a join: NULL equals nothing. *)
Definition sql_eq (a b : option jval) : bool :=
  match a, b with
  | Some (JNum x), Some (JNum y) => Qeq_bool x y
  | Some (JStr x), Some (JStr y) => String.eqb x y
  | Some (JBool x), Some (JBool y) => Bool.eqb x y
  | Some (JDate x), Some (JDate y) => x =? y
  | _, _ => false
  end.

(** The rows of a table a condition selects, ordered. *)
Definition select (n : relation_name) (condition : row -> bool)
    (o : ordering) (d : database) : list row :=
  order_by o (List.filter condition (rows (get_table n d))).

(** [findMany({ where, limit, offset, orderBy })], and the same query
    written with [select().from().where().orderBy().limit().offset()]. *)
Definition findMany (n : relation_name) (condition : row -> bool)
    (o : ordering) (limit offset : spec_float) : M (list row) :=
  run_db (fun d => (fun l => (l, d)) <$> limit_offset limit offset (select n condition o d)).

(** [select({ count: count() }).from(table).where(condition)], read as
    [totalResults[0]?.count || 0]. *)
Definition count_where (n : relation_name) (condition : row -> bool) : M Z :=
  read_db (fun d => Z.of_nat (length (List.filter condition (rows (get_table n d))))).

(** The condition [userId IN (ids.join(','))] of the two searches by
    user: the joined string is bound as one parameter, which the
    database converts to an integer when the list has one element and
    rejects when it has more. *)
Definition in_joined (column : string) (ids : list row) : option (row -> bool) :=
  match ids with
  | [u] => Some (fun r => sql_eq (r !! column) (u !! "id"))
  | _ => None
  end.

(** The calendar bounds the period filters use, from [today]. *)
Definition firstDayOfMonth (today : Z) : Z :=
  JSDate.make (JSDate.getFullYear today) (JSDate.getMonth today) 1.

Definition firstDayOfLastMonth (today : Z) : Z :=
  JSDate.make (JSDate.getFullYear today) (JSDate.getMonth today - 1) 1.

Definition firstDayOfYear (today : Z) : Z :=
  JSDate.make (JSDate.getFullYear today) 0 1.

Definition startOfDay (today : Z) : Z := JSDate.setHours0 today.

Definition startOfWeek (today : Z) : Z :=
  JSDate.setHours0 (JSDate.setDate today (JSDate.getDate today - JSDate.getDay today)).

Arguments firstDayOfMonth : simpl never.
Arguments firstDayOfLastMonth : simpl never.
Arguments firstDayOfYear : simpl never.
Arguments startOfDay : simpl never.
Arguments startOfWeek : simpl never.

Module storage.

(** Every helper leaves its name in the trace when it is called. *)
Definition helper {A} (name : string) (m : M A) : M A :=
  emit (StorageCall name) ;; m.

Definition created (E : env) : row := {[ "createdAt" := JDate (now E) ]}.

(** *** Activities *)

Definition createActivity (E : env) (activityData : row) : M (list row) :=
  helper "createActivity"
    (run_db (fun d => let '(r, d') := insert_row Activities (created E) activityData d in
                      Some ([r], d'))).

(** *** Users *)

Definition getUserById (id : Z) : M (option row) :=
  helper "getUserById" (read_db (fun d => find_by_id id (rows (users d)))).

Definition updateUser (id : Z) (userData : row) : M (list row) :=
  helper "updateUser" (run_db (update_rows Users id userData)).

Definition deleteUser (id : Z) : M unit :=
  helper "deleteUser" (run_db (fun d => Some (tt, delete_rows Users id d))).

Definition search_users (search : string) (r : row) : bool :=
  like (r !! "name") search || like (r !! "email") search.

Definition getAllUsers (page perPage : Z) (search : string) : M (list row * Z) :=
  helper "getAllUsers"
    (let offset := Number.mul (Number.sub (Number.of_Z page) (Number.of_Z 1))
                              (Number.of_Z perPage) in
     let whereClause r := if String.eqb search EmptyString then true else search_users search r in
     let* users := findMany Users whereClause (desc "createdAt") (Number.of_Z perPage) offset in
     let* total := count_where Users whereClause in
     ret (users, total)).

(** *** Contacts *)

Definition getContactById (id : Z) : M (option row) :=
  helper "getContactById" (read_db (fun d => find_by_id id (rows (contacts d)))).

Definition updateContact (id : Z) (contactData : row) : M (list row) :=
  helper "updateContact" (run_db (update_rows Contacts id contactData)).

Definition contacts_where (search status : string) (r : row) : bool :=
  (if String.eqb search EmptyString then true
   else like (r !! "name") search || like (r !! "email") search
        || like (r !! "message") search)
  && (if String.eqb status "all" then true else is_str (r !! "status") status).

Definition getAllContacts (page perPage : Z) (search status : string) : M (list row * Z) :=
  helper "getAllContacts"
    (let offset := Number.mul (Number.sub (Number.of_Z page) (Number.of_Z 1))
                              (Number.of_Z perPage) in
     let* contacts := findMany Contacts (contacts_where search status)
                        (desc "createdAt") (Number.of_Z perPage) offset in
     let* total := count_where Contacts (contacts_where search status) in
     ret (contacts, total)).

(** *** Donations *)

(** The value a [decimal(10, 2)] column takes from a number: rounded to
    two places, a tie away from zero; [None] when it needs more than ten
    digits. *)
Definition round_cents (q : Q) : option Q :=
  let x := (q * 100)%Q in
  let cents := if Qle_bool 0 x then Qfloor (x + (1 # 2)) else - Qfloor (- x + (1 # 2)) in
  if Z.abs cents <? 10 ^ 10 then Some (inject_Z cents / 100)%Q else None.

(** The same column's reading of the text the driver sends: the whole
    text must be a decimal literal. *)
Definition numeric_10_2 (s : string) : option Q :=
  let '(negative, s1) := scan_sign (trim_start s) in
  match scan_decimal s1 with
  | Some (q, rest) =>
      if String.eqb (trim_start rest) EmptyString
      then round_cents (if negative then - q else q)%Q
      else None
  | None => None
  end.

Definition to_numeric (v : option jval) : option jval :=
  match v with
  | Some (JStr s) => JNum <$> numeric_10_2 s
  | Some (JNum q) => JNum <$> round_cents q
  | _ => None
  end.

Definition createDonation (E : env) (donation : row) : M (list row) :=
  helper "createDonation"
    (run_db (fun d =>
       amount ← to_numeric (donation !! "amount");
       let defaults := <["status" := JStr "pending"]> (created E) in
       let '(r, d') := insert_row Donations defaults (<["amount" := amount]> donation) d in
       Some ([r], d'))).

Definition getDonationById (id : Z) : M (option row) :=
  helper "getDonationById" (read_db (fun d => find_by_id id (rows (donations d)))).

Definition updateDonation (id : Z) (donationData : row) : M (list row) :=
  helper "updateDonation" (run_db (update_rows Donations id donationData)).

Definition getDonationsByUserId (userId page perPage : Z) : M (list row * Z) :=
  helper "getDonationsByUserId"
    (let offset := Number.mul (Number.sub (Number.of_Z page) (Number.of_Z 1))
                              (Number.of_Z perPage) in
     let mine r := is_int (r !! "userId") userId in
     let* donations := findMany Donations mine (desc "createdAt") (Number.of_Z perPage) offset in
     let* total := count_where Donations mine in
     ret (donations, total)).

(** The user a row refers to through [column], for the joins. *)
Definition user_of (column : string) (d : database) (r : row) : option row :=
  List.find (fun u => sql_eq (r !! column) (u !! "id")) (rows (users d)).

Definition with_user_columns (u : option row) (r : row) : row :=
  set_opt "userName" (u ≫= (.!! "name")) (set_opt "userEmail" (u ≫= (.!! "email")) r).

(** The period filter of the donation listing, from [today]. *)
Definition donations_period (today : Z) (period : string) (r : row) : bool :=
  if String.eqb period "this_month" then gte (r !! "createdAt") (firstDayOfMonth today)
  else if String.eqb period "last_month" then
    gte (r !! "createdAt") (firstDayOfLastMonth today)
    && lt (r !! "createdAt") (firstDayOfMonth today)
  else if String.eqb period "this_year" then gte (r !! "createdAt") (firstDayOfYear today)
  else true.

Definition donations_order (sort direction : string) : ordering :=
  let column :=
    if String.eqb sort "id" then "id"
    else if String.eqb sort "amount" then "amount"
    else "createdAt" in
  if String.eqb direction "asc" then asc column else desc column.

Definition getAllDonations (E : env) (page perPage : Z)
    (search status period sort direction : string) : M (list row * Z) :=
  helper "getAllDonations"
    (let offset := Number.mul (Number.sub (Number.of_Z page) (Number.of_Z 1))
                              (Number.of_Z perPage) in
     let* userIds :=
       if String.eqb search EmptyString then ret None
       else let* found := read_db (fun d => List.filter (search_users search) (rows (users d))) in
            ret (Some found) in
     match userIds with
     | Some [] => ret ([], 0)
     | _ =>
         let* by_user :=
           match userIds with
           | Some ids =>
               match in_joined "userId" ids with
               | Some c => ret c
               | None => throw (Error "invalid input syntax for type integer")
               end
           | None => ret (fun _ => true)
           end in
         let whereClause r :=
           by_user r
           && (if String.eqb status "all" then true else is_str (r !! "status") status)
           && donations_period (now E) period r in
         let* donationsWithUsers :=
           run_db (fun d =>
             let joined :=
               omap (fun r => (fun u => with_user_columns (Some u) r) <$> user_of "userId" d r)
                    (List.filter whereClause (rows (donations d))) in
             (fun l => (l, d)) <$>
               limit_offset (Number.of_Z perPage) offset (order_by (donations_order sort direction) joined)) in
         let* total := count_where Donations whereClause in
         ret (donationsWithUsers, total)
     end).

Definition completed (r : row) : bool := is_str (r !! "status") "completed".

Definition amount_of (r : row) : Q :=
  match r !! "amount" with
  | Some (JNum q) => q
  | _ => 0%Q
  end.

(** [select({ total: sum(donations.amount) }).where(condition)] read
    through [parseFloat(result[0]?.total || "0")]. *)
Definition sum_where (condition : row -> bool) : M Q :=
  read_db (fun d => foldr (fun r acc => (amount_of r + acc)%Q) 0%Q
                          (List.filter condition (rows (donations d)))).

Definition getTotalDonationAmount : M Q :=
  helper "getTotalDonationAmount" (sum_where completed).

Definition getMonthlyDonationAmount (E : env) : M Q :=
  helper "getMonthlyDonationAmount"
    (sum_where (fun r => completed r && gte (r !! "createdAt") (firstDayOfMonth (now E)))).

(** The two totals are read with [parseFloat] from the decimal numerals
    the database returns, and the percentage is computed on the numbers
    read. *)
Definition getDonationGrowthPercentage (E : env) : M jsnum :=
  helper "getDonationGrowthPercentage"
    (let today := now E in
     let* currentMonthResult :=
       sum_where (fun r => completed r && gte (r !! "createdAt") (firstDayOfMonth today)) in
     let* previousMonthResult :=
       sum_where (fun r => completed r
                           && gte (r !! "createdAt") (firstDayOfLastMonth today)
                           && lt (r !! "createdAt") (firstDayOfMonth today)) in
     let currentAmount := Number.of_Q currentMonthResult in
     let previousAmount := Number.of_Q previousMonthResult in
     if Number.eqb previousAmount Number.zero
     then ret (if Number.ltb Number.zero currentAmount then Fin 100 else Fin 0)
     else ret (Number.round
                 (Number.mul (Number.div (Number.sub currentAmount previousAmount)
                                         previousAmount)
                             (Number.of_Z 100)))).

Definition getTotalUsers : M Z :=
  helper "getTotalUsers" (count_where Users (fun _ => true)).

Definition getUserGrowthPercentage (E : env) : M jsnum :=
  helper "getUserGrowthPercentage"
    (let today := now E in
     let thirtyDaysAgo := JSDate.setDate today (JSDate.getDate today - 30) in
     let sixtyDaysAgo := JSDate.setDate today (JSDate.getDate today - 60) in
     let* currentPeriodUsers :=
       count_where Users (fun r => gte (r !! "createdAt") thirtyDaysAgo
                                   && lt (r !! "createdAt") today) in
     let* previousPeriodUsers :=
       count_where Users (fun r => gte (r !! "createdAt") sixtyDaysAgo
                                   && lt (r !! "createdAt") thirtyDaysAgo) in
     let currentCount := Number.of_Z currentPeriodUsers in
     let previousCount := Number.of_Z previousPeriodUsers in
     if Number.eqb previousCount Number.zero
     then ret (if Number.ltb Number.zero currentCount then Fin 100 else Fin 0)
     else ret (Number.round
                 (Number.mul (Number.div (Number.sub currentCount previousCount)
                                         previousCount)
                             (Number.of_Z 100)))).

(** *** The donation report *)

(** What [this] denotes inside the arrow functions of the [storage]
    object literal, and, for comparison, inside a method of it. *)
Inductive this_value : Type :=
  | ThisUndefined
  | ThisExports
  | ThisStorage.

(** An arrow function has no [this] of its own: it sees the one of the
    enclosing scope, here the top level of the module.  That is
    [undefined] in an ECMAScript module and [module.exports] in a
    CommonJS one, whose only property is the exported [storage]. *)
Definition lexical_this (k : module_kind) : this_value :=
  match k with
  | ESModule => ThisUndefined
  | CommonJS => ThisExports
  end.

(** The property names of the [storage] object. *)
Definition storage_members : list string :=
  ["createActivity"; "getActivityById"; "getAllActivities"; "createUser";
   "getUserById"; "getUserByEmail"; "updateUser"; "deleteUser"; "getAllUsers";
   "getTotalUsers"; "getUserGrowthPercentage"; "createContact"; "getContactById";
   "updateContact"; "deleteContact"; "getAllContacts"; "getNewContactsCount";
   "getUnreadContactsCount"; "createDonation"; "getDonationById"; "updateDonation";
   "getDonationsByUserId"; "getAllDonations"; "getTotalDonationAmount";
   "getMonthlyDonationAmount"; "getDonationGrowthPercentage"; "getDonationSummary";
   "createMedia"; "getMediaById"; "updateMedia"; "deleteMedia"; "getAllMedia";
   "createEvent"; "getEventById"; "updateEvent"; "deleteEvent"; "getUpcomingEvents";
   "getAllEvents"; "getUpcomingEventsCount"; "createSermon"; "getSermonById";
   "updateSermon"; "deleteSermon"; "getLatestSermons"; "getAllSermons"; "logActivity"].

(** [this.name()]: the property is looked up on the receiver and the
    value found is called.  [impl] is the helper the [storage] object
    holds under [name]. *)
Definition method_call {A} (this : this_value) (name : string) (impl : M A) : M A :=
  match this with
  | ThisUndefined =>
      throw (Error ("TypeError: Cannot read properties of undefined (reading '"
                    +:+ name +:+ "')"))
  | ThisExports =>
      (* [storage] holds an object and every other name is undefined:
         neither can be called *)
      throw (Error ("TypeError: this." +:+ name +:+ " is not a function"))
  | ThisStorage =>
      if bool_decide (name ∈ storage_members) then impl
      else throw (Error ("TypeError: this." +:+ name +:+ " is not a function"))
  end.

(** The first day, at midnight, that the trend loop computes for the
    month [i] months back: [setMonth], then [setDate(1)], then
    [setHours(0, 0, 0, 0)], on a copy of [today]. *)
Definition month_start (today i : Z) : Z :=
  JSDate.setHours0 (JSDate.setDate (JSDate.setMonth today (JSDate.getMonth today - i)) 1).

(** The loop [for (i = 0; i < 6; i++) months.unshift(...)]. *)
Definition trend_months (today : Z) : list Z :=
  foldl (fun months i => month_start today i :: months) [] [0; 1; 2; 3; 4; 5].

(** The bounds of each bucket: from its month's start to the start of
    the next entry, and to [today] for the last. *)
Fixpoint trend_bounds (today : Z) (months : list Z) : list (Z * Z) :=
  match months with
  | [] => []
  | currentMonth :: rest =>
      (currentMonth, match rest with
                     | [] => today
                     | next :: _ => next
                     end) :: trend_bounds today rest
  end.

Definition short_month (m : Z) : string :=
  nth (Z.to_nat m) ["Jan"; "Feb"; "Mar"; "Apr"; "May"; "Jun"; "Jul"; "Aug"; "Sep";
                    "Oct"; "Nov"; "Dec"] EmptyString.

(** [`${monthName} ${year}`]. *)
Definition formattedMonth (t : Z) : string :=
  short_month (JSDate.getMonth t) +:+ " " +:+ show_int (JSDate.getFullYear t).

Definition in_bucket (bounds : Z * Z) (r : row) : bool :=
  completed r && gte (r !! "createdAt") bounds.1 && lt (r !! "createdAt") bounds.2.

Fixpoint trend_of (buckets : list (Z * Z)) : M (list (string * Q)) :=
  match buckets with
  | [] => ret []
  | b :: rest =>
      let* amount := sum_where (in_bucket b) in
      let* more := trend_of rest in
      ret ((formattedMonth b.1, amount) :: more)
  end.

(** The monthly trend of the report. *)
Definition monthlyTrend_of (today : Z) : M (list (string * Q)) :=
  trend_of (trend_bounds today (trend_months today)).

(** Two values fall in the same group of a [GROUP BY]. *)
Definition same_group (a b : option jval) : bool :=
  sql_eq a b || (negb (defined a) && negb (defined b)).

(** [select({ k, count: count() }).groupBy(k)]: the groups in order of
    first appearance. *)
Fixpoint group_count (key : row -> option jval) (l : list row) : list (option jval * Z) :=
  match l with
  | [] => []
  | r :: l' =>
      let rest := group_count key l' in
      if existsb (fun g => same_group g.1 (key r)) rest
      then (fun g => if same_group g.1 (key r) then (g.1, g.2 + 1) else g) <$> rest
      else (key r, 1) :: rest
  end.

(** [s.replace('_', ' ')]: the first underscore only. *)
Fixpoint replace_underscore (s : string) : string :=
  match s with
  | String "_" s' => String " " s'
  | String c s' => String c (replace_underscore s')
  | EmptyString => EmptyString
  end.

Definition summary_start (today : Z) (period : string) : option Z :=
  if String.eqb period "this_month" then Some (firstDayOfMonth today)
  else if String.eqb period "last_month" then Some (firstDayOfLastMonth today)
  else if String.eqb period "this_year" then Some (firstDayOfYear today)
  else None.

(** The body of [getDonationSummary] with its [this] made explicit. *)
Definition getDonationSummary_on (this : this_value) (E : env) (period : string) : M summary :=
  helper "getDonationSummary"
    (let today := now E in
     let whereClause r :=
       completed r && match summary_start today period with
                      | Some startDate => gte (r !! "createdAt") startDate
                      | None => true
                      end in
     let* totalResult := sum_where whereClause in
     let* monthlyTotal :=
       method_call this "getMonthlyDonationAmount" (getMonthlyDonationAmount E) in
     let* matching := read_db (fun d => List.filter whereClause (rows (donations d))) in
     let avgResult :=
       match matching with
       | [] => 0%Q
       | _ => (totalResult / inject_Z (Z.of_nat (length matching)))%Q
       end in
     let* donationGrowth :=
       method_call this "getDonationGrowthPercentage" (getDonationGrowthPercentage E) in
     let donorsResult :=
       Z.of_nat (length (group_count (fun r => r !! "userId")
                           (List.filter (fun r => defined (r !! "userId")) matching))) in
     let* statusResults := read_db (fun d => group_count (fun r => r !! "status") (rows (donations d))) in
     let* monthlyTrend := monthlyTrend_of today in
     let methodResults := group_count (fun r => r !! "paymentMethod") matching in
     let* paymentMethodBreakdown :=
       foldr (fun g acc =>
                let* rest := acc in
                match g.1 with
                | Some (JStr method) => ret ((replace_underscore method, g.2) :: rest)
                | _ => throw (Error "TypeError: item.method.replace is not a function")
                end) (ret []) methodResults in
     ret (Summary totalResult monthlyTotal avgResult donationGrowth donorsResult
            statusResults monthlyTrend paymentMethodBreakdown)).

(** [storage.getDonationSummary]: an arrow function, whose [this] is the
    module's. *)
Definition getDonationSummary (E : env) (period : string) : M summary :=
  getDonationSummary_on (lexical_this (storage_module E)) E period.

(** *** Media *)

Definition createMedia (E : env) (mediaData : row) : M (list row) :=
  helper "createMedia"
    (run_db (fun d => let '(r, d') := insert_row Media (created E) mediaData d in
                      Some ([r], d'))).

Definition getMediaById (id : Z) : M (option row) :=
  helper "getMediaById" (read_db (fun d => find_by_id id (rows (media d)))).

Definition updateMedia (id : Z) (mediaData : row) : M (list row) :=
  helper "updateMedia" (run_db (update_rows Media id mediaData)).

Definition media_where (search type : string) (r : row) : bool :=
  (if String.eqb search EmptyString then true
   else like (r !! "title") search || like (r !! "description") search)
  && (if String.eqb type "all" then true else is_str (r !! "type") type).

(** [items.map(item => f(item))] for an [f] that may throw. *)
Fixpoint map_rows (f : row -> option row) (message : string) (l : list row) : M (list row) :=
  match l with
  | [] => ret []
  | r :: l' =>
      match f r with
      | Some r' => let* rest := map_rows f message l' in ret (r' :: rest)
      | None => throw (Error message)
      end
  end.

Definition getAllMedia (page perPage : Z) (search type : string) : M (list row * Z) :=
  helper "getAllMedia"
    (let offset := Number.mul (Number.sub (Number.of_Z page) (Number.of_Z 1))
                              (Number.of_Z perPage) in
     let* media := findMany Media (media_where search type) (desc "createdAt") (Number.of_Z perPage) offset in
     let* total := count_where Media (media_where search type) in
     let* d := read_db (fun d => d) in
     let* shaped :=
       map_rows (fun item => (fun u => set_opt "uploadedBy" (u !! "name") item)
                               <$> user_of "uploadedBy" d item)
                "TypeError: Cannot read properties of null (reading 'name')" media in
     ret (shaped, total)).

(** *** Events and sermons *)

Definition getEventById (id : Z) : M (option row) :=
  helper "getEventById" (read_db (fun d => find_by_id id (rows (events d)))).

Definition updateEvent (id : Z) (eventData : row) : M (list row) :=
  helper "updateEvent" (run_db (update_rows Events id eventData)).

Definition getSermonById (id : Z) : M (option row) :=
  helper "getSermonById" (read_db (fun d => find_by_id id (rows (sermons d)))).

Definition updateSermon (id : Z) (sermonData : row) : M (list row) :=
  helper "updateSermon" (run_db (update_rows Sermons id sermonData)).

(** The media item a row refers to through [mediaId]. *)
Definition media_of (d : database) (r : row) : option row :=
  List.find (fun m => sql_eq (r !! "mediaId") (m !! "id")) (rows (media d)).

(** The shape both listings give an event:
    [cloudinaryUrl: event.media?.cloudinaryUrl || '']. *)
Definition formatted_event (d : database) (event : row) : row :=
  let url := media_of d event ≫= (.!! "cloudinaryUrl") in
  <["cloudinaryUrl" := if truthy url then default JNull url else JStr EmptyString]>
    (filter (fun kv => kv.1 ∈ ["id"; "title"; "description"; "date"; "createdAt"]) event).

(** The shape of a listed sermon: [cloudinaryUrl:
    sermon.media.cloudinaryUrl], which throws without the media row. *)
Definition formatted_sermon (d : database) (sermon : row) : option row :=
  m ← media_of d sermon;
  Some (set_opt "cloudinaryUrl" (m !! "cloudinaryUrl")
          (filter (fun kv => kv.1 ∈ ["id"; "title"; "description"; "date"; "duration";
                                     "createdAt"]) sermon)).

Definition getUpcomingEvents (E : env) (limit : Z) : M (list row) :=
  helper "getUpcomingEvents"
    (findMany Events (fun r => gte (r !! "date") (now E)) (asc "date")
       (Number.of_Z limit) Number.zero).

Definition getAllEvents (page perPage : Z) : M (list row * Z) :=
  helper "getAllEvents"
    (let offset := Number.mul (Number.sub (Number.of_Z page) (Number.of_Z 1))
                              (Number.of_Z perPage) in
     let* events := findMany Events (fun _ => true) (asc "date") (Number.of_Z perPage) offset in
     let* total := count_where Events (fun _ => true) in
     let* d := read_db (fun d => d) in
     ret (formatted_event d <$> events, total)).

Definition getLatestSermons (limit : Z) : M (list row) :=
  helper "getLatestSermons"
    (findMany Sermons (fun _ => true) (desc "date") (Number.of_Z limit) Number.zero).

Definition sermons_where (search : string) (r : row) : bool :=
  if String.eqb search EmptyString then true
  else like (r !! "title") search || like (r !! "description") search.

Definition getAllSermons (page perPage : Z) (search filter : string) : M (list row * Z) :=
  helper "getAllSermons"
    (let offset := Number.mul (Number.sub (Number.of_Z page) (Number.of_Z 1))
                              (Number.of_Z perPage) in
     let* sermons := findMany Sermons (sermons_where search) (desc "date") (Number.of_Z perPage) offset in
     let* total := count_where Sermons (sermons_where search) in
     let* d := read_db (fun d => d) in
     let* shaped :=
       map_rows (formatted_sermon d)
                "TypeError: Cannot read properties of null (reading 'cloudinaryUrl')" sermons in
     ret (shaped, total)).

(** *** The activity log *)

(** The period filter of the activity listing. *)
Definition activities_period (today : Z) (period : string) (r : row) : bool :=
  if String.eqb period "today" then gte (r !! "createdAt") (startOfDay today)
  else if String.eqb period "this_week" then gte (r !! "createdAt") (startOfWeek today)
  else if String.eqb period "this_month" then gte (r !! "createdAt") (firstDayOfMonth today)
  else if String.eqb period "last_month" then
    gte (r !! "createdAt") (firstDayOfLastMonth today)
    && lt (r !! "createdAt") (firstDayOfMonth today)
  else true.

Definition activities_order (sort direction : string) : ordering :=
  let column :=
    if String.eqb sort "id" then "id"
    else if String.eqb sort "action" then "action"
    else "createdAt" in
  if String.eqb direction "asc" then asc column else desc column.

(** [getAllActivities]: the object literal defines the property twice
    and the later definition is the one the object holds. *)
Definition getAllActivities (E : env) (page perPage : Z)
    (search action period sort direction : string) : M (list row * Z) :=
  helper "getAllActivities"
    (let offset := Number.mul (Number.sub (Number.of_Z page) (Number.of_Z 1))
                              (Number.of_Z perPage) in
     let* by_search :=
       if String.eqb search EmptyString then ret (fun _ => true)
       else
         let* userIds := read_db (fun d => List.filter (search_users search) (rows (users d))) in
         match userIds with
         | [] => ret (fun r => like (r !! "details") search)
         | _ =>
             match in_joined "userId" userIds with
             | Some c => ret (fun r => like (r !! "details") search || c r)
             | None => throw (Error "invalid input syntax for type integer")
             end
         end in
     let whereClause r :=
       by_search r
       && (if String.eqb action "all" then true else is_str (r !! "action") action)
       && activities_period (now E) period r in
     let* activitiesWithUsers :=
       run_db (fun d =>
         let joined := (fun r => with_user_columns (user_of "userId" d r) r)
                         <$> List.filter whereClause (rows (activities d)) in
         (fun l => (l, d)) <$>
           limit_offset (Number.of_Z perPage) offset (order_by (activities_order sort direction) joined)) in
     let* total := count_where Activities whereClause in
     ret (activitiesWithUsers, total)).

End storage.

(** ** Activity logging ([utils/activity.ts]) *)

(** [logActivity]: never throws; [userId || null] turns an absent or
    zero id into NULL. *)
Definition logActivity (E : env) (userId : option Z) (action details : string) : M bool :=
  try_catch
    (let activityData : row :=
       set_opt "userId" (match userId with
                         | Some n => if n =? 0 then None else Some (int n)
                         | None => None
                         end)
         (<["action" := JStr action]> {[ "details" := JStr details ]}) in
     storage.createActivity E activityData ;;
     ret true)
    (fun _ => ret false).

(** ** Middleware *)

Definition verifyToken (E : env) (token : string) : option row := jwt_verify E token.

(** The integer PostgreSQL reads from a value bound to an integer
    column; [None] when it rejects the value. *)
Definition integer_in (v : option jval) : option Z :=
  match v with
  | Some (JNum q) => if Z.pos (Qden (Qred q)) =? 1 then Some (Qnum (Qred q)) else None
  | Some (JStr s) =>
      let '(negative, s1) := scan_sign (trim_start s) in
      let '(n, count, rest) := scan_digits digit_of 10 0 0%nat s1 in
      match count with
      | O => None
      | S _ => if String.eqb (trim_start rest) EmptyString
               then Some (if negative then - n else n) else None
      end
  | _ => None
  end.

(** [req.user = { ... }] from the row found: the text columns as the
    database holds them, [!!notificationOptIn],
    [profilePictureUrl || undefined] and [createdAt.toISOString()],
    which throws unless [createdAt] is a date. *)
Definition identity_of (id : Z) (user : row) : option Identity.t :=
  match user !! "createdAt" with
  | Some (JDate t) =>
      Some (Identity.Make id (text_of (user !! "name")) (text_of (user !! "email"))
              (text_of (user !! "role")) (truthy (user !! "notificationOptIn"))
              (if truthy (user !! "profilePictureUrl")
               then Some (text_of (user !! "profilePictureUrl")) else None)
              t)
  | _ => None
  end.

Definition with_user (req : request) (u : Identity.t) : request :=
  Request (cookies req) (Some u) (params req) (query req) (body req) (upload req).

(** [setUserInfo]: runs on every request, before any route. *)
Definition setUserInfo (E : env) (req : request) : M passage :=
  try_catch
    (match cookies req with
     | None => ret (Next req)
     | Some jar =>
         match jar !! "auth_token" with
         | None | Some EmptyString => ret (Next req)
         | Some token =>
             match verifyToken E token with
             | None => ret (Next req)
             | Some decoded =>
                 if negb (truthy (decoded !! "id")) then ret (Next req)
                 else
                   match integer_in (decoded !! "id") with
                   | None => storage.helper "getUserById" (throw (Error "database error"))
                   | Some id =>
                       let* user := storage.getUserById id in
                       match user with
                       | None => ret (Next req)
                       | Some u =>
                           if is_str (u !! "status") "inactive" then ret (Next req)
                           else match identity_of id u with
                                | Some i => ret (Next (with_user req i))
                                | None => throw (Error "TypeError: toISOString")
                                end
                       end
                   end
             end
         end
     end)
    (fun _ => ret (Next req)).

(** [authenticateJWT]: 401 unless an identity is attached. *)
Definition authenticateJWT (req : request) : passage :=
  match user req with
  | None => Answer (Response 401 (Message "Unauthorized - Authentication required"))
  | Some _ => Next req
  end.

(** [isOwner] ([owner.middleware.ts]). *)
Definition isOwner (req : request) : passage :=
  match user req with
  | None => Answer (Response 401 (Message "Unauthorized - Authentication required"))
  | Some u =>
      if negb (String.eqb (Identity.role u) "owner")
      then Answer (Response 403 (Message "Forbidden - Owner access required"))
      else Next req
  end.

(** A route behind one middleware: [router.METHOD(path, mw, handler)]. *)
Definition behind (mw : request -> passage) (handler : request -> M response)
    (req : request) : M response :=
  match mw req with
  | Answer r => ret r
  | Next req' => handler req'
  end.

Definition respond (code : Z) (j : reply) : M response := ret (Response code j).

(** [parseInt(req.params.id)]. *)
Definition param_id (req : request) : option Z := params req !! "id" ≫= parseInt.

(** [const { password, ...rest } = rows[0]], which throws when the
    statement returned no row. *)
Definition first_without_password (l : list row) : M row :=
  match l with
  | r :: _ => ret (delete "password" r)
  | [] => throw (Error "TypeError: Cannot destructure property 'password'")
  end.

(** [const [first] = rows] followed by a property read of [first]. *)
Definition first_row (l : list row) : M row :=
  match l with
  | r :: _ => ret r
  | [] => throw (Error "TypeError: Cannot read properties of undefined")
  end.

(** The allow-list loop of the partial updates:
    [for (field of allowedFields) if (body[field] !== undefined)
       updateData[field] = body[field]]. *)
Definition pick (allowedFields : list string) (body : gmap string jval) : row :=
  foldl (fun updateData field =>
           match body !! field with
           | Some v => <[field := v]> updateData
           | None => updateData
           end) ∅ allowedFields.

(** ** [user.controller.ts] *)

Module user_controller.

Definition owner_email : string := "shahidsingh1432@gmail.com".

(** [GET /admin/users] *)
Definition admin_get_all (req : request) : M response :=
  try_catch
    (let page := parseInt_or (query req !! "page") 1 in
     let perPage := parseInt_or (query req !! "perPage") 10 in
     let search := string_or (query req !! "search") EmptyString in
     let* (users, total) := storage.getAllUsers page perPage search in
     respond 200 (Listing "users" (delete "password" <$> users) total))
    (fun _ => respond 500 (Message "An error occurred while fetching users")).

(** [updatedData.password = await bcrypt.hash(updatedData.password, 10)]
    under [if (updatedData.password)]; hashing anything but a string
    throws. *)
Definition hash_password (E : env) (updatedData : row) : M row :=
  if truthy (updatedData !! "password") then
    match updatedData !! "password" with
    | Some (JStr p) => ret (<["password" := JStr (bcrypt_hash E p)]> updatedData)
    | _ => throw (Error "data must be a string or Buffer")
    end
  else ret updatedData.

(** [PATCH /admin/users/:id] *)
Definition admin_patch (E : env) (req : request) : M response :=
  let actor := Identity.id <$> user req in
  try_catch
    (match param_id req with
     | None => respond 400 (Message "Invalid user ID")
     | Some userId =>
         let* user := storage.getUserById userId in
         match user with
         | None => respond 404 (Message "User not found")
         | Some user =>
             if is_str (user !! "email") owner_email && is_str (body req !! "role") "user"
             then respond 403 (Message "Cannot change the owner's role")
             else
               let* updatedData := hash_password E (body req) in
               let* updated := storage.updateUser userId updatedData in
               logActivity E actor "user_update"
                 ("Admin updated user: " +:+ text_of (user !! "email")) ;;
               let* userWithoutPassword := first_without_password updated in
               respond 200 (OneRow userWithoutPassword)
         end
     end)
    (fun _ => respond 500 (Message "An error occurred while updating the user")).

(** [DELETE /admin/users/:id] *)
Definition admin_delete (E : env) (req : request) : M response :=
  let actor := Identity.id <$> user req in
  try_catch
    (match param_id req with
     | None => respond 400 (Message "Invalid user ID")
     | Some userId =>
         let* user := storage.getUserById userId in
         match user with
         | None => respond 404 (Message "User not found")
         | Some user =>
             if is_str (user !! "email") owner_email
             then respond 403 (Message "Cannot delete the owner account")
             else
               storage.deleteUser userId ;;
               logActivity E actor "user_delete"
                 ("Admin deleted user: " +:+ text_of (user !! "email")) ;;
               respond 200 (Message "User deleted successfully")
         end
     end)
    (fun _ => respond 500 (Message "An error occurred while deleting the user")).

Definition profile_fields : list string := ["name"; "notificationOptIn"; "profilePictureUrl"].

(** The handler of [PATCH /users/profile]. *)
Definition patch_profile_handler (E : env) (req : request) : M response :=
  try_catch
    (match user req with
     | None => respond 401 (Message "Not authenticated")
     | Some u =>
         let updateData := pick profile_fields (body req) in
         let* updated := storage.updateUser (Identity.id u) updateData in
         logActivity E (Some (Identity.id u)) "user_update"
           ("User updated their profile: " +:+ Identity.email u) ;;
         let* userWithoutPassword := first_without_password updated in
         respond 200 (OneRow userWithoutPassword)
     end)
    (fun _ => respond 500 (Message "An error occurred while updating your profile")).

(** [PATCH /users/profile] *)
Definition patch_profile (E : env) : request -> M response :=
  behind authenticateJWT (patch_profile_handler E).

(** The handler of [DELETE /users/profile]. *)
Definition delete_profile_handler (E : env) (req : request) : M response :=
  try_catch
    (match user req with
     | None => respond 401 (Message "Not authenticated")
     | Some u =>
         if String.eqb (Identity.email u) owner_email
         then respond 403 (Message "Cannot delete the owner account")
         else
           storage.deleteUser (Identity.id u) ;;
           logActivity E (Some (Identity.id u)) "user_delete"
             ("User deleted their account: " +:+ Identity.email u) ;;
           respond 200 (Message "Account deleted successfully")
     end)
    (fun _ => respond 500 (Message "An error occurred while deleting your account")).

(** [DELETE /users/profile] *)
Definition delete_profile (E : env) : request -> M response :=
  behind authenticateJWT (delete_profile_handler E).

End user_controller.

(** ** Validation ([schema.ts]) *)

Module schema.

(** One issue of a [ZodError]: where, and what is wrong. *)
Inductive issue : Type := Issue (path : string) (message : string).

Definition typeof (v : jval) : string :=
  match v with
  | JNull => "null"
  | JBool _ => "boolean"
  | JNum _ => "number"
  | JStr _ => "string"
  | JDate _ => "date"
  | JObject => "object"
  end.

Definition payment_methods : list string :=
  ["credit_card"; "debit_card"; "paypal"; "esewa"; "bank_qr"].

(** [amount]: a required string refined by [parseFloat(val) > 0]. *)
Definition check_amount (v : option jval) : list issue :=
  match v with
  | None => [Issue "amount" "Required"]
  | Some (JStr val) =>
      if num_gt0 (parseFloat val) then []
      else [Issue "amount" "Amount must be greater than 0"]
  | Some other => [Issue "amount" ("Expected string, received " +:+ typeof other)]
  end.

(** [paymentMethod]: one of the five names. *)
Definition check_paymentMethod (v : option jval) : list issue :=
  match v with
  | None => [Issue "paymentMethod" "Required"]
  | Some (JStr m) =>
      if bool_decide (m ∈ payment_methods) then []
      else [Issue "paymentMethod" ("Invalid enum value, received '" +:+ m +:+ "'")]
  | Some other => [Issue "paymentMethod" ("Invalid enum value, received " +:+ typeof other)]
  end.

(** An optional text column that may be NULL. *)
Definition check_optional_text (path : string) (v : option jval) : list issue :=
  match v with
  | None | Some JNull | Some (JStr _) => []
  | Some other => [Issue path ("Expected string, received " +:+ typeof other)]
  end.

(** The optional [id] of an insert: an integer. *)
Definition check_optional_id (v : option jval) : list issue :=
  match v with
  | None => []
  | Some (JNum q) =>
      if Z.pos (Qden (Qred q)) =? 1 then [] else [Issue "id" "Expected integer, received float"]
  | Some other => [Issue "id" ("Expected number, received " +:+ typeof other)]
  end.

(** The optional [createdAt] of an insert: a [Date]. *)
Definition check_optional_date (v : option jval) : list issue :=
  match v with
  | None | Some (JDate _) => []
  | Some other => [Issue "createdAt" ("Expected date, received " +:+ typeof other)]
  end.

(** The issues of a body under
    [insertDonationSchema.omit({ userId: true, status: true })]. *)
Definition donation_issues (body : gmap string jval) : list issue :=
  check_optional_id (body !! "id")
  ++ check_amount (body !! "amount")
  ++ check_paymentMethod (body !! "paymentMethod")
  ++ check_optional_text "transactionId" (body !! "transactionId")
  ++ check_optional_text "qrImageUrl" (body !! "qrImageUrl")
  ++ check_optional_text "esewaReference" (body !! "esewaReference")
  ++ check_optional_date (body !! "createdAt").

Definition donation_fields : list string :=
  ["id"; "amount"; "paymentMethod"; "transactionId"; "qrImageUrl"; "esewaReference";
   "createdAt"].

(** A path between double quotes. *)
Definition quoted (path : string) : string :=
  let q := String (ascii_of_nat 34) EmptyString in q +:+ path +:+ q.

(** [fromZodError(error).message]: the issues gathered in one line. *)
Fixpoint join_issues (l : list issue) : string :=
  match l with
  | [] => EmptyString
  | [Issue path message] => message +:+ " at " +:+ quoted path
  | Issue path message :: rest =>
      message +:+ " at " +:+ quoted path +:+ "; " +:+ join_issues rest
  end.

Definition validation_message (l : list issue) : string :=
  "Validation error: " +:+ join_issues l.

(** [.parse(body)]: the known properties of a body without issue, a
    [ZodError] otherwise. *)
Definition parse_donation (body : gmap string jval) : M row :=
  match donation_issues body with
  | [] => ret (filter (fun kv => kv.1 ∈ donation_fields) body)
  | issues => throw (ZodError (validation_message issues))
  end.

End schema.

(** ** The donation controller *)

Module donation_controller.

(** A decimal with its two places, as the driver returns a
    [decimal(10, 2)]. *)
Definition show_money (q : Q) : string :=
  let cents := Qfloor (q * 100 + (1 # 2))%Q in
  (if cents <? 0 then "-" else EmptyString)
  +:+ show_int (Z.abs cents / 100) +:+ "."
  +:+ show_digit (Z.abs cents mod 100 / 10) +:+ show_digit (Z.abs cents mod 10).

Definition show_amount (v : option jval) : string :=
  match v with
  | Some (JNum q) => show_money q
  | _ => text_of v
  end.

(** [GET /admin/donations] *)
Definition admin_get_all (E : env) (req : request) : M response :=
  try_catch
    (let page := parseInt_or (query req !! "page") 1 in
     let perPage := parseInt_or (query req !! "perPage") 10 in
     let search := string_or (query req !! "search") EmptyString in
     let status := string_or (query req !! "status") "all" in
     let period := string_or (query req !! "period") "all_time" in
     let sort := string_or (query req !! "sort") "date" in
     let direction := string_or (query req !! "direction") "desc" in
     let* (donations, total) :=
       storage.getAllDonations E page perPage search status period sort direction in
     respond 200 (Listing "donations" donations total))
    (fun _ => respond 500 (Message "An error occurred while fetching donations")).

(** [GET /admin/donations/summary] *)
Definition admin_get_summary (E : env) (req : request) : M response :=
  try_catch
    (let period := string_or (query req !! "period") "all_time" in
     let* summary := storage.getDonationSummary E period in
     respond 200 (Report summary))
    (fun _ => respond 500 (Message "An error occurred while fetching donation summary")).

(** [PATCH /admin/donations/:id] *)
Definition admin_patch (E : env) (req : request) : M response :=
  let actor := Identity.id <$> user req in
  try_catch
    (match param_id req with
     | None => respond 400 (Message "Invalid donation ID")
     | Some donationId =>
         let* donation := storage.getDonationById donationId in
         match donation with
         | None => respond 404 (Message "Donation not found")
         | Some _ =>
             let updateData := pick ["status"] (body req) in
             let* updated := storage.updateDonation donationId updateData in
             logActivity E actor "donation"
               ("Updated donation status to " +:+ text_of (updateData !! "status")
                +:+ ": Donation ID " +:+ show_int donationId) ;;
             match updated with
             | updatedDonation :: _ => respond 200 (OneRow updatedDonation)
             | [] => respond 200 NoBody
             end
         end
     end)
    (fun _ => respond 500 (Message "An error occurred while updating the donation")).

(** [x || null] for a property of the insert object. *)
Definition or_null (v : option jval) : option jval :=
  if truthy v then v else None.

(** The payment-method branch of the creation handler: the status of
    the new donation and the details it is created from. *)
Definition settle (E : env) (req : request) (donationData : row) : M (string * row) :=
  if is_str (donationData !! "paymentMethod") "esewa" then
    ret ("pending",
         if truthy (body req !! "esewaId")
         then <["esewaReference" :=
                  JStr ("ESEWA-" +:+ show_int (Date_now E) +:+ "-" +:+ show_int (random E))]>
                donationData
         else donationData)
  else if is_str (donationData !! "paymentMethod") "bank_qr" then
    if truthy (body req !! "bankName") then
      match body req !! "bankName" with
      | Some (JStr bankName) =>
          ret ("pending",
               <["transactionId" :=
                   JStr ("BANK-" +:+ upper bankName +:+ "-" +:+ show_int (Date_now E))]>
                 (<["qrImageUrl" :=
                      JStr ("https://example.com/qr-codes/church-donation-"
                            +:+ show_int (Date_now E) +:+ ".png")]> donationData))
      | _ => throw (Error "TypeError: req.body.bankName?.toUpperCase is not a function")
      end
    else ret ("pending", donationData)
  else ret ("completed", donationData).

(** The handler of [POST /donations]. *)
Definition post_handler (E : env) (req : request) : M response :=
  try_catch
    (match user req with
     | None => respond 401 (Message "Not authenticated")
     | Some u =>
         let* donationData := schema.parse_donation (body req) in
         let* (donationStatus, donationDetails) := settle E req donationData in
         let values : row :=
           set_opt "amount" (donationDetails !! "amount")
             (set_opt "paymentMethod" (donationDetails !! "paymentMethod")
                (set_opt "transactionId" (or_null (donationDetails !! "transactionId"))
                   (set_opt "qrImageUrl" (or_null (donationDetails !! "qrImageUrl"))
                      (set_opt "esewaReference" (or_null (donationDetails !! "esewaReference"))
                         (<["userId" := int (Identity.id u)]>
                            {[ "status" := JStr donationStatus ]}))))) in
         let* created := storage.createDonation E values in
         let* newDonation := first_row created in
         logActivity E (Some (Identity.id u)) "donation"
           ("Made a donation of $" +:+ show_amount (newDonation !! "amount") +:+ " using "
            +:+ storage.replace_underscore (text_of (donationData !! "paymentMethod"))) ;;
         respond 201 (OneRow newDonation)
     end)
    (fun error =>
       match error with
       | ZodError message => respond 400 (Message message)
       | Error _ => respond 500 (Message "An error occurred while processing your donation")
       end).

(** [POST /donations] *)
Definition post (E : env) : request -> M response :=
  behind authenticateJWT (post_handler E).

(** The handler of [GET /donations/history]. *)
Definition get_history_handler (req : request) : M response :=
  try_catch
    (match user req with
     | None => respond 401 (Message "Not authenticated")
     | Some u =>
         let page := parseInt_or (query req !! "page") 1 in
         let perPage := parseInt_or (query req !! "perPage") 10 in
         let* (donations, total) :=
           storage.getDonationsByUserId (Identity.id u) page perPage in
         respond 200 (Rows donations)
     end)
    (fun _ => respond 500 (Message "An error occurred while fetching your donation history")).

(** [GET /donations/history] *)
Definition get_history : request -> M response :=
  behind authenticateJWT get_history_handler.

End donation_controller.

(** ** The contact controller *)

Module contact_controller.

(** [GET /admin/contacts] *)
Definition admin_get_all (req : request) : M response :=
  try_catch
    (let page := parseInt_or (query req !! "page") 1 in
     let perPage := parseInt_or (query req !! "perPage") 10 in
     let search := string_or (query req !! "search") EmptyString in
     let status := string_or (query req !! "status") "all" in
     let* (contacts, total) := storage.getAllContacts page perPage search status in
     respond 200 (Listing "contacts" contacts total))
    (fun _ => respond 500 (Message "An error occurred while fetching contacts")).

(** [PATCH /admin/contacts/:id] *)
Definition admin_patch (E : env) (req : request) : M response :=
  let actor := Identity.id <$> user req in
  try_catch
    (match param_id req with
     | None => respond 400 (Message "Invalid contact ID")
     | Some contactId =>
         let* contact := storage.getContactById contactId in
         match contact with
         | None => respond 404 (Message "Contact not found")
         | Some contact =>
             let updateData := pick ["status"] (body req) in
             let* updated := storage.updateContact contactId updateData in
             logActivity E actor "contact_message"
               ("Updated contact status to " +:+ text_of (updateData !! "status")
                +:+ ": Contact from " +:+ text_of (contact !! "email")) ;;
             match updated with
             | updatedContact :: _ => respond 200 (OneRow updatedContact)
             | [] => respond 200 NoBody
             end
         end
     end)
    (fun _ => respond 500 (Message "An error occurred while updating the contact")).

End contact_controller.

(** ** The event controller *)

Module event_controller.

(** [GET /events]: with a positive [limit], which defaults to [perPage],
    the upcoming events; the paginated listing otherwise. *)
Definition get_all (E : env) (req : request) : M response :=
  try_catch
    (let page := parseInt_or (query req !! "page") 1 in
     let perPage := parseInt_or (query req !! "perPage") 6 in
     let limit := parseInt_or (query req !! "limit") perPage in
     if 0 <? limit then
       let* upcomingEvents := storage.getUpcomingEvents E limit in
       let* d := read_db (fun d => d) in
       let formattedEvents := storage.formatted_event d <$> upcomingEvents in
       respond 200 (Listing "events" formattedEvents (Z.of_nat (length formattedEvents)))
     else
       let* (events, total) := storage.getAllEvents page perPage in
       respond 200 (Listing "events" events total))
    (fun _ => respond 500 (Message "An error occurred while fetching events")).

(** The shape of an event in the answers to a write:
    [date.toISOString()] throws unless [date] is a date. *)
Definition formattedEvent (event : row) : M row :=
  match event !! "date", event !! "createdAt" with
  | Some (JDate _), Some (JDate _) =>
      ret (filter (fun kv => kv.1 ∈ ["id"; "title"; "description"; "date"; "mediaId";
                                     "createdAt"]) event)
  | _, _ => throw (Error "TypeError: toISOString is not a function")
  end.

(** The handler of [PATCH /events/:id]. *)
Definition patch_handler (E : env) (req : request) : M response :=
  try_catch
    (match user req with
     | None => respond 401 (Message "Not authenticated")
     | Some u =>
         match param_id req with
         | None => respond 400 (Message "Invalid event ID")
         | Some eventId =>
             let* event := storage.getEventById eventId in
             match event with
             | None => respond 404 (Message "Event not found")
             | Some _ =>
                 let* updated := storage.updateEvent eventId (body req) in
                 let* updatedEvent := first_row updated in
                 logActivity E (Some (Identity.id u)) "event_update"
                   ("Updated event: " +:+ text_of (updatedEvent !! "title")) ;;
                 let* formatted := formattedEvent updatedEvent in
                 respond 200 (OneRow formatted)
             end
         end
     end)
    (fun _ => respond 500 (Message "An error occurred while updating the event")).

(** [PATCH /events/:id] *)
Definition patch (E : env) : request -> M response :=
  behind authenticateJWT (patch_handler E).

End event_controller.

(** ** The sermon controller *)

Module sermon_controller.

(** [GET /sermons]: the latest sermons with a positive [limit], the
    paginated listing otherwise. *)
Definition get_all (req : request) : M response :=
  try_catch
    (let page := parseInt_or (query req !! "page") 1 in
     let perPage := parseInt_or (query req !! "perPage") 10 in
     let search := string_or (query req !! "search") EmptyString in
     let filter := string_or (query req !! "filter") "all" in
     let limit := parseInt_or (query req !! "limit") 0 in
     if 0 <? limit then
       let* latestSermons := storage.getLatestSermons limit in
       let* d := read_db (fun d => d) in
       let* formattedSermons :=
         storage.map_rows (storage.formatted_sermon d)
           "TypeError: Cannot read properties of null (reading 'cloudinaryUrl')"
           latestSermons in
       respond 200 (Listing "sermons" formattedSermons (Z.of_nat (length formattedSermons)))
     else
       let* (sermons, total) := storage.getAllSermons page perPage search filter in
       respond 200 (Listing "sermons" sermons total))
    (fun _ => respond 500 (Message "An error occurred while fetching sermons")).

Definition formattedSermon (sermon : row) : M row :=
  match sermon !! "date", sermon !! "createdAt" with
  | Some (JDate _), Some (JDate _) =>
      ret (filter (fun kv => kv.1 ∈ ["id"; "title"; "description"; "date"; "mediaId";
                                     "duration"; "createdAt"]) sermon)
  | _, _ => throw (Error "TypeError: toISOString is not a function")
  end.

(** The handler of [PATCH /sermons/:id]. *)
Definition patch_handler (E : env) (req : request) : M response :=
  try_catch
    (match user req with
     | None => respond 401 (Message "Not authenticated")
     | Some u =>
         if negb (String.eqb (Identity.role u) "owner")
         then respond 403 (Message "Only the owner can update sermons")
         else
           match param_id req with
           | None => respond 400 (Message "Invalid sermon ID")
           | Some sermonId =>
               let* sermon := storage.getSermonById sermonId in
               match sermon with
               | None => respond 404 (Message "Sermon not found")
               | Some _ =>
                   let* updated := storage.updateSermon sermonId (body req) in
                   let* updatedSermon := first_row updated in
                   logActivity E (Some (Identity.id u)) "sermon_update"
                     ("Updated sermon: " +:+ text_of (updatedSermon !! "title")) ;;
                   let* formatted := formattedSermon updatedSermon in
                   respond 200 (OneRow formatted)
               end
           end
     end)
    (fun _ => respond 500 (Message "An error occurred while updating the sermon")).

(** [PATCH /sermons/:id] *)
Definition patch (E : env) : request -> M response :=
  behind authenticateJWT (patch_handler E).

End sermon_controller.

(** ** The activity controller *)

Module activity_controller.

(** [GET /admin/activity] *)
Definition get_all (E : env) (req : request) : M response :=
  try_catch
    (let page := parseInt_or (query req !! "page") 1 in
     let perPage := parseInt_or (query req !! "perPage") 15 in
     let search := string_or (query req !! "search") EmptyString in
     let action := string_or (query req !! "action") "all" in
     let period := string_or (query req !! "period") "all_time" in
     let sort := string_or (query req !! "sort") "date" in
     let direction := string_or (query req !! "direction") "desc" in
     let* (activities, total) :=
       storage.getAllActivities E page perPage search action period sort direction in
     respond 200 (Listing "activities" activities total))
    (fun _ => respond 500 (Message "An error occurred while fetching activity logs")).

End activity_controller.

(** ** The media controller *)

Module media_controller.

(** [limits.fileSize]: ten megabytes. *)
Definition fileSize : Z := 10 * 1024 * 1024.

(** [fileFilter]: images and videos only. *)
Definition fileFilter (file : file_part) : bool :=
  starts_with "image/" (mimetype file) || starts_with "video/" (mimetype file).

(** [upload.single(field)]: multer turns away a file under another
    field name, a file its filter refuses and a file larger than the
    limit by passing an error on; otherwise the file, if any, becomes
    [req.file]. *)
Definition upload_single (field : string) (req : request) : outcome (option file_part) :=
  match upload req with
  | None => Ok None
  | Some file =>
      if negb (String.eqb (fieldname file) field) then Throw (Error "Unexpected field")
      else if negb (fileFilter file) then Throw (Error "Only images and videos are allowed")
      else if fileSize <? size file then Throw (Error "File too large")
      else Ok (Some file)
  end.

(** [uploadToCloudinary] ([utils/cloudinary.ts]). *)
Definition uploadToCloudinary (E : env) (file : file_part) (resourceType : string)
    : M upload_result :=
  emit (UploadToCloudinary (mimetype file) resourceType) ;;
  match cloudinary_upload E (mimetype file) resourceType with
  | Some result => ret result
  | None => throw (Error "Cloudinary upload error")
  end.

(** The issues of the media record under [insertMediaSchema]. *)
Definition media_issues (mediaData : row) : list schema.issue :=
  (match mediaData !! "title" with
   | Some (JStr t) =>
       if (String.length t <? 2)%nat
       then [schema.Issue "title" "Title must be at least 2 characters"] else []
   | _ => [schema.Issue "title" "Expected string"]
   end)
  ++ (match mediaData !! "type" with
      | Some (JStr t) =>
          if bool_decide (t ∈ ["image"; "video"]) then []
          else [schema.Issue "type" ("Invalid enum value, received '" +:+ t +:+ "'")]
      | _ => [schema.Issue "type" "Invalid enum value"]
      end)
  ++ schema.check_optional_text "description" (mediaData !! "description")
  ++ (match mediaData !! "cloudinaryPublicId" with
      | Some (JStr _) => []
      | _ => [schema.Issue "cloudinaryPublicId" "Expected string"]
      end).

Definition parse_media (mediaData : row) : M row :=
  match media_issues mediaData with
  | [] => ret mediaData
  | issues => throw (ZodError (schema.validation_message issues))
  end.

(** [GET /admin/media] *)
Definition admin_get_all (req : request) : M response :=
  try_catch
    (let page := parseInt_or (query req !! "page") 1 in
     let perPage := parseInt_or (query req !! "perPage") 12 in
     let search := string_or (query req !! "search") EmptyString in
     let type := string_or (query req !! "type") "all" in
     let* (media, total) := storage.getAllMedia page perPage search type in
     respond 200 (Listing "media" media total))
    (fun _ => respond 500 (Message "An error occurred while fetching media")).

(** The handler of [POST /admin/media], given [req.file]. *)
Definition admin_post_handler (E : env) (req : request) (file : option file_part)
    : M response :=
  try_catch
    (match user req with
     | None => respond 401 (Message "Not authenticated")
     | Some u =>
         match file with
         | None => respond 400 (Message "No file uploaded")
         | Some file =>
             let title := body req !! "title" in
             let description := default (JStr EmptyString) (body req !! "description") in
             let type := body req !! "type" in
             if negb (truthy title) || negb (truthy type)
             then respond 400 (Message "Title and type are required")
             else
               let mediaType := if is_str type "image" then "image" else "video" in
               let* result := uploadToCloudinary E file mediaType in
               match secure_url result with
               | None | Some EmptyString =>
                   respond 500 (Message "Failed to upload file to Cloudinary")
               | Some url =>
                   let mediaData : row :=
                     set_opt "type" type
                       (set_opt "title" title
                          (list_to_map
                             [("cloudinaryUrl", JStr url);
                              ("cloudinaryPublicId", JStr (public_id result));
                              ("description", description);
                              ("uploadedBy", int (Identity.id u))])) in
                   let* validatedData := parse_media mediaData in
                   let* created := storage.createMedia E validatedData in
                   logActivity E (Some (Identity.id u)) "media_upload"
                     ("Uploaded " +:+ text_of type +:+ ": " +:+ text_of title) ;;
                   match created with
                   | newMedia :: _ => respond 201 (OneRow newMedia)
                   | [] => respond 201 NoBody
                   end
               end
         end
     end)
    (fun error =>
       match error with
       | ZodError message => respond 400 (Message message)
       | Error message =>
           respond 500 (MessageError "An error occurred while uploading media" message)
       end).

(** [POST /admin/media]: multer first; an error it passes on reaches the
    framework's error handler, which answers 500 without running the
    handler. *)
Definition admin_post (E : env) (req : request) : M response :=
  match upload_single "mediaFile" req with
  | Throw (Error message) | Throw (ZodError message) => respond 500 (Message message)
  | Ok file => admin_post_handler E req file
  end.

(** [PATCH /admin/media/:id] *)
Definition admin_patch (E : env) (req : request) : M response :=
  try_catch
    (match user req with
     | None => respond 401 (Message "Not authenticated")
     | Some u =>
         match param_id req with
         | None => respond 400 (Message "Invalid media ID")
         | Some mediaId =>
             let* media := storage.getMediaById mediaId in
             match media with
             | None => respond 404 (Message "Media not found")
             | Some media =>
                 let updateData := pick ["title"; "description"] (body req) in
                 let* updated := storage.updateMedia mediaId updateData in
                 logActivity E (Some (Identity.id u)) "media_upload"
                   ("Updated " +:+ text_of (media !! "type") +:+ ": "
                    +:+ text_of (if truthy (updateData !! "title")
                                 then updateData !! "title" else media !! "title")) ;;
                 match updated with
                 | updatedMedia :: _ => respond 200 (OneRow updatedMedia)
                 | [] => respond 200 NoBody
                 end
             end
         end
     end)
    (fun _ => respond 500 (Message "An error occurred while updating the media")).

End media_controller.

(** ** The router ([routes.ts]) *)

(** The mount of the admin routers: [authenticateJWT], then [isOwner]. *)
Definition admin_mount (route : request -> M response) : request -> M response :=
  behind authenticateJWT (behind isOwner route).

(** [app.use(setUserInfo)] before every route. *)
Definition app (E : env) (route : request -> M response) (req : request) : M response :=
  let* p := setUserInfo E req in
  match p with
  | Answer r => ret r
  | Next req' => route req'
  end.

(** ** The other storage helpers *)

(** The helpers of the [storage] object that the handlers above do not
    call: the remaining inserts, the deletions, the lookup by email and
    the counters of the dashboard. *)
Module storage_more.

(** *** Users *)

(** [createUser]: [role], [status], [notificationOptIn] and [createdAt]
    have column defaults. *)
Definition createUser (E : env) (user : row) : M (list row) :=
  storage.helper "createUser"
    (run_db (fun d =>
       let defaults : row :=
         <["role" := JStr "user"]>
           (<["status" := JStr "active"]>
              (<["notificationOptIn" := JBool true]> (storage.created E))) in
       let '(r, d') := insert_row Users defaults user d in
       Some ([r], d'))).

(** [findFirst({ where: eq(users.email, email) })]. *)
Definition getUserByEmail (email : string) : M (option row) :=
  storage.helper "getUserByEmail"
    (read_db (fun d => List.find (fun r => is_str (r !! "email") email) (rows (users d)))).

(** *** Contacts *)

Definition createContact (E : env) (contact : row) : M (list row) :=
  storage.helper "createContact"
    (run_db (fun d =>
       let defaults : row := <["status" := JStr "unread"]> (storage.created E) in
       let '(r, d') := insert_row Contacts defaults contact d in
       Some ([r], d'))).

Definition deleteContact (id : Z) : M unit :=
  storage.helper "deleteContact" (run_db (fun d => Some (tt, delete_rows Contacts id d))).

(** [getNewContactsCount]: the contacts created since
    [thirtyDaysAgo.setDate(thirtyDaysAgo.getDate() - 30)]. *)
Definition getNewContactsCount (E : env) : M Z :=
  storage.helper "getNewContactsCount"
    (let thirtyDaysAgo := JSDate.setDate (now E) (JSDate.getDate (now E) - 30) in
     count_where Contacts (fun r => gte (r !! "createdAt") thirtyDaysAgo)).

Definition getUnreadContactsCount : M Z :=
  storage.helper "getUnreadContactsCount"
    (count_where Contacts (fun r => is_str (r !! "status") "unread")).

(** *** Media *)

Definition deleteMedia (id : Z) : M unit :=
  storage.helper "deleteMedia" (run_db (fun d => Some (tt, delete_rows Media id d))).

(** *** Events *)

Definition createEvent (E : env) (eventData : row) : M (list row) :=
  storage.helper "createEvent"
    (run_db (fun d => let '(r, d') := insert_row Events (storage.created E) eventData d in
                      Some ([r], d'))).

Definition deleteEvent (id : Z) : M unit :=
  storage.helper "deleteEvent" (run_db (fun d => Some (tt, delete_rows Events id d))).

Definition getUpcomingEventsCount (E : env) : M Z :=
  storage.helper "getUpcomingEventsCount"
    (count_where Events (fun r => gte (r !! "date") (now E))).

(** *** Sermons *)

Definition createSermon (E : env) (sermonData : row) : M (list row) :=
  storage.helper "createSermon"
    (run_db (fun d => let '(r, d') := insert_row Sermons (storage.created E) sermonData d in
                      Some ([r], d'))).

Definition deleteSermon (id : Z) : M unit :=
  storage.helper "deleteSermon" (run_db (fun d => Some (tt, delete_rows Sermons id d))).

(** *** Activities *)

Definition getActivityById (id : Z) : M (option row) :=
  storage.helper "getActivityById" (read_db (fun d => find_by_id id (rows (activities d)))).

(** [storage.logActivity]: the same insert as [createActivity], under
    another name. *)
Definition logActivity (E : env) (activityData : row) : M (list row) :=
  storage.helper "logActivity"
    (run_db (fun d => let '(r, d') := insert_row Activities (storage.created E) activityData d in
                      Some ([r], d'))).

End storage_more.

(** [deleteFromCloudinary] ([utils/cloudinary.ts]): the credentials
    check and the call of the asset store, whose errors are thrown
    again. *)
Definition deleteFromCloudinary (E : env) (publicId resourceType : string) : M unit :=
  emit (DeleteFromCloudinary publicId resourceType) ;;
  if cloudinary_destroy E publicId resourceType then ret tt
  else throw (Error "Cloudinary delete error").

(** [isAdmin] ([auth.middleware.ts]): the roles [admin] and [owner]
    pass. *)
Definition isAdmin (req : request) : passage :=
  match user req with
  | None => Answer (Response 401 (Message "Unauthorized - Authentication required"))
  | Some u =>
      if negb (String.eqb (Identity.role u) "admin") && negb (String.eqb (Identity.role u) "owner")
      then Answer (Response 403 (Message "Forbidden - Admin access required"))
      else Next req
  end.

(** ** The other validation schemas ([schema.ts]) *)

Module schema_more.

(** What the schemas cannot be read from this repository for: the
    pattern [z.string().email()] tests a string against. *)
Record validators : Type := Validators {
  is_email : string -> bool
}.

(** A required text with a least length. *)
Definition check_text (path : string) (least : nat) (too_short : string)
    (v : option jval) : list schema.issue :=
  match v with
  | None => [schema.Issue path "Required"]
  | Some (JStr s) =>
      if (String.length s <? least)%nat then [schema.Issue path too_short] else []
  | Some other => [schema.Issue path ("Expected string, received " +:+ schema.typeof other)]
  end.

(** [email]: a required text in the form of an address. *)
Definition check_email (V : validators) (v : option jval) : list schema.issue :=
  match v with
  | None => [schema.Issue "email" "Required"]
  | Some (JStr s) =>
      if is_email V s then [] else [schema.Issue "email" "Must provide a valid email"]
  | Some other => [schema.Issue "email" ("Expected string, received " +:+ schema.typeof other)]
  end.

(** A column with a default whose schema is [z.enum(names)]. *)
Definition check_optional_enum (path : string) (names : list string)
    (v : option jval) : list schema.issue :=
  match v with
  | None => []
  | Some (JStr s) =>
      if bool_decide (s ∈ names) then []
      else [schema.Issue path ("Invalid enum value, received '" +:+ s +:+ "'")]
  | Some other => [schema.Issue path ("Invalid enum value, received " +:+ schema.typeof other)]
  end.

(** A text column with a default: optional, not NULL. *)
Definition check_defaulted_text (path : string) (v : option jval) : list schema.issue :=
  match v with
  | None | Some (JStr _) => []
  | Some other => [schema.Issue path ("Expected string, received " +:+ schema.typeof other)]
  end.

(** A boolean column that may be NULL. *)
Definition check_optional_boolean (path : string) (v : option jval) : list schema.issue :=
  match v with
  | None | Some JNull | Some (JBool _) => []
  | Some other => [schema.Issue path ("Expected boolean, received " +:+ schema.typeof other)]
  end.

(** An integer column: required when [required], otherwise optional and
    possibly NULL. *)
Definition check_integer (path : string) (required : bool) (v : option jval)
    : list schema.issue :=
  match v with
  | None => if required then [schema.Issue path "Required"] else []
  | Some (JNum q) =>
      if Z.pos (Qden (Qred q)) =? 1 then []
      else [schema.Issue path "Expected integer, received float"]
  | Some JNull =>
      if required then [schema.Issue path "Expected number, received null"] else []
  | Some other => [schema.Issue path ("Expected number, received " +:+ schema.typeof other)]
  end.

(** A date column: required when [required], otherwise optional and
    possibly NULL. *)
Definition check_date (path : string) (required : bool) (v : option jval)
    : list schema.issue :=
  match v with
  | None => if required then [schema.Issue path "Required"] else []
  | Some (JDate _) => []
  | Some JNull =>
      if required then [schema.Issue path "Expected date, received null"] else []
  | Some other => [schema.Issue path ("Expected date, received " +:+ schema.typeof other)]
  end.

(** [.parse(value)] for a schema given by its issues and its fields:
    the known properties of a value without issue, a [ZodError]
    otherwise. *)
Definition parse (issues : list schema.issue) (fields : list string)
    (value : gmap string jval) : M row :=
  match issues with
  | [] => ret (filter (fun kv => kv.1 ∈ fields) value)
  | _ => throw (ZodError (schema.validation_message issues))
  end.

(** [insertUserSchema]. *)
Definition user_issues (V : validators) (body : gmap string jval) : list schema.issue :=
  schema.check_optional_id (body !! "id")
  ++ check_text "name" 2 "Name must be at least 2 characters" (body !! "name")
  ++ check_email V (body !! "email")
  ++ check_text "password" 6 "Password must be at least 6 characters" (body !! "password")
  ++ check_optional_enum "role" ["user"; "owner"] (body !! "role")
  ++ check_optional_enum "status" ["active"; "inactive"] (body !! "status")
  ++ check_optional_boolean "notificationOptIn" (body !! "notificationOptIn")
  ++ schema.check_optional_text "profilePictureUrl" (body !! "profilePictureUrl")
  ++ schema.check_optional_date (body !! "createdAt").

Definition parse_user (V : validators) (body : gmap string jval) : M row :=
  parse (user_issues V body) (columns Users) body.

(** [insertContactSchema]. *)
Definition contact_issues (V : validators) (body : gmap string jval) : list schema.issue :=
  schema.check_optional_id (body !! "id")
  ++ check_text "name" 2 "Name must be at least 2 characters" (body !! "name")
  ++ check_email V (body !! "email")
  ++ check_text "message" 10 "Message must be at least 10 characters" (body !! "message")
  ++ check_defaulted_text "status" (body !! "status")
  ++ schema.check_optional_text "responseMessage" (body !! "responseMessage")
  ++ check_date "responseDate" false (body !! "responseDate")
  ++ schema.check_optional_date (body !! "createdAt").

Definition parse_contact (V : validators) (body : gmap string jval) : M row :=
  parse (contact_issues V body) (columns Contacts) body.

(** [insertEventSchema]: the date is refined by
    [new Date(date) > new Date()]. *)
Definition check_future (E : env) (v : option jval) : list schema.issue :=
  match v with
  | Some (JDate t) =>
      if now E <? t then [] else [schema.Issue "date" "Event date must be in the future"]
  | _ => check_date "date" true v
  end.

Definition event_issues (E : env) (body : gmap string jval) : list schema.issue :=
  schema.check_optional_id (body !! "id")
  ++ check_text "title" 2 "Title must be at least 2 characters" (body !! "title")
  ++ check_text "description" 10 "Description must be at least 10 characters"
       (body !! "description")
  ++ check_future E (body !! "date")
  ++ check_integer "mediaId" false (body !! "mediaId")
  ++ schema.check_optional_date (body !! "createdAt").

Definition parse_event (E : env) (body : gmap string jval) : M row :=
  parse (event_issues E body) (columns Events) body.

(** [insertSermonSchema]. *)
Definition sermon_issues (body : gmap string jval) : list schema.issue :=
  schema.check_optional_id (body !! "id")
  ++ check_text "title" 2 "Title must be at least 2 characters" (body !! "title")
  ++ check_text "description" 10 "Description must be at least 10 characters"
       (body !! "description")
  ++ check_date "date" true (body !! "date")
  ++ check_integer "mediaId" true (body !! "mediaId")
  ++ check_text "duration" 0 EmptyString (body !! "duration")
  ++ schema.check_optional_date (body !! "createdAt").

Definition parse_sermon (body : gmap string jval) : M row :=
  parse (sermon_issues body) (columns Sermons) body.

End schema_more.

(** ** The other routes of the controllers *)

(** [value.toISOString()] on the columns named: throws unless each
    holds a date. *)
Definition iso_dates (columns : list string) (r : row) : M unit :=
  if forallb (fun c => match r !! c with Some (JDate _) => true | _ => false end) columns
  then ret tt
  else throw (Error "TypeError: toISOString is not a function").

(** The properties of [r] that an answer copies. *)
Definition copy_of (names : list string) (r : row) : row :=
  filter (fun kv => kv.1 ∈ names) r.

Module user_controller_more.

(** [POST /admin/users] *)
Definition admin_post (V : schema_more.validators) (E : env) (req : request) : M response :=
  let actor := Identity.id <$> user req in
  try_catch
    (let* userData := schema_more.parse_user V (body req) in
     let* existingUser := storage_more.getUserByEmail (text_of (userData !! "email")) in
     match existingUser with
     | Some _ => respond 409 (Message "User with this email already exists")
     | None =>
         let hashedPassword := bcrypt_hash E (text_of (userData !! "password")) in
         let* created :=
           storage_more.createUser E (<["password" := JStr hashedPassword]> userData) in
         let* newUser := first_row created in
         logActivity E actor "user_update"
           ("Admin created a new user: " +:+ text_of (newUser !! "email")) ;;
         respond 201 (OneRow (delete "password" newUser))
     end)
    (fun error =>
       match error with
       | ZodError message => respond 400 (Message message)
       | Error _ => respond 500 (Message "An error occurred while creating the user")
       end).

(** [GET /admin/users/:id] *)
Definition admin_get_one (req : request) : M response :=
  try_catch
    (match param_id req with
     | None => respond 400 (Message "Invalid user ID")
     | Some userId =>
         let* user := storage.getUserById userId in
         match user with
         | None => respond 404 (Message "User not found")
         | Some user => respond 200 (OneRow (delete "password" user))
         end
     end)
    (fun _ => respond 500 (Message "An error occurred while fetching the user")).

End user_controller_more.

Module contact_controller_more.

(** [GET /admin/contacts/:id] *)
Definition admin_get_one (req : request) : M response :=
  try_catch
    (match param_id req with
     | None => respond 400 (Message "Invalid contact ID")
     | Some contactId =>
         let* contact := storage.getContactById contactId in
         match contact with
         | None => respond 404 (Message "Contact not found")
         | Some contact => respond 200 (OneRow contact)
         end
     end)
    (fun _ => respond 500 (Message "An error occurred while fetching the contact")).

(** [POST /admin/contacts/:id/respond] *)
Definition admin_respond (E : env) (req : request) : M response :=
  let actor := Identity.id <$> user req in
  try_catch
    (match param_id req with
     | None => respond 400 (Message "Invalid contact ID")
     | Some contactId =>
         let* contact := storage.getContactById contactId in
         match contact with
         | None => respond 404 (Message "Contact not found")
         | Some contact =>
             match body req !! "message" with
             | Some message =>
                 if negb (truthy (Some message))
                 then respond 400 (Message "Response message is required")
                 else
                   let* updated :=
                     storage.updateContact contactId
                       (<["status" := JStr "responded"]>
                          (<["responseMessage" := message]>
                             {[ "responseDate" := JDate (now E) ]})) in
                   logActivity E actor "contact_message"
                     ("Responded to contact from " +:+ text_of (contact !! "email")) ;;
                   match updated with
                   | updatedContact :: _ => respond 200 (OneRow updatedContact)
                   | [] => respond 200 NoBody
                   end
             | None => respond 400 (Message "Response message is required")
             end
         end
     end)
    (fun _ => respond 500 (Message "An error occurred while responding to the contact")).

(** [DELETE /admin/contacts/:id] *)
Definition admin_delete (E : env) (req : request) : M response :=
  let actor := Identity.id <$> user req in
  try_catch
    (match param_id req with
     | None => respond 400 (Message "Invalid contact ID")
     | Some contactId =>
         let* contact := storage.getContactById contactId in
         match contact with
         | None => respond 404 (Message "Contact not found")
         | Some contact =>
             storage_more.deleteContact contactId ;;
             logActivity E actor "contact_message"
               ("Deleted contact from " +:+ text_of (contact !! "email")) ;;
             respond 200 (Message "Contact deleted successfully")
         end
     end)
    (fun _ => respond 500 (Message "An error occurred while deleting the contact")).

(** [newContact.message.substring(0, 50)]. *)
Definition excerpt (v : option jval) : M string :=
  match v with
  | Some (JStr s) => ret (String.substring 0 50 s)
  | _ => throw (Error "TypeError: newContact.message.substring is not a function")
  end.

(** [POST /contacts]: open to everyone. *)
Definition post (V : schema_more.validators) (E : env) (req : request) : M response :=
  let actor := Identity.id <$> user req in
  try_catch
    (let* contactData := schema_more.parse_contact V (body req) in
     let* created :=
       storage_more.createContact E (<["status" := JStr "unread"]> contactData) in
     let* newContact := first_row created in
     let* start := excerpt (newContact !! "message") in
     logActivity E actor "contact_message"
       ("New contact message from " +:+ text_of (newContact !! "email") +:+ ": "
        +:+ start +:+ "...") ;;
     respond 201 (Message "Contact message submitted successfully"))
    (fun error =>
       match error with
       | ZodError message => respond 400 (Message message)
       | Error _ =>
           respond 500 (Message "An error occurred while submitting your contact message")
       end).

End contact_controller_more.

Module donation_controller_more.

(** [GET /admin/donations/:id] *)
Definition admin_get_one (req : request) : M response :=
  try_catch
    (match param_id req with
     | None => respond 400 (Message "Invalid donation ID")
     | Some donationId =>
         let* donation := storage.getDonationById donationId in
         match donation with
         | None => respond 404 (Message "Donation not found")
         | Some donation =>
             let* d := read_db (fun d => d) in
             iso_dates ["createdAt"] donation ;;
             respond 200
               (OneRow (storage.with_user_columns (storage.user_of "userId" d donation)
                          (copy_of ["id"; "userId"; "amount"; "paymentMethod"; "status";
                                    "createdAt"] donation)))
         end
     end)
    (fun _ => respond 500 (Message "An error occurred while fetching the donation")).

End donation_controller_more.

Module media_controller_more.

(** [media.uploader?.name || "Unknown"]. *)
Definition uploader_name (d : database) (media : row) : jval :=
  let name := storage.user_of "uploadedBy" d media ≫= (.!! "name") in
  if truthy name then default JNull name else JStr "Unknown".

(** [GET /admin/media/:id] *)
Definition admin_get_one (req : request) : M response :=
  try_catch
    (match param_id req with
     | None => respond 400 (Message "Invalid media ID")
     | Some mediaId =>
         let* media := storage.getMediaById mediaId in
         match media with
         | None => respond 404 (Message "Media not found")
         | Some media =>
             let* d := read_db (fun d => d) in
             iso_dates ["createdAt"] media ;;
             respond 200
               (OneRow (<["uploadedBy" := uploader_name d media]>
                          (copy_of ["id"; "cloudinaryUrl"; "type"; "title"; "description";
                                    "createdAt"] media)))
         end
     end)
    (fun _ => respond 500 (Message "An error occurred while fetching the media")).

(** [GET /media/:id]: the public view. *)
Definition get_one (req : request) : M response :=
  try_catch
    (match param_id req with
     | None => respond 400 (Message "Invalid media ID")
     | Some mediaId =>
         let* media := storage.getMediaById mediaId in
         match media with
         | None => respond 404 (Message "Media not found")
         | Some media =>
             iso_dates ["createdAt"] media ;;
             respond 200
               (OneRow (copy_of ["id"; "cloudinaryUrl"; "type"; "title"; "description";
                                 "createdAt"] media))
         end
     end)
    (fun _ => respond 500 (Message "An error occurred while fetching the media")).

(** [DELETE /admin/media/:id]: the asset first, then the row. *)
Definition admin_delete (E : env) (req : request) : M response :=
  try_catch
    (match user req with
     | None => respond 401 (Message "Not authenticated")
     | Some u =>
         match param_id req with
         | None => respond 400 (Message "Invalid media ID")
         | Some mediaId =>
             let* media := storage.getMediaById mediaId in
             match media with
             | None => respond 404 (Message "Media not found")
             | Some media =>
                 deleteFromCloudinary E (text_of (media !! "cloudinaryPublicId"))
                   (text_of (media !! "type")) ;;
                 storage_more.deleteMedia mediaId ;;
                 logActivity E (Some (Identity.id u)) "media_upload"
                   ("Deleted " +:+ text_of (media !! "type") +:+ ": "
                    +:+ text_of (media !! "title")) ;;
                 respond 200 (Message "Media deleted successfully")
             end
         end
     end)
    (fun _ => respond 500 (Message "An error occurred while deleting the media")).

End media_controller_more.

Module event_controller_more.

(** [GET /events/:id] *)
Definition get_one (req : request) : M response :=
  try_catch
    (match param_id req with
     | None => respond 400 (Message "Invalid event ID")
     | Some eventId =>
         let* event := storage.getEventById eventId in
         match event with
         | None => respond 404 (Message "Event not found")
         | Some event =>
             let* d := read_db (fun d => d) in
             iso_dates ["date"; "createdAt"] event ;;
             respond 200 (OneRow (storage.formatted_event d event))
         end
     end)
    (fun _ => respond 500 (Message "An error occurred while fetching the event")).

(** The handler of [POST /events]. *)
Definition post_handler (E : env) (req : request) : M response :=
  try_catch
    (match user req with
     | None => respond 401 (Message "Not authenticated")
     | Some u =>
         let* eventData := schema_more.parse_event E (body req) in
         let* created := storage_more.createEvent E eventData in
         let* newEvent := first_row created in
         logActivity E (Some (Identity.id u)) "event_create"
           ("Created event: " +:+ text_of (newEvent !! "title")) ;;
         let* formatted := event_controller.formattedEvent newEvent in
         respond 201 (OneRow formatted)
     end)
    (fun error =>
       match error with
       | ZodError message => respond 400 (Message message)
       | Error _ => respond 500 (Message "An error occurred while creating the event")
       end).

(** [POST /events] *)
Definition post (E : env) : request -> M response :=
  behind authenticateJWT (post_handler E).

(** The handler of [DELETE /events/:id]. *)
Definition delete_handler (E : env) (req : request) : M response :=
  try_catch
    (match user req with
     | None => respond 401 (Message "Not authenticated")
     | Some u =>
         match param_id req with
         | None => respond 400 (Message "Invalid event ID")
         | Some eventId =>
             let* event := storage.getEventById eventId in
             match event with
             | None => respond 404 (Message "Event not found")
             | Some event =>
                 storage_more.deleteEvent eventId ;;
                 logActivity E (Some (Identity.id u)) "event_delete"
                   ("Deleted event: " +:+ text_of (event !! "title")) ;;
                 respond 200 (Message "Event deleted successfully")
             end
         end
     end)
    (fun _ => respond 500 (Message "An error occurred while deleting the event")).

(** [DELETE /events/:id] *)
Definition delete (E : env) : request -> M response :=
  behind authenticateJWT (delete_handler E).

End event_controller_more.

Module sermon_controller_more.

(** [GET /sermons/:id] *)
Definition get_one (req : request) : M response :=
  try_catch
    (match param_id req with
     | None => respond 400 (Message "Invalid sermon ID")
     | Some sermonId =>
         let* sermon := storage.getSermonById sermonId in
         match sermon with
         | None => respond 404 (Message "Sermon not found")
         | Some sermon =>
             let* d := read_db (fun d => d) in
             iso_dates ["date"; "createdAt"] sermon ;;
             match storage.formatted_sermon d sermon with
             | Some formatted => respond 200 (OneRow formatted)
             | None =>
                 throw (Error "TypeError: Cannot read properties of null (reading 'cloudinaryUrl')")
             end
         end
     end)
    (fun _ => respond 500 (Message "An error occurred while fetching the sermon")).

(** The handler of [POST /sermons]. *)
Definition post_handler (E : env) (req : request) : M response :=
  try_catch
    (match user req with
     | None => respond 401 (Message "Not authenticated")
     | Some u =>
         if negb (String.eqb (Identity.role u) "owner")
         then respond 403 (Message "Only the owner can create sermons")
         else
           let* sermonData := schema_more.parse_sermon (body req) in
           let* created := storage_more.createSermon E sermonData in
           let* newSermon := first_row created in
           logActivity E (Some (Identity.id u)) "sermon_create"
             ("Created sermon: " +:+ text_of (newSermon !! "title")) ;;
           let* formatted := sermon_controller.formattedSermon newSermon in
           respond 201 (OneRow formatted)
     end)
    (fun error =>
       match error with
       | ZodError message => respond 400 (Message message)
       | Error _ => respond 500 (Message "An error occurred while creating the sermon")
       end).

(** [POST /sermons] *)
Definition post (E : env) : request -> M response :=
  behind authenticateJWT (post_handler E).

(** The handler of [DELETE /sermons/:id]. *)
Definition delete_handler (E : env) (req : request) : M response :=
  try_catch
    (match user req with
     | None => respond 401 (Message "Not authenticated")
     | Some u =>
         if negb (String.eqb (Identity.role u) "owner")
         then respond 403 (Message "Only the owner can delete sermons")
         else
           match param_id req with
           | None => respond 400 (Message "Invalid sermon ID")
           | Some sermonId =>
               let* sermon := storage.getSermonById sermonId in
               match sermon with
               | None => respond 404 (Message "Sermon not found")
               | Some sermon =>
                   storage_more.deleteSermon sermonId ;;
                   logActivity E (Some (Identity.id u)) "sermon_delete"
                     ("Deleted sermon: " +:+ text_of (sermon !! "title")) ;;
                   respond 200 (Message "Sermon deleted successfully")
               end
           end
     end)
    (fun _ => respond 500 (Message "An error occurred while deleting the sermon")).

(** [DELETE /sermons/:id] *)
Definition delete (E : env) : request -> M response :=
  behind authenticateJWT (delete_handler E).

End sermon_controller_more.

Module activity_controller_more.

(** [GET /admin/activity/:id] *)
Definition get_one (req : request) : M response :=
  try_catch
    (match param_id req with
     | None => respond 400 (Message "Invalid activity ID")
     | Some activityId =>
         let* activity := storage_more.getActivityById activityId in
         match activity with
         | None => respond 404 (Message "Activity log not found")
         | Some activity =>
             let* d := read_db (fun d => d) in
             let u := storage.user_of "userId" d activity in
             iso_dates ["createdAt"] activity ;;
             respond 200
               (OneRow (set_opt "userName" (donation_controller.or_null (u ≫= (.!! "name")))
                          (set_opt "userEmail"
                             (donation_controller.or_null (u ≫= (.!! "email")))
                             (copy_of ["id"; "userId"; "action"; "details"; "createdAt"]
                                      activity))))
         end
     end)
    (fun _ => respond 500 (Message "An error occurred while fetching the activity log")).

End activity_controller_more.

(** ** The dashboard ([routes.ts]) *)

(** The handler of [GET /admin/dashboard/stats]: eight reads through the
    [storage] object. *)
Definition dashboard_stats (E : env) (req : request) : M response :=
  try_catch
    (let* totalUsers := storage.getTotalUsers in
     let* totalDonations := storage.getTotalDonationAmount in
     let* monthlyDonations := storage.getMonthlyDonationAmount E in
     let* upcomingEvents := storage_more.getUpcomingEventsCount E in
     let* newContacts := storage_more.getNewContactsCount E in
     let* unreadContacts := storage_more.getUnreadContactsCount in
     let* userGrowth := storage.getUserGrowthPercentage E in
     let* donationGrowth := storage.getDonationGrowthPercentage E in
     respond 200
       (OneRow (list_to_map
                  [("totalUsers", int totalUsers);
                   ("totalDonations", JNum totalDonations);
                   ("monthlyDonations", JNum monthlyDonations);
                   ("upcomingEvents", int upcomingEvents);
                   ("newContacts", int newContacts);
                   ("unreadContacts", int unreadContacts);
                   ("userGrowth", number userGrowth);
                   ("donationGrowth", number donationGrowth)])))
    (fun _ => respond 500 (Message "Error fetching dashboard statistics")).

(** ** Vocabulary of the statements *)

(** The three requests that could remove or demote the owner account. *)
Inductive owner_mutation : Type :=
  | AdminDelete
  | AdminDemote
  | SelfDelete.

Definition mutation_route (k : owner_mutation) (E : env) : request -> M response :=
  match k with
  | AdminDelete => user_controller.admin_delete E
  | AdminDemote => user_controller.admin_patch E
  | SelfDelete => user_controller.delete_profile E
  end.

(** The row an admin request addresses is the owner's. *)
Definition addresses_owner (req : request) (w : world) : Prop :=
  exists userId target,
    param_id req = Some userId /\
    find_by_id userId (rows (users (db w))) = Some target /\
    target !! "email" = Some (JStr user_controller.owner_email).

(** The request is one of the three and its target is the owner account:
    the row named by [:id] for the admin routes (with [role: "user"] in
    the body for the update), the requester's own identity for the
    self-service delete. *)
Definition targets_owner (k : owner_mutation) (req : request) (w : world) : Prop :=
  match k with
  | AdminDelete => addresses_owner req w
  | AdminDemote => addresses_owner req w /\ body req !! "role" = Some (JStr "user")
  | SelfDelete =>
      exists u, user req = Some u /\ Identity.email u = user_controller.owner_email
  end.

(** The amount of a donation. *)
Definition donated (r : row) : Q :=
  match r !! "amount" with
  | Some (JNum q) => q
  | _ => 0%Q
  end.

(** The sum of the amounts of the donations whose status is
    [completed] and whose creation time satisfies [within]. *)
Definition completed_total (d : database) (within : option jval -> bool) : Q :=
  foldr (fun r acc => (donated r + acc)%Q) 0%Q
        (List.filter (fun r => is_str (r !! "status") "completed" && within (r !! "createdAt"))
                     (rows (donations d))).

(** The number of users whose creation time satisfies [within]. *)
Definition users_created (d : database) (within : option jval -> bool) : Z :=
  Z.of_nat (length (List.filter (fun r => within (r !! "createdAt")) (rows (users d)))).

(** [g] is an integer nearest to [x]. *)
Definition nearest (g : Z) (x : Q) : Prop := (Qabs (inject_Z g - x) <= 1 # 2)%Q.

(** The growth rule.  With no previous total the growth is 100 when the
    current total is positive and 0 when it is not, zero included;
    with a previous total it is the percentage change rounded to a
    nearest integer. *)
Definition growth_rule (current previous : Q) (g : Z) : Prop :=
  (previous == 0 -> (0 < current -> g = 100%Z) /\ (current <= 0 -> g = 0%Z))%Q /\
  (~ previous == 0 -> nearest g ((current - previous) / previous * 100))%Q.

(** Local midnight of the first day of the month [m], from 1 to 12, of
    the year [y]. *)
Definition start_of_month (y m : Z) : Z := JSDate.days_from_civil y m 1 * JSDate.msPerDay.

(** The month before the month [m] of the year [y]. *)
Definition previous_month (y m : Z) : Z * Z :=
  if m =? 1 then (y - 1, 12) else (y, m - 1).

(** An amount with two decimal places, as the column, declared
    [decimal(10, 2)], holds them. *)
Definition in_cents (q : Q) : Prop := Qden (Qred (q * 100)) = 1%positive.

Definition decimal_amounts (d : database) : Prop :=
  Forall (fun r => in_cents (donated r)) (rows (donations d)).

(** No donation has a negative amount: the data model's invariant, which
    the validation of the creation endpoint maintains. *)
Definition amounts_nonnegative (d : database) : Prop :=
  Forall (fun r => 0 <= storage.amount_of r)%Q (rows (donations d)).

(** An amount that is less than or equal to zero, as a JSON string (the
    type the schema expects) or as a JSON number. *)
Definition nonpositive_amount (v : option jval) : Prop :=
  match v with
  | Some (JStr s) => num_le0 (parseFloat s) = true
  | Some (JNum q) => (q <= 0)%Q
  | _ => False
  end.

(** The request carries a token that verifies and names the user row
    [u] of id [id]: a cookie jar with a non-empty [auth_token] that
    [jwt.verify] accepts, whose [id] claim is truthy and is the key of
    [u] in the users table. *)
Definition references (E : env) (req : request) (d : database) (id : Z) (u : row) : Prop :=
  exists jar token decoded,
    cookies req = Some jar /\ jar !! "auth_token" = Some token /\
    token <> EmptyString /\ verifyToken E token = Some decoded /\
    truthy (decoded !! "id") = true /\ integer_in (decoded !! "id") = Some id /\
    find_by_id id (rows (users d)) = Some u.

Definition inactive (u : row) : Prop := u !! "status" = Some (JStr "inactive").

(** The identity that the row [u] of id [id], created at [t], gives a
    request: its name, email and role as text, its notification flag
    and its picture, if it has one. *)
Definition identity_from (id : Z) (u : row) (t : Z) : Identity.t :=
  Identity.Make id (text_of (u !! "name")) (text_of (u !! "email"))
                (text_of (u !! "role")) (truthy (u !! "notificationOptIn"))
                (if truthy (u !! "profilePictureUrl")
                 then Some (text_of (u !! "profilePictureUrl")) else None)
                t.

(** The request [req] with the identity [i] attached and nothing else
    changed. *)
Definition attached (req : request) (i : Identity.t) : request :=
  Request (cookies req) (Some i) (params req) (query req) (body req) (upload req).

(** The endpoints that update a row. *)
Inductive update_endpoint : Type :=
  | UpdateProfile
  | UpdateDonation
  | UpdateContact
  | UpdateMedia
  | UpdateUser
  | UpdateEvent
  | UpdateSermon.

Definition update_route (k : update_endpoint) (E : env) : request -> M response :=
  match k with
  | UpdateProfile => user_controller.patch_profile E
  | UpdateDonation => donation_controller.admin_patch E
  | UpdateContact => contact_controller.admin_patch E
  | UpdateMedia => media_controller.admin_patch E
  | UpdateUser => user_controller.admin_patch E
  | UpdateEvent => event_controller.patch E
  | UpdateSermon => sermon_controller.patch E
  end.

Definition updated_table (k : update_endpoint) : relation_name :=
  match k with
  | UpdateProfile | UpdateUser => Users
  | UpdateDonation => Donations
  | UpdateContact => Contacts
  | UpdateMedia => Media
  | UpdateEvent => Events
  | UpdateSermon => Sermons
  end.

(** The allow-list of the endpoints that have one. *)
Definition allow_list (k : update_endpoint) : option (list string) :=
  match k with
  | UpdateProfile => Some user_controller.profile_fields
  | UpdateDonation | UpdateContact => Some ["status"]
  | UpdateMedia => Some ["title"; "description"]
  | UpdateUser | UpdateEvent | UpdateSermon => None
  end.

(** What the endpoints without an allow-list hand to storage: the body
    as received, for a user with its password replaced by the hash. *)
Definition handed_over (k : update_endpoint) (E : env) (req : request) : row :=
  match k with
  | UpdateUser =>
      match body req !! "password" with
      | Some (JStr p) =>
          if truthy (Some (JStr p)) then <["password" := JStr (bcrypt_hash E p)]> (body req)
          else body req
      | _ => body req
      end
  | _ => body req
  end.

(** The values of one column down a table. *)
Definition column_values (n : relation_name) (c : string) (d : database) : list (option jval) :=
  (fun r : row => r !! c) <$> rows (get_table n d).

(** The rows of a table after the columns of [data] are written into the
    row of id [id]. *)
Definition merged_into (n : relation_name) (id : Z) (data : row) (d : database) : list row :=
  (fun r : row => if has_id id r then set_columns n data ∪ r else r) <$> rows (get_table n d).

(** [keeps P m]: whatever [m] does, the database it leaves is related
    by [P] to the one it found. *)
Definition keeps {A} (P : database -> database -> Prop) (m : M A) : Prop :=
  forall w, P (db w) (db (m w).2).

(** One column of one table is left as it was. *)
Definition column_kept (n : relation_name) (c : string) (d d' : database) : Prop :=
  column_values n c d' = column_values n c d.

(** The listing endpoints: the admin listings, the public listings of
    sermons and events, and the donation history of the user. *)
Inductive listing_endpoint : Type :=
  | ListUsers
  | ListContacts
  | ListDonations
  | ListMedia
  | ListActivities
  | ListSermons
  | ListEvents
  | ListHistory.

Definition listing_route (k : listing_endpoint) (E : env) : request -> M response :=
  match k with
  | ListUsers => user_controller.admin_get_all
  | ListContacts => contact_controller.admin_get_all
  | ListDonations => donation_controller.admin_get_all E
  | ListMedia => media_controller.admin_get_all
  | ListActivities => activity_controller.get_all E
  | ListSermons => sermon_controller.get_all
  | ListEvents => event_controller.get_all E
  | ListHistory => donation_controller.get_history_handler
  end.

(** The body of the answer of a listing: the items under the key of the
    endpoint together with [total]; the donation history sends the
    array of items alone. *)
Definition listing_answer (k : listing_endpoint) (items : list row) (total : Z) : reply :=
  match k with
  | ListUsers => Listing "users" items total
  | ListContacts => Listing "contacts" items total
  | ListDonations => Listing "donations" items total
  | ListMedia => Listing "media" items total
  | ListActivities => Listing "activities" items total
  | ListSermons => Listing "sermons" items total
  | ListEvents => Listing "events" items total
  | ListHistory => Rows items
  end.

Definition listed_table (k : listing_endpoint) : relation_name :=
  match k with
  | ListUsers => Users
  | ListContacts => Contacts
  | ListDonations => Donations
  | ListMedia => Media
  | ListActivities => Activities
  | ListSermons => Sermons
  | ListEvents => Events
  | ListHistory => Donations
  end.

(** The page and the page size a request asks for. *)
Definition page_of (req : request) : Z := parseInt_or (query req !! "page") 1.

Definition perPage_of (k : listing_endpoint) (req : request) : Z :=
  parseInt_or (query req !! "perPage")
    (match k with
     | ListMedia => 12
     | ListActivities => 15
     | ListEvents => 6
     | _ => 10
     end).

Definition search_of (req : request) : string :=
  string_or (query req !! "search") EmptyString.

(** A row refers, through [userId], to one of the users the search term
    matches. *)
Definition of_found_user (search : string) (d : database) (r : row) : bool :=
  existsb (fun u : row => sql_eq (r !! "userId") (u !! "id"))
          (List.filter (storage.search_users search) (rows (users d))).

(** The filter a listing request describes: the search term, and the
    status, type, action and period filters of the endpoint. *)
Definition matches (k : listing_endpoint) (E : env) (req : request) (d : database)
    (r : row) : bool :=
  let search := search_of req in
  match k with
  | ListUsers =>
      if String.eqb search EmptyString then true else storage.search_users search r
  | ListContacts =>
      storage.contacts_where search (string_or (query req !! "status") "all") r
  | ListDonations =>
      (if String.eqb search EmptyString then true else of_found_user search d r)
      && (let status := string_or (query req !! "status") "all" in
          if String.eqb status "all" then true else is_str (r !! "status") status)
      && storage.donations_period (now E) (string_or (query req !! "period") "all_time") r
  | ListMedia => storage.media_where search (string_or (query req !! "type") "all") r
  | ListActivities =>
      (if String.eqb search EmptyString then true
       else like (r !! "details") search || of_found_user search d r)
      && (let action := string_or (query req !! "action") "all" in
          if String.eqb action "all" then true else is_str (r !! "action") action)
      && storage.activities_period (now E) (string_or (query req !! "period") "all_time") r
  | ListSermons => storage.sermons_where search r
  | ListEvents => true
  | ListHistory =>
      match user req with
      | Some u => is_int (r !! "userId") (Identity.id u)
      | None => false
      end
  end.

(** All the rows that match, before any pagination. *)
Definition matching (k : listing_endpoint) (E : env) (req : request) (d : database)
    : list row :=
  List.filter (matches k E req d) (rows (get_table (listed_table k) d)).

(** The request takes the paginated branch of its endpoint: for the
    sermons and the events, its [limit] is not positive; for the
    donation history, it carries the identity of a user. *)
Definition paginated (k : listing_endpoint) (req : request) : Prop :=
  match k with
  | ListSermons => parseInt_or (query req !! "limit") 0 <= 0
  | ListEvents => parseInt_or (query req !! "limit") (perPage_of ListEvents req) <= 0
  | ListHistory => user req <> None
  | _ => True
  end.

(** The order an endpoint lists its rows in. *)
Definition listing_order (k : listing_endpoint) (req : request) : ordering :=
  let sort := string_or (query req !! "sort") "date" in
  let direction := string_or (query req !! "direction") "desc" in
  match k with
  | ListDonations => storage.donations_order sort direction
  | ListActivities => storage.activities_order sort direction
  | ListSermons => desc "date"
  | ListEvents => asc "date"
  | _ => desc "createdAt"
  end.

(** The item a listing shows for a row.  There is none for a donation,
    a media item or a sermon without the user or the media row it
    refers to. *)
Definition item_of (k : listing_endpoint) (d : database) (r : row) : option row :=
  match k with
  | ListUsers => Some (delete "password" r)
  | ListContacts => Some r
  | ListDonations =>
      (fun u => storage.with_user_columns (Some u) r) <$> storage.user_of "userId" d r
  | ListMedia =>
      (fun u => set_opt "uploadedBy" (u !! "name") r) <$> storage.user_of "uploadedBy" d r
  | ListActivities => Some (storage.with_user_columns (storage.user_of "userId" d r) r)
  | ListSermons => storage.formatted_sermon d r
  | ListEvents => Some (storage.formatted_event d r)
  | ListHistory => Some r
  end.

(** The rows of [l] on the page asked for: [perPage] rows from row
    [(page - 1) * perPage] on. *)
Definition page_cut (k : listing_endpoint) (req : request) (l : list row) : list row :=
  take (Z.to_nat (perPage_of k req))
       (drop (Z.to_nat ((page_of req - 1) * perPage_of k req)) l).

(** The requested page of items: the matching rows in the order of the
    endpoint, cut to the page, each shown as its item.  The donations
    and the activities are joined with their users before the page is
    cut; the other listings shape the rows of the page. *)
Definition requested_page (k : listing_endpoint) (E : env) (req : request) (d : database)
    : option (list row) :=
  let found := matching k E req d in
  match k with
  | ListDonations | ListActivities =>
      Some (page_cut k req (order_by (listing_order k req) (omap (item_of k d) found)))
  | _ => mapM (item_of k d) (page_cut k req (order_by (listing_order k req) found))
  end.

(** Nothing stands in the way of the queries of a listing: the page and
    the page size are positive and at most a million, a search by user
    (made only when there is a search term) finds at most one user, and
    every listed media item or sermon has the row it refers to. *)
Definition trouble_free (k : listing_endpoint) (req : request) (d : database) : Prop :=
  1 <= page_of req <= 1000000 /\ 1 <= perPage_of k req <= 1000000 /\
  match k with
  | ListDonations | ListActivities =>
      search_of req <> EmptyString ->
      (length (List.filter (storage.search_users (search_of req)) (rows (users d))) <= 1)%nat
  | ListMedia => Forall (fun r => is_Some (storage.user_of "uploadedBy" d r)) (rows (media d))
  | ListSermons => Forall (fun r => is_Some (storage.media_of d r)) (rows (sermons d))
  | _ => True
  end.

(** What a listing answers: 200 with the requested page of items and,
    next to it, the number of all the matching rows; the database is
    left as it was. *)
Definition listing_ok (k : listing_endpoint) (E : env) (req : request) (w : world)
    (r : response) (w' : world) : Prop :=
  db w' = db w /\
  exists items,
    r = Response 200 (listing_answer k items
                        (Z.of_nat (length (matching k E req (db w))))) /\
    requested_page k E req (db w) = Some items.

(** ** Sample data *)

Module Sample.

Definition E : env :=
  Env (JSDate.at_ 2025 3 31 12 0) 0 7 (fun p => "$2b$10$" +:+ p)
      (fun token => if String.eqb token "owner-token" then Some {[ "id" := int 1 ]}
                    else if String.eqb token "member-token" then Some {[ "id" := int 2 ]}
                    else None)
      (fun _ _ => Some (UploadResult (Some "https://res.cloudinary.com/demo/a.png") "grace_church/a"))
      (fun _ _ => true)
      ESModule.

Definition user_row (id : Z) (name email role status : string) (createdAt : Z) : row :=
  list_to_map [("id", int id); ("name", JStr name); ("email", JStr email);
               ("password", JStr "$2b$10$hash"); ("role", JStr role);
               ("status", JStr status); ("notificationOptIn", JBool true);
               ("createdAt", JDate createdAt)].

Definition owner_row : row :=
  user_row 1 "Shahid" user_controller.owner_email "owner" "active" (JSDate.at_ 2024 1 1 9 0).

Definition member_row : row :=
  user_row 2 "Asha" "asha@example.org" "user" "active" (JSDate.at_ 2025 2 1 9 0).

Definition donation_row (id userId : Z) (amount : Q) (method status : string)
    (createdAt : Z) : row :=
  list_to_map [("id", int id); ("userId", int userId); ("amount", JNum amount);
               ("paymentMethod", JStr method); ("status", JStr status);
               ("createdAt", JDate createdAt)].

Definition empty_table : table := Table [] 1.

Definition data : database :=
  Database (Table [owner_row; member_row] 3) empty_table
           (Table [donation_row 1 2 50 "credit_card" "completed" (JSDate.at_ 2025 2 10 10 0)] 2)
           empty_table empty_table empty_table empty_table.

Definition w : world := World data [].

(** Two dollars given in February and two dollars and one cent in
    March. *)
Definition w_cents : world :=
  World (set_table Donations
           (Table [donation_row 1 2 2 "credit_card" "completed" (JSDate.at_ 2025 2 10 10 0);
                   donation_row 2 2 (201 # 100) "credit_card" "completed"
                                (JSDate.at_ 2025 3 5 10 0)] 3)
           data) [].

(** Forty members who joined in February and twenty-nine who joined in
    March. *)
Definition w_members : world :=
  World (set_table Users
           (Table (((fun i => user_row i "Member" "member@example.org" "user" "active"
                                       (JSDate.at_ 2025 2 10 9 0)) <$> seqZ 1 40)
                   ++ ((fun i => user_row i "Member" "member@example.org" "user" "active"
                                          (JSDate.at_ 2025 3 10 9 0)) <$> seqZ 41 29)) 70)
           data) [].

Definition event_row (id : Z) (title : string) (date : Z) : row :=
  list_to_map [("id", int id); ("title", JStr title);
               ("description", JStr "An event of the parish");
               ("date", JDate date); ("createdAt", JDate (JSDate.at_ 2025 1 1 9 0))].

(** Seven events, all after the sample's "now". *)
Definition w_events : world :=
  World (set_table Events
           (Table [event_row 1 "Easter vigil" (JSDate.at_ 2025 4 19 20 0);
                   event_row 2 "Easter service" (JSDate.at_ 2025 4 20 10 0);
                   event_row 3 "Youth camp" (JSDate.at_ 2025 5 3 9 0);
                   event_row 4 "Choir evening" (JSDate.at_ 2025 5 10 18 0);
                   event_row 5 "Pentecost" (JSDate.at_ 2025 6 8 10 0);
                   event_row 6 "Parish picnic" (JSDate.at_ 2025 6 21 12 0);
                   event_row 7 "Harvest service" (JSDate.at_ 2025 9 28 10 0)] 8)
           data) [].

Definition owner : Identity.t :=
  Identity.Make 1 "Shahid" user_controller.owner_email "owner" true None
                (JSDate.at_ 2024 1 1 9 0).

Definition member : Identity.t :=
  Identity.Make 2 "Asha" "asha@example.org" "user" true None (JSDate.at_ 2025 2 1 9 0).

(** A request from [who] with the given route parameter, query and
    body. *)
Definition req (who : option Identity.t) (id : option string)
    (q : list (string * string)) (b : list (string * jval)) : request :=
  Request None who (from_option (fun s => {[ "id" := s ]}) ∅ id)
          (list_to_map q) (list_to_map b) None.

End Sample.

(** ** Vocabulary of the further statements *)

(** The user an activity is logged for is none ([undefined], or 0,
    which [userId || null] turns into NULL) or has a row: what the
    foreign key of the activities asks for. *)
Definition known_actor (userId : option Z) (d : database) : Prop :=
  match userId with
  | None | Some 0 => True
  | Some id => is_Some (find_by_id id (rows (users d)))
  end.

(** The column [userId] of the activity logged for [userId]. *)
Definition actor_column (userId : option Z) : option jval :=
  match userId with
  | None | Some 0 => None
  | Some id => Some (int id)
  end.

(** The deletions of the tables that no other table refers to. *)
Definition deletion (n : relation_name) : option (Z -> M unit) :=
  match n with
  | Contacts => Some storage_more.deleteContact
  | Events => Some storage_more.deleteEvent
  | Sermons => Some storage_more.deleteSermon
  | _ => None
  end.

(** [replies P m]: the handler [m] always answers, and its response
    satisfies [P]. *)
Definition replies (P : response -> Prop) (m : M response) : Prop :=
  forall w, exists r w', m w = (Ok r, w') /\ P r.

(** [yields P m]: whenever [m] returns, what it returns satisfies
    [P]. *)
Definition yields {A} (P : A -> Prop) (m : M A) : Prop :=
  forall w, match (m w).1 with Ok a => P a | Throw _ => True end.

(** The rows a JSON answer holds. *)
Definition rows_of (j : reply) : list row :=
  match j with
  | OneRow r => [r]
  | Rows items | Listing _ items _ => items
  | _ => []
  end.

(** The routes that answer with user rows. *)
Inductive user_endpoint : Type :=
  | UsersListing
  | UserCreation
  | UserLookup
  | UserUpdate
  | ProfileUpdate.

Definition user_route (k : user_endpoint) (V : schema_more.validators) (E : env)
    : request -> M response :=
  match k with
  | UsersListing => user_controller.admin_get_all
  | UserCreation => user_controller_more.admin_post V E
  | UserLookup => user_controller_more.admin_get_one
  | UserUpdate => user_controller.admin_patch E
  | ProfileUpdate => user_controller.patch_profile E
  end.

(** No row of the answer holds the column [c]. *)
Definition hides (c : string) (r : response) : Prop :=
  Forall (fun item : row => item !! c = None) (rows_of (json r)).

(** The routes that look one row up by the [:id] of the path. *)
Inductive lookup_endpoint : Type :=
  | LookupUser
  | LookupContact
  | LookupDonation
  | LookupMedia
  | LookupPublicMedia
  | LookupEvent
  | LookupSermon
  | LookupActivity.

Definition lookup_route (k : lookup_endpoint) : request -> M response :=
  match k with
  | LookupUser => user_controller_more.admin_get_one
  | LookupContact => contact_controller_more.admin_get_one
  | LookupDonation => donation_controller_more.admin_get_one
  | LookupMedia => media_controller_more.admin_get_one
  | LookupPublicMedia => media_controller_more.get_one
  | LookupEvent => event_controller_more.get_one
  | LookupSermon => sermon_controller_more.get_one
  | LookupActivity => activity_controller_more.get_one
  end.

Definition lookup_table (k : lookup_endpoint) : relation_name :=
  match k with
  | LookupUser => Users
  | LookupContact => Contacts
  | LookupDonation => Donations
  | LookupMedia | LookupPublicMedia => Media
  | LookupEvent => Events
  | LookupSermon => Sermons
  | LookupActivity => Activities
  end.

(** The routes that change the sermons. *)
Inductive sermon_mutation : Type :=
  | SermonCreate
  | SermonUpdate
  | SermonDelete.

Definition sermon_route (k : sermon_mutation) (E : env) : request -> M response :=
  match k with
  | SermonCreate => sermon_controller_more.post E
  | SermonUpdate => sermon_controller.patch E
  | SermonDelete => sermon_controller_more.delete E
  end.

(** No event and no sermon refers to the media item [id]: what the
    foreign keys ask of a deletion. *)
Definition media_unused (id : Z) (d : database) : Prop :=
  Forall (fun r : row => is_int (r !! "mediaId") id = false)
         (rows (events d) ++ rows (sermons d)).

(** ** Further sample data *)

Module Sample_more.

Definition V : schema_more.validators :=
  schema_more.Validators (fun s => match index 0 "@" s with Some _ => true | None => false end).

Definition media_row (id uploadedBy : Z) (type title : string) : row :=
  list_to_map [("id", int id); ("cloudinaryUrl", JStr "https://res.cloudinary.com/demo/a.png");
               ("cloudinaryPublicId", JStr "grace_church/a"); ("type", JStr type);
               ("title", JStr title); ("description", JStr "Sunday morning");
               ("uploadedBy", int uploadedBy);
               ("createdAt", JDate (JSDate.at_ 2025 3 1 9 0))].

Definition contact_row (id : Z) (name email message status : string) : row :=
  list_to_map [("id", int id); ("name", JStr name); ("email", JStr email);
               ("message", JStr message); ("status", JStr status);
               ("createdAt", JDate (JSDate.at_ 2025 3 20 9 0))].

(** The sample data with one media item and two contacts. *)
Definition w : world :=
  World (set_table Media (Table [media_row 1 1 "image" "Choir"] 2)
           (set_table Contacts
              (Table [contact_row 1 "Mira" "mira@example.org" "When is the next service?" "unread";
                      contact_row 2 "Jonas" "jonas@example.org" "Thank you for the concert" "read"]
                     3)
              Sample.data)) [].

End Sample_more.

(** ** The session routes ([auth.controller.ts]) *)

(** What the session routes take from their surroundings besides
    [env]. *)
Record session_env : Type := SessionEnv {
  (** [bcrypt.compare(data, hash)] on two strings *)
  bcrypt_compare : string -> string -> bool;
  (** [jwt.sign(payload, JWT_SECRET, { expiresIn: '24h' })] *)
  jwt_sign : row -> string;
  (** the text the driver binds for a value that is no string *)
  bound_text : jval -> string;
  (** [value.length < 6] for a body value that is an object or an
      array, whose properties [JObject] does not hold *)
  short_object : bool
}.

(** What a session route does besides answering: the cookies it sets
    and clears, and the mail it asks [sendSignupConfirmationEmail]
    for. *)
Inductive effect : Type :=
  | SetCookie (name value : string)
  | ClearCookie (name : string)
  | SignupConfirmationEmail (email name : string).

Record session_response : Type := Session {
  answered : response;
  effects : list effect
}.

(** An answer with no effect. *)
Definition plainly (code : Z) (message : string) : M session_response :=
  ret (Session (Response code (Message message)) []).

(** [generateToken] ([utils/jwt.ts]): the payload is the id, the address
    and the role of the row. *)
Definition generateToken (S : session_env) (user : row) : string :=
  jwt_sign S (copy_of ["id"; "email"; "role"] user).

Module bcrypt.

(** [bcrypt.compare(data, hash)], which rejects what is no string. *)
Definition compare (S : session_env) (data hash : option jval) : M bool :=
  match data, hash with
  | Some (JStr d), Some (JStr h) => ret (bcrypt_compare S d h)
  | _, _ => throw (Error "data and hash must be strings")
  end.

(** [bcrypt.hash(data, 10)], which rejects what is no string. *)
Definition hash (E : env) (data : option jval) : M string :=
  match data with
  | Some (JStr d) => ret (bcrypt_hash E d)
  | _ => throw (Error "data must be a string or Buffer")
  end.

End bcrypt.

(** The text an address of the body is compared with as. *)
Definition bound (S : session_env) (v : option jval) : string :=
  match v with
  | Some (JStr s) => s
  | Some other => bound_text S other
  | None => EmptyString
  end.

Module auth_controller.

(** [POST /auth/login] *)
Definition login (S : session_env) (E : env) (req : request) : M session_response :=
  try_catch
    (let email := body req !! "email" in
     let password := body req !! "password" in
     if negb (truthy email) || negb (truthy password)
     then plainly 400 "Email and password are required"
     else
       let* user := storage_more.getUserByEmail (bound S email) in
       match user with
       | None => plainly 401 "Invalid email or password"
       | Some user =>
           if is_str (user !! "status") "inactive"
           then plainly 403
                  "Your account has been deactivated. Please contact an administrator."
           else
             let* isPasswordValid := bcrypt.compare S password (user !! "password") in
             if negb isPasswordValid then plainly 401 "Invalid email or password"
             else
               let token := generateToken S user in
               logActivity E (integer_in (user !! "id")) "login"
                 ("User logged in: " +:+ text_of (user !! "email")) ;;
               ret (Session (Response 200 (OneRow (delete "password" user)))
                            [SetCookie "auth_token" token])
       end)
    (fun _ => plainly 500 "An error occurred during login").

(** The schema of the signup: [insertUserSchema.omit({ role: true })]. *)
Definition signup_fields : list string :=
  ["id"; "name"; "email"; "password"; "status"; "notificationOptIn"; "profilePictureUrl";
   "createdAt"].

Definition signup_issues (V : schema_more.validators) (body : gmap string jval)
    : list schema.issue :=
  schema.check_optional_id (body !! "id")
  ++ schema_more.check_text "name" 2 "Name must be at least 2 characters" (body !! "name")
  ++ schema_more.check_email V (body !! "email")
  ++ schema_more.check_text "password" 6 "Password must be at least 6 characters"
       (body !! "password")
  ++ schema_more.check_optional_enum "status" ["active"; "inactive"] (body !! "status")
  ++ schema_more.check_optional_boolean "notificationOptIn" (body !! "notificationOptIn")
  ++ schema.check_optional_text "profilePictureUrl" (body !! "profilePictureUrl")
  ++ schema.check_optional_date (body !! "createdAt").

(** [POST /auth/signup] *)
Definition signup (V : schema_more.validators) (E : env) (req : request)
    : M session_response :=
  try_catch
    (let value := <["role" := JStr "user"]> (body req) in
     let* userData := schema_more.parse (signup_issues V value) signup_fields value in
     let* existingUser := storage_more.getUserByEmail (text_of (userData !! "email")) in
     match existingUser with
     | Some _ => plainly 409 "User with this email already exists"
     | None =>
         let hashedPassword := bcrypt_hash E (text_of (userData !! "password")) in
         let* created :=
           storage_more.createUser E
             (<["status" := JStr "active"]>
                (<["role" := JStr "user"]>
                   (<["password" := JStr hashedPassword]> userData))) in
         let* newUser := first_row created in
         let mail :=
           if truthy (userData !! "notificationOptIn")
           then [SignupConfirmationEmail (text_of (userData !! "email"))
                   (text_of (userData !! "name"))]
           else [] in
         logActivity E (integer_in (newUser !! "id")) "signup"
           ("New user registered: " +:+ text_of (newUser !! "email")) ;;
         ret (Session (Response 201 (Message "User created successfully")) mail)
     end)
    (fun error =>
       match error with
       | ZodError message => plainly 400 message
       | Error _ => plainly 500 "An error occurred during signup"
       end).

(** [POST /auth/logout]: open to everyone. *)
Definition logout (E : env) (req : request) : M session_response :=
  try_catch
    (match user req with
     | Some u =>
         logActivity E (Some (Identity.id u)) "logout"
           ("User logged out: " +:+ Identity.email u) ;;
         ret tt
     | None => ret tt
     end ;;
     ret (Session (Response 200 (Message "Logged out successfully"))
                  [ClearCookie "auth_token"]))
    (fun _ => plainly 500 "An error occurred during logout").

(** [newPassword.length < 6]: the length of a string; [undefined] (and
    so [false]) for a number or a boolean. *)
Definition shorter_than_6 (S : session_env) (v : option jval) : bool :=
  match v with
  | Some (JStr s) => (String.length s <? 6)%nat
  | Some JObject => short_object S
  | _ => false
  end.

(** The handler of [POST /auth/change-password]. *)
Definition change_password_handler (S : session_env) (E : env) (req : request)
    : M response :=
  try_catch
    (match user req with
     | None => respond 401 (Message "Not authenticated")
     | Some u =>
         let currentPassword := body req !! "currentPassword" in
         let newPassword := body req !! "newPassword" in
         if negb (truthy currentPassword) || negb (truthy newPassword)
         then respond 400 (Message "Current password and new password are required")
         else if shorter_than_6 S newPassword
         then respond 400 (Message "New password must be at least 6 characters long")
         else
           let* user := storage.getUserById (Identity.id u) in
           match user with
           | None => respond 404 (Message "User not found")
           | Some user =>
               let* isPasswordValid := bcrypt.compare S currentPassword (user !! "password") in
               if negb isPasswordValid
               then respond 401 (Message "Current password is incorrect")
               else
                 let* hashedPassword := bcrypt.hash E newPassword in
                 match integer_in (user !! "id") with
                 | Some id => storage.updateUser id {[ "password" := JStr hashedPassword ]}
                 | None => storage.helper "updateUser" (throw (Error "database error"))
                 end ;;
                 logActivity E (integer_in (user !! "id")) "user_update"
                   ("User changed password: " +:+ text_of (user !! "email")) ;;
                 respond 200 (Message "Password changed successfully")
           end
     end)
    (fun _ => respond 500 (Message "An error occurred while changing password")).

(** [POST /auth/change-password] *)
Definition change_password (S : session_env) (E : env) : request -> M response :=
  behind authenticateJWT (change_password_handler S E).

End auth_controller.

(** ** Vocabulary of the statements on sessions *)

(** The user row an address finds: the first that holds it. *)
Definition account (email : string) (d : database) : option row :=
  List.find (fun r : row => is_str (r !! "email") email) (rows (users d)).

(** The answer asks the client to keep [token] as its session. *)
Definition opens_session (a : session_response) (token : string) : Prop :=
  SetCookie "auth_token" token ∈ effects a.

(** The users after [id] got the password hash [h]: the row of [id]
    with the new hash, every other row as it was. *)
Definition with_password (id : Z) (h : string) (l : list row) : list row :=
  (fun r : row => if has_id id r then <["password" := JStr h]> r else r) <$> l.

(** The users as the database keeps them: every row has a positive
    integer id, which finds this row and no other, and a creation
    date. *)
Definition users_keyed (d : database) : Prop :=
  Forall (fun u : row =>
            exists id t,
              u !! "id" = Some (int id) /\ 0 < id /\
              find_by_id id (rows (users d)) = Some u /\
              u !! "createdAt" = Some (JDate t))
         (rows (users d)).

Module Sample_session.

(** A stand-in for bcrypt that the hash of [Sample.E] fits: the hash of
    [p] is [$2b$10$] followed by [p]. *)
Definition S : session_env :=
  SessionEnv (fun data h => String.eqb h ("$2b$10$" +:+ data))
             (fun payload => match payload !! "id" with
                             | Some (JNum q) =>
                                 if Qeq_bool q 1 then "owner-token" else "member-token"
                             | _ => "no-token"
                             end)
             (fun _ => "[object Object]")
             false.

End Sample_session.

(** * Properties *)

(** ** Sanity checks of the embedded library functions *)

Example parseInt_examples :
  parseInt "42" = Some 42 /\ parseInt " -7px" = Some (-7) /\
  parseInt "0x1f" = Some 31 /\ parseInt "abc" = None /\ parseInt EmptyString = None.
Proof. repeat split; reflexivity. Qed.

Example parseFloat_examples :
  parseFloat "50" = Fin 50 /\ num_gt0 (parseFloat "12.50") = true /\
  num_gt0 (parseFloat "-5") = false /\ num_gt0 (parseFloat "0") = false /\
  parseFloat "abc" = NaN /\ num_gt0 (parseFloat ".5e1") = true.
Proof. repeat split; vm_compute; reflexivity. Qed.

Example date_examples :
  JSDate.days_from_civil 1970 1 1 = 0 /\
  JSDate.civil_from_days 20178 = (2025, 3, 31) /\
  JSDate.getMonth (JSDate.setMonth (JSDate.at_ 2025 3 31 12 0) 1) = 2 /\
  JSDate.make 2025 (-1) 1 = JSDate.at_ 2024 12 1 0 0.
Proof. repeat split; vm_compute; reflexivity. Qed.

Example show_examples :
  show_int 1746541124779 = "1746541124779" /\ show_int (-30) = "-30" /\
  show_int 0 = "0" /\ show_num (25 # 2) = "12.5" /\ upper "nabil-9" = "NABIL-9".
Proof. repeat split; vm_compute; reflexivity. Qed.

(** [LIKE] as the listings use it: the search term between two [%]. *)
Example like_examples :
  like (Some (JStr "Easter vigil")) "vigil" = true /\
  like (Some (JStr "Easter vigil")) "e_s" = false /\
  like (Some (JStr "Easter vigil")) "a_t" = true /\
  like (Some (JStr "a_t")) "a\_t" = true /\
  like (Some (JStr "Easter vigil")) "a\_t" = false /\
  like (Some (JStr "100%")) "0\%" = true /\
  like (Some JNull) "" = false.
Proof. repeat split; reflexivity. Qed.

(** Binary64 where the code computes: an exact small product, the
    rounding of a decimal, and the integers out of reach. *)
Example number_examples :
  Number.to_Z (Number.mul (Number.sub (Number.of_Z 3) (Number.of_Z 1)) (Number.of_Z 10))
  = Some 20 /\
  Number.of_Q (201 # 100) = S754_finite false 4526117625507348 (-51) /\
  Number.of_Z (2 ^ 53 + 1) = Number.of_Z (2 ^ 53) /\
  Number.of_Z (10 ^ 400) = S754_infinity false.
Proof. repeat split; vm_compute; reflexivity. Qed.

(** ** Rows as finite maps *)

(** Membership of a literal in a literal list, by evaluation. *)
Ltac listed := apply (bool_decide_unpack _); vm_compute; exact I.

Lemma lookup_keep_fields (fields : list string) (m : row) (k : string) :
  filter (fun kv : string * jval => kv.1 ∈ fields) m !! k
  = if decide (k ∈ fields) then m !! k else None.
Proof.
  rewrite map_lookup_filter. destruct (m !! k) as [v|]; cbn.
  - destruct (decide (k ∈ fields)).
    + rewrite option_guard_True by assumption. reflexivity.
    + rewrite option_guard_False by assumption. reflexivity.
  - destruct (decide (k ∈ fields)); reflexivity.
Qed.

Lemma lookup_set_columns (n : relation_name) (data : row) (k : string) :
  set_columns n data !! k = if decide (k ∈ columns n) then data !! k else None.
Proof. apply lookup_keep_fields. Qed.

Lemma lookup_set_opt (k k' : string) (v : option jval) (r : row) :
  set_opt k v r !! k' = if decide (k = k') then v else r !! k'.
Proof.
  unfold set_opt. destruct v as [x|]; destruct (decide (k = k')) as [->|Hne].
  - apply lookup_insert_eq.
  - apply lookup_insert_ne, Hne.
  - apply lookup_delete_eq.
  - apply lookup_delete_ne, Hne.
Qed.

(** The allow-list loop copies exactly the allowed properties. *)
Lemma lookup_pick (allowedFields : list string) (b : gmap string jval) (k : string) :
  pick allowedFields b !! k = if decide (k ∈ allowedFields) then b !! k else None.
Proof.
  unfold pick.
  assert (G : forall acc : row,
            foldl (fun updateData field =>
                     match b !! field with
                     | Some v => <[field := v]> updateData
                     | None => updateData
                     end) acc allowedFields !! k
            = if decide (k ∈ allowedFields)
              then (match b !! k with Some v => Some v | None => acc !! k end)
              else acc !! k).
  { induction allowedFields as [|f l IH]; intros acc; cbn.
    - destruct (decide (k ∈ [])) as [H|]; [inversion H | reflexivity].
    - rewrite IH. destruct (decide (k = f)) as [->|Hne].
      + destruct (decide (f ∈ f :: l)) as [_|Hn]; [|exfalso; apply Hn; left].
        destruct (b !! f) as [v|] eqn:Hb.
        * rewrite lookup_insert_eq. destruct (decide (f ∈ l)); reflexivity.
        * destruct (decide (f ∈ l)); reflexivity.
      + assert (Hacc : (match b !! f with
                        | Some v => <[f:=v]> acc
                        | None => acc
                        end) !! k = acc !! k).
        { destruct (b !! f); [apply lookup_insert_ne; congruence | reflexivity]. }
        rewrite Hacc.
        destruct (decide (k ∈ l)) as [Hin|Hnin].
        * destruct (decide (k ∈ f :: l)) as [_|Hn]; [reflexivity|].
          exfalso. apply Hn. right. exact Hin.
        * destruct (decide (k ∈ f :: l)) as [Hin'|_]; [|reflexivity].
          inversion Hin'; subst; contradiction. }
  rewrite G, lookup_empty. destruct (decide (k ∈ allowedFields)); [|reflexivity].
  destruct (b !! k); reflexivity.
Qed.

(** ** Calendar arithmetic *)

(** From a day number to the civil date and back. *)
Lemma days_from_civil_from_days (z : Z) :
  let '(y, m, d) := JSDate.civil_from_days z in
  JSDate.days_from_civil y m d = z /\ 1 <= m <= 12 /\ 1 <= d <= 31.
Proof.
  unfold JSDate.civil_from_days, JSDate.days_from_civil. cbv zeta.
  set (z' := z + 719468).
  set (era := z' / 146097).
  set (doe := z' - era * 146097).
  assert (Hdoe : 0 <= doe < 146097) by (subst doe era; Z.div_mod_to_equations; lia).
  set (yoe := (doe - doe / 1460 + doe / 36524 - doe / 146096) / 365).
  assert (Hyoe : 0 <= yoe <= 399 /\ 0 <= doe - (365 * yoe + yoe / 4 - yoe / 100) <= 365)
    by (subst yoe; Z.div_mod_to_equations; lia).
  set (doy := doe - (365 * yoe + yoe / 4 - yoe / 100)) in *.
  set (mp := (5 * doy + 2) / 153).
  assert (Hmp : 0 <= mp <= 11 /\ 1 <= doy - (153 * mp + 2) / 5 + 1 <= 31)
    by (subst mp; Z.div_mod_to_equations; lia).
  set (d := doy - (153 * mp + 2) / 5 + 1) in *.
  destruct (mp <? 10) eqn:Hlt; cbv beta iota.
  - destruct (mp + 3 <=? 2) eqn:H1; [lia|].
    destruct (2 <? mp + 3) eqn:H2; [|lia].
    replace ((yoe + era * 400) / 400) with era by (Z.div_mod_to_equations; lia).
    split; [|lia]. subst d doy doe z'.
    replace (yoe + era * 400 - era * 400) with yoe by lia.
    replace (mp + 3 - 3) with mp by lia. lia.
  - destruct (mp - 9 <=? 2) eqn:H1; [|lia].
    destruct (2 <? mp - 9) eqn:H2; [lia|].
    replace (yoe + era * 400 + 1 - 1) with (yoe + era * 400) by lia.
    replace ((yoe + era * 400) / 400) with era by (Z.div_mod_to_equations; lia).
    split; [|lia]. subst d doy doe z'.
    replace (yoe + era * 400 - era * 400) with yoe by lia.
    replace (mp - 9 + 9) with mp by lia. lia.
Qed.

(** From a civil date up to the 28th to its day number and back. *)
Lemma civil_from_days_from_civil (y m d : Z) :
  1 <= m <= 12 -> 1 <= d <= 28 ->
  JSDate.civil_from_days (JSDate.days_from_civil y m d) = (y, m, d).
Proof.
  intros Hm Hd. unfold JSDate.civil_from_days, JSDate.days_from_civil. cbv zeta.
  set (y' := if m <=? 2 then y - 1 else y).
  set (era := y' / 400).
  set (yoe := y' - era * 400).
  assert (Hyoe : 0 <= yoe <= 399) by (subst yoe era; Z.div_mod_to_equations; lia).
  set (mp := if 2 <? m then m - 3 else m + 9).
  assert (Hmp : 0 <= mp <= 11) by (subst mp; destruct (2 <? m) eqn:H; lia).
  set (doy := (153 * mp + 2) / 5 + d - 1).
  assert (Hdoy : 0 <= doy <= 364) by (subst doy; Z.div_mod_to_equations; lia).
  set (doe := yoe * 365 + yoe / 4 - yoe / 100 + doy).
  assert (Hdoe : 0 <= doe < 146097) by (subst doe; Z.div_mod_to_equations; lia).
  replace (era * 146097 + doe - 719468 + 719468) with (doe + era * 146097) by lia.
  replace ((doe + era * 146097) / 146097) with era by (Z.div_mod_to_equations; lia).
  replace (doe + era * 146097 - era * 146097) with doe by lia.
  assert (Hy : (doe - doe / 1460 + doe / 36524 - doe / 146096) / 365 = yoe)
    by (subst doe; Z.div_mod_to_equations; lia).
  rewrite Hy.
  replace (doe - (365 * yoe + yoe / 4 - yoe / 100)) with doy by (subst doe; lia).
  assert (Hm' : (5 * doy + 2) / 153 = mp) by (subst doy; Z.div_mod_to_equations; lia).
  rewrite Hm'.
  assert (Hd' : doy - (153 * mp + 2) / 5 + 1 = d) by (subst doy; lia).
  rewrite Hd'.
  subst mp y' yoe era.
  destruct (2 <? m) eqn:H2.
  - destruct (m - 3 <? 10) eqn:H3; [|lia].
    replace (m - 3 + 3) with m by lia.
    destruct (m <=? 2) eqn:H4; [lia|]. f_equal. f_equal. lia.
  - destruct (m + 9 <? 10) eqn:H3; [lia|].
    replace (m + 9 - 9) with m by lia.
    destruct (m <=? 2) eqn:H4; [|lia]. f_equal. f_equal. lia.
Qed.

Lemma days_from_civil_day (y m d k : Z) :
  JSDate.days_from_civil y m (d + k) = JSDate.days_from_civil y m d + k.
Proof. unfold JSDate.days_from_civil. cbv zeta. lia. Qed.

Lemma TimeWithinDay_range (t : Z) : 0 <= JSDate.TimeWithinDay t < JSDate.msPerDay.
Proof. unfold JSDate.TimeWithinDay, JSDate.msPerDay. apply Z.mod_pos_bound. lia. Qed.

Lemma MakeDate_Day (t : Z) : JSDate.MakeDate (JSDate.Day t) (JSDate.TimeWithinDay t) = t.
Proof.
  unfold JSDate.MakeDate, JSDate.Day, JSDate.TimeWithinDay, JSDate.msPerDay.
  Z.div_mod_to_equations. lia.
Qed.

Lemma Day_MakeDate (day tw : Z) :
  0 <= tw < JSDate.msPerDay -> JSDate.Day (JSDate.MakeDate day tw) = day.
Proof.
  unfold JSDate.MakeDate, JSDate.Day, JSDate.msPerDay. intros H.
  Z.div_mod_to_equations. lia.
Qed.

Lemma TimeWithinDay_MakeDate (day tw : Z) :
  0 <= tw < JSDate.msPerDay -> JSDate.TimeWithinDay (JSDate.MakeDate day tw) = tw.
Proof.
  unfold JSDate.MakeDate, JSDate.TimeWithinDay, JSDate.msPerDay. intros H.
  Z.div_mod_to_equations. lia.
Qed.

(** The civil date of an instant, with its ranges. *)
Lemma civil_date (t : Z) :
  JSDate.days_from_civil (JSDate.getFullYear t) (JSDate.getMonth t + 1) (JSDate.getDate t)
  = JSDate.Day t
  /\ 0 <= JSDate.getMonth t <= 11 /\ 1 <= JSDate.getDate t <= 31.
Proof.
  unfold JSDate.getFullYear, JSDate.getMonth, JSDate.getDate.
  pose proof (days_from_civil_from_days (JSDate.Day t)) as H.
  destruct (JSDate.civil_from_days (JSDate.Day t)) as [[y m] d]. cbn.
  replace (m - 1 + 1) with m by lia. lia.
Qed.

(** [MakeDay] on a month within the year. *)
Lemma MakeDay_in_year (y m d : Z) :
  0 <= m <= 11 -> JSDate.MakeDay y m d = JSDate.days_from_civil y (m + 1) d.
Proof.
  intros H. unfold JSDate.MakeDay.
  replace (m / 12) with 0 by (Z.div_mod_to_equations; lia).
  replace (m mod 12) with m by (Z.div_mod_to_equations; lia).
  replace (y + 0) with y by lia.
  replace d with (1 + (d - 1)) at 2 by lia. rewrite days_from_civil_day. lia.
Qed.

(** [d.setDate(d.getDate() + k)] moves [d] by [k] whole days. *)
Lemma setDate_shift (t k : Z) :
  JSDate.setDate t (JSDate.getDate t + k) = t + k * JSDate.msPerDay.
Proof.
  destruct (civil_date t) as (Hday & Hm & Hd).
  unfold JSDate.setDate. rewrite MakeDay_in_year by assumption.
  rewrite days_from_civil_day, Hday.
  rewrite <- (MakeDate_Day t) at 3. unfold JSDate.MakeDate. lia.
Qed.

(** [MakeDay] normalises the month into a year and a month of it. *)
Lemma MakeDay_civil (y m d : Z) :
  JSDate.MakeDay y m d = JSDate.days_from_civil (y + m / 12) (m mod 12 + 1) d.
Proof.
  unfold JSDate.MakeDay.
  replace d with (1 + (d - 1)) at 2 by lia. rewrite days_from_civil_day. lia.
Qed.


(** ** Binary64 arithmetic *)

(** What the operations of [Number] compute, over the rationals: each
    result is the exact one rounded, within a relative error of
    [2 ^ -53] as long as it stays in the normal range. *)
Section Binary64.

Local Open Scope Q_scope.

Lemma pow2_pos (e : Z) : 0 < 2 ^ e.
Proof. apply Qpower_0_lt. lra. Qed.

Lemma pow2_add (a b : Z) : 2 ^ (a + b) == 2 ^ a * 2 ^ b.
Proof. apply Qpower_plus. lra. Qed.

Lemma pow2_sub (a b : Z) : 2 ^ (a - b) == 2 ^ a / 2 ^ b.
Proof. apply Qpower_minus. lra. Qed.

Lemma pow2_le (a b : Z) : (a <= b)%Z -> 2 ^ a <= 2 ^ b.
Proof. intros H. apply Qpower_le_compat_l; [exact H | lra]. Qed.

Lemma pow2_lt (a b : Z) : (a < b)%Z -> 2 ^ a < 2 ^ b.
Proof. intros H. apply Qpower_lt_compat_l; [exact H | lra]. Qed.

Lemma pow2_Z (n : Z) : (0 <= n)%Z -> inject_Z (2 ^ n) == 2 ^ n.
Proof. intros H. rewrite Zpower_Qpower by exact H. reflexivity. Qed.

Lemma pow2_succ (a : Z) : 2 ^ (a + 1) == 2 * 2 ^ a.
Proof. rewrite pow2_add. change (2 ^ 1) with 2. lra. Qed.

(** The number of binary digits of a positive integer. *)
Lemma digits2_pos_bounds (p : positive) :
  (2 ^ (Zpos (digits2_pos p) - 1) <= Zpos p < 2 ^ Zpos (digits2_pos p))%Z.
Proof.
  induction p as [p IH|p IH|]; cbn [digits2_pos].
  - rewrite Pos2Z.inj_succ.
    replace (Z.succ (Zpos (digits2_pos p)) - 1)%Z with (Z.succ (Zpos (digits2_pos p) - 1)) by lia.
    rewrite !Z.pow_succ_r by lia. lia.
  - rewrite Pos2Z.inj_succ.
    replace (Z.succ (Zpos (digits2_pos p)) - 1)%Z with (Z.succ (Zpos (digits2_pos p) - 1)) by lia.
    rewrite !Z.pow_succ_r by lia. lia.
  - cbn. lia.
Qed.

Lemma digits_bounds (m : Z) :
  (0 < m)%Z -> (0 < Zdigits2 m /\ 2 ^ (Zdigits2 m - 1) <= m < 2 ^ Zdigits2 m)%Z.
Proof.
  destruct m as [|p|p]; try lia. intros _. cbn [Zdigits2].
  split; [lia | apply digits2_pos_bounds].
Qed.

Lemma digits_unique (m k : Z) :
  (2 ^ (k - 1) <= m < 2 ^ k)%Z -> (0 < k)%Z -> Zdigits2 m = k.
Proof.
  intros Hm Hk.
  assert (Hpos : (0 < m)%Z).
  { assert (0 < 2 ^ (k - 1))%Z by (apply Z.pow_pos_nonneg; lia). lia. }
  destruct (digits_bounds m Hpos) as [Hd Hb].
  destruct (Z.lt_trichotomy (Zdigits2 m) k) as [H|[H|H]]; [|exact H|].
  - exfalso. assert (2 ^ Zdigits2 m <= 2 ^ (k - 1))%Z by (apply Z.pow_le_mono_r; lia). lia.
  - exfalso. assert (2 ^ k <= 2 ^ (Zdigits2 m - 1))%Z by (apply Z.pow_le_mono_r; lia). lia.
Qed.

(** Where a real [x] lies between the integers [m] and [m + 1]. *)
Lemma inject_Z_xO (p : positive) : inject_Z (Zpos p~0) == 2 * inject_Z (Zpos p).
Proof. rewrite Pos2Z.inj_xO, inject_Z_mult. reflexivity. Qed.

Lemma inject_Z_xI (p : positive) : inject_Z (Zpos p~1) == 2 * inject_Z (Zpos p) + 1.
Proof. rewrite Pos2Z.inj_xI, inject_Z_plus, inject_Z_mult. reflexivity. Qed.

Lemma located_range (m : Z) (l : location) (x : Q) :
  located m l x -> inject_Z m <= x /\ x < inject_Z m + 1.
Proof. destruct l as [|[]]; cbn; lra. Qed.

Lemma located_comp (m : Z) (l : location) (x y : Q) :
  x == y -> located m l x -> located m l y.
Proof. intros E. destruct l as [|[]]; cbn [located]; rewrite E; trivial. Qed.

Lemma shr_1_located (mrs : shr_record) (x : Q) :
  (0 <= shr_m mrs)%Z ->
  located (shr_m mrs) (loc_of_shr_record mrs) x ->
  (0 <= shr_m (shr_1 mrs))%Z /\
  located (shr_m (shr_1 mrs)) (loc_of_shr_record (shr_1 mrs)) (x * (1 # 2)).
Proof.
  destruct mrs as [m r s]. cbn [shr_m]. intros Hm.
  destruct m as [|[p|p|]|p]; try lia; clear Hm;
    destruct r, s; cbn; rewrite ?inject_Z_xO, ?inject_Z_xI;
    change (inject_Z 0) with 0; change (inject_Z 1) with 1;
    intros H; (split; [lia|]); lra.
Qed.

Lemma iter_shr_located (n : positive) (mrs : shr_record) (x : Q) :
  (0 <= shr_m mrs)%Z ->
  located (shr_m mrs) (loc_of_shr_record mrs) x ->
  (0 <= shr_m (SpecFloat.iter_pos shr_1 n mrs))%Z /\
  located (shr_m (SpecFloat.iter_pos shr_1 n mrs)) (loc_of_shr_record (SpecFloat.iter_pos shr_1 n mrs))
          (x * 2 ^ (- Zpos n)).
Proof.
  revert mrs x. induction n as [n IH|n IH|]; intros mrs x Hm Hx; cbn [SpecFloat.iter_pos].
  - destruct (shr_1_located mrs x Hm Hx) as [H1 H1'].
    destruct (IH _ _ H1 H1') as [H2 H2'].
    destruct (IH _ _ H2 H2') as [H3 H3'].
    split; [exact H3|].
    assert (E : x * (1 # 2) * 2 ^ (- Zpos n) * 2 ^ (- Zpos n) == x * 2 ^ (- Zpos n~1)).
    { replace (- Zpos n~1)%Z with (-1 + (- Zpos n + - Zpos n))%Z by lia.
      rewrite !pow2_add. change (2 ^ (-1)) with (1 # 2). ring. }
    exact (located_comp _ _ _ _ E H3').
  - destruct (IH _ _ Hm Hx) as [H2 H2'].
    destruct (IH _ _ H2 H2') as [H3 H3'].
    split; [exact H3|].
    assert (E : x * 2 ^ (- Zpos n) * 2 ^ (- Zpos n) == x * 2 ^ (- Zpos n~0)).
    { replace (- Zpos n~0)%Z with (- Zpos n + - Zpos n)%Z by lia.
      rewrite !pow2_add. ring. }
    exact (located_comp _ _ _ _ E H3').
  - change (2 ^ (- 1)) with (1 # 2). apply shr_1_located; assumption.
Qed.

Lemma loc_of_record_of_loc (m : Z) (l : location) :
  loc_of_shr_record (shr_record_of_loc m l) = l /\ shr_m (shr_record_of_loc m l) = m.
Proof. destruct l as [|[]]; split; reflexivity. Qed.

Lemma round_nearest_even_located (m : Z) (l : location) (x : Q) :
  located m l x ->
  (m <= round_nearest_even m l <= m + 1)%Z /\
  Qabs (inject_Z (round_nearest_even m l) - x) <= 1 # 2.
Proof.
  intros H. destruct l as [|[]]; cbn [round_nearest_even located] in *.
  - split; [lia|]. apply Qabs_Qle_condition. lra.
  - destruct (Z.even m); (split; [lia|]); apply Qabs_Qle_condition;
      rewrite ?inject_Z_plus; change (inject_Z 1) with 1; lra.
  - split; [lia|]. apply Qabs_Qle_condition. lra.
  - split; [lia|]. apply Qabs_Qle_condition.
    rewrite inject_Z_plus. change (inject_Z 1) with 1. lra.
Qed.

Lemma located_digits (m : Z) (l : location) (x : Q) (k : Z) :
  located m l x -> inject_Z (2 ^ (k - 1)) <= x -> x < inject_Z (2 ^ k) -> (0 < k)%Z ->
  Zdigits2 m = k.
Proof.
  intros Hl Hlo Hhi Hk. apply located_range in Hl as [H1 H2].
  apply digits_unique; [|exact Hk]. split.
  - assert (H : inject_Z (2 ^ (k - 1)) < inject_Z (m + 1)).
    { rewrite inject_Z_plus. change (inject_Z 1) with 1. lra. }
    rewrite <- Zlt_Qlt in H. lia.
  - rewrite Zlt_Qlt. lra.
Qed.

Lemma fexp_normal (e : Z) :
  (-1074 <= e - 53)%Z -> fexp Number.prec Number.emax e = (e - 53)%Z.
Proof. unfold fexp, emin, Number.prec, Number.emax. lia. Qed.

Lemma shr_fexp_located (mx ex : Z) (lx : location) (x : Q) :
  (0 < mx)%Z -> located mx lx x ->
  (53 <= Zdigits2 mx)%Z -> (-1074 <= Zdigits2 mx + ex - 53)%Z ->
  exists mrs,
    shr_fexp Number.prec Number.emax mx ex lx = (mrs, (Zdigits2 mx + ex - 53)%Z) /\
    (0 < shr_m mrs)%Z /\
    located (shr_m mrs) (loc_of_shr_record mrs) (x * 2 ^ (53 - Zdigits2 mx)) /\
    Zdigits2 (shr_m mrs) = 53%Z.
Proof.
  intros Hm Hx Hd Hemin.
  destruct (digits_bounds mx Hm) as [Hdpos Hb].
  destruct (loc_of_record_of_loc mx lx) as [Hloc Hrec].
  unfold shr_fexp, shr. rewrite fexp_normal by exact Hemin.
  replace (Zdigits2 mx + ex - 53 - ex)%Z with (Zdigits2 mx - 53)%Z by lia.
  destruct (Zdigits2 mx - 53)%Z as [|p|p] eqn:Hn; try lia.
  - exists (shr_record_of_loc mx lx). split; [f_equal; lia|].
    rewrite Hloc, Hrec. split; [exact Hm|].
    replace (53 - Zdigits2 mx)%Z with 0%Z by lia. change (2 ^ 0) with 1.
    split; [apply (located_comp _ _ x); [ring | exact Hx]|]. lia.
  - destruct (iter_shr_located p (shr_record_of_loc mx lx) x) as [H1 H2].
    { rewrite Hrec. lia. }
    { rewrite Hloc, Hrec. exact Hx. }
    exists (SpecFloat.iter_pos shr_1 p (shr_record_of_loc mx lx)). split; [f_equal; lia|].
    replace (53 - Zdigits2 mx)%Z with (- Zpos p)%Z by lia.
    assert (Hdig : Zdigits2 (shr_m (SpecFloat.iter_pos shr_1 p (shr_record_of_loc mx lx))) = 53%Z);
      [|split; [|split; [exact H2 | exact Hdig]];
        destruct (shr_m (SpecFloat.iter_pos shr_1 p (shr_record_of_loc mx lx))); cbn in Hdig; lia].
    apply located_range in Hx as [Hx1 Hx2].
    assert (Hlo : inject_Z (2 ^ (Zdigits2 mx - 1)) <= x).
    { apply Qle_trans with (inject_Z mx); [|exact Hx1]. rewrite <- Zle_Qle. lia. }
    assert (Hhi : x < inject_Z (2 ^ Zdigits2 mx)).
    { apply Qlt_le_trans with (inject_Z (mx + 1)).
      - rewrite inject_Z_plus. change (inject_Z 1) with 1. lra.
      - rewrite <- Zle_Qle. lia. }
    rewrite pow2_Z in Hlo, Hhi by lia.
    pose proof (pow2_pos (- Zpos p)) as Hp.
    eapply (located_digits _ _ _ 53 H2); [| |lia].
    + assert (E : inject_Z (2 ^ (53 - 1)) == 2 ^ (Zdigits2 mx - 1) * 2 ^ (- Zpos p)).
      { rewrite <- pow2_add, pow2_Z by lia. f_equiv. lia. }
      rewrite E. apply Qmult_le_compat_r; [exact Hlo | lra].
    + assert (E : inject_Z (2 ^ 53) == 2 ^ Zdigits2 mx * 2 ^ (- Zpos p)).
      { rewrite <- pow2_add, pow2_Z by lia. f_equiv. lia. }
      rewrite E. apply Qmult_lt_compat_r; [exact Hp | exact Hhi].
Qed.

Lemma binary_round_aux_correct (sx : bool) (mx ex : Z) (lx : location) (x : Q) :
  (0 < mx)%Z -> located mx lx x ->
  (53 <= Zdigits2 mx)%Z -> (-1074 <= Zdigits2 mx + ex - 53)%Z ->
  (Zdigits2 mx + ex < 1024)%Z ->
  exists (m : positive) (e k : Z),
    binary_round_aux Number.prec Number.emax sx mx ex lx = S754_finite sx m e /\
    Zdigits2 (Zpos m) = 53%Z /\
    (-1074 <= e <= 971)%Z /\
    inject_Z (Zpos m) * 2 ^ e == inject_Z k * 2 ^ (Zdigits2 mx + ex - 53) /\
    Qabs (inject_Z k - x * 2 ^ (53 - Zdigits2 mx)) <= 1 # 2.
Proof.
  intros Hm Hx Hd Hemin Hemax.
  destruct (shr_fexp_located mx ex lx x Hm Hx Hd Hemin) as (mrs & Hshr & Hpos & Hloc & Hdig).
  unfold binary_round_aux. rewrite Hshr.
  set (e1 := (Zdigits2 mx + ex - 53)%Z) in *.
  set (m1 := shr_m mrs) in *. set (l1 := loc_of_shr_record mrs) in *.
  destruct (round_nearest_even_located m1 l1 _ Hloc) as [Hm2 Hnear].
  set (m2 := round_nearest_even m1 l1) in *.
  destruct (digits_bounds m1 Hpos) as [_ Hb1]. rewrite Hdig in Hb1.
  change (2 ^ (53 - 1))%Z with 4503599627370496%Z in Hb1.
  change (2 ^ 53)%Z with 9007199254740992%Z in Hb1.
  destruct (Z.eq_dec m2 9007199254740992%Z) as [Heq|Hne].
  - (* the rounding carried into one more digit *)
    rewrite Heq. unfold shr_fexp, shr.
    change (Zdigits2 9007199254740992) with 54%Z.
    rewrite fexp_normal by lia.
    replace (54 + e1 - 53 - e1)%Z with 1%Z by lia.
    cbn [shr_record_of_loc SpecFloat.iter_pos shr_1 shr_m].
    replace (e1 + 1 <=? Number.emax - Number.prec)%Z with true
      by (symmetry; apply Z.leb_le; unfold Number.emax, Number.prec; lia).
    exists 4503599627370496%positive, (e1 + 1)%Z, m2.
    split; [reflexivity|]. split; [reflexivity|]. split; [lia|]. split; [|exact Hnear].
    rewrite Heq, pow2_succ.
    change (inject_Z 9007199254740992) with (2 * inject_Z 4503599627370496). ring.
  - assert (Hd2 : Zdigits2 m2 = 53%Z) by (apply digits_unique; lia).
    unfold shr_fexp, shr. rewrite Hd2.
    rewrite fexp_normal by lia.
    replace (53 + e1 - 53 - e1)%Z with 0%Z by lia.
    cbn [shr_record_of_loc shr_m].
    destruct m2 as [|p|p] eqn:Hp; try lia.
    replace (e1 <=? Number.emax - Number.prec)%Z with true
      by (symmetry; apply Z.leb_le; unfold Number.emax, Number.prec; lia).
    exists p, e1, (Zpos p).
    split; [reflexivity|]. split; [exact Hd2|]. split; [lia|]. split; [reflexivity|].
    exact Hnear.
Qed.

Lemma iter_xO (m d : positive) : (Zpos (Pos.iter xO m d) = Zpos m * 2 ^ Zpos d)%Z.
Proof.
  induction d as [|d IH] using Pos.peano_ind.
  - cbn. lia.
  - rewrite Pos.iter_succ, Pos2Z.inj_xO, IH, Pos2Z.inj_succ, Z.pow_succ_r by lia. lia.
Qed.

Lemma digits_shift (m : Z) (k : Z) :
  (0 < m)%Z -> (0 <= k)%Z -> Zdigits2 (m * 2 ^ k) = (Zdigits2 m + k)%Z.
Proof.
  intros Hm Hk. destruct (digits_bounds m Hm) as [Hd Hb].
  apply digits_unique; [|lia].
  replace (Zdigits2 m + k - 1)%Z with ((Zdigits2 m - 1) + k)%Z by lia.
  rewrite !Z.pow_add_r by lia.
  assert (0 < 2 ^ k)%Z by (apply Z.pow_pos_nonneg; lia). nia.
Qed.

(** The relative error of a rounding: half a unit in the last place. *)
Lemma half_ulp_relative (k x : Q) (d ex : Z) :
  Qabs (k - x * 2 ^ (53 - d)) <= 1 # 2 ->
  2 ^ (d - 1) <= x ->
  Qabs (k * 2 ^ (d + ex - 53) - x * 2 ^ ex) <= 2 ^ (-53) * (x * 2 ^ ex).
Proof.
  intros Hnear Hx.
  apply Qabs_Qle_condition in Hnear as [H1 H2].
  pose proof (pow2_pos (d + ex - 53)) as Ha.
  pose proof (pow2_pos ex) as Hb.
  assert (E1 : 2 ^ (53 - d) * 2 ^ (d + ex - 53) == 2 ^ ex).
  { rewrite <- pow2_add. f_equiv. lia. }
  assert (E2 : 2 ^ (-53) * (2 ^ (d - 1) * 2 ^ ex) == (1 # 2) * 2 ^ (d + ex - 53)).
  { rewrite <- !pow2_add. change (1 # 2) with (2 ^ (-1)). rewrite <- pow2_add. f_equiv. lia. }
  set (A := 2 ^ (d + ex - 53)) in *. set (B := 2 ^ ex) in *.
  set (P := 2 ^ (53 - d)) in *. set (L := 2 ^ (d - 1)) in *. set (U := 2 ^ (-53)) in *.
  assert (HU : 0 < U) by apply pow2_pos.
  assert (E3 : k * A - x * B == (k - x * P) * A) by (rewrite <- E1; ring).
  assert (H3 : U * (L * B) <= U * (x * B)).
  { apply Qmult_le_l; [exact HU|]. apply Qmult_le_compat_r; [exact Hx | lra]. }
  apply Qabs_Qle_condition. rewrite E3. split.
  - apply Qle_trans with (- ((1 # 2) * A)); [lra|].
    setoid_replace (- ((1 # 2) * A)) with ((- (1 # 2)) * A) using relation Qeq by ring.
    apply Qmult_le_compat_r; lra.
  - apply Qle_trans with ((1 # 2) * A); [|lra].
    apply Qmult_le_compat_r; lra.
Qed.

Lemma near_integer (k n : Z) : Qabs (inject_Z k - inject_Z n) <= 1 # 2 -> k = n.
Proof.
  intros H. apply Qabs_Qle_condition in H as [H1 H2].
  assert (A : inject_Z (n - 1) < inject_Z k).
  { unfold Zminus. rewrite inject_Z_plus, inject_Z_opp. change (inject_Z 1) with 1. lra. }
  assert (B : inject_Z k < inject_Z (n + 1)).
  { rewrite inject_Z_plus. change (inject_Z 1) with 1. lra. }
  rewrite <- Zlt_Qlt in A, B. lia.
Qed.


Lemma mantissa_range (m : positive) (e : Z) :
  2 ^ (Zdigits2 (Zpos m) - 1 + e) <= inject_Z (Zpos m) * 2 ^ e /\
  inject_Z (Zpos m) * 2 ^ e < 2 ^ (Zdigits2 (Zpos m) + e).
Proof.
  destruct (digits_bounds (Zpos m) eq_refl) as [Hd [H1 H2]].
  pose proof (pow2_pos e) as He. rewrite !pow2_add. split.
  - apply Qmult_le_compat_r; [|lra]. rewrite <- pow2_Z by lia. rewrite <- Zle_Qle. exact H1.
  - apply Qmult_lt_compat_r; [exact He|]. rewrite <- pow2_Z by lia.
    rewrite <- Zlt_Qlt. exact H2.
Qed.

Lemma range_exponents (m : positive) (e : Z) :
  2 ^ (-1000) <= inject_Z (Zpos m) * 2 ^ e -> inject_Z (Zpos m) * 2 ^ e < 2 ^ 1000 ->
  (-1000 < Zdigits2 (Zpos m) + e <= 1000)%Z.
Proof.
  intros Hlo Hhi. destruct (mantissa_range m e) as [H1 H2].
  assert (A : 2 ^ (-1000) < 2 ^ (Zdigits2 (Zpos m) + e)) by lra.
  assert (B : 2 ^ (Zdigits2 (Zpos m) - 1 + e) < 2 ^ 1000) by lra.
  apply Qpower_lt_compat_l_inv in A; [|lra].
  apply Qpower_lt_compat_l_inv in B; [|lra]. lia.
Qed.

Lemma mantissa_pos (m : positive) (e : Z) : 0 < inject_Z (Zpos m) * 2 ^ e.
Proof.
  apply Qmult_lt_0_compat; [|apply pow2_pos].
  change 0 with (inject_Z 0). rewrite <- Zlt_Qlt. lia.
Qed.

Lemma value_finite (s : bool) (m : positive) (e : Z) :
  Number.value (S754_finite s m e) == sgn s * (inject_Z (Zpos m) * 2 ^ e).
Proof. unfold Number.value, sgn. destruct s; ring. Qed.

Lemma Qabs_sgn (s : bool) (x : Q) : Qabs (sgn s * x) == Qabs x.
Proof.
  unfold sgn. destruct s.
  - setoid_replace (-1 * x) with (- x) using relation Qeq by ring. apply Qabs_opp.
  - setoid_replace (1 * x) with x using relation Qeq by ring. reflexivity.
Qed.

Lemma digits_ge (m k : Z) : (0 < k)%Z -> (2 ^ (k - 1) <= m)%Z -> (k <= Zdigits2 m)%Z.
Proof.
  intros Hk Hm.
  assert (Hpos : (0 < m)%Z).
  { assert (0 < 2 ^ (k - 1))%Z by (apply Z.pow_pos_nonneg; lia). lia. }
  destruct (digits_bounds m Hpos) as [Hd [_ Hb]].
  destruct (Z_lt_le_dec (Zdigits2 m) k) as [H|H]; [|exact H]. exfalso.
  assert (2 ^ Zdigits2 m <= 2 ^ (k - 1))%Z by (apply Z.pow_le_mono_r; lia). lia.
Qed.

(** The rounding at the end of every operation, with its sign. *)
Lemma round_aux_signed (s : bool) (mx ex : Z) (lx : location) (x : Q) :
  (0 < mx)%Z -> located mx lx x -> (53 <= Zdigits2 mx)%Z ->
  2 ^ (-1000) <= x * 2 ^ ex -> x * 2 ^ ex < 2 ^ 1000 ->
  rounds_to (sgn s * (x * 2 ^ ex)) (binary_round_aux Number.prec Number.emax s mx ex lx) /\
  (forall N : Z,
     x * 2 ^ ex == inject_Z N -> (N < 2 ^ 53)%Z ->
     Number.value (binary_round_aux Number.prec Number.emax s mx ex lx)
     == sgn s * inject_Z N).
Proof.
  intros Hm Hx Hd Hlo Hhi.
  destruct (located_range _ _ _ Hx) as [Hx1 Hx2].
  destruct (digits_bounds mx Hm) as [Hdpos [Hb1 Hb2]].
  set (d := Zdigits2 mx) in *.
  pose proof (pow2_pos ex) as Hex.
  assert (Hx3 : 2 ^ (d - 1) <= x).
  { apply Qle_trans with (inject_Z mx); [|exact Hx1].
    rewrite <- pow2_Z by lia. rewrite <- Zle_Qle. exact Hb1. }
  assert (Hx4 : x < 2 ^ d).
  { apply Qlt_le_trans with (inject_Z (mx + 1)).
    - rewrite inject_Z_plus. change (inject_Z 1) with 1. exact Hx2.
    - rewrite <- pow2_Z by lia. rewrite <- Zle_Qle. lia. }
  assert (Hexp : (-1000 < d + ex <= 1000)%Z).
  { assert (A : 2 ^ (-1000) < 2 ^ (d + ex)).
    { rewrite pow2_add. apply Qle_lt_trans with (x * 2 ^ ex); [exact Hlo|].
      apply Qmult_lt_compat_r; assumption. }
    assert (B : 2 ^ (d - 1 + ex) < 2 ^ 1000).
    { rewrite pow2_add. apply Qle_lt_trans with (x * 2 ^ ex); [|exact Hhi].
      apply Qmult_le_compat_r; [exact Hx3 | lra]. }
    apply Qpower_lt_compat_l_inv in A; [|lra].
    apply Qpower_lt_compat_l_inv in B; [|lra]. lia. }
  destruct (binary_round_aux_correct s mx ex lx x Hm Hx Hd ltac:(fold d; lia) ltac:(fold d; lia))
    as (m' & e' & k & Hrun & Hdig & He & Hval & Hnear).
  fold d in Hval, Hnear. rewrite Hrun.
  assert (Hxpos : 0 < x * 2 ^ ex).
  { apply Qmult_lt_0_compat; [|exact Hex]. pose proof (pow2_pos (d - 1)). lra. }
  split.
  - split; [split; assumption|].
    rewrite value_finite, Qabs_sgn.
    setoid_replace (sgn s * (inject_Z (Zpos m') * 2 ^ e') - sgn s * (x * 2 ^ ex))
      with (sgn s * (inject_Z (Zpos m') * 2 ^ e' - x * 2 ^ ex)) using relation Qeq by ring.
    rewrite Qabs_sgn, (Qabs_pos (x * 2 ^ ex)) by lra.
    rewrite Hval. apply half_ulp_relative; assumption.
  - intros N HN Hsmall. rewrite value_finite, Hval. f_equiv.
    assert (Hde : (d + ex <= 53)%Z).
    { assert (A : 2 ^ (d - 1 + ex) < 2 ^ 53).
      { rewrite pow2_add. apply Qle_lt_trans with (x * 2 ^ ex).
        - apply Qmult_le_compat_r; [exact Hx3 | lra].
        - rewrite HN, <- pow2_Z by lia. rewrite <- Zlt_Qlt. exact Hsmall. }
      apply Qpower_lt_compat_l_inv in A; [|lra]. lia. }
    assert (Hgrid : x * 2 ^ (53 - d) == inject_Z (N * 2 ^ (53 - (d + ex)))).
    { rewrite inject_Z_mult, pow2_Z by lia. rewrite <- HN.
      rewrite <- Qmult_assoc, <- pow2_add. f_equiv. f_equiv. lia. }
    rewrite Hgrid in Hnear. apply near_integer in Hnear. subst k.
    rewrite inject_Z_mult, pow2_Z by lia.
    rewrite <- Qmult_assoc, <- pow2_add.
    replace (53 - (d + ex) + (d + ex - 53))%Z with 0%Z by lia.
    change (2 ^ 0) with 1. ring.
Qed.


Lemma rounds_to_comp (q q' : Q) (x : spec_float) :
  q == q' -> rounds_to q x -> rounds_to q' x.
Proof. intros E [H1 H2]. split; [exact H1|]. rewrite <- E. exact H2. Qed.

(** [binary_round] of a positive mantissa, with its sign; an integer
    below [2 ^ 53] is kept as it is. *)
Lemma round_signed (s : bool) (m : positive) (e : Z) :
  2 ^ (-1000) <= inject_Z (Zpos m) * 2 ^ e -> inject_Z (Zpos m) * 2 ^ e < 2 ^ 1000 ->
  rounds_to (sgn s * (inject_Z (Zpos m) * 2 ^ e))
            (binary_round Number.prec Number.emax s m e) /\
  (forall N : Z,
     inject_Z (Zpos m) * 2 ^ e == inject_Z N -> (N < 2 ^ 53)%Z ->
     Number.value (binary_round Number.prec Number.emax s m e) == sgn s * inject_Z N).
Proof.
  intros Hlo Hhi. pose proof (range_exponents m e Hlo Hhi) as Hexp.
  destruct (digits_bounds (Zpos m) eq_refl) as [Hd Hb].
  set (d := Zdigits2 (Zpos m)) in *.
  unfold binary_round. change (Zpos (digits2_pos m)) with d.
  rewrite fexp_normal by lia. unfold shl_align.
  replace (d + e - 53 - e)%Z with (d - 53)%Z by lia.
  destruct (d - 53)%Z as [|p|p] eqn:Hp.
  - apply round_aux_signed; [reflexivity | reflexivity | fold d; lia | assumption..].
  - apply round_aux_signed; [reflexivity | reflexivity | fold d; lia | assumption..].
  - assert (Hz : (Zpos (Pos.iter xO m p) = Zpos m * 2 ^ Zpos p)%Z) by apply iter_xO.
    assert (Hdz : Zdigits2 (Zpos (Pos.iter xO m p)) = 53%Z).
    { rewrite Hz, digits_shift by lia. fold d. lia. }
    assert (Hsame : inject_Z (Zpos (Pos.iter xO m p)) * 2 ^ (d + e - 53)
                    == inject_Z (Zpos m) * 2 ^ e).
    { rewrite Hz, inject_Z_mult, pow2_Z by lia.
      rewrite <- Qmult_assoc, <- pow2_add. f_equiv. f_equiv. lia. }
    assert (Hlo' : 2 ^ (-1000) <= inject_Z (Zpos (Pos.iter xO m p)) * 2 ^ (d + e - 53))
      by (rewrite Hsame; exact Hlo).
    assert (Hhi' : inject_Z (Zpos (Pos.iter xO m p)) * 2 ^ (d + e - 53) < 2 ^ 1000)
      by (rewrite Hsame; exact Hhi).
    assert (Hdz' : (53 <= Zdigits2 (Zpos (Pos.iter xO m p)))%Z) by (rewrite Hdz; lia).
    destruct (round_aux_signed s (Zpos (Pos.iter xO m p)) (d + e - 53) loc_Exact
                (inject_Z (Zpos (Pos.iter xO m p))) eq_refl (Qeq_refl _) Hdz' Hlo' Hhi')
      as [H1 H2].
    split.
    + eapply rounds_to_comp; [|exact H1]. rewrite Hsame. reflexivity.
    + intros N HN Hsmall. apply H2; [|exact Hsmall]. rewrite Hsame. exact HN.
Qed.

(** [binary_normalize] of any integer mantissa. *)
Lemma normalize_correct (z e : Z) :
  in_range (inject_Z z * 2 ^ e) ->
  rounds_to (inject_Z z * 2 ^ e) (binary_normalize Number.prec Number.emax z e false) /\
  (forall N : Z,
     inject_Z z * 2 ^ e == inject_Z N -> (- 2 ^ 53 < N < 2 ^ 53)%Z ->
     Number.value (binary_normalize Number.prec Number.emax z e false) == inject_Z N).
Proof.
  intros Hr. destruct z as [|m|m]; cbn [binary_normalize].
  - assert (E : inject_Z 0 * 2 ^ e == 0) by (change (inject_Z 0) with 0; ring).
    split.
    + split; [exact I|]. rewrite E. apply Qle_bool_imp_le. reflexivity.
    + intros N HN _. rewrite <- HN, E. reflexivity.
  - pose proof (mantissa_pos m e) as Hpos.
    destruct Hr as [Hr|[Hlo Hhi]]; [lra|].
    rewrite Qabs_pos in Hlo, Hhi by lra.
    destruct (round_signed false m e Hlo Hhi) as [H1 H2]. split.
    + eapply rounds_to_comp; [|exact H1]. unfold sgn. ring.
    + intros N HN Hsmall. rewrite (H2 N HN ltac:(lia)). unfold sgn. ring.
  - pose proof (mantissa_pos m e) as Hpos.
    assert (Hneg : inject_Z (Zneg m) * 2 ^ e == - (inject_Z (Zpos m) * 2 ^ e)).
    { change (Zneg m) with (- Zpos m)%Z. rewrite inject_Z_opp. ring. }
    unfold in_range in Hr. rewrite Hneg in Hr.
    destruct Hr as [Hr|[Hlo Hhi]]; [lra|].
    rewrite Qabs_opp, Qabs_pos in Hlo, Hhi by lra.
    destruct (round_signed true m e Hlo Hhi) as [H1 H2]. split.
    + eapply rounds_to_comp; [|exact H1]. rewrite Hneg. unfold sgn. ring.
    + intros N HN Hsmall.
      rewrite (H2 (- N)%Z).
      * rewrite inject_Z_opp. unfold sgn. ring.
      * rewrite inject_Z_opp, <- HN, Hneg. ring.
      * lia.
Qed.

Lemma in_range_integer (n : Z) : (- 2 ^ 53 < n < 2 ^ 53)%Z -> in_range (inject_Z n).
Proof.
  intros H. destruct (Z.eq_dec n 0%Z) as [->|Hn]; [left; reflexivity|]. right.
  assert (E : Qabs (inject_Z n) == inject_Z (Z.abs n)).
  { unfold Qabs, inject_Z. cbn. reflexivity. }
  rewrite E. split.
  - apply Qle_trans with 1.
    + change 1 with (2 ^ 0). apply pow2_le. lia.
    + change 1 with (inject_Z 1). rewrite <- Zle_Qle. lia.
  - apply Qlt_trans with (2 ^ 53).
    + rewrite <- pow2_Z by lia. rewrite <- Zlt_Qlt. lia.
    + apply pow2_lt. lia.
Qed.

(** A small integer is a number as it stands. *)
Lemma of_Z_exact (n : Z) :
  (- 2 ^ 53 < n < 2 ^ 53)%Z ->
  normal (Number.of_Z n) /\ Number.value (Number.of_Z n) == inject_Z n.
Proof.
  intros H. unfold Number.of_Z.
  assert (E : inject_Z n * 2 ^ 0 == inject_Z n) by (change (2 ^ 0) with 1; ring).
  destruct (normalize_correct n 0) as [[H1 _] H2].
  { pose proof (in_range_integer n H) as Hr. unfold in_range in *. rewrite E. exact Hr. }
  split; [exact H1|]. apply H2; [exact E | exact H].
Qed.

#[local] Instance in_range_proper : Proper (Qeq ==> iff) in_range.
Proof. intros q q' E. unfold in_range. rewrite E. reflexivity. Qed.

#[local] Instance rounds_to_proper : Proper (Qeq ==> eq ==> iff) rounds_to.
Proof. intros q q' E x y ->. unfold rounds_to. rewrite E. reflexivity. Qed.

Lemma rounds_to_exact (q : Q) (x : spec_float) :
  normal x -> Number.value x == q -> rounds_to q x.
Proof.
  intros Hn E. split; [exact Hn|]. rewrite E.
  setoid_replace (q - q) with 0 using relation Qeq by ring. cbn [Qabs].
  apply Qmult_le_0_compat; [apply Qlt_le_weak, pow2_pos | apply Qabs_nonneg].
Qed.

Lemma shl_align_value (m : positive) (e ez : Z) :
  (ez <= e)%Z -> (Zpos (shl_align m e ez).1 = Zpos m * 2 ^ (e - ez))%Z.
Proof.
  intros H. unfold shl_align.
  destruct (ez - e)%Z as [|d|d] eqn:Hd; cbn [fst].
  - replace (e - ez)%Z with 0%Z by lia. rewrite Z.pow_0_r. lia.
  - lia.
  - rewrite iter_xO. f_equal. f_equal. lia.
Qed.

Lemma inject_cond_Zopp (s : bool) (m : Z) :
  inject_Z (cond_Zopp s m) == sgn s * inject_Z m.
Proof. destruct s; cbn [cond_Zopp sgn]; [rewrite inject_Z_opp|]; ring. Qed.

Lemma aligned_value (s : bool) (m : positive) (e ez : Z) :
  (ez <= e)%Z ->
  inject_Z (cond_Zopp s (Zpos (shl_align m e ez).1)) * 2 ^ ez
  == Number.value (S754_finite s m e).
Proof.
  intros H. rewrite inject_cond_Zopp, shl_align_value, inject_Z_mult, pow2_Z, value_finite by lia.
  rewrite <- !Qmult_assoc, <- pow2_add. do 2 f_equiv. f_equiv. lia.
Qed.

(** Subtraction: the difference, rounded. *)
Lemma sub_correct (a b : spec_float) :
  normal a -> normal b -> in_range (Number.value a - Number.value b) ->
  rounds_to (Number.value a - Number.value b) (Number.sub a b) /\
  (forall N : Z,
     Number.value a - Number.value b == inject_Z N -> (- 2 ^ 53 < N < 2 ^ 53)%Z ->
     Number.value (Number.sub a b) == inject_Z N).
Proof.
  intros Ha Hb Hr.
  assert (Hexact : forall x : spec_float,
             normal x -> Number.value x == Number.value a - Number.value b ->
             rounds_to (Number.value a - Number.value b) x /\
             (forall N : Z,
                Number.value a - Number.value b == inject_Z N -> (- 2 ^ 53 < N < 2 ^ 53)%Z ->
                Number.value x == inject_Z N)).
  { intros x Hx E. split; [apply rounds_to_exact; assumption|].
    intros N HN _. rewrite E. exact HN. }
  destruct a as [sa|sa| |sa ma ea], b as [sb|sb| |sb mb eb]; try contradiction;
    unfold Number.sub, SFsub.
  - apply Hexact; [destruct sa, sb; exact I|]. destruct sa, sb; cbn; ring.
  - apply Hexact; [exact Hb|]. rewrite !value_finite. cbn [Number.value].
    destruct sb; unfold sgn; cbn [negb]; ring.
  - apply Hexact; [exact Ha|]. cbn [Number.value]. ring.
  - set (ez := Z.min ea eb).
    assert (E : inject_Z (cond_Zopp sa (Zpos (shl_align ma ea ez).1)
                          - cond_Zopp sb (Zpos (shl_align mb eb ez).1)) * 2 ^ ez
                == Number.value (S754_finite sa ma ea) - Number.value (S754_finite sb mb eb)).
    { unfold Zminus. rewrite inject_Z_plus, inject_Z_opp.
      rewrite <- (aligned_value sa ma ea ez), <- (aligned_value sb mb eb ez) by lia. ring. }
    rewrite <- E in Hr |- *.
    destruct (normalize_correct _ _ Hr) as [H1 H2]. split; [exact H1|].
    intros N HN Hsmall. apply H2; [|exact Hsmall]. rewrite E. exact HN.
Qed.

(** Multiplication: the product, rounded. *)
Lemma mul_correct (a b : spec_float) :
  normal a -> normal b -> in_range (Number.value a * Number.value b) ->
  rounds_to (Number.value a * Number.value b) (Number.mul a b) /\
  (forall N : Z,
     Number.value a * Number.value b == inject_Z N -> (- 2 ^ 53 < N < 2 ^ 53)%Z ->
     Number.value (Number.mul a b) == inject_Z N).
Proof.
  intros Ha Hb Hr.
  assert (Hzero : forall s : bool,
             Number.value a * Number.value b == 0 ->
             rounds_to (Number.value a * Number.value b) (S754_zero s) /\
             (forall N : Z,
                Number.value a * Number.value b == inject_Z N -> (- 2 ^ 53 < N < 2 ^ 53)%Z ->
                Number.value (S754_zero s) == inject_Z N)).
  { intros s E. split; [apply rounds_to_exact; [exact I | rewrite E; reflexivity]|].
    intros N HN _. rewrite <- HN, E. reflexivity. }
  destruct a as [sa|sa| |sa ma ea], b as [sb|sb| |sb mb eb]; try contradiction;
    unfold Number.mul, SFmul.
  - apply Hzero. cbn. ring.
  - apply Hzero. cbn [Number.value]. ring.
  - apply Hzero. cbn [Number.value]. ring.
  - destruct Ha as [Hda _], Hb as [Hdb _].
    destruct (digits_bounds (Zpos ma) eq_refl) as [_ [Ha1 _]].
    destruct (digits_bounds (Zpos mb) eq_refl) as [_ [Hb1 _]].
    rewrite Hda in Ha1. rewrite Hdb in Hb1.
    assert (Hprod : Number.value (S754_finite sa ma ea) * Number.value (S754_finite sb mb eb)
                    == sgn (xorb sa sb) * (inject_Z (Zpos (ma * mb)) * 2 ^ (ea + eb))).
    { rewrite !value_finite, Pos2Z.inj_mul, inject_Z_mult, pow2_add.
      destruct sa, sb; unfold sgn; cbn [xorb]; ring. }
    pose proof (mantissa_pos (ma * mb) (ea + eb)) as Hpos.
    unfold in_range in Hr. rewrite Hprod, Qabs_sgn, Qabs_pos in Hr by lra.
    destruct Hr as [Hr|[Hlo Hhi]].
    { exfalso. destruct (xorb sa sb); unfold sgn in Hr; lra. }
    assert (Hdig : (53 <= Zdigits2 (Zpos (ma * mb)))%Z).
    { apply digits_ge; [lia|]. rewrite Pos2Z.inj_mul.
      change (2 ^ (53 - 1))%Z with 4503599627370496%Z in *. nia. }
    destruct (round_aux_signed (xorb sa sb) (Zpos (ma * mb)) (ea + eb) loc_Exact
                (inject_Z (Zpos (ma * mb))) eq_refl (Qeq_refl _) Hdig Hlo Hhi) as [H1 H2].
    split; [rewrite Hprod; exact H1|].
    intros N HN Hsmall. rewrite Hprod in HN.
    destruct (xorb sa sb); unfold sgn in *.
    + rewrite (H2 (- N)%Z); [rewrite inject_Z_opp; ring | rewrite inject_Z_opp; lra | lia].
    + rewrite (H2 N); [ring | lra | lia].
Qed.

Lemma fraction_cases (r m : Z) :
  (0 < m)%Z -> (0 <= r < m)%Z ->
  (r = 0%Z -> inject_Z r / inject_Z m == 0) /\
  ((0 < r)%Z -> (2 * r < m)%Z ->
   0 < inject_Z r / inject_Z m /\ inject_Z r / inject_Z m < 1 # 2) /\
  ((2 * r)%Z = m -> inject_Z r / inject_Z m == 1 # 2) /\
  ((m < 2 * r)%Z ->
   1 # 2 < inject_Z r / inject_Z m /\ inject_Z r / inject_Z m < 1).
Proof.
  intros Hm Hr.
  assert (HM : 0 < inject_Z m) by (change 0 with (inject_Z 0); rewrite <- Zlt_Qlt; exact Hm).
  repeat split.
  - intros ->. change (inject_Z 0) with 0. field. lra.
  - apply Qlt_shift_div_l; [exact HM|]. rewrite Qmult_0_l.
    change 0 with (inject_Z 0). rewrite <- Zlt_Qlt. assumption.
  - apply Qlt_shift_div_r; [exact HM|].
    assert (E : inject_Z (2 * r) < inject_Z m) by (rewrite <- Zlt_Qlt; assumption).
    rewrite inject_Z_mult in E. change (inject_Z 2) with 2 in E. lra.
  - intros E. rewrite <- E, inject_Z_mult. change (inject_Z 2) with 2.
    assert (0 < inject_Z r).
    { change 0 with (inject_Z 0). rewrite <- Zlt_Qlt. lia. }
    field. lra.
  - apply Qlt_shift_div_l; [exact HM|].
    assert (E : inject_Z m < inject_Z (2 * r)) by (rewrite <- Zlt_Qlt; assumption).
    rewrite inject_Z_mult in E. change (inject_Z 2) with 2 in E. lra.
  - apply Qlt_shift_div_r; [exact HM|]. rewrite Qmult_1_l. rewrite <- Zlt_Qlt. lia.
Qed.

Lemma new_location_located (m q r : Z) :
  (0 < m)%Z -> (0 <= r < m)%Z ->
  located q (new_location m r) (inject_Z q + inject_Z r / inject_Z m).
Proof.
  intros Hm Hr. destruct (fraction_cases r m Hm Hr) as (H0 & H1 & H2 & H3).
  unfold new_location, new_location_even, new_location_odd.
  destruct (Z.even m) eqn:Heven.
  - destruct (Z.eqb_spec r 0) as [E|E]; [cbn; rewrite (H0 E); ring|].
    destruct (Z.compare_spec (2 * r) m) as [C|C|C]; cbn.
    + rewrite (H2 C). reflexivity.
    + destruct (H1 ltac:(lia) C). split; lra.
    + destruct (H3 C). split; lra.
  - destruct (Z.eqb_spec r 0) as [E|E]; [cbn; rewrite (H0 E); ring|].
    assert (Hodd : (2 * r)%Z <> m).
    { intros C. rewrite <- C, Z.even_mul in Heven. discriminate. }
    destruct (Z.compare_spec (2 * r + 1) m) as [C|C|C]; cbn.
    + destruct (H1 ltac:(lia) ltac:(lia)). split; lra.
    + destruct (H1 ltac:(lia) ltac:(lia)). split; lra.
    + destruct (H3 ltac:(lia)). split; lra.
Qed.

(** Division of two finite floats: the quotient, rounded. *)
Lemma div_finite (sx : bool) (mx : positive) (ex : Z) (sy : bool) (my : positive) (ey : Z) :
  2 ^ (-1000) <= inject_Z (Zpos mx) * 2 ^ ex / (inject_Z (Zpos my) * 2 ^ ey) ->
  inject_Z (Zpos mx) * 2 ^ ex / (inject_Z (Zpos my) * 2 ^ ey) < 2 ^ 1000 ->
  rounds_to (sgn (xorb sx sy)
             * (inject_Z (Zpos mx) * 2 ^ ex / (inject_Z (Zpos my) * 2 ^ ey)))
            (Number.div (S754_finite sx mx ex) (S754_finite sy my ey)).
Proof.
  set (X := inject_Z (Zpos mx) * 2 ^ ex / (inject_Z (Zpos my) * 2 ^ ey)).
  intros Hlo Hhi.
  destruct (mantissa_range mx ex) as [Hx1 Hx2].
  destruct (mantissa_range my ey) as [Hy1 Hy2].
  pose proof (mantissa_pos mx ex) as Hxpos. pose proof (mantissa_pos my ey) as Hypos.
  set (d1 := Zdigits2 (Zpos mx)) in *. set (d2 := Zdigits2 (Zpos my)) in *.
  set (D := (d1 + ex - (d2 + ey))%Z).
  (* the quotient lies between two powers of two *)
  assert (HX1 : 2 ^ (D - 1) < X).
  { unfold X. apply Qlt_shift_div_l; [exact Hypos|].
    apply Qlt_le_trans with (2 ^ (D - 1) * 2 ^ (d2 + ey)).
    - apply Qmult_lt_l; [apply pow2_pos | exact Hy2].
    - rewrite <- pow2_add. replace (D - 1 + (d2 + ey))%Z with (d1 - 1 + ex)%Z by (unfold D; lia).
      exact Hx1. }
  assert (HX2 : X < 2 ^ (D + 1)).
  { unfold X. apply Qlt_shift_div_r; [exact Hypos|].
    apply Qlt_le_trans with (2 ^ (D + 1) * 2 ^ (d2 - 1 + ey)).
    - rewrite <- pow2_add. replace (D + 1 + (d2 - 1 + ey))%Z with (d1 + ex)%Z by (unfold D; lia).
      exact Hx2.
    - apply Qmult_le_l; [apply pow2_pos | exact Hy1]. }
  assert (HD : (-1001 < D < 1001)%Z).
  { assert (A : 2 ^ (D - 1) < 2 ^ 1000) by lra.
    assert (B : 2 ^ (-1000) < 2 ^ (D + 1)) by lra.
    apply Qpower_lt_compat_l_inv in A; [|lra].
    apply Qpower_lt_compat_l_inv in B; [|lra]. lia. }
  unfold Number.div, SFdiv, SFdiv_core_binary.
  fold d1 d2. change (d1 + ex - (d2 + ey))%Z with D.
  rewrite fexp_normal by lia.
  set (e' := Z.min (D - 53) (ex - ey)).
  set (s := (ex - ey - e')%Z).
  assert (Hs : (0 <= s)%Z) by (unfold s, e'; lia).
  set (m' := match s with Zpos _ => Z.shiftl (Zpos mx) s | Z0 => Zpos mx | Zneg _ => 0%Z end).
  assert (Hm' : m' = (Zpos mx * 2 ^ s)%Z).
  { unfold m'. destruct s as [|p|p] eqn:Es.
    - rewrite Z.pow_0_r. lia.
    - apply Z.shiftl_mul_pow2. lia.
    - lia. }
  pose proof (Z_div_mod m' (Zpos my) eq_refl) as Hdiv.
  destruct (Z.div_eucl m' (Zpos my)) as [q r]. destruct Hdiv as [Hqr Hr].
  (* the quotient of the mantissas, where the remainder puts it *)
  set (x := inject_Z q + inject_Z r / inject_Z (Zpos my)).
  assert (Hloc : located q (new_location (Zpos my) r) x)
    by (apply new_location_located; [reflexivity | exact Hr]).
  assert (HMy : 0 < inject_Z (Zpos my)).
  { change 0 with (inject_Z 0). rewrite <- Zlt_Qlt. reflexivity. }
  assert (Hx : x == inject_Z m' / inject_Z (Zpos my)).
  { unfold x. rewrite Hqr, inject_Z_plus, inject_Z_mult. field. lra. }
  assert (HxX : x * 2 ^ e' == X).
  { rewrite Hx, Hm', inject_Z_mult, pow2_Z by exact Hs. unfold X.
    assert (Eex : 2 ^ ex == 2 ^ s * 2 ^ e' * 2 ^ ey).
    { rewrite <- !pow2_add. f_equiv. unfold s. lia. }
    rewrite Eex. pose proof (pow2_pos ey). pose proof (pow2_pos e').
    pose proof (pow2_pos s). field. split; lra. }
  assert (Hq : (2 ^ 52 <= q)%Z).
  { assert (A : 2 ^ 52 < x).
    { assert (B : 2 ^ 52 * 2 ^ e' < x * 2 ^ e').
      { rewrite HxX. apply Qle_lt_trans with (2 ^ (D - 1)); [|exact HX1].
        rewrite <- pow2_add. apply pow2_le. unfold e'. lia. }
      apply Qmult_lt_r in B; [exact B | apply pow2_pos]. }
    destruct (located_range _ _ _ Hloc) as [_ Hup].
    assert (C : inject_Z (2 ^ 52) < inject_Z (q + 1)).
    { rewrite inject_Z_plus, pow2_Z by lia. change (inject_Z 1) with 1. lra. }
    rewrite <- Zlt_Qlt in C. lia. }
  assert (Hqpos : (0 < q)%Z).
  { assert (0 < 2 ^ 52)%Z by reflexivity. lia. }
  assert (Hdig : (53 <= Zdigits2 q)%Z) by (apply digits_ge; [lia | exact Hq]).
  assert (Hlo' : 2 ^ (-1000) <= x * 2 ^ e') by (rewrite HxX; exact Hlo).
  assert (Hhi' : x * 2 ^ e' < 2 ^ 1000) by (rewrite HxX; exact Hhi).
  destruct (round_aux_signed (xorb sx sy) q e' (new_location (Zpos my) r) x
              Hqpos Hloc Hdig Hlo' Hhi') as [H _].
  rewrite <- HxX. exact H.
Qed.

Lemma value_zero_iff (x : spec_float) :
  normal x -> (Number.value x == 0 <-> exists s, x = S754_zero s).
Proof.
  intros Hn. destruct x as [s|s| |s m e]; try contradiction.
  - split; [eauto | reflexivity].
  - rewrite value_finite. pose proof (mantissa_pos m e). split.
    + intros E. exfalso. destruct s; unfold sgn in E; lra.
    + intros [s' E]. discriminate.
Qed.

(** Division: the quotient, rounded. *)
Lemma div_correct (a b : spec_float) :
  normal a -> normal b -> ~ Number.value b == 0 ->
  in_range (Number.value a / Number.value b) ->
  rounds_to (Number.value a / Number.value b) (Number.div a b).
Proof.
  intros Ha Hb Hnz Hr.
  destruct a as [sa|sa| |sa ma ea], b as [sb|sb| |sb mb eb]; try contradiction;
    try (exfalso; apply Hnz; reflexivity).
  - unfold Number.div, SFdiv. apply rounds_to_exact; [exact I|].
    cbn [Number.value]. unfold Qdiv. ring.
  - pose proof (mantissa_pos ma ea) as Hapos. pose proof (mantissa_pos mb eb) as Hbpos.
    set (X := inject_Z (Zpos ma) * 2 ^ ea / (inject_Z (Zpos mb) * 2 ^ eb)).
    assert (HX : 0 < X).
    { unfold X. apply Qlt_shift_div_l; [exact Hbpos|]. lra. }
    assert (E : Number.value (S754_finite sa ma ea) / Number.value (S754_finite sb mb eb)
                == sgn (xorb sa sb) * X).
    { rewrite !value_finite. unfold X.
      set (A := inject_Z (Zpos ma) * 2 ^ ea) in *.
      set (B := inject_Z (Zpos mb) * 2 ^ eb) in *.
      destruct sa, sb; unfold sgn; cbn [xorb]; field; try split; lra. }
    rewrite E in Hr |- *. unfold in_range in Hr.
    rewrite Qabs_sgn, Qabs_pos in Hr by lra.
    destruct Hr as [Hr|[Hlo Hhi]].
    { exfalso. destruct (xorb sa sb); unfold sgn in Hr; lra. }
    apply div_finite; assumption.
Qed.

Lemma of_Q_comp (q q' : Q) : q == q' -> Number.of_Q q = Number.of_Q q'.
Proof. intros E. unfold Number.of_Q. rewrite (Qred_complete _ _ E). reflexivity. Qed.

Lemma of_Q_zero (q : Q) : q == 0 -> Number.of_Q q = S754_zero false.
Proof. intros E. rewrite (of_Q_comp _ _ E). reflexivity. Qed.

(** Reading a numeral: the number nearest to it. *)
Lemma of_Q_correct (q : Q) : in_range q -> rounds_to q (Number.of_Q q).
Proof.
  intros Hr. rewrite <- (Qred_correct q) in Hr |- * at 1.
  unfold Number.of_Q. destruct (Qred q) as [n d]. cbn [Qnum Qden].
  assert (Hd : 0 < inject_Z (Zpos d)).
  { change 0 with (inject_Z 0). rewrite <- Zlt_Qlt. reflexivity. }
  assert (E : forall z : Z, z # d == inject_Z z * 2 ^ 0 / (inject_Z (Zpos d) * 2 ^ 0)).
  { intros z. change (2 ^ 0) with 1. rewrite (Qmake_Qdiv z d). field. lra. }
  destruct n as [|n|n]; cbn [Number.exact].
  - apply rounds_to_exact; [exact I | reflexivity].
  - rewrite (E (Zpos n)) in Hr |- *.
    assert (Hpos : 0 < inject_Z (Zpos n) * 2 ^ 0 / (inject_Z (Zpos d) * 2 ^ 0)).
    { rewrite <- E. reflexivity. }
    unfold in_range in Hr. rewrite Qabs_pos in Hr by lra.
    destruct Hr as [Hr|[Hlo Hhi]]; [lra|].
    pose proof (div_finite false n 0 false d 0 Hlo Hhi) as H.
    eapply rounds_to_comp; [|exact H]. unfold sgn. cbn [xorb]. ring.
  - assert (Hneg : Zneg n # d == - (inject_Z (Zpos n) * 2 ^ 0 / (inject_Z (Zpos d) * 2 ^ 0))).
    { rewrite <- E. reflexivity. }
    rewrite Hneg in Hr |- *.
    assert (Hpos : 0 < inject_Z (Zpos n) * 2 ^ 0 / (inject_Z (Zpos d) * 2 ^ 0)).
    { rewrite <- E. reflexivity. }
    unfold in_range in Hr. rewrite Qabs_opp, Qabs_pos in Hr by lra.
    destruct Hr as [Hr|[Hlo Hhi]]; [lra|].
    pose proof (div_finite true n 0 false d 0 Hlo Hhi) as H.
    eapply rounds_to_comp; [|exact H]. unfold sgn. cbn [xorb]. ring.
Qed.

(** What rounding keeps: being zero, and the sign. *)
Lemma rounds_to_sign (q : Q) (x : spec_float) :
  rounds_to q x ->
  (q == 0 -> Number.value x == 0) /\ (0 < q -> 0 < Number.value x)
  /\ (q < 0 -> Number.value x < 0).
Proof.
  intros [_ H]. apply Qabs_Qle_condition in H as [H1 H2].
  assert (U : 2 ^ (-53) == 1 # 9007199254740992) by reflexivity.
  rewrite U in H1, H2. repeat split.
  - intros E. rewrite E in H1, H2. change (Qabs 0) with 0 in H1, H2. lra.
  - intros Hq. rewrite Qabs_pos in H1, H2 by lra. lra.
  - intros Hq. rewrite Qabs_neg in H1, H2 by lra. lra.
Qed.

Lemma eqb_zero (x : spec_float) :
  normal x -> Number.eqb x Number.zero = true <-> Number.value x == 0.
Proof.
  intros Hn. rewrite (value_zero_iff x Hn).
  destruct x as [s|s| |s m e]; try contradiction; cbn.
  - split; eauto.
  - split; [destruct s; discriminate | intros [s' E]; discriminate].
Qed.

Lemma ltb_zero (x : spec_float) :
  normal x -> Number.ltb Number.zero x = true <-> 0 < Number.value x.
Proof.
  intros Hn. destruct x as [s|s| |s m e]; try contradiction.
  - cbn. split; [discriminate | intros H; lra].
  - rewrite value_finite. pose proof (mantissa_pos m e).
    destruct s; cbn; unfold sgn; split; try discriminate; try reflexivity; intros; lra.
Qed.

Lemma inject_Z_eq (a b : Z) : inject_Z a == inject_Z b -> a = b.
Proof. unfold Qeq, inject_Z. cbn. lia. Qed.

Lemma to_Z_value (x : spec_float) (N : Z) :
  Number.value x == inject_Z N -> normal x -> Number.to_Z x = Some N.
Proof.
  intros E Hn. destruct x as [s|s| |s m e]; try contradiction.
  - cbn [Number.value Number.to_Z] in *. f_equal. apply inject_Z_eq. exact E.
  - rewrite value_finite in E. unfold Number.to_Z.
    assert (Hs : inject_Z (Zpos m) * 2 ^ e == inject_Z (cond_Zopp s N)).
    { rewrite inject_cond_Zopp, <- E. destruct s; unfold sgn; ring. }
    assert (Hback : cond_Zopp s (cond_Zopp s N) = N) by (destruct s; cbn; lia).
    destruct (Z.leb_spec 0 e) as [He|He].
    + rewrite <- pow2_Z, <- inject_Z_mult in Hs by exact He.
      apply inject_Z_eq in Hs. rewrite Hs, Hback. reflexivity.
    + assert (Hm : Zpos m = (cond_Zopp s N * 2 ^ (- e))%Z).
      { apply inject_Z_eq. rewrite inject_Z_mult, pow2_Z, <- Hs by lia.
        rewrite <- Qmult_assoc, <- pow2_add. replace (e + - e)%Z with 0%Z by lia.
        change (2 ^ 0) with 1. ring. }
      assert (Hp : (0 < 2 ^ (- e))%Z) by (apply Z.pow_pos_nonneg; lia).
      rewrite Hm, Z.mod_mul, Z.div_mul by lia. cbn [Z.eqb]. rewrite Hback. reflexivity.
Qed.

(** *** The percentage change, computed and exact *)

Lemma scaled_error (v q p e : Q) :
  Qabs (v - q) <= e * Qabs q -> Qabs (v * p - q * p) <= e * Qabs (q * p).
Proof.
  intros H.
  setoid_replace (v * p - q * p) with ((v - q) * p) using relation Qeq by ring.
  rewrite !Qabs_Qmult, Qmult_assoc.
  apply Qmult_le_compat_r; [exact H | apply Qabs_nonneg].
Qed.

Lemma scaled_quotient_error (v s p e : Q) :
  ~ p == 0 -> Qabs (v - s / p) <= e * Qabs (s / p) -> Qabs (v * p - s) <= e * Qabs s.
Proof.
  intros Hp H. apply (scaled_error _ _ p) in H.
  assert (E : s / p * p == s) by (field; exact Hp).
  rewrite E in H. exact H.
Qed.

Lemma Qabs_bounds (x b : Q) : Qabs x <= b <-> - b <= x /\ x <= b.
Proof. apply Qabs_Qle_condition. Qed.

Lemma Qabs_cases (x : Q) : (0 <= x /\ Qabs x == x) \/ (x < 0 /\ Qabs x == - x).
Proof.
  destruct (Qlt_le_dec x 0) as [H|H].
  - right. split; [exact H|]. apply Qabs_neg. lra.
  - left. split; [exact H|]. apply Qabs_pos. exact H.
Qed.

Lemma in_range_between (q : Q) :
  1 # 1000000000000000000000000 <= Qabs q -> Qabs q <= 1000000000000000000000000 ->
  in_range q.
Proof.
  intros H1 H2. right. split.
  - apply Qle_trans with (1 # 1000000000000000000000000); [|exact H1].
    apply Qle_bool_imp_le. vm_compute. reflexivity.
  - apply Qle_lt_trans with 1000000000000000000000000; [exact H2|].
    apply Qlt_alt. vm_compute. reflexivity.
Qed.

Lemma quotient_bounds (s p ls hs lp hp : Q) :
  0 < ls -> 0 < lp -> ls <= Qabs s -> Qabs s <= hs -> lp <= Qabs p -> Qabs p <= hp ->
  ls / hp <= Qabs (s / p) /\ Qabs (s / p) <= hs / lp.
Proof.
  intros Hls Hlp H1 H2 H3 H4.
  assert (Hp : ~ p == 0).
  { intros E. rewrite E in H3. change (Qabs 0) with 0 in H3. lra. }
  assert (E : Qabs (s / p) == Qabs s / Qabs p).
  { unfold Qdiv. rewrite Qabs_Qmult, Qabs_Qinv. reflexivity. }
  rewrite E. split.
  - apply Qle_shift_div_l; [lra|].
    apply Qle_trans with (ls / hp * hp).
    + apply Qmult_le_l; [|exact H4]. apply Qlt_shift_div_l; lra.
    + assert (E2 : ls / hp * hp == ls) by (field; lra). lra.
  - apply Qle_shift_div_r; [lra|].
    apply Qle_trans with (hs / lp * lp).
    + assert (E2 : hs / lp * lp == hs) by (field; lra). lra.
    + apply Qmult_le_l; [|exact H3]. apply Qlt_shift_div_l; [lra|]. lra.
Qed.

(** An integer that [Math.round] gives on [F] is also nearest to any
    fraction [X] of denominator [P] that [F] is closer to than
    [1 / (2 P)]. *)
Lemma nearest_of_close (F X : Q) (M P : Z) :
  (0 < P)%Z -> X * inject_Z P == inject_Z M ->
  Qabs (F - X) * inject_Z P < 1 # 2 ->
  nearest (Math_round F) X.
Proof.
  intros HP HX Hclose.
  assert (HPq : 0 < inject_Z P) by (change 0 with (inject_Z 0); rewrite <- Zlt_Qlt; exact HP).
  unfold nearest, Math_round. set (n := Qfloor (F + (1 # 2))).
  pose proof (Qfloor_le (F + (1 # 2))) as Hlo.
  pose proof (Qlt_floor (F + (1 # 2))) as Hhi. fold n in Hlo, Hhi.
  rewrite inject_Z_plus in Hhi. change (inject_Z 1) with 1 in Hhi.
  (* everything scaled by the denominator *)
  assert (S1 : 0 <= (F + (1 # 2) - inject_Z n) * inject_Z P).
  { apply Qmult_le_0_compat; lra. }
  assert (S2 : 0 < (inject_Z n + 1 - (F + (1 # 2))) * inject_Z P).
  { apply Qmult_lt_0_compat; lra. }
  assert (S3 : - (1 # 2) < (F - X) * inject_Z P /\ (F - X) * inject_Z P < 1 # 2).
  { destruct (Qabs_cases (F - X)) as [[Hs E]|[Hs E]]; rewrite E in Hclose.
    - split; [|exact Hclose].
      apply Qlt_le_trans with 0; [reflexivity|]. apply Qmult_le_0_compat; lra.
    - split; [lra|].
      apply Qle_lt_trans with 0; [|reflexivity].
      setoid_replace ((F - X) * inject_Z P) with (- ((X - F) * inject_Z P))
        using relation Qeq by ring.
      assert (0 <= (X - F) * inject_Z P) by (apply Qmult_le_0_compat; lra). lra. }
  destruct S3 as [S3 S4].
  assert (A : ((2 * n - 1) * P <= 2 * M)%Z).
  { assert (A' : inject_Z ((2 * n - 1) * P) < inject_Z (2 * M + 1)).
    { unfold Zminus. rewrite !inject_Z_mult, !inject_Z_plus, !inject_Z_mult, inject_Z_opp.
      change (inject_Z 2) with 2. change (inject_Z 1) with 1. lra. }
    rewrite <- Zlt_Qlt in A'. lia. }
  assert (B : (2 * M <= (2 * n + 1) * P)%Z).
  { assert (B' : inject_Z (2 * M - 1) < inject_Z ((2 * n + 1) * P)).
    { unfold Zminus. rewrite !inject_Z_mult, !inject_Z_plus, !inject_Z_mult, inject_Z_opp.
      change (inject_Z 2) with 2. change (inject_Z 1) with 1. lra. }
    rewrite <- Zlt_Qlt in B'. lia. }
  rewrite Zle_Qle in A, B. unfold Zminus in A.
  rewrite !inject_Z_mult, !inject_Z_plus, !inject_Z_mult in A, B.
  rewrite inject_Z_opp in A.
  change (inject_Z 2) with 2 in A, B. change (inject_Z 1) with 1 in A, B.
  apply Qabs_bounds. split.
  - apply Qmult_le_r with (inject_Z P); [exact HPq|]. lra.
  - apply Qmult_le_r with (inject_Z P); [exact HPq|]. lra.
Qed.

Lemma Qabs_upper (x : Q) : x <= Qabs x /\ - x <= Qabs x.
Proof. split; [apply Qle_Qabs | rewrite <- Qabs_opp; apply Qle_Qabs]. Qed.

Lemma Qabs_inject_Z (n : Z) : Qabs (inject_Z n) == inject_Z (Z.abs n).
Proof. unfold Qabs, inject_Z. cbn. reflexivity. Qed.

Lemma integer_apart (n : Z) : ~ inject_Z n == 0 -> 1 <= Qabs (inject_Z n).
Proof.
  intros H. rewrite Qabs_inject_Z. change 1 with (inject_Z 1). rewrite <- Zle_Qle.
  assert (n <> 0%Z) by (intros ->; apply H; reflexivity). lia.
Qed.

Lemma hundredths_apart (q : Q) (n : Z) :
  q * 100 == inject_Z n -> ~ q == 0 -> 1 # 100 <= Qabs q.
Proof.
  intros E Hq.
  assert (H : 1 <= Qabs (inject_Z n)).
  { apply integer_apart. rewrite <- E. intros H. apply Hq.
    setoid_replace q with (q * 100 / 100) using relation Qeq by (field; lra).
    rewrite H. reflexivity. }
  rewrite <- E, Qabs_Qmult in H. change (Qabs 100) with 100 in H. lra.
Qed.

Lemma round_normal (x : spec_float) :
  normal x -> Number.round x = Fin (inject_Z (Math_round (Number.value x))).
Proof. destruct x; try contradiction; reflexivity. Qed.

(** The percentage change of two amounts in hundredths, below a
    thousand million: what the three operations and [Math.round] give
    is an integer nearest to the exact percentage. *)
Lemma percentage_nearest (c p : Q) (C P : Z) (c' p' : spec_float) :
  c * 100 == inject_Z C -> p * 100 == inject_Z P -> ~ p == 0 ->
  Qabs c <= 1000000000 -> Qabs p <= 1000000000 ->
  rounds_to c c' -> rounds_to p p' -> (c == p -> c' = p') ->
  exists g : Z,
    Number.round (Number.mul (Number.div (Number.sub c' p') p') (Number.of_Z 100))
    = Fin (inject_Z g) /\
    nearest g ((c - p) / p * 100).
Proof.
  intros HC HP Hp Hcb Hpb [Hcn Hce] [Hpn Hpe] Hsame.
  assert (U : 2 ^ (-53) == 1 # 9007199254740992) by reflexivity.
  rewrite U in Hce, Hpe.
  pose proof (hundredths_apart p P HP Hp) as Hp100.
  set (vc := Number.value c') in *. set (vp := Number.value p') in *.
  apply Qabs_bounds in Hce as [Hce1 Hce2]. apply Qabs_bounds in Hpe as [Hpe1 Hpe2].
  destruct (Qabs_upper c) as [Uc1 Uc2]. destruct (Qabs_upper p) as [Up1 Up2].
  assert (Hvp : ~ vp == 0).
  { intros E. destruct (Qabs_cases p) as [[? Ep]|[? Ep]]; rewrite Ep in *; lra. }
  assert (Hvpl : Qabs p <= 2 * Qabs vp).
  { destruct (Qabs_upper vp). destruct (Qabs_cases p) as [[? Ep]|[? Ep]]; rewrite Ep in *; lra. }
  assert (Hvpu : Qabs vp <= 2000000000).
  { apply Qabs_bounds. split; lra. }
  destruct (of_Z_exact 100 ltac:(split; reflexivity)) as [Hn100 Hv100].
  change (inject_Z 100) with 100 in Hv100.
  destruct (Qeq_dec c p) as [Ecp|Ncp].
  - (* nothing changed *)
    rewrite (Hsame Ecp).
    destruct (sub_correct p' p' Hpn Hpn) as [[Hsn _] Hsx].
    { left. ring. }
    specialize (Hsx 0%Z ltac:(change (inject_Z 0) with 0; ring) ltac:(split; reflexivity)).
    apply (value_zero_iff _ Hsn) in Hsx as [s0 ->].
    destruct p' as [sp|sp| |sp mp ep]; try contradiction.
    { exfalso. apply Hvp. reflexivity. }
    exists 0%Z. split; [reflexivity|].
    unfold nearest. setoid_replace ((c - p) / p * 100) with 0 using relation Qeq
      by (rewrite Ecp; field; exact Hp).
    apply Qle_bool_imp_le. reflexivity.
  - (* the totals differ, by a hundredth at least *)
    assert (Hd100 : 1 # 100 <= Qabs (c - p)).
    { apply (hundredths_apart _ (C - P)).
      - unfold Zminus. rewrite inject_Z_plus, inject_Z_opp, <- HC, <- HP. ring.
      - intros E. apply Ncp. lra. }
    set (A := vc - vp).
    assert (HAu : Qabs A <= 3000000000).
    { apply Qabs_bounds. unfold A. split; lra. }
    assert (HAl : 9 # 1000 <= Qabs A).
    { destruct (Qabs_upper A). unfold A in *.
      destruct (Qabs_cases (c - p)) as [[? E]|[? E]]; rewrite E in Hd100; lra. }
    destruct (sub_correct c' p' Hcn Hpn) as [[Hsn Hse] _].
    { apply in_range_between; fold vc vp A.
      - eapply Qle_trans; [|exact HAl]. apply Qle_bool_imp_le. reflexivity.
      - eapply Qle_trans; [exact HAu|]. apply Qle_bool_imp_le. reflexivity. }
    fold vc vp A in Hse. rewrite U in Hse.
    set (s := Number.sub c' p') in *. set (vs := Number.value s) in *.
    apply Qabs_bounds in Hse as [Hse1 Hse2].
    destruct (Qabs_upper A) as [UA1 UA2].
    assert (Hsu : Qabs vs <= 4000000000).
    { apply Qabs_bounds. split; lra. }
    assert (Hsl : 8 # 1000 <= Qabs vs).
    { destruct (Qabs_upper vs).
      destruct (Qabs_cases A) as [[? E]|[? E]]; rewrite E in *; lra. }
    assert (Hvpl' : 1 # 200 <= Qabs vp) by lra.
    destruct (quotient_bounds vs vp (8 # 1000) 4000000000 (1 # 200) 2000000000
                ltac:(reflexivity) ltac:(reflexivity) Hsl Hsu Hvpl' Hvpu) as [Hql Hqu].
    assert (Hql' : 1 # 1000000000000 <= Qabs (vs / vp)).
    { eapply Qle_trans; [|exact Hql]. apply Qle_bool_imp_le. reflexivity. }
    assert (Hqu' : Qabs (vs / vp) <= 1000000000000).
    { eapply Qle_trans; [exact Hqu|]. apply Qle_bool_imp_le. reflexivity. }
    destruct (div_correct s p' Hsn Hpn Hvp) as [Hdn Hde].
    { apply in_range_between; fold vs vp.
      - eapply Qle_trans; [|exact Hql']. apply Qle_bool_imp_le. reflexivity.
      - eapply Qle_trans; [exact Hqu'|]. apply Qle_bool_imp_le. reflexivity. }
    fold vs vp in Hde. rewrite U in Hde.
    set (d := Number.div s p') in *. set (vd := Number.value d) in *.
    assert (Hdl : 1 # 2000000000000 <= Qabs vd /\ Qabs vd <= 2000000000000).
    { apply Qabs_bounds in Hde as [Hde1 Hde2]. destruct (Qabs_upper vd).
      split; [|apply Qabs_bounds; destruct (Qabs_upper (vs / vp)); split; lra].
      destruct (Qabs_cases (vs / vp)) as [[? E]|[? E]]; rewrite E in *; lra. }
    destruct Hdl as [Hdl Hdu].
    destruct (mul_correct d (Number.of_Z 100) Hdn Hn100) as [[HFn HFe] _].
    { rewrite Hv100. fold vd.
      apply in_range_between; rewrite Qabs_Qmult; change (Qabs 100) with 100; lra. }
    rewrite Hv100 in HFe. fold vd in HFe. rewrite U in HFe.
    set (F := Number.mul d (Number.of_Z 100)) in *. set (vF := Number.value F) in *.
    exists (Math_round vF). split; [apply round_normal, HFn|].
    (* the errors, each scaled by the rounded previous total *)
    set (X := (c - p) / p * 100).
    assert (HXp : p * X == 100 * (c - p)) by (unfold X; field; exact Hp).
    pose proof (scaled_quotient_error vd vs vp _ Hvp Hde) as H4.
    pose proof (scaled_error vF (vd * 100) vp _ HFe) as H5.
    pose proof (scaled_error vp p X (1 # 9007199254740992)
                  ltac:(apply Qabs_bounds; split; assumption)) as H6.
    rewrite HXp in H6.
    apply Qabs_bounds in H4 as [H41 H42]. apply Qabs_bounds in H5 as [H51 H52].
    apply Qabs_bounds in H6 as [H61 H62].
    destruct (Qabs_upper vs) as [Us1 Us2].
    assert (HK : Qabs ((vF - X) * vp) <= (1 # 9007199254740992) * 2000000000000).
    { assert (H7 : Qabs (vd * 100 * vp) <= 500000000000).
      { apply Qabs_bounds. split; lra. }
      assert (H8 : Qabs (100 * (c - p)) <= 200000000000).
      { apply Qabs_bounds. split; lra. }
      unfold A in *. apply Qabs_bounds. split; lra. }
    rewrite Qabs_Qmult in HK.
    assert (HK2 : Qabs (vF - X) * Qabs p <= (1 # 9007199254740992) * 4000000000000).
    { apply Qle_trans with (Qabs (vF - X) * (2 * Qabs vp)).
      - rewrite !(Qmult_comm (Qabs (vF - X))).
        apply Qmult_le_compat_r; [exact Hvpl | apply Qabs_nonneg].
      - lra. }
    (* the exact percentage is a fraction over the previous total in cents *)
    assert (HPabs : inject_Z (Z.abs P) == Qabs p * 100).
    { rewrite <- Qabs_inject_Z, <- HP, Qabs_Qmult. reflexivity. }
    apply (nearest_of_close vF X (Z.sgn P * (100 * (C - P))) (Z.abs P)).
    + assert (P <> 0%Z).
      { intros ->. apply Hp. change (inject_Z 0) with 0 in HP.
        setoid_replace p with (p * 100 / 100) using relation Qeq by (field; lra).
        rewrite HP. reflexivity. }
      lia.
    + assert (E : inject_Z (Z.abs P) == inject_Z (Z.sgn P) * (p * 100)).
      { rewrite HP, <- inject_Z_mult. f_equiv. lia. }
      rewrite E, !inject_Z_mult. unfold Zminus.
      rewrite inject_Z_plus, inject_Z_opp, <- HC, <- HP.
      change (inject_Z 100) with 100.
      setoid_replace (X * (inject_Z (Z.sgn P) * (p * 100)))
        with (inject_Z (Z.sgn P) * 100 * (p * X)) using relation Qeq by ring.
      rewrite HXp. ring.
    + rewrite HPabs. lra.
Qed.

End Binary64.

(** ** Running handlers *)

Lemma string_eqb_refl (s : string) : String.eqb s s = true.
Proof. apply String.eqb_refl. Qed.

Lemma is_str_lit (s : string) : is_str (Some (JStr s)) s = true.
Proof. apply String.eqb_refl. Qed.

(** ** The owner account *)

(** What each of the three handlers does with a request aimed at the
    owner account. *)
Lemma owner_mutation_refused (k : owner_mutation) (E : env) (req : request) (w : world) :
  targets_owner k req w ->
  exists j calls, mutation_route k E req w = (Ok (Response 403 j), World (db w) calls).
Proof.
  destruct k; cbn [targets_owner mutation_route].
  - intros (userId & target & Hid & Hfind & Hmail).
    unfold user_controller.admin_delete, try_catch, bind, storage.getUserById,
      storage.helper, bind, emit, read_db.
    rewrite Hid. cbn. rewrite Hfind, Hmail, is_str_lit. cbn. eauto.
  - intros ((userId & target & Hid & Hfind & Hmail) & Hrole).
    unfold user_controller.admin_patch, try_catch, bind, storage.getUserById,
      storage.helper, bind, emit, read_db.
    rewrite Hid. cbn. rewrite Hfind, Hmail, Hrole, !is_str_lit. cbn. eauto.
  - intros (u & Hu & Hmail).
    unfold user_controller.delete_profile, behind, authenticateJWT,
      user_controller.delete_profile_handler, try_catch.
    rewrite Hu. cbn. rewrite Hu, Hmail, string_eqb_refl. cbn.
    exists (Message "Cannot delete the owner account"), (trace w).
    destruct w; reflexivity.
Qed.

(** C1. Each of the three requests aimed at the owner account (admin
    delete, admin update with [role: "user"], self-service delete) is
    answered 403 and leaves the database, hence the owner's row, as it
    was. *)
Theorem owner_account_protected (k : owner_mutation) (E : env) (req : request) (w : world) :
  targets_owner k req w ->
  exists j calls, mutation_route k E req w = (Ok (Response 403 j), World (db w) calls).
Proof. apply owner_mutation_refused. Qed.

Lemma owner_account_protected_witness :
  exists j calls,
    mutation_route AdminDemote Sample.E
      (Sample.req (Some Sample.owner) (Some "1") [] [("role", JStr "user")]) Sample.w
    = (Ok (Response 403 j), World (db Sample.w) calls).
Proof.
  apply (owner_account_protected AdminDemote).
  split; [exists 1, Sample.owner_row; repeat split |]; vm_compute; reflexivity.
Defined.

(** Mounted behind the admin gates, the two admin routes answer a
    request aimed at the owner account with 401 (no identity), or 403
    (from the owner gate or from the handler); the database is left as
    it was in every case. *)
Lemma owner_row_kept_behind_gates (k : owner_mutation) (E : env)
    (req : request) (w : world) :
  k <> SelfDelete -> targets_owner k req w ->
  exists r calls,
    admin_mount (mutation_route k E) req w = (Ok r, World (db w) calls)
    /\ (status r = 401 \/ status r = 403).
Proof.
  intros Hk Htarget. unfold admin_mount, behind, authenticateJWT, isOwner.
  destruct (user req) as [u|] eqn:Hu.
  - rewrite Hu. destruct (negb (String.eqb (Identity.role u) "owner")).
    + exists (Response 403 (Message "Forbidden - Owner access required")), (trace w).
      split; [destruct w; reflexivity | right; reflexivity].
    + destruct (owner_mutation_refused k E req w Htarget) as (j & calls & Hrun).
      exists (Response 403 j), calls. split; [exact Hrun | right; reflexivity].
  - exists (Response 401 (Message "Unauthorized - Authentication required")), (trace w).
    split; [destruct w; reflexivity | left; reflexivity].
Qed.

(** ** The donation report *)

(** C2. Whatever the period, the database and the way the module is
    loaded, the report helper stops at its first [this.] call: the
    receiver is not the [storage] object, the two helpers are never
    entered (the trace holds the call of [getDonationSummary] alone),
    and [GET /admin/donations/summary] answers from its error branch. *)
Theorem summary_request_takes_error_branch (E : env) (req : request) (w : world) :
  donation_controller.admin_get_summary E req w
  = (Ok (Response 500 (Message "An error occurred while fetching donation summary")),
     World (db w) (trace w ++ [StorageCall "getDonationSummary"])).
Proof.
  unfold donation_controller.admin_get_summary, storage.getDonationSummary,
    storage.getDonationSummary_on, storage.helper, try_catch, bind, emit,
    storage.sum_where, read_db, respond, ret.
  cbn. destruct (storage_module E); reflexivity.
Qed.

(** Had [getDonationSummary] been a method, with the [storage] object as
    its receiver, the same body would produce the report. *)
Example summary_with_storage_receiver :
  exists s w',
    storage.getDonationSummary_on storage.ThisStorage Sample.E "all_time" Sample.w = (Ok s, w')
    /\ totalDonations s = 50%Q /\ length (monthlyTrend s) = 6%nat.
Proof. vm_compute. eexists _, _. repeat split. Qed.

(** ** Growth percentages *)

(** The bounds of the two donation periods are the starts of the
    calendar month of today and of the month before. *)
Lemma firstDayOfMonth_start (today : Z) :
  firstDayOfMonth today
  = start_of_month (JSDate.getFullYear today) (JSDate.getMonth today + 1).
Proof.
  destruct (civil_date today) as (_ & Hm & _).
  unfold firstDayOfMonth, JSDate.make, start_of_month, JSDate.MakeDate.
  rewrite MakeDay_in_year by exact Hm. lia.
Qed.

Lemma firstDayOfLastMonth_start (today : Z) :
  let previous :=
    previous_month (JSDate.getFullYear today) (JSDate.getMonth today + 1) in
  firstDayOfLastMonth today = start_of_month previous.1 previous.2.
Proof.
  destruct (civil_date today) as (_ & Hm & _). cbv zeta.
  unfold firstDayOfLastMonth, JSDate.make, start_of_month, JSDate.MakeDate, previous_month.
  rewrite MakeDay_civil.
  set (y := JSDate.getFullYear today) in *. set (m := JSDate.getMonth today) in *.
  destruct (Z.eqb_spec (m + 1) 1) as [E|E]; cbn [fst snd].
  - replace m with 0 by lia. change ((0 - 1) / 12) with (-1).
    change ((0 - 1) mod 12 + 1) with 12. replace (y + -1) with (y - 1) by lia. lia.
  - replace ((m - 1) / 12) with 0 by (Z.div_mod_to_equations; lia).
    replace ((m - 1) mod 12 + 1) with (m + 1 - 1) by (Z.div_mod_to_equations; lia).
    replace (y + 0) with y by lia. lia.
Qed.

(** Amounts in cents add up to a total in cents. *)
Lemma in_cents_integer (q : Q) : in_cents q -> (q * 100 == inject_Z (Qnum (Qred (q * 100))))%Q.
Proof.
  unfold in_cents. intros H. rewrite <- (Qred_correct (q * 100)) at 1.
  destruct (Qred (q * 100)) as [n d]. cbn in *. subst d. reflexivity.
Qed.

Lemma sum_in_cents (l : list row) :
  Forall (fun r => in_cents (donated r)) l ->
  exists k : Z, (foldr (fun r acc => donated r + acc) 0 l * 100 == inject_Z k)%Q.
Proof.
  induction 1 as [|r l Hr _ [k IH]]; cbn [foldr].
  - exists 0. reflexivity.
  - exists (Qnum (Qred (donated r * 100)) + k).
    rewrite inject_Z_plus, <- IH, <- (in_cents_integer _ Hr). ring.
Qed.

Lemma completed_total_in_cents (d : database) (within : option jval -> bool) :
  decimal_amounts d -> exists k : Z, (completed_total d within * 100 == inject_Z k)%Q.
Proof.
  intros H. apply sum_in_cents, Forall_forall. intros r Hr.
  apply list_elem_of_In, List.filter_In in Hr as [Hr _].
  apply (proj1 (Forall_forall _ _) H), list_elem_of_In, Hr.
Qed.

(** A total in cents below a thousand million is read as the number
    nearest to it. *)
Lemma total_rounds (q : Q) (k : Z) :
  (q * 100 == inject_Z k)%Q -> (Qabs q <= 1000000000)%Q -> rounds_to q (Number.of_Q q).
Proof.
  intros Hk Hq. apply of_Q_correct.
  destruct (Qeq_dec q 0) as [E|E]; [left; exact E|].
  pose proof (hundredths_apart q k Hk E) as Hlow.
  apply in_range_between.
  - eapply Qle_trans; [|exact Hlow]. apply Qle_bool_imp_le. reflexivity.
  - eapply Qle_trans; [exact Hq|]. apply Qle_bool_imp_le. reflexivity.
Qed.

(** The rule on two totals in cents, as both helpers compute it on the
    numbers they read. *)
Lemma growth_rule_computed (c p : Q) (C P : Z) (c' p' : spec_float) :
  (c * 100 == inject_Z C)%Q -> (p * 100 == inject_Z P)%Q ->
  (Qabs c <= 1000000000)%Q -> (Qabs p <= 1000000000)%Q ->
  rounds_to c c' -> rounds_to p p' -> ((c == p)%Q -> c' = p') ->
  exists g : Z,
    (if Number.eqb p' Number.zero
     then (if Number.ltb Number.zero c' then Fin 100 else Fin 0)
     else Number.round
            (Number.mul (Number.div (Number.sub c' p') p') (Number.of_Z 100)))
    = Fin (inject_Z g)
    /\ growth_rule c p g.
Proof.
  intros HC HP Hcb Hpb Hc Hp Hsame.
  destruct (rounds_to_sign _ _ Hc) as (Hc0 & Hc1 & Hc2).
  destruct (rounds_to_sign _ _ Hp) as (Hp0 & Hp1 & Hp2).
  destruct (Number.eqb p' Number.zero) eqn:Hz;
    pose proof (eqb_zero p' (proj1 Hp)) as Hzero.
  - assert (Hp' : (p == 0)%Q).
    { apply Hzero in Hz. destruct (Q_dec p 0) as [[H|H]|H]; [| |exact H].
      - apply Hp2 in H. lra.
      - apply Hp1 in H. lra. }
    destruct (Number.ltb Number.zero c') eqn:Hl;
      pose proof (ltb_zero c' (proj1 Hc)) as Hpos.
    + assert (Hc' : (0 < c)%Q).
      { apply Hpos in Hl. destruct (Q_dec c 0) as [[H|H]|H]; [|exact H|].
        - apply Hc2 in H. lra.
        - apply Hc0 in H. lra. }
      exists 100. split; [reflexivity|]. split; [|intros H; contradiction].
      intros _. split; [reflexivity | intros; lra].
    + assert (Hc' : (c <= 0)%Q).
      { apply Qnot_lt_le. intros H. apply Hc1, Hpos in H. congruence. }
      exists 0. split; [reflexivity|]. split; [|intros H; contradiction].
      intros _. split; [intros; lra | reflexivity].
  - assert (Hp' : ~ (p == 0)%Q).
    { intros H. apply Hp0, Hzero in H. congruence. }
    destruct (percentage_nearest c p C P c' p' HC HP Hp' Hcb Hpb Hc Hp Hsame) as (g & Hg & Hn).
    exists g. split; [exact Hg|]. split; [intros H; contradiction | intros _; exact Hn].
Qed.

(** What the two helpers return, on the totals of the periods they
    compute. *)
Lemma donation_growth_run (E : env) (w : world) :
  let current :=
    completed_total (db w) (fun t => gte t (firstDayOfMonth (now E))) in
  let previous :=
    completed_total (db w) (fun t => gte t (firstDayOfLastMonth (now E))
                                     && lt t (firstDayOfMonth (now E))) in
  storage.getDonationGrowthPercentage E w
  = (Ok (if Number.eqb (Number.of_Q previous) Number.zero
         then (if Number.ltb Number.zero (Number.of_Q current) then Fin 100 else Fin 0)
         else Number.round
                (Number.mul (Number.div (Number.sub (Number.of_Q current)
                                                    (Number.of_Q previous))
                                        (Number.of_Q previous))
                            (Number.of_Z 100))),
     World (db w) (trace w ++ [StorageCall "getDonationGrowthPercentage"])%list).
Proof.
  cbv zeta.
  unfold storage.getDonationGrowthPercentage, storage.helper, bind, emit,
    storage.sum_where, read_db, ret. cbn [db trace].
  assert (Hp : foldr (fun r acc => (storage.amount_of r + acc)%Q) 0%Q
                 (List.filter
                    (fun r => storage.completed r
                              && gte (r !! "createdAt") (firstDayOfLastMonth (now E))
                              && lt (r !! "createdAt") (firstDayOfMonth (now E)))
                    (rows (donations (db w))))
               = completed_total (db w)
                   (fun t => gte t (firstDayOfLastMonth (now E))
                             && lt t (firstDayOfMonth (now E)))).
  { unfold completed_total. f_equal. apply List.filter_ext.
    intros r. symmetry. apply andb_assoc. }
  rewrite Hp.
  change (foldr (fun r acc => (storage.amount_of r + acc)%Q) 0%Q
            (List.filter (fun r => storage.completed r
                                   && gte (r !! "createdAt") (firstDayOfMonth (now E)))
                         (rows (donations (db w)))))
    with (completed_total (db w) (fun t => gte t (firstDayOfMonth (now E)))).
  destruct (Number.eqb _ _); reflexivity.
Qed.

Lemma user_growth_run (E : env) (w : world) :
  let thirty := JSDate.setDate (now E) (JSDate.getDate (now E) - 30) in
  let sixty := JSDate.setDate (now E) (JSDate.getDate (now E) - 60) in
  let current := users_created (db w) (fun t => gte t thirty && lt t (now E)) in
  let previous := users_created (db w) (fun t => gte t sixty && lt t thirty) in
  storage.getUserGrowthPercentage E w
  = (Ok (if Number.eqb (Number.of_Z previous) Number.zero
         then (if Number.ltb Number.zero (Number.of_Z current) then Fin 100 else Fin 0)
         else Number.round
                (Number.mul (Number.div (Number.sub (Number.of_Z current)
                                                    (Number.of_Z previous))
                                        (Number.of_Z previous))
                            (Number.of_Z 100))),
     World (db w) (trace w ++ [StorageCall "getUserGrowthPercentage"])%list).
Proof.
  cbv zeta.
  unfold storage.getUserGrowthPercentage, storage.helper, bind, emit, count_where,
    read_db, ret. cbn [db trace].
  fold (users_created (db w)
          (fun t => gte t (JSDate.setDate (now E) (JSDate.getDate (now E) - 30))
                    && lt t (now E))).
  fold (users_created (db w)
          (fun t => gte t (JSDate.setDate (now E) (JSDate.getDate (now E) - 60))
                    && lt t (JSDate.setDate (now E) (JSDate.getDate (now E) - 30)))).
  destruct (Number.eqb _ _); reflexivity.
Qed.

(** A count below a thousand million is a number as it stands. *)
Lemma count_rounds (n : Z) :
  0 <= n <= 1000000000 ->
  rounds_to (inject_Z n) (Number.of_Z n)
  /\ (inject_Z n * 100 == inject_Z (n * 100))%Q
  /\ (Qabs (inject_Z n) <= 1000000000)%Q.
Proof.
  intros H. destruct (of_Z_exact n) as [Hn Hv]; [lia|]. split; [|split].
  - apply rounds_to_exact; assumption.
  - rewrite inject_Z_mult. reflexivity.
  - rewrite Qabs_pos by (change 0%Q with (inject_Z 0); rewrite <- Zle_Qle; lia).
    change 1000000000%Q with (inject_Z 1000000000). rewrite <- Zle_Qle. lia.
Qed.

(** C3. Both growth helpers follow the rule.  The donation growth
    compares the total of the completed donations created since the
    start of the calendar month of today with the total of those created
    in the calendar month before; the user growth compares the number
    of users created in the last thirty days with the number created in
    the thirty days before.  With amounts in cents, as the column holds
    them, and totals and counts below a thousand million, the integer
    returned is 0 or 100 when there is no previous total and otherwise
    an integer nearest to the exact percentage change, the arithmetic
    of the code being that of binary64. *)
Theorem growth_percentage_rule (E : env) (w : world) :
  let today := now E in
  let year := JSDate.getFullYear today in
  let month := JSDate.getMonth today + 1 in
  let this_month := start_of_month year month in
  let last_month :=
    start_of_month (previous_month year month).1 (previous_month year month).2 in
  let thirty := today - 30 * JSDate.msPerDay in
  let sixty := today - 60 * JSDate.msPerDay in
  let current := completed_total (db w) (fun t => gte t this_month) in
  let previous := completed_total (db w) (fun t => gte t last_month && lt t this_month) in
  let joined := users_created (db w) (fun t => gte t thirty && lt t today) in
  let joined_before := users_created (db w) (fun t => gte t sixty && lt t thirty) in
  decimal_amounts (db w) ->
  (Qabs current <= 1000000000)%Q -> (Qabs previous <= 1000000000)%Q ->
  joined <= 1000000000 -> joined_before <= 1000000000 ->
  (exists g w',
     storage.getDonationGrowthPercentage E w = (Ok (Fin (inject_Z g)), w') /\
     growth_rule current previous g) /\
  (exists g w',
     storage.getUserGrowthPercentage E w = (Ok (Fin (inject_Z g)), w') /\
     growth_rule (inject_Z joined) (inject_Z joined_before) g).
Proof.
  intros today year month this_month last_month thirty sixty current previous
    joined joined_before Hcents Hcurrent Hprevious Hjoined Hbefore.
  split.
  - rewrite donation_growth_run. cbv zeta.
    rewrite (firstDayOfLastMonth_start (now E)), (firstDayOfMonth_start (now E)).
    fold today year month this_month last_month current previous.
    destruct (completed_total_in_cents (db w) (fun t => gte t this_month) Hcents) as [C HC].
    destruct (completed_total_in_cents (db w)
                (fun t => gte t last_month && lt t this_month) Hcents) as [P HP].
    fold current in HC. fold previous in HP.
    destruct (growth_rule_computed current previous C P
                (Number.of_Q current) (Number.of_Q previous) HC HP Hcurrent Hprevious
                (total_rounds _ _ HC Hcurrent) (total_rounds _ _ HP Hprevious)
                (of_Q_comp current previous)) as (g & Hg & Hrule).
    exists g. eexists. split; [rewrite Hg; reflexivity | exact Hrule].
  - rewrite user_growth_run. cbv zeta.
    replace (JSDate.setDate (now E) (JSDate.getDate (now E) - 30)) with thirty
      by (unfold thirty, today, Z.sub; rewrite setDate_shift; lia).
    replace (JSDate.setDate (now E) (JSDate.getDate (now E) - 60)) with sixty
      by (unfold sixty, today, Z.sub; rewrite setDate_shift; lia).
    fold today joined joined_before.
    assert (H1 : 0 <= joined) by (unfold joined, users_created; lia).
    assert (H2 : 0 <= joined_before) by (unfold joined_before, users_created; lia).
    destruct (count_rounds joined ltac:(lia)) as (Hc & HC & Hcb).
    destruct (count_rounds joined_before ltac:(lia)) as (Hp & HP & Hpb).
    destruct (growth_rule_computed (inject_Z joined) (inject_Z joined_before) _ _
                (Number.of_Z joined) (Number.of_Z joined_before) HC HP Hcb Hpb Hc Hp)
      as (g & Hg & Hrule).
    { intros H. apply inject_Z_eq in H. rewrite H. reflexivity. }
    exists g. eexists. split; [rewrite Hg; reflexivity | exact Hrule].
Qed.

Lemma growth_percentage_rule_witness :
  exists g w',
    storage.getDonationGrowthPercentage Sample.E Sample.w_cents
    = (Ok (Fin (inject_Z g)), w') /\
    growth_rule
      (completed_total (db Sample.w_cents) (fun t => gte t (start_of_month 2025 3)))
      (completed_total (db Sample.w_cents)
         (fun t => gte t (start_of_month 2025 2) && lt t (start_of_month 2025 3)))
      g.
Proof.
  assert (H1 : decimal_amounts (db Sample.w_cents)).
  { repeat constructor. }
  assert (H2 : (Qabs (completed_total (db Sample.w_cents)
                        (fun t => gte t (start_of_month 2025 3))) <= 1000000000)%Q).
  { vm_compute. discriminate. }
  assert (H3 : (Qabs (completed_total (db Sample.w_cents)
                        (fun t => gte t (start_of_month 2025 2)
                                  && lt t (start_of_month 2025 3))) <= 1000000000)%Q).
  { vm_compute. discriminate. }
  assert (H4 : users_created (db Sample.w_cents)
                 (fun t => gte t (now Sample.E - 30 * JSDate.msPerDay)
                           && lt t (now Sample.E)) <= 1000000000).
  { vm_compute. discriminate. }
  assert (H5 : users_created (db Sample.w_cents)
                 (fun t => gte t (now Sample.E - 60 * JSDate.msPerDay)
                           && lt t (now Sample.E - 30 * JSDate.msPerDay)) <= 1000000000).
  { vm_compute. discriminate. }
  exact (proj1 (growth_percentage_rule Sample.E Sample.w_cents H1 H2 H3 H4 H5)).
Defined.

(** Two dollars last month and two dollars and one cent this month: the
    change is half a percent, which the arithmetic of the code puts
    just below and rounds to 0. *)
Example growth_of_one_cent :
  (storage.getDonationGrowthPercentage Sample.E Sample.w_cents).1 = Ok (Fin 0).
Proof. vm_compute. reflexivity. Qed.

(** Forty members joined in the thirty days before and twenty-nine in
    the last thirty: the change is -27.5 percent, which the arithmetic of
    the code puts just below and rounds to -28. *)
Example growth_of_members :
  (storage.getUserGrowthPercentage Sample.E Sample.w_members).1 = Ok (Fin (-28)).
Proof. vm_compute. reflexivity. Qed.

(** On the sample data, fifty given in February and nothing yet in
    March: the growth is -100. *)
Example growth_on_sample :
  (storage.getDonationGrowthPercentage Sample.E Sample.w).1 = Ok (Fin (-100)).
Proof. vm_compute. reflexivity. Qed.

(** ** The monthly trend *)

(** The trend always has six buckets, the last one ending now. *)
Lemma trend_has_six_buckets (today : Z) :
  length (storage.trend_bounds today (storage.trend_months today)) = 6%nat
  /\ last (storage.trend_bounds today (storage.trend_months today))
     = Some (storage.month_start today 0, today).
Proof. split; reflexivity. Qed.

(** In the middle of a month the buckets are the six calendar months up
    to the current one: on 15 March 2025 the donation of 10 February is
    counted under February. *)
Example monthly_trend_mid_month :
  (storage.monthlyTrend_of (JSDate.at_ 2025 3 15 12 0) Sample.w).1
  = Ok [("Oct 2024", 0%Q); ("Nov 2024", 0%Q); ("Dec 2024", 0%Q); ("Jan 2025", 0%Q);
        ("Feb 2025", 50%Q); ("Mar 2025", 0%Q)].
Proof. vm_compute. reflexivity. Qed.

(** C4, at a month's end.  On 31 March 2025 [setMonth] lands on the
    31st of a month that has no such day and the date carries over into
    the next month before [setDate(1)] is applied: the starts computed
    are 1 October, 1 December (twice), 1 January and 1 March (twice).
    No bucket stands for November or for February, and the donation
    completed on 10 February is counted in the bucket labelled
    January. *)
Theorem monthly_trend_at_month_end :
  let today := JSDate.at_ 2025 3 31 12 0 in
  storage.trend_months today
  = [JSDate.at_ 2024 10 1 0 0; JSDate.at_ 2024 12 1 0 0; JSDate.at_ 2024 12 1 0 0;
     JSDate.at_ 2025 1 1 0 0; JSDate.at_ 2025 3 1 0 0; JSDate.at_ 2025 3 1 0 0]
  /\ (storage.monthlyTrend_of today Sample.w).1
     = Ok [("Oct 2024", 0%Q); ("Dec 2024", 0%Q); ("Dec 2024", 0%Q); ("Jan 2025", 50%Q);
           ("Mar 2025", 0%Q); ("Mar 2025", 0%Q)].
Proof. split; vm_compute; reflexivity. Qed.

(** The growth helper computes the start of the previous month with
    [new Date(year, month - 1, 1)], which does not overflow: on the same
    31 March it is 1 February. *)
Example previous_month_start_at_month_end :
  firstDayOfLastMonth (JSDate.at_ 2025 3 31 12 0) = JSDate.at_ 2025 2 1 0 0
  /\ storage.month_start (JSDate.at_ 2025 3 31 12 0) 1 = JSDate.at_ 2025 3 1 0 0.
Proof. split; vm_compute; reflexivity. Qed.

(** ** Creating donations *)

Lemma num_le0_not_gt0 (x : jsnum) : num_le0 x = true -> num_gt0 x = false.
Proof. destruct x; cbn; intros H; [discriminate | | ]; rewrite H; reflexivity. Qed.

Lemma nonpositive_amount_issue (v : option jval) :
  nonpositive_amount v -> schema.check_amount v <> [].
Proof.
  destruct v as [[| | |s| |]|]; cbn; try contradiction; try discriminate.
  intros H. rewrite (num_le0_not_gt0 _ H). discriminate.
Qed.

Lemma nonpositive_amount_invalid (b : gmap string jval) :
  nonpositive_amount (b !! "amount") -> schema.donation_issues b <> [].
Proof.
  intros H Hnil. unfold schema.donation_issues in Hnil.
  apply app_eq_nil in Hnil as [_ Hnil]. apply app_eq_nil in Hnil as [Hnil _].
  exact (nonpositive_amount_issue _ H Hnil).
Qed.

(** C6, as amended.  A creation request whose amount is not positive
    persists nothing and calls no storage helper: the world is left as
    it was.  With an identity attached it is answered 400 with the
    gathered validation message; without one it is answered 401 by the
    authentication gate, which comes first. *)
Theorem nonpositive_donation_rejected (E : env) (req : request) (w : world) :
  nonpositive_amount (body req !! "amount") ->
  match user req with
  | Some _ =>
      donation_controller.post E req w
      = (Ok (Response 400
               (Message (schema.validation_message (schema.donation_issues (body req))))), w)
  | None => exists j, donation_controller.post E req w = (Ok (Response 401 j), w)
  end.
Proof.
  intros H. apply nonpositive_amount_invalid in H.
  unfold donation_controller.post, behind, authenticateJWT.
  destruct (user req) as [u|] eqn:Hu; [|eexists; reflexivity].
  unfold donation_controller.post_handler, try_catch, bind, schema.parse_donation.
  rewrite Hu. destruct (schema.donation_issues (body req)); [contradiction|].
  reflexivity.
Qed.

Lemma nonpositive_donation_rejected_witness :
  donation_controller.post Sample.E
    (Sample.req (Some Sample.member) None []
       [("amount", JStr "-5"); ("paymentMethod", JStr "paypal")]) Sample.w
  = (Ok (Response 400
           (Message (schema.validation_message
                       [schema.Issue "amount" "Amount must be greater than 0"]))),
     Sample.w).
Proof.
  exact (nonpositive_donation_rejected Sample.E
           (Sample.req (Some Sample.member) None []
              [("amount", JStr "-5"); ("paymentMethod", JStr "paypal")]) Sample.w
           eq_refl).
Defined.

(** C6 as stated fails without an identity: the same body sent with no
    session is answered 401, not 400. *)
Lemma nonpositive_donation_unauthenticated :
  nonpositive_amount (Some (JStr "-5")) /\
  ~ exists j w',
      donation_controller.post Sample.E
        (Sample.req None None [] [("amount", JStr "-5"); ("paymentMethod", JStr "paypal")])
        Sample.w
      = (Ok (Response 400 j), w').
Proof.
  split; [reflexivity|]. intros (j & w' & H). vm_compute in H. discriminate.
Qed.

Lemma valid_donation_fields (b : gmap string jval) :
  schema.donation_issues b = [] ->
  (exists val, b !! "amount" = Some (JStr val) /\ num_gt0 (parseFloat val) = true) /\
  (exists m, b !! "paymentMethod" = Some (JStr m) /\ m ∈ schema.payment_methods).
Proof.
  unfold schema.donation_issues. intros H.
  apply app_eq_nil in H as [_ H]. apply app_eq_nil in H as [Ha H].
  apply app_eq_nil in H as [Hm _]. split.
  - destruct (b !! "amount") as [[| | |val| |]|]; try discriminate Ha.
    exists val. split; [reflexivity|]. cbn in Ha.
    destruct (num_gt0 (parseFloat val)); [reflexivity | discriminate].
  - destruct (b !! "paymentMethod") as [[| | |m| |]|]; try discriminate Hm.
    exists m. split; [reflexivity|]. cbn in Hm.
    destruct (bool_decide (m ∈ schema.payment_methods)) eqn:Hin; [|discriminate].
    apply bool_decide_eq_true in Hin. exact Hin.
Qed.

(** The row [createDonation] inserts for the details and status the
    handler settled on. *)
Lemma post_handler_creates (E : env) (req : request) (w : world) (u : Identity.t)
    (st : string) (details : row) (amount : jval) :
  user req = Some u ->
  schema.donation_issues (body req) = [] ->
  donation_controller.settle E req
    (filter (fun kv : string * jval => kv.1 ∈ schema.donation_fields) (body req)) w
  = (Ok (st, details), w) ->
  storage.to_numeric (details !! "amount") = Some amount ->
  exists r w',
    donation_controller.post E req w = (Ok (Response 201 (OneRow r)), w') /\
    r ∈ rows (donations (db w')) /\
    r !! "status" = Some (JStr st) /\
    r !! "paymentMethod" = details !! "paymentMethod" /\
    r !! "transactionId" = donation_controller.or_null (details !! "transactionId") /\
    r !! "qrImageUrl" = donation_controller.or_null (details !! "qrImageUrl") /\
    r !! "esewaReference" = donation_controller.or_null (details !! "esewaReference").
Proof.
  intros Hu Hvalid Hsettle Hamount.
  unfold donation_controller.post, behind, authenticateJWT. rewrite Hu.
  unfold donation_controller.post_handler, try_catch, bind at 1.
  unfold bind at 1. rewrite Hu. unfold schema.parse_donation. rewrite Hvalid.
  unfold bind at 1. unfold ret at 1. rewrite Hsettle.
  unfold bind at 1. unfold storage.createDonation, storage.helper, bind at 1.
  unfold emit, run_db. cbn [db trace].
  rewrite lookup_set_opt. destruct (decide ("amount" = "amount")) as [_|]; [|congruence].
  rewrite Hamount. cbn [mbind option_bind].
  unfold insert_row. cbn [get_table set_table donations].
  set (r := set_columns Donations _ ∪ _).
  exists r. eexists. split; [reflexivity|]. cbn [db set_table get_table donations rows].
  split; [apply elem_of_app; right; left|].
  assert (Hdefaults : forall k, k <> "id" -> k <> "status" -> k <> "createdAt" ->
            (<["id" := int (serial (donations (db w)))]>
               (<["status" := JStr "pending"]> (storage.created E)) : row) !! k = None).
  { intros k H1 H2 H3. rewrite !lookup_insert_ne by congruence.
    apply lookup_singleton_ne. congruence. }
  assert (Hnone : forall o : option jval, o ∪ None = o) by (intros [?|]; reflexivity).
  repeat split; unfold r; rewrite lookup_union, lookup_set_columns;
    (case_decide; [|exfalso; match goal with H : _ ∉ _ |- _ => apply H; listed end]);
    (rewrite lookup_insert_ne by discriminate); rewrite !lookup_set_opt;
    repeat (case_decide; try discriminate; try congruence).
  - rewrite lookup_insert_ne by discriminate. rewrite lookup_singleton_eq. reflexivity.
  - rewrite Hdefaults by discriminate. apply Hnone.
  - rewrite Hdefaults by discriminate. apply Hnone.
  - rewrite Hdefaults by discriminate. apply Hnone.
  - rewrite Hdefaults by discriminate. apply Hnone.
Qed.

Ltac not_listed H :=
  repeat (apply elem_of_cons in H as [H|H]; [discriminate H|]); inversion H.

Ltac off :=
  intros;
  first [ congruence
        | match goal with H : _ ∈ _ |- _ => not_listed H end
        | reflexivity ].

Lemma lookup_donation_field (b : gmap string jval) (k : string) :
  k ∈ schema.donation_fields ->
  filter (fun kv : string * jval => kv.1 ∈ schema.donation_fields) b !! k = b !! k.
Proof. intros H. rewrite lookup_keep_fields. case_decide; [reflexivity | contradiction]. Qed.




(** ** The optional-identity step *)

Lemma is_str_true (v : option jval) (s : string) :
  is_str v s = true <-> v = Some (JStr s).
Proof.
  destruct v as [[| | |t| |]|]; cbn; split; try discriminate.
  - intros H. apply String.eqb_eq in H. congruence.
  - intros [= ->]. apply String.eqb_refl.
Qed.

(** C9. [setUserInfo] never answers: it always passes the request on and
    leaves the database as it was.  When the token verifies and names
    an existing row that is not inactive (and whose [createdAt] is a
    date, as every row of the table has), the request passed on is the
    one received with an identity attached, made of that row's id, name,
    email, role, notification flag, picture and creation time; in every
    other case it is the request received, with nothing attached. *)
Theorem setUserInfo_never_blocks (E : env) (req : request) (w : world) :
  exists req' calls,
    setUserInfo E req w = (Ok (Next req'), World (db w) calls) /\
    ((exists id u t i,
        references E req (db w) id u /\ ~ inactive u /\
        u !! "createdAt" = Some (JDate t) /\
        user req' = Some i /\
        Identity.id i = id /\
        Identity.name i = text_of (u !! "name") /\
        Identity.email i = text_of (u !! "email") /\
        Identity.role i = text_of (u !! "role") /\
        Identity.notificationOptIn i = truthy (u !! "notificationOptIn") /\
        Identity.profilePictureUrl i
        = (if truthy (u !! "profilePictureUrl")
           then Some (text_of (u !! "profilePictureUrl")) else None) /\
        Identity.createdAt i = t /\
        cookies req' = cookies req /\ params req' = params req /\
        query req' = query req /\ body req' = body req /\ upload req' = upload req)
     \/ (req' = req /\
         ~ exists id u t,
             references E req (db w) id u /\ ~ inactive u /\
             u !! "createdAt" = Some (JDate t))).
Proof.
  unfold setUserInfo, try_catch.
  destruct (cookies req) as [jar|] eqn:Hjar.
  2:{ exists req, (trace w). split; [destruct w; reflexivity|]. right. split; [reflexivity|].
      intros (id & u & t0 & (jar & token & decoded & H & _) & _). congruence. }
  destruct (jar !! "auth_token") as [token|] eqn:Htoken.
  2:{ exists req, (trace w). split; [destruct w; reflexivity|]. right. split; [reflexivity|].
      intros (id & u & t0 & (jar' & token & decoded & H1 & H2 & _) & _). congruence. }
  destruct token as [|c token'].
  { exists req, (trace w). split; [destruct w; reflexivity|]. right. split; [reflexivity|].
    intros (id & u & t0 & (jar' & token & decoded & H1 & H2 & H3 & _) & _). congruence. }
  destruct (verifyToken E (String c token')) as [decoded|] eqn:Hverify.
  2:{ exists req, (trace w). split; [destruct w; reflexivity|]. right. split; [reflexivity|].
      intros (id & u & t0 & (jar' & token0 & decoded & H1 & H2 & H3 & H4 & _) & _). congruence. }
  destruct (truthy (decoded !! "id")) eqn:Htruthy; cbn [negb].
  2:{ exists req, (trace w). split; [destruct w; reflexivity|]. right. split; [reflexivity|].
      intros (id & u & t0 & (jar' & token0 & decoded0 & H1 & H2 & H3 & H4 & H5 & _) & _).
      congruence. }
  destruct (integer_in (decoded !! "id")) as [id|] eqn:Hid.
  2:{ exists req. eexists. split; [reflexivity|]. right. split; [reflexivity|].
      intros (id & u & t0 & (jar' & token0 & decoded0 & H1 & H2 & H3 & H4 & H5 & H6 & _) & _).
      congruence. }
  unfold storage.getUserById, storage.helper, bind, emit, read_db. cbn [db trace].
  destruct (find_by_id id (rows (users (db w)))) as [u|] eqn:Hfind.
  2:{ exists req. eexists. split; [reflexivity|]. right. split; [reflexivity|].
      intros (id' & u & t0 & (jar' & token0 & decoded0 & H1 & H2 & H3 & H4 & H5 & H6 & H7) & _).
      congruence. }
  assert (Href : references E req (db w) id u).
  { exists jar, (String c token'), decoded. repeat split; try assumption. discriminate. }
  assert (Huniq : forall id' u', references E req (db w) id' u' -> id' = id /\ u' = u).
  { intros id' u' (jar' & token0 & decoded0 & H1 & H2 & H3 & H4 & H5 & H6 & H7).
    assert (id' = id) by congruence. subst id'. split; [reflexivity | congruence]. }
  destruct (is_str (u !! "status") "inactive") eqn:Hstatus.
  { exists req. eexists. split; [reflexivity|]. right. split; [reflexivity|].
    intros (id' & u' & t0 & H & Hactive & _). destruct (Huniq _ _ H) as [-> ->].
    apply Hactive, is_str_true, Hstatus. }
  assert (Hactive : ~ inactive u).
  { intros H. apply is_str_true in H. congruence. }
  unfold identity_of.
  destruct (u !! "createdAt") as [[| | | |t|]|] eqn:Hcreated;
    try (exists req; eexists; split; [reflexivity|]; right; split; [reflexivity|];
         intros (id' & u' & t' & H & _ & Ht); destruct (Huniq _ _ H) as [-> ->];
         congruence).
  eexists. eexists. split; [reflexivity|]. left.
  exists id, u, t. eexists. repeat split; try assumption; reflexivity.
Qed.

(** A session of the sample member: the identity is attached. *)
Example setUserInfo_attaches_member :
  exists calls,
    setUserInfo Sample.E
      (Request (Some {[ "auth_token" := "member-token" ]}) None ∅ ∅ ∅ None) Sample.w
    = (Ok (Next (Request (Some {[ "auth_token" := "member-token" ]}) (Some Sample.member)
                   ∅ ∅ ∅ None)),
       World Sample.data calls).
Proof. eexists. vm_compute. reflexivity. Qed.

(** ** Media upload *)

(** C10. A file larger than ten megabytes, or whose type is neither
    image nor video, is turned away with the world untouched: no call
    is made, to the asset store or to storage.  Whenever
    [uploadToCloudinary] is called, the request carried an identity, a
    file that multer accepted, and a truthy title and type. *)
Theorem media_upload_gate (E : env) (req : request) (w : world) :
  exists r w' calls,
    media_controller.admin_post E req w = (Ok r, w') /\
    trace w' = (trace w ++ calls)%list /\
    (forall file, upload req = Some file ->
       media_controller.fileSize < size file \/ media_controller.fileFilter file = false ->
       status r = 500 /\ w' = w) /\
    (forall mt rt, UploadToCloudinary mt rt ∈ calls ->
       exists u file,
         user req = Some u /\ upload req = Some file /\
         fieldname file = "mediaFile" /\
         size file <= media_controller.fileSize /\
         media_controller.fileFilter file = true /\
         truthy (body req !! "title") = true /\ truthy (body req !! "type") = true).
Proof.
  assert (Hquiet : forall r, 
            (forall file, upload req = Some file ->
               media_controller.fileSize < size file
               \/ media_controller.fileFilter file = false -> status r = 500) ->
            exists r' w' calls,
              (Ok r, w) = (Ok r', w') /\ trace w' = (trace w ++ calls)%list /\
              (forall file, upload req = Some file ->
                 media_controller.fileSize < size file
                 \/ media_controller.fileFilter file = false ->
                 status r' = 500 /\ w' = w) /\
              (forall mt rt, UploadToCloudinary mt rt ∈ calls ->
                 exists u file,
                   user req = Some u /\ upload req = Some file /\
                   fieldname file = "mediaFile" /\
                   size file <= media_controller.fileSize /\
                   media_controller.fileFilter file = true /\
                   truthy (body req !! "title") = true /\
                   truthy (body req !! "type") = true)).
  { intros r Hr. exists r, w, []. split; [reflexivity|].
    split; [symmetry; apply app_nil_r|]. split.
    - intros file Hf Hbad. split; [exact (Hr file Hf Hbad) | reflexivity].
    - intros mt rt Hin. inversion Hin. }
  unfold media_controller.admin_post, media_controller.upload_single.
  destruct (upload req) as [file|] eqn:Hupload.
  2:{ unfold media_controller.admin_post_handler, try_catch, respond, ret.
      destruct (user req); apply Hquiet; intros file Hf; discriminate Hf. }
  destruct (String.eqb (fieldname file) "mediaFile") eqn:Hfield; cbn [negb].
  2:{ apply Hquiet. reflexivity. }
  destruct (media_controller.fileFilter file) eqn:Hfilter; cbn [negb].
  2:{ apply Hquiet. reflexivity. }
  destruct (media_controller.fileSize <? size file) eqn:Hsize.
  { apply Hquiet. reflexivity. }
  apply Z.ltb_ge in Hsize. apply String.eqb_eq in Hfield.
  assert (Hgood : forall r : response, forall w' : world,
            forall f, Some file = Some f ->
            media_controller.fileSize < size f \/ media_controller.fileFilter f = false ->
            status r = 500 /\ w' = w).
  { intros r w' f [= <-] [H|H]; [lia | congruence]. }
  unfold media_controller.admin_post_handler, try_catch.
  destruct (user req) as [who|] eqn:Hu.
  2:{ apply Hquiet. intros f [= <-] [H|H]; [lia | congruence]. }
  destruct (truthy (body req !! "title")) eqn:Htitle; cbn [negb orb].
  2:{ apply Hquiet. intros f [= <-] [H|H]; [lia | congruence]. }
  destruct (truthy (body req !! "type")) eqn:Htype; cbn [negb orb].
  2:{ apply Hquiet. intros f [= <-] [H|H]; [lia | congruence]. }
  assert (Hfacts : exists u file0,
            Some who = Some u /\ Some file = Some file0 /\
            fieldname file0 = "mediaFile" /\
            size file0 <= media_controller.fileSize /\
            media_controller.fileFilter file0 = true /\ true = true /\ true = true).
  { exists who, file. repeat split; assumption. }
  unfold media_controller.uploadToCloudinary, bind at 1.
  unfold bind at 1. unfold emit at 1. cbn [db trace].
  destruct (cloudinary_upload E (mimetype file) _) as [result|].
  2:{ eexists _, _, _. split; [reflexivity|]. split; [reflexivity|].
      split; [apply Hgood | intros; exact Hfacts]. }
  unfold ret at 1.
  destruct (secure_url result) as [[|c url]|].
  1, 3: (eexists _, _, _; split; [reflexivity|]; split; [reflexivity|];
         split; [apply Hgood | intros; exact Hfacts]).
  unfold bind at 1. unfold media_controller.parse_media.
  destruct (media_controller.media_issues _).
  2:{ eexists _, _, _. split; [reflexivity|]. split; [reflexivity|].
      split; [apply Hgood | intros; exact Hfacts]. }
  eexists _, _, _. split; [reflexivity|]. split.
  { cbn. rewrite <- !app_assoc. reflexivity. }
  split; [apply Hgood | intros; exact Hfacts].
Qed.

(** An eleven-megabyte image is turned away by multer: nothing is
    called. *)
Example eleven_megabytes_rejected :
  let req := Request None (Some Sample.owner) ∅ ∅
               (list_to_map [("title", JStr "Choir"); ("type", JStr "image")])
               (Some (FilePart "mediaFile" "image/png" (11 * 1024 * 1024))) in
  media_controller.admin_post Sample.E req Sample.w
  = (Ok (Response 500 (Message "File too large")), Sample.w).
Proof. vm_compute. reflexivity. Qed.

(** A one-megabyte image from the owner is uploaded, then recorded. *)
Example small_image_uploaded :
  let req := Request None (Some Sample.owner) ∅ ∅
               (list_to_map [("title", JStr "Choir"); ("type", JStr "image")])
               (Some (FilePart "mediaFile" "image/png" (1024 * 1024))) in
  exists r w',
    media_controller.admin_post Sample.E req Sample.w = (Ok r, w') /\
    status r = 201 /\
    trace w' = [UploadToCloudinary "image/png" "image"; StorageCall "createMedia";
                StorageCall "createActivity"].
Proof. eexists _, _. split; [vm_compute; reflexivity|]. split; reflexivity. Qed.

(** ** What a handler leaves in place *)

Section Keeps.
Context (P : database -> database -> Prop) `{!Reflexive P} `{!Transitive P}.

Lemma keeps_ret {A} (a : A) : keeps P (ret a).
Proof. intros w. reflexivity. Qed.

Lemma keeps_throw {A} (e : exn) : keeps P (@throw A e).
Proof. intros w. reflexivity. Qed.

Lemma keeps_emit (c : call) : keeps P (emit c).
Proof. intros w. reflexivity. Qed.

Lemma keeps_read_db {A} (f : database -> A) : keeps P (read_db f).
Proof. intros w. reflexivity. Qed.

Lemma keeps_respond (code : Z) (j : reply) : keeps P (respond code j).
Proof. intros w. reflexivity. Qed.

Lemma keeps_bind {A B} (m : M A) (k : A -> M B) :
  keeps P m -> (forall a, keeps P (k a)) -> keeps P (bind m k).
Proof.
  intros Hm Hk w. unfold bind. specialize (Hm w).
  destruct (m w) as [[a|e] w1]; cbn in *; [|exact Hm].
  etransitivity; [exact Hm | apply Hk].
Qed.

Lemma keeps_try_catch {A} (m : M A) (h : exn -> M A) :
  keeps P m -> (forall e, keeps P (h e)) -> keeps P (try_catch m h).
Proof.
  intros Hm Hh w. unfold try_catch. specialize (Hm w).
  destruct (m w) as [[a|e] w1]; cbn in *; [exact Hm|].
  etransitivity; [exact Hm | apply Hh].
Qed.

Lemma keeps_run_db {A} (f : database -> option (A * database)) :
  (forall d a d', f d = Some (a, d') -> P d d') -> keeps P (run_db f).
Proof.
  intros Hf w. unfold run_db. destruct (f (db w)) as [[a d']|] eqn:H; cbn.
  - apply (Hf _ _ _ H).
  - reflexivity.
Qed.

Lemma keeps_helper {A} (name : string) (m : M A) :
  keeps P m -> keeps P (storage.helper name m).
Proof. intros H. apply keeps_bind; [apply keeps_emit | intros _; exact H]. Qed.

Lemma keeps_behind (mw : request -> passage) (h : request -> M response) (req : request) :
  (forall req', keeps P (h req')) -> keeps P (behind mw h req).
Proof. intros H. unfold behind. destruct (mw req); [apply keeps_ret | apply H]. Qed.

End Keeps.

(** A handler closed by a [catch] that answers always answers. *)
Lemma try_catch_answers (m : M response) (h : exn -> M response) (w : world) :
  (forall e w1, exists r, h e w1 = (Ok r, w1)) ->
  exists r w', try_catch m h w = (Ok r, w').
Proof.
  intros Hh. unfold try_catch. destruct (m w) as [[a|e] w1]; [eauto|].
  destruct (Hh e w1) as [r Hr]. eauto.
Qed.

#[local] Instance column_kept_refl n c : Reflexive (column_kept n c).
Proof. intros d. reflexivity. Qed.

#[local] Instance column_kept_trans n c : Transitive (column_kept n c).
Proof. intros d1 d2 d3 H1 H2. unfold column_kept in *. congruence. Qed.

Lemma get_set_table_ne (n n' : relation_name) (t : table) (d : database) :
  n <> n' -> get_table n' (set_table n t d) = get_table n' d.
Proof. destruct n, n'; intros H; try reflexivity; congruence. Qed.

Lemma get_set_table_eq (n : relation_name) (t : table) (d : database) :
  get_table n (set_table n t d) = t.
Proof. destruct n; reflexivity. Qed.

(** An update writes the columns of its data and no other. *)
Lemma update_rows_column_kept (n n' : relation_name) (id : Z) (data : row)
    (c : string) (d d' : database) (l : list row) :
  update_rows n id data d = Some (l, d') ->
  data !! c = None -> column_kept n' c d d'.
Proof.
  unfold update_rows. case_decide; [discriminate|]. intros [= _ <-] Hc.
  unfold column_kept, column_values.
  destruct (decide (n = n')) as [<-|Hne].
  - rewrite get_set_table_eq. cbn [rows]. rewrite <- list_fmap_compose.
    apply list_fmap_ext. intros _ r _. cbn.
    destruct (has_id id r); [|reflexivity].
    rewrite lookup_union, lookup_set_columns.
    case_decide; [rewrite Hc|]; destruct (r !! c); reflexivity.
  - rewrite get_set_table_ne by assumption. reflexivity.
Qed.

Lemma insert_row_column_kept (n n' : relation_name) (defaults values : row)
    (c : string) (d d' : database) (r : row) :
  n <> n' -> insert_row n defaults values d = (r, d') -> column_kept n' c d d'.
Proof.
  unfold insert_row. intros Hne [= _ <-].
  unfold column_kept, column_values. rewrite get_set_table_ne by assumption. reflexivity.
Qed.

Lemma logActivity_column_kept (n : relation_name) (c : string) (E : env)
    (userId : option Z) (action details : string) :
  n <> Activities -> keeps (column_kept n c) (logActivity E userId action details).
Proof.
  intros Hne. unfold logActivity, storage.createActivity.
  apply keeps_try_catch; [typeclasses eauto.. | | intros; apply keeps_ret; typeclasses eauto].
  apply keeps_bind; [typeclasses eauto.. | | intros; apply keeps_ret; typeclasses eauto].
  apply keeps_helper; [typeclasses eauto..|].
  apply keeps_run_db; [typeclasses eauto|]. intros d l d' H.
  destruct (insert_row _ _ _ d) as [r d1] eqn:Hins. injection H as _ <-.
  eapply insert_row_column_kept; [|exact Hins]. congruence.
Qed.

Ltac keeps_go :=
  repeat first
    [ apply logActivity_column_kept; discriminate
    | apply keeps_ret | apply keeps_throw | apply keeps_respond | apply keeps_emit
    | apply keeps_read_db | apply keeps_try_catch | apply keeps_bind
    | apply keeps_helper | apply keeps_behind
    | match goal with
      | |- forall _, _ => intro
      | |- Reflexive _ => typeclasses eauto
      | |- Transitive _ => typeclasses eauto
      | |- keeps _ (match ?x with _ => _ end) => destruct x
      | |- keeps _ (first_without_password ?l) => unfold first_without_password
      | |- keeps _ (first_row ?l) => unfold first_row
      end ].

Lemma pick_outside (fields : list string) (b : gmap string jval) (c : string) :
  c ∉ fields -> pick fields b !! c = None.
Proof. intros H. rewrite lookup_pick. case_decide; [contradiction | reflexivity]. Qed.

Lemma keeps_update (n n' : relation_name) (id : Z) (data : row) (c : string) :
  data !! c = None -> keeps (column_kept n' c) (run_db (update_rows n id data)).
Proof.
  intros H. apply keeps_run_db; [typeclasses eauto|].
  intros d l d' Hrun. eapply update_rows_column_kept; eassumption.
Qed.

(** The endpoints with an allow-list leave every other column of their
    table as it was. *)
Lemma allow_listed_update_keeps (k : update_endpoint) (fields : list string)
    (E : env) (req : request) (c : string) :
  allow_list k = Some fields -> c ∉ fields ->
  keeps (column_kept (updated_table k) c) (update_route k E req).
Proof.
  destruct k; intros [= <-] Hc; cbn [update_route updated_table].
  - unfold user_controller.patch_profile, user_controller.patch_profile_handler,
      storage.updateUser.
    keeps_go. apply keeps_update, pick_outside, Hc.
  - unfold donation_controller.admin_patch, storage.getDonationById, storage.updateDonation.
    keeps_go. apply keeps_update, pick_outside, Hc.
  - unfold contact_controller.admin_patch, storage.getContactById, storage.updateContact.
    keeps_go. apply keeps_update, pick_outside, Hc.
  - unfold media_controller.admin_patch, storage.getMediaById, storage.updateMedia.
    keeps_go. apply keeps_update, pick_outside, Hc.
Qed.

Lemma update_rows_merged (n : relation_name) (id : Z) (data : row) (d d' : database)
    (l : list row) :
  update_rows n id data d = Some (l, d') ->
  rows (get_table n d') = merged_into n id data d /\
  l = (fun r : row => set_columns n data ∪ r) <$> List.filter (has_id id) (rows (get_table n d)).
Proof.
  unfold update_rows. case_decide; [discriminate|]. intros [= <- <-].
  rewrite get_set_table_eq. split; reflexivity.
Qed.

Lemma logActivity_run (E : env) (userId : option Z) (action details : string) (w : world) :
  exists w',
    logActivity E userId action details w = (Ok true, w') /\
    forall n, n <> Activities -> get_table n (db w') = get_table n (db w).
Proof.
  unfold logActivity, try_catch, bind, storage.createActivity, storage.helper, bind,
    emit, run_db.
  cbn [db trace]. destruct (insert_row _ _ _ _) as [r d'] eqn:Hins.
  eexists. split; [reflexivity|]. intros n Hn. cbn [db].
  unfold insert_row in Hins. injection Hins as _ <-.
  destruct n; try reflexivity. congruence.
Qed.

#[local] Arguments logActivity : simpl never.
#[local] Arguments update_rows : simpl never.
#[local] Arguments find_by_id : simpl never.
#[local] Arguments text_of : simpl never.
#[local] Arguments param_id : simpl never.
#[local] Arguments is_str : simpl never.
#[local] Arguments truthy : simpl never.

Ltac use_logActivity :=
  match goal with
  | |- context [logActivity ?E ?u ?a ?d ?w] =>
      let w2 := fresh "w2" in
      let Hlog := fresh "Hlog" in
      let Hsame := fresh "Hsame" in
      destruct (logActivity_run E u a d w) as (w2 & Hlog & Hsame); rewrite Hlog
  end.

Ltac split_match :=
  match goal with
  | |- context [match ?x with _ => _ end] => destruct x eqn:?
  end.

Ltac leaf :=
  cbn; eexists _, _; split; [reflexivity|]; cbn [status]; intros; try discriminate.

Lemma raw_user_update (E : env) (req : request) (w : world) :
  exists r w',
    user_controller.admin_patch E req w = (Ok r, w') /\
    (status r = 200 ->
     exists id, param_id req = Some id /\
       rows (users (db w')) = merged_into Users id (handed_over UpdateUser E req) (db w)).
Proof.
  unfold user_controller.admin_patch, user_controller.hash_password, try_catch,
    storage.getUserById, storage.updateUser, storage.helper, bind, emit, read_db,
    run_db, respond, ret, throw, handed_over.
  cbn.
  destruct (param_id req) as [id|] eqn:Hid; [|leaf].
  destruct (find_by_id id _) as [target|]; [|leaf].
  destruct (_ && _); [leaf|].
  destruct (body req !! "password") as [[| | |p| |]|] eqn:Hpw;
    destruct (truthy _) eqn:Htruthy; cbn; try leaf.
  all: match goal with
       | |- context [update_rows Users ?i ?a ?d] =>
           destruct (update_rows Users i a d) as [[l d']|] eqn:Hup; [|leaf]
       end.
  all: use_logActivity; destruct l as [|r l]; cbn; leaf.
  all: exists id; split; [reflexivity|].
  all: change (users (db w2)) with (get_table Users (db w2)).
  all: rewrite Hsame by discriminate; cbn [db].
  all: apply (update_rows_merged _ _ _ _ _ _ Hup).
Qed.

Lemma raw_event_update (E : env) (req : request) (w : world) :
  exists r w',
    event_controller.patch E req w = (Ok r, w') /\
    (status r = 200 ->
     exists id, param_id req = Some id /\
       rows (events (db w')) = merged_into Events id (body req) (db w)).
Proof.
  unfold event_controller.patch, behind, authenticateJWT.
  destruct (user req) as [u|] eqn:Hu; [|leaf].
  unfold event_controller.patch_handler, event_controller.formattedEvent, first_row,
    try_catch, storage.getEventById, storage.updateEvent, storage.helper, bind, emit,
    read_db, run_db, respond, ret, throw.
  rewrite Hu. cbn.
  destruct (param_id req) as [eventId|] eqn:Hid; [|leaf].
  destruct (find_by_id eventId _) as [target|]; [|leaf]. cbn.
  destruct (update_rows Events eventId (body req) (db w)) as [[l d']|] eqn:Hup; [|leaf].
  destruct l as [|r l]; [leaf|]. cbn. use_logActivity.
  destruct (r !! "date") as [[| | | |t|]|]; try leaf.
  destruct (r !! "createdAt") as [[| | | |t'|]|]; try leaf.
  exists eventId. split; [reflexivity|].
  change (events (db w2)) with (get_table Events (db w2)).
  rewrite Hsame by discriminate. cbn [db].
  apply (update_rows_merged _ _ _ _ _ _ Hup).
Qed.

Lemma raw_sermon_update (E : env) (req : request) (w : world) :
  exists r w',
    sermon_controller.patch E req w = (Ok r, w') /\
    (status r = 200 ->
     exists id, param_id req = Some id /\
       rows (sermons (db w')) = merged_into Sermons id (body req) (db w)).
Proof.
  unfold sermon_controller.patch, behind, authenticateJWT.
  destruct (user req) as [u|] eqn:Hu; [|leaf].
  unfold sermon_controller.patch_handler, sermon_controller.formattedSermon, first_row,
    try_catch, storage.getSermonById, storage.updateSermon, storage.helper, bind, emit,
    read_db, run_db, respond, ret, throw.
  rewrite Hu. cbn.
  destruct (negb _); [leaf|].
  destruct (param_id req) as [sermonId|] eqn:Hid; [|leaf].
  destruct (find_by_id sermonId _) as [target|]; [|leaf]. cbn.
  destruct (update_rows Sermons sermonId (body req) (db w)) as [[l d']|] eqn:Hup; [|leaf].
  destruct l as [|r l]; [leaf|]. cbn. use_logActivity.
  destruct (r !! "date") as [[| | | |t|]|]; try leaf.
  destruct (r !! "createdAt") as [[| | | |t'|]|]; try leaf.
  exists sermonId. split; [reflexivity|].
  change (sermons (db w2)) with (get_table Sermons (db w2)).
  rewrite Hsame by discriminate. cbn [db].
  apply (update_rows_merged _ _ _ _ _ _ Hup).
Qed.

Lemma allow_listed_update_answers (k : update_endpoint) (fields : list string)
    (E : env) (req : request) (w : world) :
  allow_list k = Some fields -> exists r w', update_route k E req w = (Ok r, w').
Proof.
  destruct k; intros [= <-]; cbn [update_route].
  - unfold user_controller.patch_profile, behind. destruct (authenticateJWT req).
    + eexists _, _. reflexivity.
    + apply try_catch_answers. intros. eexists. reflexivity.
  - apply try_catch_answers. intros. eexists. reflexivity.
  - apply try_catch_answers. intros. eexists. reflexivity.
  - apply try_catch_answers. intros. eexists. reflexivity.
Qed.

(** C7, as amended.  The profile update, the admin donation update, the
    admin contact update and the admin media update leave every column
    outside their allow-list as it was, whatever the body holds.  The
    admin user update, the event update and the sermon update have no
    allow-list: when they answer 200, the columns named in the body
    (for a user, with the password hashed) have been written into the
    row addressed. *)
Theorem update_endpoints_write (k : update_endpoint) (E : env) (req : request) (w : world) :
  exists r w',
    update_route k E req w = (Ok r, w') /\
    match allow_list k with
    | Some fields =>
        forall c, c ∉ fields ->
          column_values (updated_table k) c (db w') = column_values (updated_table k) c (db w)
    | None =>
        status r = 200 ->
        exists id, param_id req = Some id /\
          rows (get_table (updated_table k) (db w'))
          = merged_into (updated_table k) id (handed_over k E req) (db w)
    end.
Proof.
  destruct (allow_list k) as [fields|] eqn:Hk.
  - destruct (allow_listed_update_answers k fields E req w Hk) as (r & w' & Hrun).
    exists r, w'. split; [exact Hrun|]. intros c Hc.
    pose proof (allow_listed_update_keeps k fields E req c Hk Hc w) as H.
    rewrite Hrun in H. exact H.
  - destruct k; try discriminate Hk.
    + apply raw_user_update.
    + apply raw_event_update.
    + apply raw_sermon_update.
Qed.

(** C7 as stated fails for the admin user update: a body with [role],
    [status] and [email] rewrites all three columns of the row. *)
Lemma admin_update_sets_protected_fields :
  exists r w' u,
    user_controller.admin_patch Sample.E
      (Sample.req (Some Sample.owner) (Some "2") []
         [("role", JStr "owner"); ("status", JStr "inactive");
          ("email", JStr "other@example.org")]) Sample.w
    = (Ok r, w') /\
    status r = 200 /\
    find_by_id 2 (rows (users (db Sample.w))) ≫= (.!! "role") = Some (JStr "user") /\
    find_by_id 2 (rows (users (db w'))) = Some u /\
    u !! "role" = Some (JStr "owner") /\
    u !! "status" = Some (JStr "inactive") /\
    u !! "email" = Some (JStr "other@example.org").
Proof.
  eexists _, _, _. split; [vm_compute; reflexivity|].
  repeat split; vm_compute; reflexivity.
Qed.

(** The event update writes any column of the body as well. *)
Example event_update_sets_any_column :
  let w := World (set_table Events
                    (Table [list_to_map [("id", int 1); ("title", JStr "Picnic");
                                         ("date", JDate (JSDate.at_ 2025 6 1 10 0));
                                         ("createdAt", JDate (JSDate.at_ 2025 1 1 10 0))]] 2)
                    Sample.data) [] in
  exists r w' e,
    event_controller.patch Sample.E
      (Sample.req (Some Sample.member) (Some "1") []
         [("createdAt", JDate (JSDate.at_ 2000 1 1 0 0)); ("mediaId", int 99)]) w
    = (Ok r, w') /\
    status r = 200 /\
    find_by_id 1 (rows (events (db w'))) = Some e /\
    e !! "createdAt" = Some (JDate (JSDate.at_ 2000 1 1 0 0)) /\
    e !! "mediaId" = Some (int 99).
Proof.
  eexists _, _, _. split; [vm_compute; reflexivity|].
  repeat split; vm_compute; reflexivity.
Qed.
(** ** Listings *)

Lemma insert_sorted_length (o : ordering) (x : row) (l : list row) :
  length (insert_sorted o x l) = S (length l).
Proof.
  induction l as [|y l IH]; cbn; [reflexivity|].
  destruct (comes_first o x y); cbn; [reflexivity | rewrite IH; reflexivity].
Qed.

Lemma order_by_length (o : ordering) (l : list row) : length (order_by o l) = length l.
Proof.
  unfold order_by. induction l as [|x l IH]; cbn; [reflexivity|].
  rewrite insert_sorted_length, IH. reflexivity.
Qed.

#[local] Arguments limit_offset : simpl never.
#[local] Arguments order_by : simpl never.
#[local] Arguments parseInt_or : simpl never.
#[local] Arguments string_or : simpl never.
#[local] Arguments Number.of_Z : simpl never.
#[local] Arguments Number.sub : simpl never.
#[local] Arguments Number.mul : simpl never.

Lemma leb_zero (x : spec_float) :
  normal x -> Number.leb Number.zero x = true <-> (0 <= Number.value x)%Q.
Proof.
  intros Hn. destruct x as [s|s| |s m e]; try contradiction.
  - cbn. split; [intros _; lra | reflexivity].
  - rewrite value_finite. pose proof (mantissa_pos m e).
    destruct s; cbn; unfold sgn; split; try discriminate; try reflexivity; intros; lra.
Qed.

(** The offset of a page, computed on numbers, is the integer it
    should be. *)
Lemma page_offset_exact (page perPage : Z) :
  1 <= page <= 1000000 -> 1 <= perPage <= 1000000 ->
  let offset :=
    Number.mul (Number.sub (Number.of_Z page) (Number.of_Z 1)) (Number.of_Z perPage) in
  normal offset /\ (Number.value offset == inject_Z ((page - 1) * perPage))%Q.
Proof.
  intros Hpage Hper. cbv zeta.
  destruct (of_Z_exact page ltac:(lia)) as [Hn1 Hv1].
  destruct (of_Z_exact 1 ltac:(lia)) as [Hn2 Hv2].
  destruct (of_Z_exact perPage ltac:(lia)) as [Hn3 Hv3].
  assert (Hd : (Number.value (Number.of_Z page) - Number.value (Number.of_Z 1)
                == inject_Z (page - 1))%Q).
  { rewrite Hv1, Hv2. unfold Z.sub. rewrite inject_Z_plus, inject_Z_opp. reflexivity. }
  destruct (sub_correct (Number.of_Z page) (Number.of_Z 1) Hn1 Hn2) as [[Hn4 _] Hv4].
  { eapply in_range_proper; [exact Hd|]. apply in_range_integer. lia. }
  specialize (Hv4 (page - 1) Hd ltac:(lia)).
  assert (Hp : (Number.value (Number.sub (Number.of_Z page) (Number.of_Z 1))
                * Number.value (Number.of_Z perPage)
                == inject_Z ((page - 1) * perPage))%Q).
  { rewrite Hv4, Hv3, inject_Z_mult. reflexivity. }
  destruct (mul_correct _ (Number.of_Z perPage) Hn4 Hn3) as [[Hn5 _] Hv5].
  { eapply in_range_proper; [exact Hp|]. apply in_range_integer. nia. }
  split; [exact Hn5|]. apply Hv5; [exact Hp | nia].
Qed.

(** For a positive page and page size the query returns [perPage] rows
    from row [(page - 1) * perPage] on. *)
Lemma limit_offset_page (page perPage : Z) (l : list row) :
  1 <= page <= 1000000 -> 1 <= perPage <= 1000000 ->
  limit_offset (Number.of_Z perPage)
    (Number.mul (Number.sub (Number.of_Z page) (Number.of_Z 1)) (Number.of_Z perPage)) l
  = Some (take (Z.to_nat perPage) (drop (Z.to_nat ((page - 1) * perPage)) l)).
Proof.
  intros Hpage Hper.
  destruct (page_offset_exact page perPage Hpage Hper) as [Hno Hvo].
  destruct (of_Z_exact perPage ltac:(lia)) as [Hnl Hvl].
  set (offset := Number.mul _ _) in *. set (limit := Number.of_Z perPage) in *.
  unfold limit_offset.
  assert (Hrest : (if Number.truthy offset
                   then match bigint offset with
                        | Some n => if n <? 0 then None else Some (drop (Z.to_nat n) l)
                        | None => None
                        end
                   else Some l)
                  = Some (drop (Z.to_nat ((page - 1) * perPage)) l)).
  { destruct (Z.eq_dec ((page - 1) * perPage) 0) as [E|E].
    - rewrite E in *. apply (value_zero_iff _ Hno) in Hvo as [s ->]. reflexivity.
    - assert (Htruthy : Number.truthy offset = true).
      { destruct offset as [s|s| |s m e]; try contradiction; [|reflexivity].
        exfalso. apply E. apply inject_Z_eq. rewrite <- Hvo. reflexivity. }
      rewrite Htruthy. unfold bigint. rewrite (to_Z_value _ _ Hvo Hno).
      destruct (Z.leb_spec (- 2 ^ 63) ((page - 1) * perPage)); [|nia].
      destruct (Z.ltb_spec ((page - 1) * perPage) (2 ^ 63)); [|nia].
      cbn [andb]. destruct (Z.ltb_spec ((page - 1) * perPage) 0); [nia|]. reflexivity. }
  rewrite Hrest.
  assert (Hleb : Number.leb Number.zero limit = true).
  { apply leb_zero; [exact Hnl|]. rewrite Hvl.
    change 0%Q with (inject_Z 0). rewrite <- Zle_Qle. lia. }
  rewrite Hleb. unfold bigint. rewrite (to_Z_value _ _ Hvl Hnl).
  destruct (Z.leb_spec (- 2 ^ 63) perPage); [|lia].
  destruct (Z.ltb_spec perPage (2 ^ 63)); [|lia]. reflexivity.
Qed.

(** The paging of a listing: the page asked for. *)
Lemma paging_cut (k : listing_endpoint) (req : request) (d : database) (l : list row) :
  trouble_free k req d ->
  limit_offset (Number.of_Z (perPage_of k req))
    (Number.mul (Number.sub (Number.of_Z (page_of req)) (Number.of_Z 1))
                (Number.of_Z (perPage_of k req))) l
  = Some (page_cut k req l).
Proof.
  intros (Hpage & Hper & _). apply limit_offset_page; assumption.
Qed.

Lemma mapM_total {A B} (f : A -> option B) (g : A -> B) (l : list A) :
  (forall x, f x = Some (g x)) -> mapM f l = Some (g <$> l).
Proof.
  intros H. apply mapM_Some_2. induction l as [|x l IH]; cbn; constructor; auto.
Qed.

Lemma mapM_same {A} (f : A -> option A) (l : list A) :
  (forall x, f x = Some x) -> mapM f l = Some l.
Proof.
  intros H. apply mapM_Some_2. induction l as [|x l IH]; constructor; auto.
Qed.

(** The listings that shape the rows of the page answer the requested
    page when every row of the page has its item. *)
Lemma shaped_page (k : listing_endpoint) (E : env) (req : request) (d : database)
    (items : list row) :
  match k with ListDonations | ListActivities => False | _ => True end ->
  mapM (item_of k d)
       (page_cut k req (select (listed_table k) (matches k E req d) (listing_order k req) d))
  = Some items ->
  requested_page k E req d = Some items.
Proof.
  intros Hk Hitems. destruct k; try contradiction; exact Hitems.
Qed.

Ltac answered :=
  eexists _, _; split; [reflexivity|]; split; [reflexivity|];
  eexists; split; [reflexivity|].

Lemma users_listing (E : env) (req : request) (w : world) :
  trouble_free ListUsers req (db w) ->
  exists r w', listing_route ListUsers E req w = (Ok r, w') /\ listing_ok ListUsers E req w r w'.
Proof.
  intros Hfree. cbn [listing_route].
  unfold user_controller.admin_get_all, storage.getAllUsers, storage.helper, findMany,
    count_where, try_catch, bind, emit, read_db, run_db, respond, ret.
  cbn. fold (page_of req) (perPage_of ListUsers req) (search_of req).
  rewrite (paging_cut ListUsers req (db w) _ Hfree). cbn.
  answered. apply (shaped_page ListUsers E req (db w)); [exact I|].
  apply mapM_total. reflexivity.
Qed.

Lemma contacts_listing (E : env) (req : request) (w : world) :
  trouble_free ListContacts req (db w) ->
  exists r w',
    listing_route ListContacts E req w = (Ok r, w') /\ listing_ok ListContacts E req w r w'.
Proof.
  intros Hfree. cbn [listing_route].
  unfold contact_controller.admin_get_all, storage.getAllContacts, storage.helper, findMany,
    count_where, try_catch, bind, emit, read_db, run_db, respond, ret.
  cbn. fold (page_of req) (perPage_of ListContacts req) (search_of req).
  rewrite (paging_cut ListContacts req (db w) _ Hfree). cbn.
  answered. apply (shaped_page ListContacts E req (db w)); [exact I|].
  apply mapM_same. reflexivity.
Qed.

Lemma insert_sorted_elem (o : ordering) (x y : row) (l : list row) :
  y ∈ insert_sorted o x l -> y = x \/ y ∈ l.
Proof.
  induction l as [|z l IH]; cbn.
  - intros H. apply list_elem_of_singleton in H. left. exact H.
  - destruct (comes_first o x z).
    + intros H. apply elem_of_cons in H as [H|H]; [left; exact H | right; exact H].
    + intros H. apply elem_of_cons in H as [H|H].
      * right. apply elem_of_cons. left. exact H.
      * destruct (IH H) as [H'|H']; [left; exact H' |].
        right. apply elem_of_cons. right. exact H'.
Qed.

Lemma order_by_elem (o : ordering) (y : row) (l : list row) : y ∈ order_by o l -> y ∈ l.
Proof.
  unfold order_by. induction l as [|x l IH]; cbn; [intros H; exact H|].
  intros H. apply insert_sorted_elem in H as [->|H]; apply elem_of_cons;
    [left; reflexivity | right; apply IH, H].
Qed.

Lemma page_cut_elem (k : listing_endpoint) (req : request) (l : list row) (y : row) :
  y ∈ page_cut k req l -> y ∈ l.
Proof.
  unfold page_cut. intros H.
  eapply subseteq_drop, subseteq_take, H.
Qed.

Lemma page_elem (k : listing_endpoint) (req : request) (n : relation_name)
    (c : row -> bool) (o : ordering) (d : database) (y : row) :
  y ∈ page_cut k req (select n c o d) -> y ∈ rows (get_table n d).
Proof.
  intros Hy. apply page_cut_elem in Hy.
  unfold select in Hy. apply order_by_elem in Hy.
  apply list_elem_of_In, List.filter_In in Hy as [Hy _]. apply list_elem_of_In, Hy.
Qed.

(** [map_rows] goes through when [f] is defined on every row, and
    throws otherwise.  The world is left alone. *)
Lemma map_rows_run (f : row -> option row) (message : string) (l : list row) (w : world) :
  (exists l', storage.map_rows f message l w = (Ok l', w) /\ mapM f l = Some l')
  \/ (storage.map_rows f message l w = (Throw (Error message), w)
      /\ exists r, r ∈ l /\ f r = None).
Proof.
  induction l as [|r l IH]; cbn.
  - left. exists []. split; reflexivity.
  - destruct (f r) as [r'|] eqn:Hf.
    + unfold bind. destruct IH as [(l' & -> & Hmap)|(-> & r0 & Hin & Hnone)].
      * left. eexists. split; [reflexivity|].
        cbn. rewrite Hmap. reflexivity.
      * right. split; [reflexivity|]. exists r0.
        split; [apply elem_of_cons; right; exact Hin | exact Hnone].
    + right. split; [reflexivity|]. exists r.
      split; [apply elem_of_cons; left; reflexivity | exact Hf].
Qed.

Ltac use_map_rows :=
  match goal with
  | |- context [storage.map_rows ?f ?m ?l ?w] =>
      let l' := fresh "shaped" in
      let Hrun := fresh "Hrun" in
      let Hmap := fresh "Hmap" in
      let r0 := fresh "r0" in
      let Hin := fresh "Hin" in
      let Hnone := fresh "Hnone" in
      destruct (map_rows_run f m l w) as [(l' & Hrun & Hmap)|(Hrun & r0 & Hin & Hnone)];
      rewrite Hrun
  end.

Lemma media_listing (E : env) (req : request) (w : world) :
  trouble_free ListMedia req (db w) ->
  exists r w',
    listing_route ListMedia E req w = (Ok r, w') /\ listing_ok ListMedia E req w r w'.
Proof.
  intros Hfree. cbn [listing_route].
  unfold media_controller.admin_get_all, storage.getAllMedia, storage.helper, findMany,
    count_where, try_catch, bind, emit, read_db, run_db, respond, ret.
  cbn. fold (page_of req) (perPage_of ListMedia req) (search_of req).
  rewrite (paging_cut ListMedia req (db w) _ Hfree). cbn.
  use_map_rows; cbn.
  - answered. exact (shaped_page ListMedia E req (db w) _ I Hmap).
  - exfalso. destruct Hfree as (_ & _ & Hall).
    apply page_elem in Hin.
    apply (proj1 (Forall_forall _ _) Hall) in Hin. destruct Hin as [u Hu].
    cbn in Hnone. rewrite Hu in Hnone. discriminate Hnone.
Qed.

Lemma sermons_listing (E : env) (req : request) (w : world) :
  paginated ListSermons req -> trouble_free ListSermons req (db w) ->
  exists r w',
    listing_route ListSermons E req w = (Ok r, w') /\ listing_ok ListSermons E req w r w'.
Proof.
  cbn [listing_route paginated]. intros Hlimit Hfree.
  unfold sermon_controller.get_all.
  destruct (0 <? parseInt_or (query req !! "limit") 0) eqn:Hpos; [lia|].
  unfold storage.getAllSermons, storage.helper, findMany,
    count_where, try_catch, bind, emit, read_db, run_db, respond, ret.
  cbn. fold (page_of req) (perPage_of ListSermons req) (search_of req).
  rewrite (paging_cut ListSermons req (db w) _ Hfree). cbn.
  use_map_rows; cbn.
  - answered. exact (shaped_page ListSermons E req (db w) _ I Hmap).
  - exfalso. destruct Hfree as (_ & _ & Hall).
    apply page_elem in Hin.
    apply (proj1 (Forall_forall _ _) Hall) in Hin. destruct Hin as [m Hm].
    unfold storage.formatted_sermon in Hnone. rewrite Hm in Hnone. discriminate Hnone.
Qed.

Lemma events_listing (E : env) (req : request) (w : world) :
  paginated ListEvents req -> trouble_free ListEvents req (db w) ->
  exists r w',
    listing_route ListEvents E req w = (Ok r, w') /\ listing_ok ListEvents E req w r w'.
Proof.
  cbn [listing_route paginated]. intros Hlimit Hfree.
  unfold event_controller.get_all. unfold perPage_of in Hlimit.
  destruct (0 <? parseInt_or (query req !! "limit") _) eqn:Hpos; [lia|].
  unfold storage.getAllEvents, storage.helper, findMany,
    count_where, try_catch, bind, emit, read_db, run_db, respond, ret.
  cbn. fold (page_of req) (perPage_of ListEvents req).
  rewrite (paging_cut ListEvents req (db w) _ Hfree). cbn.
  answered. apply (shaped_page ListEvents E req (db w)); [exact I|].
  apply mapM_total. reflexivity.
Qed.

Lemma filter_none {A} (l : list A) : List.filter (fun _ => false) l = [].
Proof. induction l; [reflexivity | assumption]. Qed.

Lemma omap_total {A B} (g : A -> B) (l : list A) :
  omap (fun x => Some (g x)) l = g <$> l.
Proof. induction l as [|x l IH]; cbn; [reflexivity | rewrite IH; reflexivity]. Qed.

(** The listings that join the users before they cut the page. *)
Ltac listed_page Hmatch :=
  eexists _, _; split; [reflexivity|]; split; [reflexivity|];
  eexists; split; [rewrite Hmatch; reflexivity|];
  unfold requested_page; cbn [item_of]; rewrite ?omap_total; reflexivity.

Lemma donations_listing (E : env) (req : request) (w : world) :
  trouble_free ListDonations req (db w) ->
  exists r w',
    listing_route ListDonations E req w = (Ok r, w')
    /\ listing_ok ListDonations E req w r w'.
Proof.
  intros Hfree. cbn [listing_route].
  unfold donation_controller.admin_get_all, storage.getAllDonations, storage.helper,
    count_where, try_catch, bind, emit, read_db, run_db, respond, ret, throw.
  cbn. fold (page_of req) (perPage_of ListDonations req) (search_of req).
  destruct (String.eqb (search_of req) EmptyString) eqn:Hs; cbn.
  - match goal with
    | |- context [List.filter ?c (rows (donations (db w)))] =>
        assert (Hmatch : List.filter c (rows (donations (db w)))
                         = matching ListDonations E req (db w))
    end.
    { unfold matching, matches. rewrite Hs. reflexivity. }
    rewrite (paging_cut ListDonations req (db w) _ Hfree). cbn.
    listed_page Hmatch.
  - destruct (List.filter (storage.search_users (search_of req)) (rows (users (db w))))
      as [|u [|u' rest]] eqn:Hfound; cbn.
    + assert (Hmatch : matching ListDonations E req (db w) = []).
      { unfold matching, matches, of_found_user. rewrite Hs, Hfound. cbn.
        apply filter_none. }
      eexists _, _. split; [reflexivity|]. split; [reflexivity|].
      eexists. split; [rewrite Hmatch; reflexivity|].
      unfold requested_page, page_cut. rewrite Hmatch.
      change (order_by _ (omap _ [])) with (@nil row).
      rewrite drop_nil, take_nil. reflexivity.
    + match goal with
      | |- context [List.filter ?c (rows (donations (db w)))] =>
          assert (Hmatch : List.filter c (rows (donations (db w)))
                           = matching ListDonations E req (db w))
      end.
      { unfold matching, matches, of_found_user. rewrite Hs, Hfound. cbn.
        apply List.filter_ext. intros r. rewrite orb_false_r. reflexivity. }
      rewrite (paging_cut ListDonations req (db w) _ Hfree). cbn.
      listed_page Hmatch.
    + exfalso. destruct Hfree as (_ & _ & Hfew).
      apply String.eqb_neq in Hs. specialize (Hfew Hs).
      rewrite Hfound in Hfew. cbn in Hfew. lia.
Qed.

Lemma activities_listing (E : env) (req : request) (w : world) :
  trouble_free ListActivities req (db w) ->
  exists r w',
    listing_route ListActivities E req w = (Ok r, w')
    /\ listing_ok ListActivities E req w r w'.
Proof.
  intros Hfree. cbn [listing_route].
  unfold activity_controller.get_all, storage.getAllActivities, storage.helper,
    count_where, try_catch, bind, emit, read_db, run_db, respond, ret, throw.
  cbn. fold (page_of req) (perPage_of ListActivities req) (search_of req).
  destruct (String.eqb (search_of req) EmptyString) eqn:Hs; cbn.
  - match goal with
    | |- context [List.filter ?c (rows (activities (db w)))] =>
        assert (Hmatch : List.filter c (rows (activities (db w)))
                         = matching ListActivities E req (db w))
    end.
    { unfold matching, matches. rewrite Hs. reflexivity. }
    rewrite (paging_cut ListActivities req (db w) _ Hfree). cbn.
    listed_page Hmatch.
  - destruct (List.filter (storage.search_users (search_of req)) (rows (users (db w))))
      as [|u [|u' rest]] eqn:Hfound; cbn.
    + match goal with
      | |- context [List.filter ?c (rows (activities (db w)))] =>
          assert (Hmatch : List.filter c (rows (activities (db w)))
                           = matching ListActivities E req (db w))
      end.
      { unfold matching, matches, of_found_user. rewrite Hs, Hfound. cbn.
        apply List.filter_ext. intros r. rewrite orb_false_r. reflexivity. }
      rewrite (paging_cut ListActivities req (db w) _ Hfree). cbn.
      listed_page Hmatch.
    + match goal with
      | |- context [List.filter ?c (rows (activities (db w)))] =>
          assert (Hmatch : List.filter c (rows (activities (db w)))
                           = matching ListActivities E req (db w))
      end.
      { unfold matching, matches, of_found_user. rewrite Hs, Hfound. cbn.
        apply List.filter_ext. intros r. rewrite orb_false_r. reflexivity. }
      rewrite (paging_cut ListActivities req (db w) _ Hfree). cbn.
      listed_page Hmatch.
    + exfalso. destruct Hfree as (_ & _ & Hfew).
      apply String.eqb_neq in Hs. specialize (Hfew Hs).
      rewrite Hfound in Hfew. cbn in Hfew. lia.
Qed.

Lemma history_listing (E : env) (req : request) (w : world) :
  paginated ListHistory req -> trouble_free ListHistory req (db w) ->
  exists r w',
    listing_route ListHistory E req w = (Ok r, w') /\ listing_ok ListHistory E req w r w'.
Proof.
  cbn [listing_route paginated]. intros Huser Hfree.
  unfold donation_controller.get_history_handler.
  destruct (user req) as [u|] eqn:Hu; [|congruence].
  unfold storage.getDonationsByUserId, storage.helper, findMany,
    count_where, try_catch, bind, emit, read_db, run_db, respond, ret.
  cbn. fold (page_of req) (perPage_of ListHistory req).
  rewrite (paging_cut ListHistory req (db w) _ Hfree). cbn.
  eexists _, _. split; [reflexivity|]. split; [reflexivity|].
  eexists. split; [unfold matching, matches; rewrite Hu; reflexivity|].
  apply (shaped_page ListHistory E req (db w)); [exact I|].
  unfold matches. rewrite Hu. apply mapM_same. reflexivity.
Qed.

Lemma length_omap_le {A B} (f : A -> option B) (l : list A) :
  (length (omap f l) <= length l)%nat.
Proof.
  induction l as [|x l IH]; cbn; [lia|]. destruct (f x); cbn; lia.
Qed.

Lemma page_cut_length (k : listing_endpoint) (req : request) (l : list row) :
  length (page_cut k req l)
  = Nat.min (Z.to_nat (perPage_of k req))
            (length l - Z.to_nat ((page_of req - 1) * perPage_of k req)).
Proof. unfold page_cut. rewrite length_take, length_drop. reflexivity. Qed.

(** The requested page holds at most [perPage] items, and no more than
    there are matching rows. *)
Lemma requested_page_length (k : listing_endpoint) (E : env) (req : request) (d : database)
    (items : list row) :
  requested_page k E req d = Some items ->
  (length items <= Z.to_nat (perPage_of k req))%nat /\
  (length items <= length (matching k E req d))%nat.
Proof.
  unfold requested_page. intros H.
  assert (Hlen : exists l, (length l <= length (matching k E req d))%nat
                           /\ length items = length (page_cut k req l)).
  { destruct k;
      first [ apply length_mapM in H; eexists; split;
              [|symmetry; exact H]; rewrite order_by_length; lia
            | injection H as <-; eexists; split; [|reflexivity];
              rewrite order_by_length; apply length_omap_le ]. }
  destruct Hlen as (l & Hl & ->). rewrite page_cut_length. lia.
Qed.

(** The second page of three of the seven sample events: the events 4,
    5 and 6 by date, and a total of 7.  The event listing paginates for
    a negative [limit] only, as a [limit] of 0 falls back to [perPage]. *)
Example events_second_page :
  exists items w',
    event_controller.get_all Sample.E
      (Sample.req None None [("page", "2"); ("perPage", "3"); ("limit", "-1")] [])
      Sample.w_events
    = (Ok (Response 200 (Listing "events" items 7)), w') /\
    (.!! "id") <$> items = [Some (int 4); Some (int 5); Some (int 6)].
Proof. eexists _, _. split; vm_compute; reflexivity. Qed.

(** A negative page size on the first page: the query is written
    without [LIMIT] and without [OFFSET], and every user is listed. *)
Example users_negative_page_size :
  exists items w',
    user_controller.admin_get_all
      (Sample.req (Some Sample.owner) None [("perPage", "-1")] []) Sample.w
    = (Ok (Response 200 (Listing "users" items 2)), w') /\
    (.!! "id") <$> items = [Some (int 2); Some (int 1)].
Proof. eexists _, _. split; vm_compute; reflexivity. Qed.

(** On any later page a negative page size makes the offset negative,
    which the database rejects. *)
Example users_negative_offset :
  exists message w',
    user_controller.admin_get_all
      (Sample.req (Some Sample.owner) None [("page", "2"); ("perPage", "-1")] []) Sample.w
    = (Ok (Response 500 (Message message)), w').
Proof. eexists _, _. vm_compute. reflexivity. Qed.



(** C8. [GET /donations/history] never sends a [total].  Whatever the
    request, the route leaves the database alone and answers 401, 500
    or, with 200, the bare array of the donations of the page: the
    handler reads [{ donations, total }] from [getDonationsByUserId] and
    sends [donations] alone. *)
Theorem history_sends_no_total (req : request) (w : world) :
  exists r w',
    donation_controller.get_history req w = (Ok r, w') /\
    db w' = db w /\
    (status r = 200 -> exists items, json r = Rows items) /\
    (forall key items total, json r <> Listing key items total).
Proof.
  unfold donation_controller.get_history, behind, authenticateJWT.
  destruct (user req) as [u|] eqn:Hu.
  - unfold donation_controller.get_history_handler. rewrite Hu.
    unfold storage.getDonationsByUserId, storage.helper, findMany,
      count_where, try_catch, bind, emit, read_db, run_db, respond, ret.
    cbn [db trace].
    destruct (limit_offset _ _ _) as [p|]; cbn.
    + eexists _, _. split; [reflexivity|]. split; [reflexivity|]. split.
      * intros _. eexists. reflexivity.
      * intros key items total. discriminate.
    + eexists _, _. split; [reflexivity|]. split; [reflexivity|]. split.
      * cbn. discriminate.
      * intros key items total. discriminate.
  - eexists _, _. split; [reflexivity|]. split; [reflexivity|]. split.
    + cbn. discriminate.
    + intros key items total. discriminate.
Qed.

(** The donation history of the sample member: 200 with the array of
    the one donation, where the statement expects an object with the
    page and a total of 1. *)
Example history_answers_bare_array :
  exists items w',
    donation_controller.get_history
      (Sample.req (Some Sample.member) None [] []) Sample.w
    = (Ok (Response 200 (Rows items)), w') /\ length items = 1%nat.
Proof. eexists _, _. split; vm_compute; reflexivity. Qed.

(** The event listing without [limit] takes the branch of the upcoming
    events, as its [limit] falls back to [perPage]; there [total] is
    the number of events returned.  With seven upcoming events and the
    default page size of six, [total] is 6. *)
Example events_total_counts_the_page :
  length (matching ListEvents Sample.E (Sample.req None None [] []) (db Sample.w_events))
  = 7%nat /\
  exists items w',
    event_controller.get_all Sample.E (Sample.req None None [] []) Sample.w_events
    = (Ok (Response 200 (Listing "events" items 6)), w') /\
    length items = 6%nat.
Proof.
  split; [vm_compute; reflexivity|].
  eexists _, _. split; vm_compute; reflexivity.
Qed.

(** ** Reporting periods *)

(** X1. [getNewContactsCount] counts the contacts created in the last
    thirty days to the millisecond: the bound computed with
    [setDate(getDate() - 30)] lies exactly thirty days before now,
    whatever the lengths of the months in between.  The database is
    only read. *)
Theorem new_contacts_window (E : env) (w : world) :
  storage_more.getNewContactsCount E w
  = (Ok (Z.of_nat (length (List.filter
                             (fun r => gte (r !! "createdAt") (now E - 30 * JSDate.msPerDay))
                             (rows (contacts (db w)))))),
     World (db w) (trace w ++ [StorageCall "getNewContactsCount"])).
Proof.
  unfold storage_more.getNewContactsCount, storage.helper, bind, emit, count_where, read_db.
  cbn [db trace get_table].
  replace (JSDate.getDate (now E) - 30) with (JSDate.getDate (now E) + - 30) by lia.
  rewrite setDate_shift.
  replace (now E + - 30 * JSDate.msPerDay) with (now E - 30 * JSDate.msPerDay) by lia.
  reflexivity.
Qed.

(** X2. The bound of the activity filter [this_week] is the midnight
    that opens a Sunday, at most six days before the day of [today]:
    it is not after [today], and [today] is less than seven days
    later. *)
Theorem week_starts_on_sunday (today : Z) :
  JSDate.getDay (startOfWeek today) = 0 /\
  JSDate.TimeWithinDay (startOfWeek today) = 0 /\
  startOfWeek today <= startOfDay today <= today /\
  today < startOfWeek today + 7 * JSDate.msPerDay.
Proof.
  unfold startOfWeek, startOfDay.
  replace (JSDate.getDate today - JSDate.getDay today)
    with (JSDate.getDate today + - JSDate.getDay today) by lia.
  rewrite setDate_shift.
  pose proof (TimeWithinDay_range today) as Htw.
  pose proof (MakeDate_Day today) as Hsplit.
  unfold JSDate.setHours0, JSDate.getDay, JSDate.MakeDate, JSDate.TimeWithinDay,
    JSDate.Day, JSDate.msPerDay in *.
  Z.div_mod_to_equations. lia.
Qed.

(** Up to the 28th, the month loop of the trend lands on the first day
    of the month [i] months back. *)
Lemma month_start_regular (today i : Z) :
  JSDate.getDate today <= 28 ->
  storage.month_start today i
  = JSDate.make (JSDate.getFullYear today) (JSDate.getMonth today - i) 1.
Proof.
  intros H28. destruct (civil_date today) as (_ & _ & Hd).
  pose proof (TimeWithinDay_range today) as Htw.
  unfold storage.month_start, JSDate.make, JSDate.setMonth.
  set (y := JSDate.getFullYear today). set (m := JSDate.getMonth today - i).
  rewrite !MakeDay_civil.
  set (Y := y + m / 12). set (M := m mod 12 + 1).
  assert (HM : 1 <= M <= 12) by (subst M; Z.div_mod_to_equations; lia).
  set (t1 := JSDate.MakeDate (JSDate.days_from_civil Y M (JSDate.getDate today))
                             (JSDate.TimeWithinDay today)).
  assert (Hday : JSDate.Day t1 = JSDate.days_from_civil Y M (JSDate.getDate today))
    by (apply Day_MakeDate, Htw).
  assert (Htime : JSDate.TimeWithinDay t1 = JSDate.TimeWithinDay today)
    by (apply TimeWithinDay_MakeDate, Htw).
  assert (Hcivil : JSDate.civil_from_days (JSDate.Day t1) = (Y, M, JSDate.getDate today)).
  { rewrite Hday. apply civil_from_days_from_civil; lia. }
  unfold JSDate.setDate, JSDate.getFullYear at 1, JSDate.getMonth at 1.
  rewrite Hcivil, Htime. cbn [fst snd].
  rewrite MakeDay_in_year by lia. replace (M - 1 + 1) with M by lia.
  unfold JSDate.setHours0. rewrite Day_MakeDate by exact Htw. reflexivity.
Qed.

(** X3. Up to the 28th of a month, the months of the trend are the
    first days, at midnight, of the six calendar months that end with
    the current one, oldest first: what [new Date(year, month - i, 1)]
    gives for [i] from 5 down to 0. *)
Theorem trend_months_regular (today : Z) :
  JSDate.getDate today <= 28 ->
  storage.trend_months today
  = (fun i => JSDate.make (JSDate.getFullYear today) (JSDate.getMonth today - i) 1)
      <$> [5; 4; 3; 2; 1; 0].
Proof.
  intros H. unfold storage.trend_months. cbn [foldl fmap list_fmap].
  rewrite !(month_start_regular today) by exact H. reflexivity.
Qed.

Lemma trend_months_regular_witness :
  storage.trend_months (JSDate.at_ 2025 3 15 12 0)
  = [JSDate.at_ 2024 10 1 0 0; JSDate.at_ 2024 11 1 0 0; JSDate.at_ 2024 12 1 0 0;
     JSDate.at_ 2025 1 1 0 0; JSDate.at_ 2025 2 1 0 0; JSDate.at_ 2025 3 1 0 0].
Proof.
  rewrite (trend_months_regular (JSDate.at_ 2025 3 15 12 0)); [|vm_compute; discriminate].
  vm_compute. reflexivity.
Defined.

(** The first day of a year is not after the first day of any of its
    months. *)
Lemma year_start_first (y m : Z) :
  1 <= m <= 12 -> JSDate.days_from_civil y 1 1 <= JSDate.days_from_civil y m 1.
Proof.
  intros H.
  assert (Hm : m = 1 \/ m = 2 \/ m = 3 \/ m = 4 \/ m = 5 \/ m = 6 \/ m = 7 \/ m = 8
               \/ m = 9 \/ m = 10 \/ m = 11 \/ m = 12) by lia.
  unfold JSDate.days_from_civil.
  repeat (destruct Hm as [->|Hm]); try subst m; cbn [Z.leb Z.ltb Z.compare Pos.compare
    Pos.compare_cont]; cbv zeta; Z.div_mod_to_equations; lia.
Qed.

(** The first day of a month comes after the first day of the month
    before. *)
Lemma month_start_after_previous (y m : Z) :
  0 <= m <= 11 -> JSDate.MakeDay y (m - 1) 1 < JSDate.MakeDay y m 1.
Proof.
  intros H. rewrite !MakeDay_civil.
  assert (Hm : m = 0 \/ m = 1 \/ m = 2 \/ m = 3 \/ m = 4 \/ m = 5 \/ m = 6 \/ m = 7
               \/ m = 8 \/ m = 9 \/ m = 10 \/ m = 11) by lia.
  repeat (destruct Hm as [->|Hm]); try subst m.
  all: match goal with
       | |- JSDate.days_from_civil (?y0 + ?a) ?b 1 < JSDate.days_from_civil (_ + ?c) ?d 1 =>
           let a' := eval vm_compute in a in
           let b' := eval vm_compute in b in
           let c' := eval vm_compute in c in
           let d' := eval vm_compute in d in
           change (JSDate.days_from_civil (y0 + a') b' 1
                   < JSDate.days_from_civil (y0 + c') d' 1)
       end.
  all: unfold JSDate.days_from_civil;
       cbn [Z.leb Z.ltb Z.compare Pos.compare Pos.compare_cont]; cbv zeta.
  all: Z.div_mod_to_equations; lia.
Qed.

(** The bounds of the period filters, in order. *)
Lemma period_bounds (today : Z) :
  firstDayOfYear today <= firstDayOfMonth today /\
  firstDayOfLastMonth today < firstDayOfMonth today /\
  firstDayOfMonth today <= today.
Proof.
  destruct (civil_date today) as (Hday & Hm & Hd).
  pose proof (TimeWithinDay_range today) as Htw.
  pose proof (MakeDate_Day today) as Hsplit.
  pose proof (month_start_after_previous (JSDate.getFullYear today) (JSDate.getMonth today) Hm)
    as Hprev.
  assert (Hyear := year_start_first (JSDate.getFullYear today) (JSDate.getMonth today + 1)
                    ltac:(lia)).
  unfold firstDayOfYear, firstDayOfMonth, firstDayOfLastMonth, JSDate.make.
  rewrite (MakeDay_in_year _ 0) by lia.
  rewrite (MakeDay_in_year _ (JSDate.getMonth today)) in * by lia.
  replace (JSDate.getDate today) with (1 + (JSDate.getDate today - 1)) in Hday by lia.
  rewrite days_from_civil_day in Hday.
  change (0 + 1) with 1.
  unfold JSDate.MakeDate, JSDate.msPerDay in *. lia.
Qed.

(** X4. The period filters of the donation listing nest as the
    calendar does: what [this_month] selects, [this_year] selects too;
    [last_month] and [this_month] select no row in common; and a row
    created at this very instant belongs to [this_month]. *)
Theorem donation_periods_nest (today : Z) (r : row) :
  (storage.donations_period today "this_month" r = true ->
   storage.donations_period today "this_year" r = true) /\
  (storage.donations_period today "last_month" r = true ->
   storage.donations_period today "this_month" r = false) /\
  (r !! "createdAt" = Some (JDate today) ->
   storage.donations_period today "this_month" r = true).
Proof.
  destruct (period_bounds today) as (Hy & Hl & Hm).
  unfold storage.donations_period. cbn [String.eqb Ascii.eqb Bool.eqb].
  unfold gte, lt. destruct (r !! "createdAt") as [[| | | |t|]|]; cbn;
    repeat split; intros; try discriminate; try lia.
  simplify_eq. lia.
Qed.

(** ** Storage: what the helpers leave in place *)

Lemma is_int_unique (v : option jval) (a b : Z) :
  is_int v a = true -> is_int v b = true -> a = b.
Proof.
  destruct v as [[| |q| | |]|]; cbn; try discriminate.
  intros Ha Hb. apply Qeq_bool_iff in Ha, Hb. rewrite Ha in Hb.
  unfold Qeq, inject_Z in Hb. cbn in Hb. lia.
Qed.

Lemma is_int_int (a b : Z) : is_int (Some (int a)) b = (a =? b).
Proof.
  unfold is_int, int.
  destruct (Z.eqb_spec a b) as [->|H].
  - apply Qeq_bool_iff. reflexivity.
  - destruct (Qeq_bool (inject_Z a) (inject_Z b)) eqn:E; [|reflexivity].
    apply Qeq_bool_iff in E. unfold Qeq, inject_Z in E. cbn in E. lia.
Qed.

(** A deletion leaves the rows of every other id where they were. *)
Lemma find_after_delete (id id' : Z) (l : list row) :
  id' <> id ->
  find_by_id id' (List.filter (fun r => negb (has_id id r)) l) = find_by_id id' l.
Proof.
  intros Hne. unfold find_by_id. induction l as [|r l IH]; [reflexivity|]. cbn.
  destruct (has_id id r) eqn:Hid; cbn.
  - destruct (has_id id' r) eqn:Hid'; [|exact IH].
    exfalso. apply Hne. unfold has_id in *. eapply is_int_unique; eassumption.
  - destruct (has_id id' r); [reflexivity | exact IH].
Qed.

Lemma find_deleted (id : Z) (l : list row) :
  find_by_id id (List.filter (fun r => negb (has_id id r)) l) = None.
Proof.
  unfold find_by_id. induction l as [|r l IH]; [reflexivity|]. cbn.
  destruct (has_id id r) eqn:Hid; cbn; [exact IH|]. rewrite Hid. exact IH.
Qed.

(** X6. Deleting a contact, an event or a sermon (the tables no other
    table refers to) removes the rows of that id and nothing else:
    looking the id up afterwards finds nothing, every other id is found
    as before, and the other tables are untouched. *)
Theorem deletion_removes_the_row (n : relation_name) (delete : Z -> M unit)
    (id : Z) (w : world) :
  deletion n = Some delete ->
  exists d' calls,
    delete id w = (Ok tt, World d' calls) /\
    find_by_id id (rows (get_table n d')) = None /\
    (forall id', id' <> id ->
       find_by_id id' (rows (get_table n d')) = find_by_id id' (rows (get_table n (db w)))) /\
    (forall n', n' <> n -> get_table n' d' = get_table n' (db w)).
Proof.
  intros Hdel.
  assert (Hrun : delete id w
                 = (Ok tt, World (delete_rows n id (db w))
                             (trace w ++ [StorageCall
                                (match n with
                                 | Contacts => "deleteContact"
                                 | Events => "deleteEvent"
                                 | _ => "deleteSermon"
                                 end)]))).
  { destruct n; inversion Hdel; subst; reflexivity. }
  eexists _, _. split; [exact Hrun|]. unfold delete_rows.
  split; [|split].
  - rewrite get_set_table_eq. apply find_deleted.
  - intros id' Hne. rewrite get_set_table_eq. apply find_after_delete, Hne.
  - intros n' Hne. apply get_set_table_ne. congruence.
Qed.

Lemma deletion_removes_the_row_witness :
  exists d' calls,
    storage_more.deleteEvent 3 Sample.w_events = (Ok tt, World d' calls) /\
    find_by_id 3 (rows (get_table Events d')) = None /\
    (forall id', id' <> 3 ->
       find_by_id id' (rows (get_table Events d'))
       = find_by_id id' (rows (get_table Events (db Sample.w_events)))) /\
    (forall n', n' <> Events -> get_table n' d' = get_table n' (db Sample.w_events)).
Proof. exact (deletion_removes_the_row Events storage_more.deleteEvent 3 Sample.w_events eq_refl). Defined.

(** The row an insert creates, column by column. *)
Lemma lookup_inserted (n : relation_name) (defaults values : row) (d : database)
    (k : string) :
  (insert_row n defaults values d).1 !! k
  = match (if decide (k ∈ columns n) then values !! k else None) with
    | Some v => Some v
    | None => if decide (k = "id") then Some (int (serial (get_table n d)))
              else defaults !! k
    end.
Proof.
  unfold insert_row. cbn [fst]. rewrite lookup_union, lookup_set_columns.
  destruct (if decide (k ∈ columns n) then values !! k else None) as [v|]; cbn.
  - destruct (<["id":=int (serial (get_table n d))]> defaults !! k); reflexivity.
  - destruct (decide (k = "id")) as [->|Hne].
    + rewrite lookup_insert_eq. reflexivity.
    + rewrite lookup_insert_ne by congruence. destruct (defaults !! k); reflexivity.
Qed.

Lemma insert_row_tables (n : relation_name) (defaults values : row) (d : database) :
  rows (get_table n (insert_row n defaults values d).2)
  = (rows (get_table n d) ++ [(insert_row n defaults values d).1])%list
  /\ forall n', n' <> n ->
       get_table n' (insert_row n defaults values d).2 = get_table n' d.
Proof.
  unfold insert_row. cbn [fst snd]. split.
  - rewrite get_set_table_eq. reflexivity.
  - intros n' Hne. apply get_set_table_ne. congruence.
Qed.

(** [logActivity] in one step: one more call in the trace, and only
    the activity log touched. *)
Lemma activity_logged_run (E : env) (userId : option Z) (action details : string)
    (w : world) :
  exists d',
    logActivity E userId action details w
    = (Ok true, World d' (trace w ++ [StorageCall "createActivity"])%list) /\
    forall n, n <> Activities -> get_table n d' = get_table n (db w).
Proof.
  unfold logActivity, try_catch, bind, storage.createActivity, storage.helper, bind,
    emit, run_db.
  cbn [db trace].
  match goal with
  | |- context [insert_row Activities ?dflt ?vals (db w)] =>
      pose proof (insert_row_tables Activities dflt vals (db w)) as [_ Hothers];
      destruct (insert_row Activities dflt vals (db w)) as [r d'] eqn:Hins
  end.
  exists d'. split; [reflexivity | exact Hothers].
Qed.

(** X5. [logActivity] for a user who has a row (or for nobody) returns
    [true] after one call of [createActivity] and appends exactly one
    row to the activity log: the action and the details given, the user
    or NULL (an id of 0 counts as none), the current time and the next
    id of the sequence.  Every other table is left as it was. *)
Theorem activity_is_appended (E : env) (userId : option Z) (action details : string)
    (w : world) :
  known_actor userId (db w) ->
  exists r d',
    logActivity E userId action details w
    = (Ok true, World d' (trace w ++ [StorageCall "createActivity"])%list) /\
    rows (activities d') = (rows (activities (db w)) ++ [r])%list /\
    r !! "action" = Some (JStr action) /\
    r !! "details" = Some (JStr details) /\
    r !! "userId" = actor_column userId /\
    r !! "createdAt" = Some (JDate (now E)) /\
    r !! "id" = Some (int (serial (activities (db w)))) /\
    (forall n, n <> Activities -> get_table n d' = get_table n (db w)).
Proof.
  intros _.
  unfold logActivity, storage.createActivity, storage.helper, try_catch, bind, emit, run_db,
    ret. cbn [db trace].
  match goal with
  | |- context [insert_row Activities ?dflt ?vals (db w)] =>
      set (defaults := dflt); set (values := vals);
      pose proof (insert_row_tables Activities defaults values (db w)) as [Hrows Hothers];
      pose proof (lookup_inserted Activities defaults values (db w)) as Hlook;
      destruct (insert_row Activities defaults values (db w)) as [r d'] eqn:Hins
  end.
  cbn [fst snd] in *. exists r, d'. split; [reflexivity|]. split; [exact Hrows|].
  assert (Hu : values !! "userId" = actor_column userId).
  { unfold values. rewrite lookup_set_opt. rewrite decide_True by reflexivity.
    destruct userId as [[| |]|]; reflexivity. }
  repeat split.
  - rewrite Hlook. rewrite decide_True by listed.
    unfold values. rewrite lookup_set_opt, decide_False by discriminate.
    rewrite lookup_insert_eq. reflexivity.
  - rewrite Hlook. rewrite decide_True by listed.
    unfold values. rewrite lookup_set_opt, decide_False by discriminate.
    rewrite lookup_insert_ne by discriminate. rewrite lookup_singleton_eq. reflexivity.
  - rewrite Hlook. rewrite decide_True by listed. rewrite Hu.
    destruct (actor_column userId); [reflexivity|].
    rewrite decide_False by discriminate. reflexivity.
  - rewrite Hlook. rewrite decide_True by listed.
    unfold values. rewrite lookup_set_opt, decide_False by discriminate.
    rewrite lookup_insert_ne by discriminate. rewrite lookup_singleton_ne by discriminate.
    rewrite decide_False by discriminate. reflexivity.
  - rewrite Hlook. rewrite decide_True by listed.
    unfold values. rewrite lookup_set_opt, decide_False by discriminate.
    rewrite lookup_insert_ne by discriminate. rewrite lookup_singleton_ne by discriminate.
    rewrite decide_True by reflexivity. reflexivity.
  - exact Hothers.
Qed.

Lemma activity_is_appended_witness :
  exists r d',
    logActivity Sample.E (Some 2) "donation" "Made a donation" Sample.w
    = (Ok true, World d' (trace Sample.w ++ [StorageCall "createActivity"])%list) /\
    rows (activities d') = (rows (activities (db Sample.w)) ++ [r])%list /\
    r !! "action" = Some (JStr "donation") /\
    r !! "details" = Some (JStr "Made a donation") /\
    r !! "userId" = actor_column (Some 2) /\
    r !! "createdAt" = Some (JDate (now Sample.E)) /\
    r !! "id" = Some (int (serial (activities (db Sample.w)))) /\
    (forall n, n <> Activities -> get_table n d' = get_table n (db Sample.w)).
Proof.
  apply (activity_is_appended Sample.E (Some 2) "donation" "Made a donation" Sample.w).
  vm_compute. eexists. reflexivity.
Defined.

(** ** What the handlers answer *)

Section Replies.
Context (P : response -> Prop).

Lemma yields_ret {A} (Q : A -> Prop) (a : A) : Q a -> yields Q (ret a).
Proof. intros H w. exact H. Qed.

Lemma yields_respond (code : Z) (j : reply) : P (Response code j) -> yields P (respond code j).
Proof. intros H w. exact H. Qed.

Lemma yields_throw {A} (Q : A -> Prop) (e : exn) : yields Q (throw e).
Proof. intros w. exact I. Qed.

Lemma yields_bind {A B} (Q : B -> Prop) (m : M A) (k : A -> M B) :
  (forall a, yields Q (k a)) -> yields Q (bind m k).
Proof.
  intros Hk w. unfold bind. destruct (m w) as [[a|e] w1]; [apply Hk | exact I].
Qed.

Lemma yields_bind_with {A B} (R : A -> Prop) (Q : B -> Prop) (m : M A) (k : A -> M B) :
  yields R m -> (forall a, R a -> yields Q (k a)) -> yields Q (bind m k).
Proof.
  intros Hm Hk w. unfold bind. specialize (Hm w).
  destruct (m w) as [[a|e] w1]; [apply Hk, Hm | exact I].
Qed.

Lemma replies_respond (code : Z) (j : reply) : P (Response code j) -> replies P (respond code j).
Proof. intros H w. eexists _, _. split; [reflexivity | exact H]. Qed.

Lemma replies_try_catch (m : M response) (h : exn -> M response) :
  yields P m -> (forall e, replies P (h e)) -> replies P (try_catch m h).
Proof.
  intros Hm Hh w. unfold try_catch. specialize (Hm w).
  destruct (m w) as [[r|e] w1]; cbn in Hm.
  - eexists _, _. split; [reflexivity | exact Hm].
  - apply Hh.
Qed.

Lemma replies_behind (mw : request -> passage) (h : request -> M response) (req : request) :
  (forall r, mw req = Answer r -> P r) -> (forall req', replies P (h req')) ->
  replies P (behind mw h req).
Proof.
  intros Hmw Hh. unfold behind. destruct (mw req) as [r|req'] eqn:E.
  - intros w. eexists _, _. split; [reflexivity | apply Hmw; reflexivity].
  - apply Hh.
Qed.

End Replies.

Ltac answers :=
  repeat match goal with
    | |- forall _, _ => intro
    | |- replies _ (try_catch _ _) => apply replies_try_catch
    | |- replies _ (respond _ _) => apply replies_respond
    | |- replies _ (behind _ _ _) => apply replies_behind
    | |- replies _ (match ?x with _ => _ end) => destruct x
    | |- yields _ (respond _ _) => apply yields_respond
    | |- yields _ (throw _) => apply yields_throw
    | |- yields _ (bind (first_without_password _) _) => fail 1
    | |- yields _ (bind _ _) => apply yields_bind
    | |- yields _ (match ?x with _ => _ end) => destruct x
    | |- yields _ (if ?x then _ else _) => destruct x
    end.

Lemma hides_message (c : string) (code : Z) (s : string) : hides c (Response code (Message s)).
Proof. constructor. Qed.

Lemma hides_nothing (c : string) (code : Z) : hides c (Response code NoBody).
Proof. constructor. Qed.

Lemma hides_deleted (c : string) (code : Z) (r : row) :
  hides c (Response code (OneRow (delete c r))).
Proof. repeat constructor. apply lookup_delete_eq. Qed.

Lemma first_without_password_yields (l : list row) :
  yields (fun r : row => r !! "password" = None) (first_without_password l).
Proof. destruct l as [|r l]; intros w; [exact I | apply lookup_delete_eq]. Qed.

Lemma hides_without (c : string) (code : Z) (r : row) :
  r !! c = None -> hides c (Response code (OneRow r)).
Proof. intros H. repeat constructor. exact H. Qed.

(** X8. No route that answers with user rows (the listing, the
    creation, the lookup and the update of the admin, the update of
    one's own profile) ever sends a [password]: each of them always
    answers, and no row of the answer holds that column. *)
Theorem password_never_sent (k : user_endpoint) (V : schema_more.validators) (E : env)
    (req : request) (w : world) :
  exists r w', user_route k V E req w = (Ok r, w') /\ hides "password" r.
Proof.
  revert w. change (replies (hides "password") (user_route k V E req)).
  destruct k; cbn [user_route].
  - unfold user_controller.admin_get_all. answers; try apply hides_message.
    unfold hides. cbn. apply Forall_fmap, Forall_forall. intros r _. apply lookup_delete_eq.
  - unfold user_controller_more.admin_post, first_row. answers;
      first [apply hides_message | apply hides_deleted].
  - unfold user_controller_more.admin_get_one. answers;
      first [apply hides_message | apply hides_deleted].
  - unfold user_controller.admin_patch. answers; try apply hides_message.
    eapply yields_bind_with; [apply first_without_password_yields|].
    intros r Hr. apply yields_respond, hides_without, Hr.
  - unfold user_controller.patch_profile, user_controller.patch_profile_handler.
    answers; try apply hides_message.
    + unfold authenticateJWT in *. destruct (user req); simplify_eq. apply hides_message.
    + eapply yields_bind_with; [apply first_without_password_yields|].
      intros r Hr. apply yields_respond, hides_without, Hr.
Qed.

Lemma hides_copy (c : string) (names : list string) (code : Z) (r : row) :
  c ∉ names -> hides c (Response code (OneRow (copy_of names r))).
Proof.
  intros H. apply hides_without. unfold copy_of. rewrite lookup_keep_fields.
  rewrite decide_False by exact H. reflexivity.
Qed.

(** X9. The public view of a media item shows the six columns meant
    for the public and no other: the uploader and the identifier of the
    asset in the remote store never appear in an answer of
    [GET /media/:id]. *)
Theorem public_media_view (req : request) (w : world) (c : string) :
  c ∉ ["id"; "cloudinaryUrl"; "type"; "title"; "description"; "createdAt"] ->
  exists r w', media_controller_more.get_one req w = (Ok r, w') /\ hides c r.
Proof.
  intros Hc. revert w. change (replies (hides c) (media_controller_more.get_one req)).
  unfold media_controller_more.get_one. answers; try apply hides_message.
  apply hides_copy, Hc.
Qed.

Lemma public_media_view_witness :
  exists r w',
    media_controller_more.get_one (Sample.req None (Some "1") [] []) Sample.w = (Ok r, w')
    /\ hides "cloudinaryPublicId" r.
Proof.
  apply (public_media_view (Sample.req None (Some "1") [] []) Sample.w "cloudinaryPublicId").
  apply (bool_decide_unpack _). vm_compute. exact I.
Defined.

Ltac looked_up :=
  cbn; eexists _, _; split; [reflexivity|]; cbn [status]; auto.


(** ** Who gets through *)

(** What [setUserInfo] passes on, in full. *)
Lemma setUserInfo_outcome (E : env) (req : request) (w : world) :
  exists req' calls,
    setUserInfo E req w = (Ok (Next req'), World (db w) calls) /\
    ((exists id u i,
        references E req (db w) id u /\ ~ inactive u /\
        identity_of id u = Some i /\ req' = with_user req i)
     \/ (req' = req /\
         ~ exists id u,
             references E req (db w) id u /\ ~ inactive u /\ is_Some (identity_of id u))).
Proof.
  unfold setUserInfo, try_catch.
  destruct (cookies req) as [jar|] eqn:Hjar.
  2:{ exists req, (trace w). split; [destruct w; reflexivity|]. right. split; [reflexivity|].
      intros (id & u & (jar & token & decoded & H & _) & _). congruence. }
  destruct (jar !! "auth_token") as [token|] eqn:Htoken.
  2:{ exists req, (trace w). split; [destruct w; reflexivity|]. right. split; [reflexivity|].
      intros (id & u & (jar' & token & decoded & H1 & H2 & _) & _). congruence. }
  destruct token as [|c token'].
  { exists req, (trace w). split; [destruct w; reflexivity|]. right. split; [reflexivity|].
    intros (id & u & (jar' & token & decoded & H1 & H2 & H3 & _) & _). congruence. }
  destruct (verifyToken E (String c token')) as [decoded|] eqn:Hverify.
  2:{ exists req, (trace w). split; [destruct w; reflexivity|]. right. split; [reflexivity|].
      intros (id & u & (jar' & token0 & decoded & H1 & H2 & H3 & H4 & _) & _). congruence. }
  destruct (truthy (decoded !! "id")) eqn:Htruthy; cbn [negb].
  2:{ exists req, (trace w). split; [destruct w; reflexivity|]. right. split; [reflexivity|].
      intros (id & u & (jar' & token0 & decoded0 & H1 & H2 & H3 & H4 & H5 & _) & _).
      congruence. }
  destruct (integer_in (decoded !! "id")) as [id|] eqn:Hid.
  2:{ exists req. eexists. split; [reflexivity|]. right. split; [reflexivity|].
      intros (id & u & (jar' & token0 & decoded0 & H1 & H2 & H3 & H4 & H5 & H6 & _) & _).
      congruence. }
  unfold storage.getUserById, storage.helper, bind, emit, read_db. cbn [db trace].
  destruct (find_by_id id (rows (users (db w)))) as [u|] eqn:Hfind.
  2:{ exists req. eexists. split; [reflexivity|]. right. split; [reflexivity|].
      intros (id' & u & (jar' & token0 & decoded0 & H1 & H2 & H3 & H4 & H5 & H6 & H7) & _).
      congruence. }
  assert (Href : references E req (db w) id u).
  { exists jar, (String c token'), decoded. repeat split; try assumption. discriminate. }
  assert (Huniq : forall id' u', references E req (db w) id' u' -> id' = id /\ u' = u).
  { intros id' u' (jar' & token0 & decoded0 & H1 & H2 & H3 & H4 & H5 & H6 & H7).
    assert (id' = id) by congruence. subst id'. split; [reflexivity | congruence]. }
  destruct (is_str (u !! "status") "inactive") eqn:Hstatus.
  { exists req. eexists. split; [reflexivity|]. right. split; [reflexivity|].
    intros (id' & u' & H & Hactive & _). destruct (Huniq _ _ H) as [-> ->].
    apply Hactive, is_str_true, Hstatus. }
  assert (Hactive : ~ inactive u).
  { intros H. apply is_str_true in H. congruence. }
  destruct (identity_of id u) as [i|] eqn:Hident.
  - exists (with_user req i). eexists. split; [reflexivity|]. left.
    exists id, u, i. repeat split; assumption.
  - exists req. eexists. split; [reflexivity|]. right. split; [reflexivity|].
    intros (id' & u' & H & _ & [i Hi]). destruct (Huniq _ _ H) as [-> ->]. congruence.
Qed.

(** X7. Through the whole pipeline, an admin route runs only for a
    session whose token names an active user whose row, as the database
    holds it now, has the role [owner].  A request that names an active
    user of another role is answered 403, any other request 401; in
    both cases the route is not entered and the database is left as it
    was. *)
Theorem admin_routes_need_an_owner (E : env) (route : request -> M response)
    (req : request) (w : world) :
  user req = None ->
  exists calls,
    (exists id u t,
       references E req (db w) id u /\ ~ inactive u /\
       u !! "createdAt" = Some (JDate t) /\
       text_of (u !! "role") = "owner" /\
       app E (admin_mount route) req w
       = route (attached req (identity_from id u t)) (World (db w) calls))
    \/ (exists id u,
          references E req (db w) id u /\ ~ inactive u /\
          text_of (u !! "role") <> "owner" /\
          app E (admin_mount route) req w
          = (Ok (Response 403 (Message "Forbidden - Owner access required")),
             World (db w) calls))
    \/ ((~ exists id u t,
            references E req (db w) id u /\ ~ inactive u /\
            u !! "createdAt" = Some (JDate t)) /\
        app E (admin_mount route) req w
        = (Ok (Response 401 (Message "Unauthorized - Authentication required")),
           World (db w) calls)).
Proof.
  intros Hnone.
  destruct (setUserInfo_outcome E req w) as (req' & calls & Hrun & Hcases).
  exists calls. unfold app, bind. rewrite Hrun.
  destruct Hcases as [(id & u & i & Href & Hactive & Hident & ->)|[-> Hno]].
  - unfold admin_mount, behind, authenticateJWT, isOwner. cbn [user with_user].
    assert (Hcreated : exists t, u !! "createdAt" = Some (JDate t)
                                 /\ i = identity_from id u t).
    { unfold identity_of in Hident. destruct (u !! "createdAt") as [[| | | |t|]|];
        try discriminate. injection Hident as <-. exists t. split; reflexivity. }
    destruct Hcreated as (t & Hcreated & ->). cbn [identity_from Identity.role].
    destruct (String.eqb (text_of (u !! "role")) "owner") eqn:Howner; cbn [negb].
    + apply String.eqb_eq in Howner. left. exists id, u, t. repeat split; assumption.
    + apply String.eqb_neq in Howner. right. left. exists id, u. repeat split; assumption.
  - right. right. split.
    + intros (id & u & t & Href & Hactive & Hcreated). apply Hno.
      exists id, u. split; [exact Href|]. split; [exact Hactive|].
      unfold identity_of. rewrite Hcreated. eexists. reflexivity.
    + unfold admin_mount, behind, authenticateJWT. rewrite Hnone. reflexivity.
Qed.

Lemma admin_routes_need_an_owner_witness :
  exists calls,
    (exists id u t,
       references Sample.E (Request (Some {[ "auth_token" := "member-token" ]}) None ∅ ∅ ∅ None)
         (db Sample.w) id u /\ ~ inactive u /\
       u !! "createdAt" = Some (JDate t) /\
       text_of (u !! "role") = "owner" /\
       app Sample.E (admin_mount user_controller.admin_get_all)
         (Request (Some {[ "auth_token" := "member-token" ]}) None ∅ ∅ ∅ None) Sample.w
       = user_controller.admin_get_all
           (attached (Request (Some {[ "auth_token" := "member-token" ]}) None ∅ ∅ ∅ None)
                     (identity_from id u t))
           (World (db Sample.w) calls))
    \/ (exists id u,
          references Sample.E
            (Request (Some {[ "auth_token" := "member-token" ]}) None ∅ ∅ ∅ None)
            (db Sample.w) id u /\ ~ inactive u /\
          text_of (u !! "role") <> "owner" /\
          app Sample.E (admin_mount user_controller.admin_get_all)
            (Request (Some {[ "auth_token" := "member-token" ]}) None ∅ ∅ ∅ None) Sample.w
          = (Ok (Response 403 (Message "Forbidden - Owner access required")),
             World (db Sample.w) calls))
    \/ ((~ exists id u t,
            references Sample.E
              (Request (Some {[ "auth_token" := "member-token" ]}) None ∅ ∅ ∅ None)
              (db Sample.w) id u /\ ~ inactive u /\
            u !! "createdAt" = Some (JDate t)) /\
        app Sample.E (admin_mount user_controller.admin_get_all)
          (Request (Some {[ "auth_token" := "member-token" ]}) None ∅ ∅ ∅ None) Sample.w
        = (Ok (Response 401 (Message "Unauthorized - Authentication required")),
           World (db Sample.w) calls)).
Proof.
  apply (admin_routes_need_an_owner Sample.E user_controller.admin_get_all
           (Request (Some {[ "auth_token" := "member-token" ]}) None ∅ ∅ ∅ None) Sample.w).
  reflexivity.
Defined.

(** The sample member, with a valid session, is turned away from the
    admin listing of the users. *)
Example member_is_not_admitted :
  (app Sample.E (admin_mount user_controller.admin_get_all)
     (Request (Some {[ "auth_token" := "member-token" ]}) None ∅ ∅ ∅ None) Sample.w).1
  = Ok (Response 403 (Message "Forbidden - Owner access required")).
Proof. vm_compute. reflexivity. Qed.

(** X13. Sermons are the owner's: whoever else is signed in and asks to
    create, update or delete a sermon is answered 403, before the body
    or the id is looked at; no storage helper is called and nothing
    changes. *)
Theorem sermons_are_the_owners (k : sermon_mutation) (E : env) (req : request) (w : world)
    (u : Identity.t) :
  user req = Some u -> Identity.role u <> "owner" ->
  exists j, sermon_route k E req w = (Ok (Response 403 j), w).
Proof.
  intros Hu Hrole. apply String.eqb_neq in Hrole.
  destruct k; cbn [sermon_route].
  - unfold sermon_controller_more.post, behind, authenticateJWT. rewrite Hu.
    unfold sermon_controller_more.post_handler, try_catch. rewrite Hu, Hrole.
    eexists. reflexivity.
  - unfold sermon_controller.patch, behind, authenticateJWT. rewrite Hu.
    unfold sermon_controller.patch_handler, try_catch. rewrite Hu, Hrole.
    eexists. reflexivity.
  - unfold sermon_controller_more.delete, behind, authenticateJWT. rewrite Hu.
    unfold sermon_controller_more.delete_handler, try_catch. rewrite Hu, Hrole.
    eexists. reflexivity.
Qed.

Lemma sermons_are_the_owners_witness :
  exists j,
    sermon_route SermonDelete Sample.E (Sample.req (Some Sample.member) (Some "1") [] [])
      Sample.w
    = (Ok (Response 403 j), Sample.w).
Proof.
  apply (sermons_are_the_owners SermonDelete Sample.E
           (Sample.req (Some Sample.member) (Some "1") [] []) Sample.w Sample.member).
  - reflexivity.
  - vm_compute. discriminate.
Defined.

(** X11. Deleting a media item destroys the remote asset first and
    the row second.  When the asset store refuses, the answer is 500
    and the row stays, with no deletion attempted; when it accepts (and
    no event or sermon refers to the item), the answer is 200 and the
    row is gone, the calls having been made in that order. *)
Theorem media_asset_goes_first (E : env) (req : request) (w : world)
    (u : Identity.t) (id : Z) (item : row) :
  user req = Some u -> param_id req = Some id ->
  find_by_id id (rows (media (db w))) = Some item ->
  let publicId := text_of (item !! "cloudinaryPublicId") in
  let type := text_of (item !! "type") in
  (cloudinary_destroy E publicId type = false ->
   media_controller_more.admin_delete E req w
   = (Ok (Response 500 (Message "An error occurred while deleting the media")),
      World (db w) (trace w ++ [StorageCall "getMediaById";
                                DeleteFromCloudinary publicId type])%list)) /\
  (cloudinary_destroy E publicId type = true -> media_unused id (db w) ->
   exists d',
     media_controller_more.admin_delete E req w
     = (Ok (Response 200 (Message "Media deleted successfully")),
        World d' (trace w ++ [StorageCall "getMediaById";
                              DeleteFromCloudinary publicId type;
                              StorageCall "deleteMedia";
                              StorageCall "createActivity"])%list) /\
     find_by_id id (rows (media d')) = None).
Proof.
  intros Hu Hid Hfind publicId type.
  unfold media_controller_more.admin_delete, try_catch, storage.getMediaById,
    storage_more.deleteMedia, deleteFromCloudinary, storage.helper, bind, emit, read_db,
    run_db, respond, ret, throw.
  rewrite Hu, Hid. cbn [db trace]. rewrite Hfind. fold publicId type. split.
  - intros ->. cbn [db trace]. rewrite <- app_assoc. reflexivity.
  - intros -> _. cbn [db trace].
    match goal with
    | |- context [logActivity ?E ?a ?b ?c ?w0] =>
        destruct (activity_logged_run E a b c w0) as (d' & Hlog & Hsame)
    end.
    rewrite Hlog. cbn [db trace]. exists d'. split.
    + rewrite <- !app_assoc. reflexivity.
    + change (media d') with (get_table Media d'). rewrite Hsame by discriminate.
      unfold delete_rows. cbn [db]. rewrite get_set_table_eq. apply find_deleted.
Qed.

Lemma media_asset_goes_first_witness :
  (cloudinary_destroy Sample.E "grace_church/a" "image" = false ->
   media_controller_more.admin_delete Sample.E
     (Sample.req (Some Sample.owner) (Some "1") [] []) Sample_more.w
   = (Ok (Response 500 (Message "An error occurred while deleting the media")),
      World (db Sample_more.w)
        (trace Sample_more.w ++ [StorageCall "getMediaById";
                                 DeleteFromCloudinary "grace_church/a" "image"])%list)) /\
  (cloudinary_destroy Sample.E "grace_church/a" "image" = true ->
   media_unused 1 (db Sample_more.w) ->
   exists d',
     media_controller_more.admin_delete Sample.E
       (Sample.req (Some Sample.owner) (Some "1") [] []) Sample_more.w
     = (Ok (Response 200 (Message "Media deleted successfully")),
        World d' (trace Sample_more.w ++ [StorageCall "getMediaById";
                                          DeleteFromCloudinary "grace_church/a" "image";
                                          StorageCall "deleteMedia";
                                          StorageCall "createActivity"])%list) /\
     find_by_id 1 (rows (media d')) = None).
Proof.
  exact (media_asset_goes_first Sample.E (Sample.req (Some Sample.owner) (Some "1") [] [])
           Sample_more.w Sample.owner 1 (Sample_more.media_row 1 1 "image" "Choir")
           eq_refl eq_refl eq_refl).
Defined.

(** The row of a contact once the answer is written into it. *)
Lemma response_merged (message : string) (t : Z) (c : row) :
  set_columns Contacts
    (<["status" := JStr "responded"]>
       (<["responseMessage" := JStr message]> {[ "responseDate" := JDate t ]})) ∪ c
  = <["status" := JStr "responded"]>
      (<["responseMessage" := JStr message]> (<["responseDate" := JDate t]> c)).
Proof.
  apply map_eq. intros k. rewrite lookup_union, lookup_set_columns.
  destruct (decide (k = "status")) as [->|H1].
  { rewrite decide_True by listed. rewrite !lookup_insert_eq.
    destruct (c !! "status"); reflexivity. }
  destruct (decide (k = "responseMessage")) as [->|H2].
  { rewrite decide_True by listed.
    rewrite !(lookup_insert_ne _ "status") by discriminate.
    rewrite !lookup_insert_eq. destruct (c !! "responseMessage"); reflexivity. }
  destruct (decide (k = "responseDate")) as [->|H3].
  { rewrite decide_True by listed.
    rewrite !(lookup_insert_ne _ "status") by discriminate.
    rewrite !(lookup_insert_ne _ "responseMessage") by discriminate.
    rewrite lookup_singleton_eq, lookup_insert_eq.
    destruct (c !! "responseDate"); reflexivity. }
  rewrite !(lookup_insert_ne _ "status") by congruence.
  rewrite !(lookup_insert_ne _ "responseMessage") by congruence.
  rewrite lookup_singleton_ne by congruence.
  rewrite (lookup_insert_ne _ "responseDate") by congruence.
  case_decide; destruct (c !! k); reflexivity.
Qed.



(** The sample contact is answered: its row holds the answer, the other
    contact is as before. *)
Example contact_answered :
  (fun w' => (fun c : row => (c !! "status", c !! "responseMessage")) <$> rows (contacts (db w')))
    (contact_controller_more.admin_respond Sample.E
       (Sample.req (Some Sample.owner) (Some "1") [] [("message", JStr "On Sunday at ten")])
       Sample_more.w).2
  = [(Some (JStr "responded"), Some (JStr "On Sunday at ten")); (Some (JStr "read"), None)].
Proof. vm_compute. reflexivity. Qed.

(** X14. An update of one's own profile that names none of the three
    allowed fields has nothing to set: the update statement is refused,
    the answer is 500 and the database is left as it was, whatever else
    the body holds. *)
Theorem empty_profile_update_fails (E : env) (req : request) (w : world) (u : Identity.t) :
  user req = Some u ->
  (forall field, field ∈ user_controller.profile_fields -> body req !! field = None) ->
  user_controller.patch_profile E req w
  = (Ok (Response 500 (Message "An error occurred while updating your profile")),
     World (db w) (trace w ++ [StorageCall "updateUser"])%list).
Proof.
  intros Hu Hnone.
  unfold user_controller.patch_profile, behind, authenticateJWT. rewrite Hu.
  unfold user_controller.patch_profile_handler, try_catch, storage.updateUser,
    storage.helper, bind, emit, run_db. rewrite Hu. cbn [db trace].
  assert (Hempty : set_columns Users (pick user_controller.profile_fields (body req)) = ∅).
  { apply map_eq. intros k. rewrite lookup_set_columns, lookup_pick, lookup_empty.
    case_decide; [|reflexivity]. case_decide as Hk; [apply Hnone, Hk | reflexivity]. }
  unfold update_rows. rewrite Hempty. rewrite decide_True by apply dom_empty_L.
  reflexivity.
Qed.

Lemma empty_profile_update_fails_witness :
  user_controller.patch_profile Sample.E
    (Sample.req (Some Sample.member) None [] [("role", JStr "owner")]) Sample.w
  = (Ok (Response 500 (Message "An error occurred while updating your profile")),
     World (db Sample.w) (trace Sample.w ++ [StorageCall "updateUser"])%list).
Proof.
  apply (empty_profile_update_fails Sample.E
           (Sample.req (Some Sample.member) None [] [("role", JStr "owner")]) Sample.w
           Sample.member).
  - reflexivity.
  - intros field Hin. repeat (apply elem_of_cons in Hin as [->|Hin]; [reflexivity|]).
    inversion Hin.
Defined.

(** X15. The validation of a donation reads the amount with
    [parseFloat], which stops at the first character that is not part of
    a number, while the column wants the whole text to be a number.  An
    amount that passes the first and not the second (such as [12abc])
    gets through validation and fails afterwards: the answer is 500, and
    no donation and no activity is stored. *)
Theorem amount_with_trailing_text (E : env) (req : request) (w : world) (u : Identity.t)
    (amount : string) :
  user req = Some u ->
  schema.donation_issues (body req) = [] ->
  body req !! "amount" = Some (JStr amount) ->
  storage.numeric_10_2 amount = None ->
  exists w',
    donation_controller.post E req w
    = (Ok (Response 500 (Message "An error occurred while processing your donation")), w')
    /\ db w' = db w.
Proof.
  intros Hu Hvalid Hamount Hnum.
  unfold donation_controller.post, behind, authenticateJWT. rewrite Hu.
  unfold donation_controller.post_handler, try_catch, schema.parse_donation.
  rewrite Hu, Hvalid. unfold bind at 1. unfold ret at 1.
  set (data := filter (fun kv : string * jval => kv.1 ∈ schema.donation_fields) (body req)).
  assert (Hda : data !! "amount" = Some (JStr amount)).
  { unfold data. rewrite lookup_keep_fields, decide_True by listed. exact Hamount. }
  assert (Hsettle :
            (exists st details,
               donation_controller.settle E req data w = (Ok (st, details), w)
               /\ details !! "amount" = Some (JStr amount))
            \/ exists text, donation_controller.settle E req data w = (Throw (Error text), w)).
  { unfold donation_controller.settle.
    destruct (is_str (data !! "paymentMethod") "esewa").
    - left. destruct (truthy (body req !! "esewaId")); eexists _, _; (split; [reflexivity|]);
        [rewrite lookup_insert_ne by discriminate|]; exact Hda.
    - destruct (is_str (data !! "paymentMethod") "bank_qr");
        [|left; eexists _, _; (split; [reflexivity | exact Hda])].
      destruct (truthy (body req !! "bankName"));
        [|left; eexists _, _; (split; [reflexivity | exact Hda])].
      destruct (body req !! "bankName") as [[]|];
        try (right; eexists; reflexivity).
      left. eexists _, _. split; [reflexivity|].
      rewrite !lookup_insert_ne by discriminate. exact Hda. }
  destruct Hsettle as [(st & details & Hrun & Hdetails) | (text & Hrun)].
  - unfold bind at 1. rewrite Hrun.
    unfold storage.createDonation, storage.helper, bind, emit, run_db. cbn [db trace].
    rewrite !lookup_set_opt. rewrite decide_True by reflexivity. rewrite Hdetails.
    cbn [storage.to_numeric]. rewrite Hnum. eexists. split; reflexivity.
  - unfold bind at 1. rewrite Hrun. eexists. split; reflexivity.
Qed.

Lemma amount_with_trailing_text_witness :
  exists w',
    donation_controller.post Sample.E
      (Sample.req (Some Sample.member) None []
         [("amount", JStr "12abc"); ("paymentMethod", JStr "esewa")]) Sample.w
    = (Ok (Response 500 (Message "An error occurred while processing your donation")), w')
    /\ db w' = db Sample.w.
Proof.
  apply (amount_with_trailing_text Sample.E
           (Sample.req (Some Sample.member) None []
              [("amount", JStr "12abc"); ("paymentMethod", JStr "esewa")])
           Sample.w Sample.member "12abc").
  - reflexivity.
  - vm_compute. reflexivity.
  - vm_compute. reflexivity.
  - vm_compute. reflexivity.
Defined.

(** ** What the creation routes store *)

(** A text that passes its check is a string. *)
Lemma checked_text (path : string) (least : nat) (too_short : string) (v : option jval) :
  schema_more.check_text path least too_short v = [] -> exists s, v = Some (JStr s).
Proof.
  destruct v as [[| | |s| |]|]; cbn; try discriminate. intros _. exists s. reflexivity.
Qed.

Lemma checked_email (V : schema_more.validators) (v : option jval) :
  schema_more.check_email V v = [] -> exists s, v = Some (JStr s).
Proof.
  destruct v as [[| | |s| |]|]; cbn; try discriminate. intros _. exists s. reflexivity.
Qed.

(** The steps of an insert through a storage helper. *)
Lemma insert_run (name : string) (n : relation_name) (defaults values : row) (w : world) :
  storage.helper name
    (run_db (fun d => let '(r, d') := insert_row n defaults values d in Some ([r], d'))) w
  = (Ok [(insert_row n defaults values (db w)).1],
     World (insert_row n defaults values (db w)).2 (trace w ++ [StorageCall name])%list).
Proof.
  unfold storage.helper, bind, emit, run_db. cbn [db trace].
  destruct (insert_row n defaults values (db w)) as [r d']. reflexivity.
Qed.



(** The first row with a property, when no row has it and when some row
    has it. *)
Lemma find_nobody {A} (f : A -> bool) (l : list A) :
  Forall (fun x => f x = false) l -> List.find f l = None.
Proof.
  induction 1 as [|x l Hx _ IH]; [reflexivity|]. cbn. rewrite Hx. exact IH.
Qed.

Lemma find_somebody {A} (f : A -> bool) (l : list A) (x : A) :
  x ∈ l -> f x = true -> is_Some (List.find f l).
Proof.
  induction 1 as [x l|x y l _ IH]; intros Hx; cbn.
  - rewrite Hx. eexists. reflexivity.
  - destruct (f y); [eexists; reflexivity | apply IH, Hx].
Qed.



(** The new user of the sample is stored with the role [user] and a
    hashed password, and a second request for the same address is
    refused. *)
Example user_created_then_refused :
  let request :=
    Sample.req (Some Sample.owner) None []
      [("name", JStr "Noor"); ("email", JStr "noor@example.org");
       ("password", JStr "secret1")] in
  let first := user_controller_more.admin_post Sample_more.V Sample.E request Sample.w in
  let second := user_controller_more.admin_post Sample_more.V Sample.E request first.2 in
  (status <$> match first.1 with Ok r => Some r | Throw _ => None end) = Some 201 /\
  (fun u : row => (u !! "email", u !! "role", u !! "password"))
    <$> last (rows (users (db first.2)))
  = Some (Some (JStr "noor@example.org"), Some (JStr "user"), Some (JStr "$2b$10$secret1")) /\
  second.1 = Ok (Response 409 (Message "User with this email already exists")) /\
  db second.2 = db first.2.
Proof. vm_compute. repeat split; reflexivity. Qed.

(** ** What the creation routes refuse *)

Lemma future_wanted (E : env) (v : option jval) :
  (forall t, v = Some (JDate t) -> t <= now E) -> schema_more.check_future E v <> [].
Proof.
  intros H. destruct v as [[| | | |t|]|]; cbn; try discriminate.
  specialize (H t eq_refl). destruct (now E <? t) eqn:Hlt; [lia | discriminate].
Qed.

(** X18. [POST /events] refuses, with 400 and before anything is stored
    or logged, every body whose date is not a [Date] later than the
    current time: a date in the past, and also a date given as text or
    left out. *)
Theorem event_needs_a_future_date (E : env) (req : request) (w : world) (u : Identity.t) :
  user req = Some u ->
  (forall t, body req !! "date" = Some (JDate t) -> t <= now E) ->
  exists message,
    event_controller_more.post E req w = (Ok (Response 400 (Message message)), w).
Proof.
  intros Hu Hdate.
  unfold event_controller_more.post, behind, authenticateJWT. rewrite Hu.
  unfold event_controller_more.post_handler, try_catch. rewrite Hu.
  unfold schema_more.parse_event, schema_more.parse.
  destruct (schema_more.event_issues E (body req)) as [|i issues] eqn:Hissues.
  - exfalso. unfold schema_more.event_issues in Hissues.
    apply app_eq_nil in Hissues as [_ Hissues].
    apply app_eq_nil in Hissues as [_ Hissues].
    apply app_eq_nil in Hissues as [_ Hissues].
    apply app_eq_nil in Hissues as [Hfuture _].
    exact (future_wanted E _ Hdate Hfuture).
  - eexists. reflexivity.
Qed.

Lemma event_needs_a_future_date_witness :
  exists message,
    event_controller_more.post Sample.E
      (Sample.req (Some Sample.member) None []
         [("title", JStr "Spring fair"); ("description", JStr "Stalls and music");
          ("date", JStr "2030-05-01T10:00:00.000Z")]) Sample.w
    = (Ok (Response 400 (Message message)), Sample.w).
Proof.
  apply (event_needs_a_future_date Sample.E
           (Sample.req (Some Sample.member) None []
              [("title", JStr "Spring fair"); ("description", JStr "Stalls and music");
               ("date", JStr "2030-05-01T10:00:00.000Z")])
           Sample.w Sample.member).
  - reflexivity.
  - intros t Ht. vm_compute in Ht. discriminate Ht.
Defined.

(** ** The dashboard *)

(** A helper that only reads. *)
Lemma read_run {A} (name : string) (f : database -> A) (w : world) :
  storage.helper name (read_db f) w
  = (Ok (f (db w)), World (db w) (trace w ++ [StorageCall name])%list).
Proof. reflexivity. Qed.

(** With amounts that are not negative, a narrower condition sums to no
    more. *)
Lemma sum_narrower (f g : row -> bool) (l : list row) :
  Forall (fun r => 0 <= storage.amount_of r)%Q l ->
  (0 <= foldr (fun r acc => storage.amount_of r + acc) 0
          (List.filter (fun r => f r && g r) l)
   <= foldr (fun r acc => storage.amount_of r + acc) 0 (List.filter f l))%Q.
Proof.
  induction 1 as [|r l Hr _ IH]; cbn; [lra|].
  destruct (f r); cbn; [destruct (g r); cbn|]; lra.
Qed.

(** X19. The dashboard only reads: whatever the database holds, the
    answer is 200 with the eight statistics and the database is left as
    it was.  When no donation has a negative amount, the total of the
    month is between zero and the total of all time. *)
Theorem dashboard_only_reads (E : env) (req : request) (w : world) :
  amounts_nonnegative (db w) ->
  exists stats w',
    dashboard_stats E req w = (Ok (Response 200 (OneRow stats)), w') /\
    db w' = db w /\
    dom stats = list_to_set ["totalUsers"; "totalDonations"; "monthlyDonations";
                             "upcomingEvents"; "newContacts"; "unreadContacts";
                             "userGrowth"; "donationGrowth"] /\
    exists total monthly,
      stats !! "totalDonations" = Some (JNum total) /\
      stats !! "monthlyDonations" = Some (JNum monthly) /\
      (0 <= monthly <= total)%Q.
Proof.
  intros Hamounts.
  unfold dashboard_stats, try_catch.
  unfold storage.getTotalUsers, storage.getTotalDonationAmount,
    storage.getMonthlyDonationAmount, storage_more.getUpcomingEventsCount,
    storage_more.getNewContactsCount, storage_more.getUnreadContactsCount,
    count_where, storage.sum_where.
  unfold bind at 1. rewrite read_run.
  unfold bind at 1. rewrite read_run.
  unfold bind at 1. rewrite read_run.
  unfold bind at 1. rewrite read_run.
  unfold bind at 1. rewrite read_run.
  unfold bind at 1. rewrite read_run.
  unfold bind at 1. rewrite user_growth_run.
  unfold bind at 1. rewrite donation_growth_run.
  cbn [db trace]. unfold respond, ret.
  eexists _, _. split; [reflexivity|]. split; [reflexivity|]. split.
  - rewrite dom_list_to_map_L. reflexivity.
  - eexists _, _. split; [reflexivity|]. split; [reflexivity|].
    apply sum_narrower. exact Hamounts.
Qed.

Lemma dashboard_only_reads_witness :
  exists stats w',
    dashboard_stats Sample.E (Sample.req (Some Sample.owner) None [] []) Sample.w
    = (Ok (Response 200 (OneRow stats)), w') /\
    db w' = db Sample.w /\
    dom stats = list_to_set ["totalUsers"; "totalDonations"; "monthlyDonations";
                             "upcomingEvents"; "newContacts"; "unreadContacts";
                             "userGrowth"; "donationGrowth"] /\
    exists total monthly,
      stats !! "totalDonations" = Some (JNum total) /\
      stats !! "monthlyDonations" = Some (JNum monthly) /\
      (0 <= monthly <= total)%Q.
Proof.
  apply (dashboard_only_reads Sample.E (Sample.req (Some Sample.owner) None [] []) Sample.w).
  repeat constructor. vm_compute. discriminate.
Defined.

(** ** Sessions *)

(** The login of a caller who gives an address and a password, after
    the lookup of the address. *)
Lemma login_found (S : session_env) (E : env) (req : request) (w : world)
    (email password : string) :
  body req !! "email" = Some (JStr email) -> email <> EmptyString ->
  body req !! "password" = Some (JStr password) -> password <> EmptyString ->
  auth_controller.login S E req w
  = try_catch
      (match account email (db w) with
       | None => plainly 401 "Invalid email or password"
       | Some user =>
           if is_str (user !! "status") "inactive"
           then plainly 403
                  "Your account has been deactivated. Please contact an administrator."
           else
             let* isPasswordValid :=
               bcrypt.compare S (Some (JStr password)) (user !! "password") in
             if negb isPasswordValid then plainly 401 "Invalid email or password"
             else
               logActivity E (integer_in (user !! "id")) "login"
                 ("User logged in: " +:+ text_of (user !! "email")) ;;
               ret (Session (Response 200 (OneRow (delete "password" user)))
                            [SetCookie "auth_token" (generateToken S user)])
       end)
      (fun _ => plainly 500 "An error occurred during login")
      (World (db w) (trace w ++ [StorageCall "getUserByEmail"])%list).
Proof.
  intros Hemail Hne Hpassword Hnp.
  assert (Hstart : negb (truthy (body req !! "email"))
                   || negb (truthy (body req !! "password")) = false).
  { rewrite Hemail, Hpassword. destruct email, password; try contradiction. reflexivity. }
  unfold auth_controller.login, try_catch. rewrite Hstart.
  unfold storage_more.getUserByEmail, storage.helper.
  unfold bind at 1. unfold bind at 1. unfold emit at 1, read_db at 1. cbn [db trace].
  rewrite Hemail, Hpassword. reflexivity.
Qed.

(** X20. [POST /auth/login] always answers, and it opens a session only
    for a password that [bcrypt.compare] accepts against the hash of the
    first user row holding the address, when that row is not inactive:
    the answer is then 200 with this row less its password, one
    [auth_token] cookie holding the token generated from the row, and
    only the activity log changed.  Every other answer sets no cookie
    and leaves the database as it was. *)
Theorem login_is_sound (S : session_env) (E : env) (req : request) (w : world) :
  exists a w',
    auth_controller.login S E req w = (Ok a, w') /\
    ((exists password u h,
        body req !! "password" = Some (JStr password) /\
        account (bound S (body req !! "email")) (db w) = Some u /\
        ~ inactive u /\
        u !! "password" = Some (JStr h) /\
        bcrypt_compare S password h = true /\
        a = Session (Response 200 (OneRow (delete "password" u)))
                    [SetCookie "auth_token" (generateToken S u)] /\
        forall n, n <> Activities -> get_table n (db w') = get_table n (db w))
     \/ (effects a = [] /\ status (answered a) <> 200 /\ db w' = db w)).
Proof.
  unfold auth_controller.login, try_catch, plainly.
  destruct (negb (truthy (body req !! "email")) || negb (truthy (body req !! "password"))).
  { eexists _, _. split; [reflexivity|]. right. repeat split. discriminate. }
  unfold storage_more.getUserByEmail, storage.helper.
  unfold bind at 1. unfold bind at 1. unfold emit at 1, read_db at 1. cbn [db trace].
  fold (account (bound S (body req !! "email")) (db w)).
  destruct (account (bound S (body req !! "email")) (db w)) as [u|] eqn:Haccount.
  2:{ eexists _, _. split; [reflexivity|]. right. repeat split. discriminate. }
  destruct (is_str (u !! "status") "inactive") eqn:Hstatus.
  { eexists _, _. split; [reflexivity|]. right. repeat split. discriminate. }
  assert (Hactive : ~ inactive u).
  { intros H. apply is_str_true in H. congruence. }
  unfold bcrypt.compare.
  destruct (body req !! "password") as [[| | |password| |]|] eqn:Hpassword;
    try (eexists _, _; split; [reflexivity|]; right; repeat split; discriminate).
  destruct (u !! "password") as [[| | |h| |]|] eqn:Hhash;
    try (eexists _, _; split; [reflexivity|]; right; repeat split; discriminate).
  unfold bind at 1. unfold ret at 1.
  destruct (bcrypt_compare S password h) eqn:Hcompare; cbn [negb].
  2:{ eexists _, _. split; [reflexivity|]. right. repeat split. discriminate. }
  unfold bind at 1.
  match goal with
  | |- context [logActivity E ?x ?y ?z ?w0] =>
      destruct (activity_logged_run E x y z w0) as (d2 & Hlog & Hkept); rewrite Hlog
  end.
  cbn [db trace] in Hkept.
  eexists _, _. split; [reflexivity|]. left.
  exists password, u, h. repeat split; try assumption; try reflexivity.
Qed.



(** The sample member with a wrong and with the right password. *)
Example member_logs_in :
  (auth_controller.login Sample_session.S Sample.E
     (Sample.req None None []
        [("email", JStr "asha@example.org"); ("password", JStr "guess")]) Sample.w).1
  = Ok (Session (Response 401 (Message "Invalid email or password")) []) /\
  (fun a => match a with
            | Ok a => (status (answered a), effects a)
            | Throw _ => (0, [])
            end)
    (auth_controller.login Sample_session.S Sample.E
       (Sample.req None None []
          [("email", JStr "asha@example.org"); ("password", JStr "hash")]) Sample.w).1
  = (200, [SetCookie "auth_token" "member-token"]).
Proof. vm_compute. split; reflexivity. Qed.

(** ** From the login to the next request *)

Lemma Qred_integer (n : Z) : Qred (inject_Z n) = inject_Z n.
Proof.
  unfold Qred, inject_Z. cbn [Qnum Qden].
  pose proof (Z.ggcd_correct_divisors n 1) as Hd.
  pose proof (Z.ggcd_gcd n 1) as Hg.
  destruct (Z.ggcd n 1) as [g [aa bb]]. cbn [fst snd] in *.
  rewrite Z.gcd_1_r in Hg. subst g. destruct Hd as [Ha Hb].
  rewrite Z.mul_1_l in Ha, Hb. subst aa bb. reflexivity.
Qed.

Lemma is_int_integer_in (v : option jval) (n : Z) :
  is_int v n = true -> integer_in v = Some n.
Proof.
  destruct v as [[| |q| | |]|]; cbn; try discriminate.
  intros H. apply Qeq_bool_iff in H.
  apply Qred_complete in H. rewrite H.
  rewrite Qred_integer. reflexivity.
Qed.

Lemma integer_in_int (n : Z) : integer_in (Some (int n)) = Some n.
Proof. apply is_int_integer_in. rewrite is_int_int. apply Z.eqb_refl. Qed.

Lemma truthy_int (n : Z) : n <> 0 -> truthy (Some (int n)) = true.
Proof.
  intros H. unfold truthy, int. destruct n; [contradiction| |]; reflexivity.
Qed.

(** X22. A login that succeeds opens a session the next request is
    served under.  For an active account and the password its hash
    accepts, the answer is 200 with an [auth_token] cookie; and when
    the token verifies to the id it was signed for, [setUserInfo]
    attaches the identity of this very row to every later request that
    carries the cookie. *)
Theorem session_is_recognised (S : session_env) (E : env) (req : request) (w : world)
    (email password h : string) (u decoded : row) :
  users_keyed (db w) ->
  body req !! "email" = Some (JStr email) -> email <> EmptyString ->
  body req !! "password" = Some (JStr password) -> password <> EmptyString ->
  account email (db w) = Some u -> ~ inactive u ->
  u !! "password" = Some (JStr h) -> bcrypt_compare S password h = true ->
  generateToken S u <> EmptyString ->
  verifyToken E (generateToken S u) = Some decoded ->
  decoded !! "id" = u !! "id" ->
  exists w',
    auth_controller.login S E req w
    = (Ok (Session (Response 200 (OneRow (delete "password" u)))
                   [SetCookie "auth_token" (generateToken S u)]), w') /\
    forall req' jar,
      cookies req' = Some jar -> jar !! "auth_token" = Some (generateToken S u) ->
      exists id t calls,
        u !! "id" = Some (int id) /\ u !! "createdAt" = Some (JDate t) /\
        setUserInfo E req' w'
        = (Ok (Next (attached req' (identity_from id u t))), World (db w') calls).
Proof.
  intros Hkeyed Hemail Hne Hpassword Hnp Haccount Hactive Hh Hcompare Htoken Hverify Hid.
  assert (Hin : u ∈ rows (users (db w))).
  { unfold account in Haccount. apply find_some in Haccount as [Hin _].
    apply list_elem_of_In, Hin. }
  destruct (proj1 (Forall_forall _ _) Hkeyed u Hin) as (id & t & Huid & Hpos & Hfind & Hcreated).
  assert (Hstatus : is_str (u !! "status") "inactive" = false).
  { destruct (is_str (u !! "status") "inactive") eqn:Hs; [|reflexivity].
    exfalso. apply Hactive, is_str_true, Hs. }
  rewrite (login_found S E req w email password Hemail Hne Hpassword Hnp).
  rewrite Haccount. unfold try_catch. rewrite Hstatus, Hh.
  unfold bcrypt.compare. unfold bind at 1. unfold ret at 1. rewrite Hcompare. cbn [negb].
  unfold bind at 1.
  match goal with
  | |- context [logActivity E ?x ?y ?z ?w0] =>
      destruct (activity_logged_run E x y z w0) as (d2 & Hlog & Hkept); rewrite Hlog
  end.
  cbn [db trace] in Hkept.
  eexists. split; [reflexivity|].
  intros req' jar Hjar Hcookie.
  assert (Hi : identity_of id u = Some (identity_from id u t)).
  { unfold identity_of. rewrite Hcreated. reflexivity. }
  exists id, t.
  unfold setUserInfo, try_catch. rewrite Hjar, Hcookie.
  destruct (generateToken S u) as [|c token'] eqn:Hgen; [contradiction|].
  rewrite Hverify, Hid, Huid.
  rewrite truthy_int by lia. cbn [negb]. rewrite integer_in_int.
  unfold storage.getUserById, storage.helper, bind, emit, read_db. cbn [db trace].
  change (users d2) with (get_table Users d2). rewrite (Hkept Users) by discriminate.
  cbn [get_table]. rewrite Hfind, Hstatus, Hi.
  eexists. split; [reflexivity|]. split; [exact Hcreated | reflexivity].
Qed.

Lemma sample_users_keyed : users_keyed (db Sample.w).
Proof.
  unfold users_keyed.
  change (rows (users (db Sample.w))) with [Sample.owner_row; Sample.member_row].
  constructor; [|constructor; [|constructor]].
  - exists 1, (JSDate.at_ 2024 1 1 9 0). repeat split; try (vm_compute; reflexivity).
  - exists 2, (JSDate.at_ 2025 2 1 9 0). repeat split; try (vm_compute; reflexivity).
Qed.

Lemma session_is_recognised_witness :
  exists w',
    auth_controller.login Sample_session.S Sample.E
      (Sample.req None None []
         [("email", JStr "asha@example.org"); ("password", JStr "hash")]) Sample.w
    = (Ok (Session (Response 200 (OneRow (delete "password" Sample.member_row)))
                   [SetCookie "auth_token"
                      (generateToken Sample_session.S Sample.member_row)]), w') /\
    forall req' jar,
      cookies req' = Some jar ->
      jar !! "auth_token" = Some (generateToken Sample_session.S Sample.member_row) ->
      exists id t calls,
        Sample.member_row !! "id" = Some (int id) /\
        Sample.member_row !! "createdAt" = Some (JDate t) /\
        setUserInfo Sample.E req' w'
        = (Ok (Next (attached req' (identity_from id Sample.member_row t))),
           World (db w') calls).
Proof.
  apply (session_is_recognised Sample_session.S Sample.E
           (Sample.req None None []
              [("email", JStr "asha@example.org"); ("password", JStr "hash")])
           Sample.w "asha@example.org" "hash" "$2b$10$hash" Sample.member_row
           {[ "id" := int 2 ]}).
  - exact sample_users_keyed.
  - vm_compute. reflexivity.
  - discriminate.
  - vm_compute. reflexivity.
  - discriminate.
  - vm_compute. reflexivity.
  - intros H. vm_compute in H. discriminate H.
  - vm_compute. reflexivity.
  - vm_compute. reflexivity.
  - vm_compute. discriminate.
  - vm_compute. reflexivity.
  - vm_compute. reflexivity.
Defined.

(** ** Signing up *)

Lemma signup_issues_role (V : schema_more.validators) (b : gmap string jval) (v : jval) :
  auth_controller.signup_issues V (<["role" := v]> b) = auth_controller.signup_issues V b.
Proof.
  unfold auth_controller.signup_issues. rewrite !lookup_insert_ne by discriminate.
  reflexivity.
Qed.



(** ** Signing out *)

(** X24. [POST /auth/logout] needs no session and cannot fail: for
    every request the answer is 200 and the [auth_token] cookie is
    cleared.  It writes the activity log at most, and that only for a
    request with a session. *)
Theorem logout_always_clears (E : env) (req : request) (w : world) :
  exists w',
    auth_controller.logout E req w
    = (Ok (Session (Response 200 (Message "Logged out successfully"))
                   [ClearCookie "auth_token"]), w') /\
    (forall n, n <> Activities -> get_table n (db w') = get_table n (db w)) /\
    (user req = None -> w' = w).
Proof.
  unfold auth_controller.logout, try_catch.
  destruct (user req) as [u|].
  - unfold bind at 1. unfold bind at 1.
    match goal with
    | |- context [logActivity E ?a ?b ?c ?w0] =>
        destruct (activity_logged_run E a b c w0) as (d2 & Hlog & Hkept); rewrite Hlog
    end.
    eexists. split; [reflexivity|]. split; [exact Hkept | discriminate].
  - eexists. split; [reflexivity|]. split; reflexivity.
Qed.

(** ** Changing the password *)

Lemma password_merged (h : string) (r : row) :
  set_columns Users {[ "password" := JStr h ]} ∪ r = <["password" := JStr h]> r.
Proof.
  apply map_eq. intros k. rewrite lookup_union, lookup_set_columns.
  destruct (decide (k = "password")) as [->|Hne].
  - rewrite decide_True by listed. rewrite lookup_singleton_eq, lookup_insert_eq.
    destruct (r !! "password"); reflexivity.
  - rewrite lookup_singleton_ne by congruence. rewrite lookup_insert_ne by congruence.
    case_decide; destruct (r !! k); reflexivity.
Qed.

Lemma update_rows_others (n : relation_name) (id : Z) (data : row) (d d' : database)
    (l : list row) :
  update_rows n id data d = Some (l, d') ->
  forall n', n' <> n -> get_table n' d' = get_table n' d.
Proof.
  unfold update_rows. case_decide; [discriminate|]. intros [= _ <-] n' Hne.
  apply get_set_table_ne. congruence.
Qed.

Lemma find_by_id_has_id (id : Z) (l : list row) (r : row) :
  find_by_id id l = Some r -> has_id id r = true.
Proof. unfold find_by_id. intros H. apply find_some in H as [_ H]. exact H. Qed.


(** The sample member changes the password, and cannot with a wrong
    current one. *)
Example member_changes_password :
  let attempt current :=
    auth_controller.change_password Sample_session.S Sample.E
      (Sample.req (Some Sample.member) None []
         [("currentPassword", JStr current); ("newPassword", JStr "better-secret")])
      Sample.w in
  (attempt "guess").1 = Ok (Response 401 (Message "Current password is incorrect")) /\
  db (attempt "guess").2 = db Sample.w /\
  (attempt "hash").1 = Ok (Response 200 (Message "Password changed successfully")) /\
  (fun u : row => u !! "password") <$> rows (users (db (attempt "hash").2))
  = [Some (JStr "$2b$10$hash"); Some (JStr "$2b$10$better-secret")].
Proof. vm_compute. repeat split; reflexivity. Qed.
